(** * DrivAer_adjoint: FFD box generation, STL bounds and Plot3D grid files

    A shallow embedding of the grid-generation scripts of the repository

    - [scripts/genXYZ.py]                ([returnBlockPoints], [writeFFDFile])
    - [old_setup/generate_ffd_offset.py] ([is_ascii_stl], [get_stl_bounds],
                                          [generate_ffd_box])
    - [old_setup/convert_bin_to_ascii.py] ([read_binary_stl],
                                          [write_ascii_stl], [convert_stl])
    - [scripts/convert_XYZ_to_VTK.py]    ([readPlot3D])
    - [scripts/xyz_to_openfoam.py]       ([parse_xyz_file])

    together with the properties of these functions.

    Numbers.  A Python [float] is modelled by [pyfloat]: an exact rational
    ([Qc], canonical fractions, so that equality is Leibniz equality), the two
    infinities, or NaN.  Arithmetic on finite values is exact: rounding of
    binary floating point, overflow to infinity and the sign of zero are not
    modelled.  Every binary32 and binary64 value is a rational, so decoding
    a binary STL file is exact in this model.  Where a property depends on
    rounding, the code is embedded a second time over rounded arithmetic
    (module [Rounded]: every operation rounded to 53 significant bits).

    Files.  A file is the list of its bytes ([ascii]); text is a list of
    characters.  Exceptions are values of [pyerr] carried by [result]. *)

From Stdlib Require Import Ascii String.
From Stdlib Require Import ZArith NArith QArith Qcanon Qround Qabs Qpower List Lia Lqa Bool.
Import ListNotations.

Set Implicit Arguments.

(** ** Exceptions *)

Inductive pyerr : Type :=
| ValueError
| IndexError
| StructError
| FileNotFoundError
| UnicodeDecodeError.

Inductive result (A : Type) : Type :=
| Ok (a : A)
| Err (e : pyerr).

Arguments Ok {A} a.
Arguments Err {A} e.

Definition bind {A B : Type} (m : result A) (k : A -> result B) : result B :=
  match m with
  | Ok a => k a
  | Err e => Err e
  end.

Declare Scope py_scope.
Delimit Scope py_scope with py.
Notation "x <- m ;; k" := (bind m (fun x => k))
  (at level 61, m at next level, right associativity) : py_scope.
Notation "' pat <- m ;; k" := (bind m (fun x => match x with pat => k end))
  (at level 61, pat pattern, m at next level, right associativity) : py_scope.
Open Scope py_scope.

(** [for i in l: s = body i s], stopping at the first exception. *)
Fixpoint for_each {I S : Type} (l : list I) (s : S)
                  (body : I -> S -> result S) : result S :=
  match l with
  | [] => Ok s
  | i :: l' => s' <- body i s ;; for_each l' s' body
  end.

(** Python's [range(n)]: empty when [n <= 0]. *)
Definition py_range (n : Z) : list nat := seq 0 (Z.to_nat n).

(** [l[i]] for a non-negative index. *)
Definition getitem {A : Type} (l : list A) (i : nat) : result A :=
  match nth_error l i with
  | Some a => Ok a
  | None => Err IndexError
  end.

(** ** Floating-point numbers *)

Inductive pyfloat : Type :=
| NaN
| Inf (neg : bool)
| Fin (q : Qc).

Definition pinf : pyfloat := Inf false.
Definition ninf : pyfloat := Inf true.

Definition Qc_ltb (a b : Qc) : bool :=
  match (a ?= b)%Qc with Lt => true | _ => false end.

Definition Qc_eqb (a b : Qc) : bool :=
  match (a ?= b)%Qc with Eq => true | _ => false end.

Definition fzero : pyfloat := Fin 0%Qc.

Definition fneg (a : pyfloat) : pyfloat :=
  match a with
  | NaN => NaN
  | Inf s => Inf (negb s)
  | Fin q => Fin (- q)%Qc
  end.

Definition fadd (a b : pyfloat) : pyfloat :=
  match a, b with
  | NaN, _ | _, NaN => NaN
  | Inf s, Inf s' => if Bool.eqb s s' then Inf s else NaN
  | Inf s, Fin _ => Inf s
  | Fin _, Inf s => Inf s
  | Fin p, Fin q => Fin (p + q)%Qc
  end.

Definition fsub (a b : pyfloat) : pyfloat := fadd a (fneg b).

Definition fmul (a b : pyfloat) : pyfloat :=
  match a, b with
  | NaN, _ | _, NaN => NaN
  | Inf s, Inf s' => Inf (xorb s s')
  | Inf s, Fin q | Fin q, Inf s =>
      if Qc_eqb q 0 then NaN else Inf (xorb s (Qc_ltb q 0))
  | Fin p, Fin q => Fin (p * q)%Qc
  end.

(** NumPy division: dividing by zero gives an infinity or NaN, no exception. *)
Definition fdiv (a b : pyfloat) : pyfloat :=
  match a, b with
  | NaN, _ | _, NaN => NaN
  | Inf _, Inf _ => NaN
  | Inf s, Fin q => Inf (xorb s (Qc_ltb q 0))
  | Fin _, Inf _ => fzero
  | Fin p, Fin q =>
      if Qc_eqb q 0
      then (if Qc_eqb p 0 then NaN else Inf (Qc_ltb p 0))
      else Fin (p / q)%Qc
  end.

(** [a < b]; every comparison with NaN is false. *)
Definition fltb (a b : pyfloat) : bool :=
  match a, b with
  | NaN, _ | _, NaN => false
  | Inf s, Inf s' => s && negb s'
  | Inf s, Fin _ => s
  | Fin _, Inf s => negb s
  | Fin p, Fin q => Qc_ltb p q
  end.

Definition feqb (a b : pyfloat) : bool :=
  match a, b with
  | NaN, _ | _, NaN => false
  | Inf s, Inf s' => Bool.eqb s s'
  | Fin p, Fin q => Qc_eqb p q
  | _, _ => false
  end.

Definition fleb (a b : pyfloat) : bool := fltb a b || feqb a b.

(** Python's two-argument [min] and [max]: the first argument is kept
    unless the second is strictly smaller (larger). *)
Definition py_min (a b : pyfloat) : pyfloat := if fltb b a then b else a.
Definition py_max (a b : pyfloat) : pyfloat := if fltb a b then b else a.

Definition float_of_Z (z : Z) : pyfloat := Fin (Q2Qc (inject_Z z)).
Definition float_of_nat (n : nat) : pyfloat := float_of_Z (Z.of_nat n).

(** ** [numpy.linspace]

    After NumPy's implementation (with [endpoint=True], scalar arguments):
    [y = arange(num) * step + start] with [step = (stop - start) / (num - 1)],
    the last sample then overwritten by [stop]; when the step is zero the
    samples are [arange(num) / div * delta + start]; for [num <= 1] the step is
    undefined and the samples are [arange(num) * delta + start]. A negative
    [num] raises [ValueError]. *)

Fixpoint set_last {A : Type} (l : list A) (v : A) : list A :=
  match l with
  | [] => []
  | [_] => [v]
  | x :: l' => x :: set_last l' v
  end.

Definition np_arange (num : Z) : list pyfloat := map float_of_nat (py_range num).

Definition np_linspace (start stop : pyfloat) (num : Z) : result (list pyfloat) :=
  if (num <? 0)%Z then Err ValueError
  else
    let div := (num - 1)%Z in
    let delta := fsub stop start in
    let y := np_arange num in
    let y :=
      if (0 <? div)%Z then
        let step := fdiv delta (float_of_Z div) in
        if feqb step fzero
        then map (fun v => fmul (fdiv v (float_of_Z div)) delta) y
        else map (fun v => fmul v step) y
      else map (fun v => fmul v delta) y in
    let y := map (fun v => fadd v start) y in
    Ok (if (1 <? num)%Z then set_last y stop else y).

(** ** Points and corner sets *)

Definition point3 : Type := (pyfloat * pyfloat * pyfloat)%type.

(** [p[idim]] for a 3-tuple. *)
Definition coord (p : point3) (idim : nat) : result pyfloat :=
  match p, idim with
  | (x, _, _), 0%nat => Ok x
  | (_, y, _), 1%nat => Ok y
  | (_, _, z), 2%nat => Ok z
  | _, _ => Err IndexError
  end.

(** The [8 x 3] array of corners, in the order of the docstring of
    [returnBlockPoints]. *)
Record corner_set : Type := {
  corner0 : point3;  (* xMin, yMin, zMin *)
  corner1 : point3;  (* xMax, yMin, zMin *)
  corner2 : point3;  (* xMax, yMin, zMax *)
  corner3 : point3;  (* xMin, yMin, zMax *)
  corner4 : point3;  (* xMin, yMax, zMin *)
  corner5 : point3;  (* xMax, yMax, zMin *)
  corner6 : point3;  (* xMax, yMax, zMax *)
  corner7 : point3   (* xMin, yMax, zMax *)
}.

(** [corners[n][idim]] *)
Definition corner (corners : corner_set) (n idim : nat) : result pyfloat :=
  match n with
  | 0%nat => coord (corner0 corners) idim
  | 1%nat => coord (corner1 corners) idim
  | 2%nat => coord (corner2 corners) idim
  | 3%nat => coord (corner3 corners) idim
  | 4%nat => coord (corner4 corners) idim
  | 5%nat => coord (corner5 corners) idim
  | 6%nat => coord (corner6 corners) idim
  | 7%nat => coord (corner7 corners) idim
  | _ => Err IndexError
  end.

(** ** Four-dimensional arrays *)

Record ndarray4 : Type := {
  shape : nat * nat * nat * nat;
  data : nat -> nat -> nat -> nat -> pyfloat
}.

(** [np.zeros([nx, ny, nz, nd])]; NumPy's limits on the size of an array are
    not modelled. *)
Definition np_zeros4 (nx ny nz nd : Z) : result ndarray4 :=
  if ((nx <? 0) || (ny <? 0) || (nz <? 0) || (nd <? 0))%Z then Err ValueError
  else Ok {| shape := (Z.to_nat nx, Z.to_nat ny, Z.to_nat nz, Z.to_nat nd);
             data := fun _ _ _ _ => fzero |}.

(** [points[i, :, k, idim] = col]; the column must have the length of the
    second axis (a column of length one would be broadcast). *)
Definition setitem_col (points : ndarray4) (i k idim : nat)
                       (col : list pyfloat) : result ndarray4 :=
  let '(nx, ny, nz, nd) := shape points in
  if negb ((i <? nx)%nat && (k <? nz)%nat && (idim <? nd)%nat) then Err IndexError
  else if (length col =? ny)%nat || (length col =? 1)%nat then
    Ok {| shape := shape points;
          data := fun i' j' k' d' =>
            if ((i' =? i) && (k' =? k) && (d' =? idim) && (j' <? ny))%nat
            then nth (if (length col =? ny)%nat then j' else 0%nat) col NaN
            else data points i' j' k' d' |}
  else Err ValueError.

(** [points[i, j, k, idim]] *)
Definition getitem4 (points : ndarray4) (i j k idim : nat) : result pyfloat :=
  let '(nx, ny, nz, nd) := shape points in
  if ((i <? nx) && (j <? ny) && (k <? nz) && (idim <? nd))%nat
  then Ok (data points i j k idim)
  else Err IndexError.

(** ** [returnBlockPoints] (genXYZ.py) *)

Definition returnBlockPoints (corners : corner_set) (nx ny nz : Z)
  : result ndarray4 :=
  points <- np_zeros4 nx ny nz 3 ;;
  for_each (py_range 3) points (fun idim points =>
    (* edges in Z direction, at the 4 corners of the bottom/top faces *)
    c0 <- corner corners 0 idim ;; c3 <- corner corners 3 idim ;;
    edge_yMin_xMin <- np_linspace c0 c3 nz ;;
    c1 <- corner corners 1 idim ;; c2 <- corner corners 2 idim ;;
    edge_yMin_xMax <- np_linspace c1 c2 nz ;;
    c4 <- corner corners 4 idim ;; c7 <- corner corners 7 idim ;;
    edge_yMax_xMin <- np_linspace c4 c7 nz ;;
    c5 <- corner corners 5 idim ;; c6 <- corner corners 6 idim ;;
    edge_yMax_xMax <- np_linspace c5 c6 nz ;;
    for_each (py_range nz) points (fun k points =>
      (* for this Z position, interpolate in X direction at yMin and yMax *)
      a <- getitem edge_yMin_xMin k ;; b <- getitem edge_yMin_xMax k ;;
      edge_yMin <- np_linspace a b nx ;;
      a <- getitem edge_yMax_xMin k ;; b <- getitem edge_yMax_xMax k ;;
      edge_yMax <- np_linspace a b nx ;;
      for_each (py_range nx) points (fun i points =>
        (* for this X,Z position, interpolate in Y direction *)
        a <- getitem edge_yMin i ;; b <- getitem edge_yMax i ;;
        edge_y <- np_linspace a b ny ;;
        setitem_col points i k idim edge_y))).

(** ** Text and bytes

    Text is 7-bit: a file opened in text mode is decoded with the ASCII
    codec, and a byte above 127 raises [UnicodeDecodeError].  Lines end with
    a line feed (POSIX); text mode translates [\r\n] and [\r] to [\n] when
    reading. *)

Definition str : Type := list ascii.
Definition bytes : Type := list ascii.

Definition lit (s : string) : str := list_ascii_of_string s.

Definition LF : ascii := "010"%char.
Definition CR : ascii := "013"%char.
Definition SP : ascii := " "%char.

(** [str.isspace] on one ASCII character: codes 9..13 and 28..32. *)
Definition is_space (c : ascii) : bool :=
  let n := N_of_ascii c in
  (((9 <=? n) && (n <=? 13)) || ((28 <=? n) && (n <=? 32)))%N.

Fixpoint lstrip (s : str) : str :=
  match s with
  | c :: s' => if is_space c then lstrip s' else s
  | [] => []
  end.

Definition rstrip (s : str) : str := rev (lstrip (rev s)).

(** [s.strip()] *)
Definition strip (s : str) : str := rstrip (lstrip s).

(** [s.startswith(prefix)] *)
Fixpoint startswith (s prefix : str) : bool :=
  match prefix, s with
  | [], _ => true
  | p :: prefix', c :: s' => Ascii.eqb c p && startswith s' prefix'
  | _ :: _, [] => false
  end.

(** [s.split()]: the maximal runs of non-space characters. [acc] is the
    current run, reversed. *)
Fixpoint split_go (s : str) (acc : str) : list str :=
  match s with
  | [] => match acc with [] => [] | _ => [rev acc] end
  | c :: s' =>
      if is_space c
      then match acc with
           | [] => split_go s' []
           | _ => rev acc :: split_go s' []
           end
      else split_go s' (c :: acc)
  end.

Definition split (s : str) : list str := split_go s [].

(** [sep.join(l)] *)
Fixpoint join (sep : str) (l : list str) : str :=
  match l with
  | [] => []
  | [s] => s
  | s :: l' => s ++ sep ++ join sep l'
  end.

Fixpoint universal_newlines (s : str) : str :=
  match s with
  | [] => []
  | c :: s' =>
      if Ascii.eqb c CR
      then match s' with
           | c' :: s'' => if Ascii.eqb c' LF then LF :: universal_newlines s''
                          else LF :: universal_newlines s'
           | [] => [LF]
           end
      else c :: universal_newlines s'
  end.

(** The lines of a text, each with its line feed (the last may lack one). *)
Fixpoint lines_go (s : str) (acc : str) : list str :=
  match s with
  | [] => match acc with [] => [] | _ => [rev acc] end
  | c :: s' =>
      if Ascii.eqb c LF then rev (c :: acc) :: lines_go s' []
      else lines_go s' (c :: acc)
  end.

Definition splitlines (s : str) : list str := lines_go s [].

(** [b.decode('ascii')] *)
Definition decode_ascii (b : bytes) : result str :=
  if forallb (fun c => (N_of_ascii c <? 128)%N) b then Ok b
  else Err UnicodeDecodeError.

(** ** Files *)

(** A path names a file with the given content, or no file. *)
Definition file : Type := option bytes.

(** [open(path, 'rb')] followed by reading: the whole content. *)
Definition open_rb (f : file) : result bytes :=
  match f with
  | Some content => Ok content
  | None => Err FileNotFoundError
  end.

(** [open(path, 'r')]: the decoded text, newlines translated.  The codec of
    the locale is taken to be ASCII; under a UTF-8 locale the code also
    reads files that hold bytes above 127, which are rejected here. *)
Definition open_r (f : file) : result str :=
  content <- open_rb f ;;
  text <- decode_ascii content ;;
  Ok (universal_newlines text).

(** [f.read(n)] on a binary stream: the bytes read and the rest. *)
Definition read (n : nat) (stream : bytes) : bytes * bytes :=
  (firstn n stream, skipn n stream).

(** [f.readline()] on a binary stream: up to and including the first [\n]. *)
Fixpoint readline_rb (stream : bytes) : bytes :=
  match stream with
  | [] => []
  | c :: s' => if Ascii.eqb c LF then [c] else c :: readline_rb s'
  end.

(** [f.readline()] on the remaining lines of a text stream. *)
Definition readline (ls : list str) : str * list str :=
  match ls with
  | [] => ([], [])
  | l :: ls' => (l, ls')
  end.

(** ** Integers as text *)

Definition is_digit (c : ascii) : bool :=
  let n := N_of_ascii c in ((48 <=? n) && (n <=? 57))%N.

Definition digit_val (c : ascii) : N := (N_of_ascii c - 48)%N.

Definition digit_char (d : N) : ascii := ascii_of_N (48 + d).

(** The decimal digits of [n], most significant first, prepended to [acc]. *)
Fixpoint digits_go (fuel : nat) (n : N) (acc : str) : str :=
  let acc' := digit_char (n mod 10) :: acc in
  match fuel with
  | O => acc'
  | S fuel' => if (n / 10 =? 0)%N then acc' else digits_go fuel' (n / 10) acc'
  end.

Definition decimal (n : N) : str := digits_go (N.to_nat (N.log2 n)) n [].

(** Exactly [k] decimal digits: [n mod 10^k], zero padded. *)
Fixpoint fixed_digits (k : nat) (n : N) : str :=
  match k with
  | O => []
  | S k' => fixed_digits k' (n / 10) ++ [digit_char (n mod 10)]
  end.

(** ['%d' % z] *)
Definition format_d (z : Z) : str :=
  match z with
  | Zneg p => "-"%char :: decimal (Npos p)
  | _ => decimal (Z.to_N z)
  end.

(** A [digitpart]: digits, with single underscores allowed between digits.
    Returns the digit values and the unread rest; to be called on a string
    that starts with a digit. *)
Fixpoint digitpart_go (s : str) : list N * str :=
  match s with
  | [] => ([], [])
  | c :: s' =>
      if is_digit c then
        let '(ds, r) := digitpart_go s' in (digit_val c :: ds, r)
      else if Ascii.eqb c "_"%char then
        match s' with
        | c' :: _ => if is_digit c' then digitpart_go s' else ([], s)
        | [] => ([], s)
        end
      else ([], s)
  end.

Definition digitpart (s : str) : option (list N * str) :=
  match s with
  | c :: _ => if is_digit c then Some (digitpart_go s) else None
  | [] => None
  end.

Definition digits_value (ds : list N) : N :=
  fold_left (fun acc d => (10 * acc + d)%N) ds 0%N.

(** An optional sign: [true] for minus. *)
Definition take_sign (s : str) : bool * str :=
  match s with
  | c :: s' =>
      if Ascii.eqb c "-"%char then (true, s')
      else if Ascii.eqb c "+"%char then (false, s')
      else (false, s)
  | [] => (false, [])
  end.

(** [int(s)] for a string: surrounding whitespace, a sign, a digitpart. *)
Definition py_int (s : str) : result Z :=
  let '(neg, body) := take_sign (strip s) in
  match digitpart body with
  | Some (ds, []) =>
      let n := Z.of_N (digits_value ds) in Ok (if neg then (- n)%Z else n)
  | _ => Err ValueError
  end.

(** ** Floats as text *)

(** Rounding of a non-negative rational to the nearest integer, ties to even. *)
Definition round_half_even (q : Q) : Z :=
  let fl := Qfloor q in
  match Qcompare (q - inject_Z fl) (1 # 2) with
  | Lt => fl
  | Gt => (fl + 1)%Z
  | Eq => if Z.even fl then fl else (fl + 1)%Z
  end.

(** The number of millionths printed by ['%f']: [|q| * 10^6] rounded. *)
Definition micro (q : Qc) : N :=
  Z.to_N (round_half_even (Qabs q * inject_Z 1000000)).

(** ['%f' % v] and [f"{v:.6f}"]: six decimals; a negative value keeps its
    sign also when it rounds to zero. *)
Definition format_f (v : pyfloat) : str :=
  match v with
  | NaN => lit "nan"
  | Inf neg => if neg then lit "-inf" else lit "inf"
  | Fin q =>
      let m := micro q in
      (if Qc_ltb q 0 then ["-"%char] else [])
      ++ decimal (m / 1000000) ++ ["."%char] ++ fixed_digits 6 m
  end.

Definition lower (c : ascii) : ascii :=
  let n := N_of_ascii c in
  if ((65 <=? n) && (n <=? 90))%N then ascii_of_N (n + 32) else c.

Definition str_eqb (a b : str) : bool :=
  if list_eq_dec ascii_dec a b then true else false.

(** [e] or [E], a sign, a digitpart, then the end of the string; an empty
    string is the exponent 0. *)
Definition parse_exponent (s : str) : option Z :=
  match s with
  | [] => Some 0%Z
  | c :: s' =>
      if Ascii.eqb (lower c) "e"%char then
        let '(neg, body) := take_sign s' in
        match digitpart body with
        | Some (ds, []) =>
            let e := Z.of_N (digits_value ds) in
            Some (if neg then (- e)%Z else e)
        | _ => None
        end
      else None
  end.

(** A [floatnumber]: [digitpart ["." [digitpart]]] or ["." digitpart], with
    an optional exponent. Returns the mantissa digits as an integer and the
    power of ten. *)
Definition parse_number (s : str) : option (N * Z) :=
  let mantissa :=
    match digitpart s with
    | Some (ip, r) =>
        match r with
        | c :: r' =>
            if Ascii.eqb c "."%char then
              match digitpart r' with
              | Some (fp, r'') => Some (ip, fp, r'')
              | None => Some (ip, [], r')
              end
            else Some (ip, [], r)
        | [] => Some (ip, [], r)
        end
    | None =>
        match s with
        | c :: r' =>
            if Ascii.eqb c "."%char then
              match digitpart r' with
              | Some (fp, r'') => Some ([], fp, r'')
              | None => None
              end
            else None
        | [] => None
        end
    end in
  match mantissa with
  | Some (ip, fp, r) =>
      match parse_exponent r with
      | Some e => Some (digits_value (ip ++ fp), (e - Z.of_nat (length fp))%Z)
      | None => None
      end
  | None => None
  end.

(** [float(s)] for a string; the value of a decimal literal is exact. *)
Definition py_float (s : str) : result pyfloat :=
  let '(neg, body) := take_sign (strip s) in
  let low := map lower body in
  if str_eqb low (lit "inf") || str_eqb low (lit "infinity") then Ok (Inf neg)
  else if str_eqb low (lit "nan") then Ok NaN
  else
    match parse_number body with
    | Some (m, e) =>
        let q := (inject_Z (Z.of_N m) * Qpower (inject_Z 10) e)%Q in
        Ok (Fin (Q2Qc (if neg then - q else q)))
    | None => Err ValueError
    end.

(** ** [struct.unpack] (little-endian host) *)

Fixpoint le_uint (b : bytes) : N :=
  match b with
  | [] => 0
  | c :: b' => (N_of_ascii c + 256 * le_uint b')%N
  end.

(** [struct.unpack('I', b)[0]] *)
Definition unpack_I (b : bytes) : result N :=
  if (length b =? 4)%nat then Ok (le_uint b) else Err StructError.

(** The value of an IEEE 754 binary32 bit pattern. *)
Definition float32_of_bits (w : N) : pyfloat :=
  let neg := N.testbit w 31 in
  let e := ((w / 2 ^ 23) mod 256)%N in
  let m := (w mod 2 ^ 23)%N in
  if (e =? 255)%N then (if (m =? 0)%N then Inf neg else NaN)
  else
    let q :=
      if (e =? 0)%N
      then (inject_Z (Z.of_N m) * Qpower (inject_Z 2) (-149))%Q
      else (inject_Z (Z.of_N (2 ^ 23 + m)) * Qpower (inject_Z 2) (Z.of_N e - 150))%Q in
    Fin (Q2Qc (if neg then - q else q)).

(** [struct.unpack('fff', b)] *)
Definition unpack_fff (b : bytes) : result point3 :=
  if (length b =? 12)%nat then
    Ok (float32_of_bits (le_uint (firstn 4 b)),
        float32_of_bits (le_uint (firstn 4 (skipn 4 b))),
        float32_of_bits (le_uint (firstn 4 (skipn 8 b))))
  else Err StructError.

(** ** STL files (generate_ffd_offset.py) *)

Definition at0 (p : point3) : pyfloat := fst (fst p).
Definition at1 (p : point3) : pyfloat := snd (fst p).
Definition at2 (p : point3) : pyfloat := snd p.

(** [is_ascii_stl]: the 80-byte header starts with [solid] and the first
    line decodes as ASCII; every exception gives [False]. *)
Definition is_ascii_stl (filepath : file) : bool :=
  match open_rb filepath with
  | Err _ => false
  | Ok stream =>
      let '(header, _) := read 80 stream in
      if startswith header (lit "solid") then
        (* f.seek(0); first_line = f.readline().decode('ascii').strip() *)
        match decode_ascii (readline_rb stream) with
        | Ok text =>
            let first_line := strip text in
            if startswith first_line (lit "solid") then true else false
        | Err _ => false
        end
      else false
  end.

(** The six running bounds, as the pair (min corner, max corner). *)
Definition bounds : Type := (point3 * point3)%type.

Definition initial_bounds : bounds :=
  ((pinf, pinf, pinf), (ninf, ninf, ninf)).

(** [min_x, max_x = min(min_x, x), max(max_x, x)] and likewise for y and z. *)
Definition update_bounds (b : bounds) (v : point3) : bounds :=
  let '((min_x, min_y, min_z), (max_x, max_y, max_z)) := b in
  let '(x, y, z) := v in
  ((py_min min_x x, py_min min_y y, py_min min_z z),
   (py_max max_x x, py_max max_y y, py_max max_z z)).

(** The body of the loop over the lines of an ASCII STL file. *)
Definition ascii_line_step (line : str) (b : bounds) : result bounds :=
  let stripped := strip line in
  if startswith stripped (lit "vertex") then
    let parts := split stripped in
    if (length parts =? 4)%nat then
      p1 <- getitem parts 1 ;; x <- py_float p1 ;;
      p2 <- getitem parts 2 ;; y <- py_float p2 ;;
      p3 <- getitem parts 3 ;; z <- py_float p3 ;;
      Ok (update_bounds b (x, y, z))
    else Ok b
  else Ok b.

(** The body of the loop over the triangles of a binary STL file; the state
    is the bounds and the unread part of the file. *)
Definition binary_triangle_step (i : nat) (s : bounds * bytes)
  : result (bounds * bytes) :=
  let '(b, stream) := s in
  let '(_, stream) := read 12 stream in  (* normal *)
  '(b, stream) <- for_each (py_range 3) (b, stream) (fun j s =>
     let '(b, stream) := s in
     let '(raw, stream) := read 12 stream in
     v <- unpack_fff raw ;;
     Ok (update_bounds b v, stream)) ;;
  let '(_, stream) := read 2 stream in  (* attribute *)
  Ok (b, stream).

Definition get_stl_bounds (stl_file : file) : result bounds :=
  if is_ascii_stl stl_file then
    text <- open_r stl_file ;;
    for_each (splitlines text) initial_bounds ascii_line_step
  else
    stream <- open_rb stl_file ;;
    let '(_, stream) := read 80 stream in  (* header *)
    let '(raw, stream) := read 4 stream in
    num_triangles <- unpack_I raw ;;
    '(b, _) <- for_each (seq 0 (N.to_nat num_triangles)) (initial_bounds, stream)
                        binary_triangle_step ;;
    Ok b.

(** ** [read_binary_stl] (convert_bin_to_ascii.py) *)

Record triangle : Type := {
  normal : point3;
  vertices : list point3
}.

Definition read_triangle_step (i : nat) (s : list triangle * bytes)
  : result (list triangle * bytes) :=
  let '(triangles, stream) := s in
  let '(raw, stream) := read 12 stream in
  normal <- unpack_fff raw ;;
  let '(raw, stream) := read 12 stream in
  v1 <- unpack_fff raw ;;
  let '(raw, stream) := read 12 stream in
  v2 <- unpack_fff raw ;;
  let '(raw, stream) := read 12 stream in
  v3 <- unpack_fff raw ;;
  let '(_, stream) := read 2 stream in  (* attribute byte count *)
  Ok (triangles ++ [{| normal := normal; vertices := [v1; v2; v3] |}], stream).

Definition read_binary_stl (filename : file) : result (list triangle) :=
  stream <- open_rb filename ;;
  let '(header, stream) := read 80 stream in
  let '(raw, stream) := read 4 stream in
  num_triangles <- unpack_I raw ;;
  '(triangles, _) <- for_each (seq 0 (N.to_nat num_triangles)) ([], stream)
                              read_triangle_step ;;
  Ok triangles.

(** ** [generate_ffd_box] (generate_ffd_offset.py) *)

(** Lines 94-107: the X overrides, then the offsets.  Returns
    [((x_min, x_max), (y_min, y_max), (z_min, z_max))]. *)
Definition ffd_box_bounds (min_point max_point : point3)
    (offset_x offset_y offset_z : pyfloat) (x_start x_end : option pyfloat)
  : (pyfloat * pyfloat) * (pyfloat * pyfloat) * (pyfloat * pyfloat) :=
  let min_point :=
    match x_start with
    | Some x_start => (x_start, at1 min_point, at2 min_point)
    | None => min_point
    end in
  let max_point :=
    match x_end with
    | Some x_end => (x_end, at1 max_point, at2 max_point)
    | None => max_point
    end in
  let x_min := fsub (at0 min_point) offset_x in
  let x_max := fadd (at0 max_point) offset_x in
  let y_min := fsub (at1 min_point) offset_y in
  let y_max := fadd (at1 max_point) offset_y in
  let z_min := fsub (at2 min_point) offset_z in
  let z_max := fadd (at2 max_point) offset_z in
  ((x_min, x_max), (y_min, y_max), (z_min, z_max)).

(** One of the three coordinate lists of lines 130-151: for every [(k, j, i)],
    [k] outermost, the formatted value chosen by [pick i j k]. *)
Definition coord_list (nx ny nz : Z) (pick : nat -> nat -> nat -> result pyfloat)
  : result (list str) :=
  for_each (py_range nz) [] (fun k l =>
    for_each (py_range ny) l (fun j l =>
      for_each (py_range nx) l (fun i l =>
        v <- pick i j k ;;
        Ok (l ++ [format_f v])))).

(** Returns the text written to [output_file]. *)
Definition generate_ffd_box (stl_file : file) (nx ny nz : Z)
    (offset_x offset_y offset_z : pyfloat) (x_start x_end : option pyfloat)
  : result str :=
  (* geometry bounds *)
  '(min_point, max_point) <- get_stl_bounds stl_file ;;
  let '((x_min, x_max), (y_min, y_max), (z_min, z_max)) :=
    ffd_box_bounds min_point max_point offset_x offset_y offset_z x_start x_end in
  (* FFD points *)
  x_coords <- np_linspace x_min x_max nx ;;
  y_coords <- np_linspace y_min y_max ny ;;
  z_coords <- np_linspace z_min z_max nz ;;
  (* Plot3D file: one block, the dimensions, then all x, all y, all z *)
  let f := lit "1" ++ [LF] in
  let f := f ++ format_d nx ++ [SP] ++ format_d ny ++ [SP] ++ format_d nz ++ [LF] in
  x_list <- coord_list nx ny nz (fun i j k => getitem x_coords i) ;;
  let f := f ++ join [SP] x_list ++ [LF] in
  y_list <- coord_list nx ny nz (fun i j k => getitem y_coords j) ;;
  let f := f ++ join [SP] y_list ++ [LF] in
  z_list <- coord_list nx ny nz (fun i j k => getitem z_coords k) ;;
  let f := f ++ join [SP] z_list ++ [LF] in
  Ok f.

(** ** [writeFFDFile] (genXYZ.py) *)

(** The loop of lines 14-17 (and 19-22, 24-27) for channel [d]:
    [f.write('%f ' % points[block][i, j, k, d])] for every [(k, j, i)]. *)
Definition write_channel (nx ny nz : list Z) (points : list ndarray4)
    (block d : nat) (f : str) : result str :=
  nzb <- getitem nz block ;;
  for_each (py_range nzb) f (fun k f =>
    nyb <- getitem ny block ;;
    for_each (py_range nyb) f (fun j f =>
      nxb <- getitem nx block ;;
      for_each (py_range nxb) f (fun i f =>
        p <- getitem points block ;;
        v <- getitem4 p i j k d ;;
        Ok (f ++ format_f v ++ [SP])))).

(** Returns the text written to [fileName]. *)
Definition writeFFDFile (nBlocks : Z) (nx ny nz : list Z) (points : list ndarray4)
  : result str :=
  let f := format_d nBlocks ++ [LF] in
  f <- for_each (py_range nBlocks) f (fun i f =>
         a <- getitem nx i ;; b <- getitem ny i ;; c <- getitem nz i ;;
         Ok (f ++ format_d a ++ [SP] ++ format_d b ++ [SP] ++ format_d c ++ [SP])) ;;
  let f := f ++ [LF] in
  for_each (py_range nBlocks) f (fun block f =>
    f <- write_channel nx ny nz points block 0 f ;;
    let f := f ++ [LF] in
    f <- write_channel nx ny nz points block 1 f ;;
    let f := f ++ [LF] in
    write_channel nx ny nz points block 2 f).

(** ** [readPlot3D] (convert_XYZ_to_VTK.py) *)

(** A three-dimensional array in C order: [a[k, j, i] = flat[(k*d1 + j)*d2 + i]]. *)
Record ndarray3 : Type := {
  shape3 : nat * nat * nat;
  flat : list pyfloat
}.

(** [l[:n]] *)
Definition slice_to {A : Type} (l : list A) (n : Z) : list A :=
  if (n <? 0)%Z then firstn (Z.to_nat (Z.of_nat (length l) + n)) l
  else firstn (Z.to_nat n) l.

(** [np.array(l).reshape((d0, d1, d2))]: one dimension may be [-1] and is
    then inferred from the size. *)
Definition np_reshape3 (l : list pyfloat) (d0 d1 d2 : Z) : result ndarray3 :=
  let size := Z.of_nat (length l) in
  let unknown (d : Z) : nat := if (d =? -1)%Z then 1%nat else 0%nat in
  let known (d : Z) : Z := if (d =? -1)%Z then 1%Z else d in
  if ((d0 <? -1) || (d1 <? -1) || (d2 <? -1))%Z then Err ValueError
  else
    let p := (known d0 * known d1 * known d2)%Z in
    match (unknown d0 + unknown d1 + unknown d2)%nat with
    | O =>
        if (p =? size)%Z
        then Ok {| shape3 := (Z.to_nat d0, Z.to_nat d1, Z.to_nat d2); flat := l |}
        else Err ValueError
    | S O =>
        if (p =? 0)%Z then Err ValueError
        else if (size mod p =? 0)%Z then
          let infer (d : Z) : nat := Z.to_nat (if (d =? -1)%Z then size / p else d) in
          Ok {| shape3 := (infer d0, infer d1, infer d2); flat := l |}
        else Err ValueError
    | _ => Err ValueError
    end.

(** [a[k, j, i]] *)
Definition getitem3 (a : ndarray3) (k j i : nat) : result pyfloat :=
  let '(d0, d1, d2) := shape3 a in
  if ((k <? d0) && (j <? d1) && (i <? d2))%nat
  then getitem (flat a) ((k * d1 + j) * d2 + i)
  else Err IndexError.

(** [[f(v) for v in l]] *)
Fixpoint map_result {A B : Type} (f : A -> result B) (l : list A) : result (list B) :=
  match l with
  | [] => Ok []
  | a :: l' => b <- f a ;; bs <- map_result f l' ;; Ok (b :: bs)
  end.

(** The loop of lines 19-23: values are collected from the non-blank lines
    until there are at least [n] of them or the file ends.  Returns the
    values and the unread lines. *)
Fixpoint read_values (n : Z) (x : list pyfloat) (ls : list str)
  : result (list pyfloat * list str) :=
  match ls with
  | [] => Ok (x, [])
  | line :: ls' =>
      match strip line with
      | [] => read_values n x ls'
      | stripped =>
          vs <- map_result py_float (split stripped) ;;
          let x := x ++ vs in
          if (n <=? Z.of_nat (length x))%Z then Ok (x, ls')
          else read_values n x ls'
      end
  end.

Definition readPlot3D (filename : file) : result (ndarray3 * ndarray3 * ndarray3) :=
  text <- open_r filename ;;
  let f := splitlines text in
  (* number of blocks *)
  let '(line, f) := readline f in
  nBlocks <- py_int (strip line) ;;
  (* dimensions *)
  let '(line, f) := readline f in
  let dims := split (strip line) in
  d0 <- getitem dims 0 ;; nx <- py_int d0 ;;
  d1 <- getitem dims 1 ;; ny <- py_int d1 ;;
  d2 <- getitem dims 2 ;; nz <- py_int d2 ;;
  (* X, Y and Z coordinates *)
  '(x, f) <- read_values (nx * ny * nz) [] f ;;
  x <- np_reshape3 (slice_to x (nx * ny * nz)) nz ny nx ;;
  '(y, f) <- read_values (nx * ny * nz) [] f ;;
  y <- np_reshape3 (slice_to y (nx * ny * nz)) nz ny nx ;;
  '(z, f) <- read_values (nx * ny * nz) [] f ;;
  z <- np_reshape3 (slice_to z (nx * ny * nz)) nz ny nx ;;
  Ok (x, y, z).

Unset Implicit Arguments.

(** * Specification-level definitions *)

(** ** Trilinear interpolation *)

Definition Qc_of_nat (n : nat) : Qc := Q2Qc (inject_Z (Z.of_nat n)).

(** The lattice parameter [i / (n - 1)] of index [i] on an axis of [n] points. *)
Definition param (i n : nat) : Qc := (Qc_of_nat i / Qc_of_nat (n - 1))%Qc.

(** Linear interpolation from [a] (at [t = 0]) to [b] (at [t = 1]). *)
Definition lerp (a b t : Qc) : Qc := (a + t * (b - a))%Qc.

Definition qpoint : Type := (Qc * Qc * Qc)%type.

Definition qcoord (p : qpoint) (idim : nat) : Qc :=
  match p, idim with
  | (x, _, _), 0%nat => x
  | (_, y, _), 1%nat => y
  | (_, _, z), _ => z
  end.

Definition fin_point (p : qpoint) : point3 :=
  let '(x, y, z) := p in (Fin x, Fin y, Fin z).

(** Eight finite corner points. *)
Record qcorners : Type := {
  q0 : qpoint; q1 : qpoint; q2 : qpoint; q3 : qpoint;
  q4 : qpoint; q5 : qpoint; q6 : qpoint; q7 : qpoint
}.

Definition fin_corners (c : qcorners) : corner_set :=
  {| corner0 := fin_point (q0 c); corner1 := fin_point (q1 c);
     corner2 := fin_point (q2 c); corner3 := fin_point (q3 c);
     corner4 := fin_point (q4 c); corner5 := fin_point (q5 c);
     corner6 := fin_point (q6 c); corner7 := fin_point (q7 c) |}.


Definition corner_q (c : qcorners) (n idim : nat) : Qc :=
  match n with
  | 0%nat => qcoord (q0 c) idim | 1%nat => qcoord (q1 c) idim
  | 2%nat => qcoord (q2 c) idim | 3%nat => qcoord (q3 c) idim
  | 4%nat => qcoord (q4 c) idim | 5%nat => qcoord (q5 c) idim
  | 6%nat => qcoord (q6 c) idim | _ => qcoord (q7 c) idim
  end.

(** The value the three nested 1-D interpolations of [returnBlockPoints]
    compute: along Z on the four edges, then along X, then along Y. *)
Definition nested_lerp (c : qcorners) (nx ny nz : nat) (i j k idim : nat) : Qc :=
  let w := param k nz in
  let u := param i nx in
  let v := param j ny in
  let edge_yMin_xMin := lerp (corner_q c 0 idim) (corner_q c 3 idim) w in
  let edge_yMin_xMax := lerp (corner_q c 1 idim) (corner_q c 2 idim) w in
  let edge_yMax_xMin := lerp (corner_q c 4 idim) (corner_q c 7 idim) w in
  let edge_yMax_xMax := lerp (corner_q c 5 idim) (corner_q c 6 idim) w in
  let edge_yMin := lerp edge_yMin_xMin edge_yMin_xMax u in
  let edge_yMax := lerp edge_yMax_xMin edge_yMax_xMax u in
  lerp edge_yMin edge_yMax v.

(** ** Flattening order *)

(** The values [f i j k] for [i < nx], [j < ny], [k < nz], with [i] varying
    fastest and [k] slowest. *)
Definition flat_order {A : Type} (nx ny nz : nat) (f : nat -> nat -> nat -> A)
  : list A :=
  flat_map (fun k =>
    flat_map (fun j => map (fun i => f i j k) (seq 0 nx)) (seq 0 ny)) (seq 0 nz).

(** The flat offset of lattice index [(i, j, k)]. *)
Definition flat_offset (nx ny : nat) (i j k : nat) : nat := (k * ny * nx + j * nx + i)%nat.

(** ** Axis-aligned boxes *)

(** The eight corners of the box [[xMin, xMax] x [yMin, yMax] x [zMin, zMax]],
    in the order of the docstring of [returnBlockPoints]. *)
Definition box_corners (xMin xMax yMin yMax zMin zMax : Qc) : qcorners :=
  {| q0 := (xMin, yMin, zMin); q1 := (xMax, yMin, zMin);
     q2 := (xMax, yMin, zMax); q3 := (xMin, yMin, zMax);
     q4 := (xMin, yMax, zMin); q5 := (xMax, yMax, zMin);
     q6 := (xMax, yMax, zMax); q7 := (xMin, yMax, zMax) |}.

(** The text of a one-block Plot3D file as [generate_ffd_box] lays it out:
    the block count, the dimensions, then one line per coordinate channel
    with the tokens separated by single spaces. *)
Definition plot3d_text (nx ny nz : Z) (xs ys zs : list str) : str :=
  lit "1" ++ [LF]
  ++ format_d nx ++ [SP] ++ format_d ny ++ [SP] ++ format_d nz ++ [LF]
  ++ join [SP] xs ++ [LF]
  ++ join [SP] ys ++ [LF]
  ++ join [SP] zs ++ [LF].

(** A line as [writeFFDFile] writes it: every token followed by a space. *)
Definition spaced_line (tokens : list str) : str :=
  flat_map (fun t => t ++ [SP]) tokens.

(** The text of a one-block file as [writeFFDFile] lays it out; the last
    line has no line feed. *)
Definition ffd_text (nx ny nz : Z) (xs ys zs : list str) : str :=
  lit "1" ++ [LF]
  ++ spaced_line [format_d nx; format_d ny; format_d nz] ++ [LF]
  ++ spaced_line xs ++ [LF]
  ++ spaced_line ys ++ [LF]
  ++ spaced_line zs.

(** The channel [d] of a block, flattened with [i] fastest and [k] slowest. *)
Definition channel (points : ndarray4) (nx ny nz : nat) (d : nat) : list pyfloat :=
  flat_order nx ny nz (fun i j k => data points i j k d).

(** ** Binary STL files

    The binary surface-mesh format: an 80-byte header, a little-endian
    32-bit triangle count, then per triangle twelve binary32 numbers (normal
    and three vertices) and a 2-byte attribute. Numbers are given by their
    bit patterns. *)

Fixpoint le_bytes (k : nat) (w : N) : bytes :=
  match k with
  | O => []
  | S k' => ascii_of_N (w mod 256) :: le_bytes k' (w / 256)
  end.

Definition raw_vec : Type := (N * N * N)%type.

Record raw_triangle : Type := {
  raw_normal : raw_vec;
  raw_v1 : raw_vec;
  raw_v2 : raw_vec;
  raw_v3 : raw_vec;
  raw_attr : N
}.

Definition encode_vec (v : raw_vec) : bytes :=
  let '(a, b, c) := v in le_bytes 4 a ++ le_bytes 4 b ++ le_bytes 4 c.

Definition encode_triangle (t : raw_triangle) : bytes :=
  encode_vec (raw_normal t) ++ encode_vec (raw_v1 t) ++ encode_vec (raw_v2 t)
  ++ encode_vec (raw_v3 t) ++ le_bytes 2 (raw_attr t).

Definition binary_stl (header : bytes) (tris : list raw_triangle) : bytes :=
  header ++ le_bytes 4 (N.of_nat (length tris)) ++ flat_map encode_triangle tris.

(** The point a vector of bit patterns denotes. *)
Definition vec_value (v : raw_vec) : point3 :=
  let '(a, b, c) := v in (float32_of_bits a, float32_of_bits b, float32_of_bits c).

(** All vertices of a mesh, in file order. *)
Definition mesh_vertices (tris : list raw_triangle) : list point3 :=
  flat_map (fun t => [vec_value (raw_v1 t); vec_value (raw_v2 t); vec_value (raw_v3 t)]) tris.

(** Bit patterns of some binary32 numbers. *)
Definition bits_0 : N := 0.
Definition bits_1 : N := 1065353216.  (* 0x3F800000 *)
Definition bits_2 : N := 1073741824.  (* 0x40000000 *)

Definition zero_header : bytes := repeat zero 80.

(** One triangle with the vertices [a], [b], [c] and a zero normal. *)
Definition one_triangle (a b c : raw_vec) : list raw_triangle :=
  [{| raw_normal := (bits_0, bits_0, bits_0);
      raw_v1 := a; raw_v2 := b; raw_v3 := c; raw_attr := 0 |}].

(** The triangle (0,0,0), (1,0,0), (0,1,0). *)
Definition unit_triangle : list raw_triangle :=
  one_triangle (bits_0, bits_0, bits_0) (bits_1, bits_0, bits_0) (bits_0, bits_1, bits_0).

(** The triangle (0,0,0), (2,0,0), (0,0,0): bounds (0,0,0) to (2,0,0). *)
Definition segment_triangle : list raw_triangle :=
  one_triangle (bits_0, bits_0, bits_0) (bits_2, bits_0, bits_0) (bits_0, bits_0, bits_0).

Definition Q0 : pyfloat := Fin 0%Qc.
Definition Q1 : pyfloat := Fin 1%Qc.
Definition Q2 : pyfloat := Fin (Q2Qc 2).

(** ** Deciding equality of computed values *)

Definition same_float (a b : pyfloat) : bool :=
  match a, b with
  | NaN, NaN => true
  | Inf s, Inf s' => Bool.eqb s s'
  | Fin p, Fin q => Qeq_bool p q
  | _, _ => false
  end.

Definition same_point (p q : point3) : bool :=
  same_float (at0 p) (at0 q) && same_float (at1 p) (at1 q) && same_float (at2 p) (at2 q).

Definition same_bounds (r : result bounds) (e : bounds) : bool :=
  match r with
  | Ok b => same_point (fst b) (fst e) && same_point (snd b) (snd e)
  | Err _ => false
  end.

Fixpoint same_floats (l l' : list pyfloat) : bool :=
  match l, l' with
  | [], [] => true
  | a :: l, b :: l' => same_float a b && same_floats l l'
  | _, _ => false
  end.

(** ** Offset boxes on finite geometry *)

Definition qx (p : qpoint) : Qc := fst (fst p).
Definition qy (p : qpoint) : Qc := snd (fst p).
Definition qz (p : qpoint) : Qc := snd p.

(** An optional override of a bound. *)
Definition override (x : option Qc) (d : Qc) : Qc :=
  match x with
  | Some v => v
  | None => d
  end.

(** A sheared hexahedron: the top face is shifted along X and the corners
    are at different heights. *)
Definition sheared_corners : qcorners :=
  {| q0 := (0, 0, 0)%Qc;
     q1 := (Q2Qc 2, 0, Q2Qc (1 # 2))%Qc;
     q2 := (Q2Qc 3, 0, Q2Qc 2)%Qc;
     q3 := (1, 0, 1)%Qc;
     q4 := (Q2Qc (1 # 3), 1, 0)%Qc;
     q5 := (Q2Qc 2, Q2Qc 2, 0)%Qc;
     q6 := (Q2Qc 4, Q2Qc 2, Q2Qc 3)%Qc;
     q7 := (1, 1, Q2Qc 2)%Qc |}.

(** The unit-triangle mesh as a binary STL file. *)
Definition unit_triangle_stl : file := Some (binary_stl zero_header unit_triangle).

(** A mesh with bounds (0,0,0) to (2,0,0) as a binary STL file. *)
Definition segment_stl : file := Some (binary_stl zero_header segment_triangle).

Definition qorigin : qpoint := (0, 0, 0)%Qc.
Definition q110 : qpoint := (1, 1, 0)%Qc.

(** The x channel of the 3 x 2 x 2 example grid: 0, 1, 2 four times. *)
Definition example_x_tokens : list str :=
  concat (repeat [lit "0.000000"; lit "1.000000"; lit "2.000000"] (2 * 2)).

(** ** Order of samples *)

(** Every later sample is at most every earlier one. *)
Definition descending (l : list pyfloat) : Prop :=
  forall i i', (i <= i')%nat -> (i' < length l)%nat ->
               fleb (nth i' l NaN) (nth i l NaN) = true.

(** Every sample lies between [lo] and [hi]. *)
Definition within (lo hi : pyfloat) (l : list pyfloat) : Prop :=
  forall i, (i < length l)%nat ->
            fleb lo (nth i l NaN) = true /\ fleb (nth i l NaN) hi = true.

Definition Q5 : pyfloat := Fin (Q2Qc 5).

(** ** Example grids *)

(** The x channel of a 3 x 2 x 2 grid whose x axis runs from 5 down to 1. *)
Definition inverted_x_tokens : list str :=
  concat (repeat [lit "5.000000"; lit "3.000000"; lit "1.000000"] (2 * 2)).

(** The y channel of a 3 x 2 x 2 grid whose y axis runs from 0 to 1. *)
Definition unit_y_tokens : list str :=
  concat (repeat (repeat (lit "0.000000") 3 ++ repeat (lit "1.000000") 3) 2).

(** ** Bounds *)

(** The two running bounds of one axis are ordered, or still at their
    initial values [+inf] and [-inf]. *)
Definition axis_ordered_or_empty (mn mx : pyfloat) : Prop :=
  fleb mn mx = true \/ (mn = pinf /\ mx = ninf).

Definition bounds_ordered_or_empty (b : bounds) : Prop :=
  axis_ordered_or_empty (at0 (fst b)) (at0 (snd b))
  /\ axis_ordered_or_empty (at1 (fst b)) (at1 (snd b))
  /\ axis_ordered_or_empty (at2 (fst b)) (at2 (snd b)).

(** A binary STL file that declares no triangle. *)
Definition empty_mesh_stl : file := Some (binary_stl zero_header []).

(** A binary STL file that declares one triangle and ends 20 bytes after the
    count. *)
Definition truncated_stl : file := Some (zero_header ++ le_bytes 4 1 ++ repeat zero 20).

(** The triangle count a binary STL file declares (bytes 80 to 83). *)
Definition declared_triangles (content : bytes) : nat :=
  N.to_nat (le_uint (firstn 4 (skipn 80 content))).

(** The file ends before the count, or before the last vertex of the last
    declared triangle (each triangle takes 50 bytes, of which the last two
    are the attribute). *)
Definition truncated (content : bytes) : Prop :=
  (length content < 84)%nat
  \/ ((1 <= declared_triangles content)%nat
      /\ (length content < 84 + 50 * declared_triangles content - 2)%nat).

(** ** Tokens *)

Definition no_space (t : str) : bool := forallb (fun c => negb (is_space c)) t.
Definition all_space (t : str) : bool := forallb is_space t.

(** A non-empty word without white space. *)
Definition is_token (t : str) : bool :=
  match t with
  | [] => false
  | _ => no_space t
  end.

(** Text that the ASCII codec and the newline translation leave unchanged,
    and that holds no line feed. *)
Definition plain_char (c : ascii) : bool :=
  (N_of_ascii c <? 128)%N && negb (Ascii.eqb c CR) && negb (Ascii.eqb c LF).
Definition plain (s : str) : bool := forallb plain_char s.
(** A text that starts and ends with a character that is not white space. *)
Definition edged (s : str) : Prop :=
  (exists c, is_space c = false /\ s = [c])
  \/ (exists c body d, is_space c = false /\ is_space d = false /\ s = c :: body ++ [d]).

Definition no_lf (s : str) : bool := forallb (fun c => negb (Ascii.eqb c LF)) s.

(** Bytes that the ASCII codec and the newline translation leave unchanged. *)
Definition text_char (c : ascii) : bool :=
  (N_of_ascii c <? 128)%N && negb (Ascii.eqb c CR).
Definition is_text (s : str) : bool := forallb text_char s.

(** ** Well-formed binary meshes *)

(** Bit patterns of 32 bits. *)
Definition valid_vec (v : raw_vec) : Prop :=
  let '(a, b, c) := v in (a < 2 ^ 32 /\ b < 2 ^ 32 /\ c < 2 ^ 32)%N.

Definition valid_triangle (t : raw_triangle) : Prop :=
  valid_vec (raw_normal t) /\ valid_vec (raw_v1 t) /\ valid_vec (raw_v2 t)
  /\ valid_vec (raw_v3 t).

(** The triangle record that [read_binary_stl] builds for an encoded one. *)
Definition decode_triangle (t : raw_triangle) : triangle :=
  {| normal := vec_value (raw_normal t);
     vertices := [vec_value (raw_v1 t); vec_value (raw_v2 t); vec_value (raw_v3 t)] |}.

(** ** Extremes of a list of coordinates

    The NaN entries of [xs] apart: [mn] is below and [mx] above every entry,
    both are entries of [xs], and when there is no entry they are [+inf] and
    [-inf]. *)
Definition axis_extremes (xs : list pyfloat) (mn mx : pyfloat) : Prop :=
  (forall x, In x xs -> x <> NaN -> fleb mn x = true /\ fleb x mx = true)
  /\ ((exists x, In x xs /\ x <> NaN) -> In mn xs /\ In mx xs)
  /\ ((forall x, In x xs -> x = NaN) -> mn = pinf /\ mx = ninf).

Definition extremes_of (vs : list point3) (b : bounds) : Prop :=
  axis_extremes (map at0 vs) (at0 (fst b)) (at0 (snd b))
  /\ axis_extremes (map at1 vs) (at1 (fst b)) (at1 (snd b))
  /\ axis_extremes (map at2 vs) (at2 (fst b)) (at2 (snd b)).

(** ** ASCII STL files

    A line of the text format is a vertex line, [vertex x y z] after some
    indentation, or any other line (the [solid], [facet], [outer loop],
    [endloop], [endfacet] and [endsolid] lines). *)
Inductive stl_line : Type :=
| VertexLine (indent : nat) (x y z : str)
| OtherLine (s : str).

Definition render_line (l : stl_line) : str :=
  match l with
  | VertexLine indent x y z => repeat SP indent ++ join [SP] [lit "vertex"; x; y; z]
  | OtherLine s => s
  end.

Definition ascii_stl (ls : list stl_line) : bytes :=
  flat_map (fun l => render_line l ++ [LF]) ls.

(** The coordinates are plain words that [float] accepts; another line is
    plain text that does not begin with [vertex]. *)
Definition line_ok (l : stl_line) : Prop :=
  match l with
  | VertexLine _ x y z =>
      (is_token x = true /\ plain x = true /\ exists v, py_float x = Ok v)
      /\ (is_token y = true /\ plain y = true /\ exists v, py_float y = Ok v)
      /\ (is_token z = true /\ plain z = true /\ exists v, py_float z = Ok v)
  | OtherLine s =>
      plain s = true /\ startswith (strip (s ++ [LF])) (lit "vertex") = false
  end.

Definition float_or_nan (r : result pyfloat) : pyfloat :=
  match r with
  | Ok v => v
  | Err _ => NaN
  end.

(** The vertices a file denotes, in file order. *)
Definition line_vertices (l : stl_line) : list point3 :=
  match l with
  | VertexLine _ x y z =>
      [(float_or_nan (py_float x), float_or_nan (py_float y), float_or_nan (py_float z))]
  | OtherLine _ => []
  end.

Definition text_vertices (ls : list stl_line) : list point3 :=
  flat_map line_vertices ls.

(** ** Example meshes *)

(** An 80-byte header that begins with [solid]. *)
Definition solid_header : bytes := lit "solid" ++ repeat SP 75.

(** The triangle (0,0,0), (2,0,0), (0,2,0). *)
Definition wide_triangle : list raw_triangle :=
  one_triangle (bits_0, bits_0, bits_0) (bits_2, bits_0, bits_0) (bits_0, bits_2, bits_0).

(** A binary STL file whose header begins with [solid]. *)
Definition solid_binary_stl : file := Some (binary_stl solid_header wide_triangle).

Fixpoint same_points (l l' : list point3) : bool :=
  match l, l' with
  | [], [] => true
  | p :: l, q :: l' => same_point p q && same_points l l'
  | _, _ => false
  end.

(** The unit triangle in the text format. *)
Definition unit_triangle_lines : list stl_line :=
  [ OtherLine (lit "solid unit");
    OtherLine (lit "  facet normal 0 0 1");
    OtherLine (lit "    outer loop");
    VertexLine 6 (lit "0.0") (lit "0.0") (lit "0.0");
    VertexLine 6 (lit "1.0") (lit "0.0") (lit "0.0");
    VertexLine 6 (lit "0.0") (lit "1.0") (lit "0.0");
    OtherLine (lit "    endloop");
    OtherLine (lit "  endfacet");
    OtherLine (lit "endsolid unit") ].

(** ** Rounding to six decimals *)

(** The value that ['%f'] prints for [v]. *)
Definition round6 (v : pyfloat) : pyfloat :=
  match v with
  | Fin q =>
      let r := (inject_Z (Z.of_N (micro q)) * Qpower (inject_Z 10) (-6))%Q in
      Fin (Q2Qc (if Qc_ltb q 0 then - r else r))
  | _ => v
  end.

(** [r] is [v] up to half a millionth (and equal to it when [v] is not finite). *)
Definition close6 (v r : pyfloat) : Prop :=
  match v, r with
  | Fin p, Fin q => (Qabs (q - p) <= 1 # 2000000)%Q
  | NaN, NaN => True
  | Inf s, Inf s' => s = s'
  | _, _ => False
  end.

(** A 2 x 2 x 2 block with thirds as coordinates. *)
Definition example_block : ndarray4 :=
  {| shape := (2%nat, 2%nat, 2%nat, 3%nat);
     data := fun i j k d => fdiv (float_of_nat (i + 2 * j + 4 * k + d)) (float_of_nat 3) |}.

(** ** Further definitions *)

(** All vertices of a list of triangle records, in order. *)
Definition triangle_vertices (triangles : list triangle) : list point3 :=
  flat_map vertices triangles.

(** Every byte is below 128. *)
Definition is_ascii (b : bytes) : bool := forallb (fun c => (N_of_ascii c <? 128)%N) b.

Definition is_finite (v : pyfloat) : bool :=
  match v with
  | Fin _ => true
  | _ => false
  end.

Definition finite_point (p : point3) : bool :=
  is_finite (at0 p) && is_finite (at1 p) && is_finite (at2 p).

(** The point [v] lies in the box from [lo] to [hi]. *)
Definition inside (lo hi v : point3) : Prop :=
  (fleb (at0 lo) (at0 v) = true /\ fleb (at0 v) (at0 hi) = true)
  /\ (fleb (at1 lo) (at1 v) = true /\ fleb (at1 v) (at1 hi) = true)
  /\ (fleb (at2 lo) (at2 v) = true /\ fleb (at2 v) (at2 hi) = true).

(** ** [parse_xyz_file] (xyz_to_openfoam.py)

    The array of shape [(n_points, 3)] is the list of its rows. *)

Fixpoint zip3 (xs ys zs : list pyfloat) : list point3 :=
  match xs, ys, zs with
  | x :: xs, y :: ys, z :: zs => (x, y, z) :: zip3 xs ys zs
  | _, _, _ => []
  end.

Definition parse_xyz_file (filename : file) : result (list point3 * (Z * Z * Z)) :=
  text <- open_r filename ;;
  let lines := splitlines text in
  (* version/type (line 1) *)
  l0 <- getitem lines 0 ;;
  version <- py_int (strip l0) ;;
  (* dimensions (line 2) *)
  l1 <- getitem lines 1 ;;
  dims <- map_result py_int (split (strip l1)) ;;
  match dims with
  | [nx; ny; nz] =>
      let n_points := (nx * ny * nz)%Z in
      (* coordinates (lines 3, 4, 5) *)
      l2 <- getitem lines 2 ;;
      x_coords <- map_result py_float (split (strip l2)) ;;
      l3 <- getitem lines 3 ;;
      y_coords <- map_result py_float (split (strip l3)) ;;
      l4 <- getitem lines 4 ;;
      z_coords <- map_result py_float (split (strip l4)) ;;
      if negb (Z.of_nat (length x_coords) =? n_points)%Z then Err ValueError
      else if negb (Z.of_nat (length y_coords) =? n_points)%Z then Err ValueError
      else if negb (Z.of_nat (length z_coords) =? n_points)%Z then Err ValueError
      else
        let points := zip3 x_coords y_coords z_coords in
        (* the ranges printed: [np.min] of an empty list raises ValueError *)
        if (n_points =? 0)%Z then Err ValueError
        else Ok (points, (nx, ny, nz))
  | _ => Err ValueError
  end.

(** The unit-triangle file without its last byte (the file ends inside the
    attribute of the triangle). *)
Definition clipped_stl_bytes : bytes :=
  firstn 133 (binary_stl zero_header unit_triangle).

(** The token of sample [i] of [n] on an axis without bounds: [nan], and
    [-inf] for the last sample. *)
Definition unbounded_token (n i : nat) : str :=
  if (i =? n - 1)%nat then lit "-inf" else lit "nan".

(** The text of a two-block file as [writeFFDFile] lays it out: the last
    channel of the first block and the first channel of the second block
    share a line. *)
Definition ffd_text2 (dims : list Z) (xs0 ys0 zs0 xs1 ys1 zs1 : list str) : str :=
  lit "2" ++ [LF]
  ++ spaced_line (map format_d dims) ++ [LF]
  ++ spaced_line xs0 ++ [LF]
  ++ spaced_line ys0 ++ [LF]
  ++ spaced_line (zs0 ++ xs1) ++ [LF]
  ++ spaced_line ys1 ++ [LF]
  ++ spaced_line zs1.

(** A second block, 1 x 2 x 1. *)
Definition small_block : ndarray4 :=
  {| shape := (1%nat, 2%nat, 1%nat, 3%nat);
     data := fun i j k d => float_of_nat (j + d) |}.

(** A text file whose second vertex has a coordinate that is not a number. *)
Definition bad_vertex_file : bytes :=
  ascii_stl [OtherLine (lit "solid bad"); VertexLine 2 (lit "0") (lit "0") (lit "0")]
  ++ (render_line (VertexLine 2 (lit "1") (lit "one") (lit "0")) ++ [LF])
  ++ lit "endsolid bad".

(** ** [write_ascii_stl] and [convert_stl] (convert_bin_to_ascii.py) *)

(** How often [d] can be multiplied by ten and stay at most [n]. *)
Fixpoint exponent_up (fuel : nat) (n d : N) : nat :=
  match fuel with
  | O => O
  | S fuel' => if (10 * d <=? n)%N then S (exponent_up fuel' n (10 * d)) else O
  end.

(** How often [n] must be multiplied by ten to reach [d]. *)
Fixpoint exponent_down (fuel : nat) (n d : N) : nat :=
  match fuel with
  | O => O
  | S fuel' => if (n <? d)%N then S (exponent_down fuel' (10 * n) d) else O
  end.

(** The decimal exponent of a rational that is not zero: the [e] with
    [10^e <= |q| < 10^(e+1)]. *)
Definition decimal_exponent (q : Q) : Z :=
  let n := Z.to_N (Z.abs (Qnum q)) in
  let d := Npos (Qden q) in
  if (d <=? n)%N then Z.of_nat (exponent_up (N.to_nat (N.size n)) n d)
  else (- Z.of_nat (exponent_down (N.to_nat (N.size d)) n d))%Z.

(** The seven significant digits, as an integer, and the exponent that
    ['.6e'] prints: [|q| / 10^(e-6)] rounded to an integer, ties to even, and
    one more power of ten when the rounding reaches [10^7]. *)
Definition sci_parts (q : Qc) : N * Z :=
  if Qc_eqb q 0 then (0%N, 0%Z)
  else
    let e := decimal_exponent q in
    let m := Z.to_N (round_half_even (Qabs q * Qpower (inject_Z 10) (6 - e))) in
    if (m =? 10000000)%N then (1000000%N, (e + 1)%Z) else (m, e).

(** [f"{v:.6e}"]: one digit, six decimals, and an exponent of at least two
    digits with its sign (a zero is printed without a sign). *)
Definition format_e (v : pyfloat) : str :=
  match v with
  | NaN => lit "nan"
  | Inf neg => if neg then lit "-inf" else lit "inf"
  | Fin q =>
      let '(m, e) := sci_parts q in
      (if Qc_ltb q 0 then ["-"%char] else [])
      ++ decimal (m / 1000000) ++ ["."%char] ++ fixed_digits 6 m
      ++ ["e"%char; if (e <? 0)%Z then "-"%char else "+"%char]
      ++ (if (Z.abs e <? 10)%Z then ["0"%char] else []) ++ decimal (Z.to_N (Z.abs e))
  end.

(** The three numbers of a vector, separated by single spaces. *)
Definition format_vec (v : point3) : str :=
  format_e (at0 v) ++ [SP] ++ format_e (at1 v) ++ [SP] ++ format_e (at2 v).

(** The text written for one triangle (lines 43-52). *)
Definition write_facet (f : str) (tri : triangle) : str :=
  let f := f ++ lit "  facet normal " ++ format_vec (normal tri) ++ [LF] in
  let f := f ++ lit "    outer loop" ++ [LF] in
  let f := fold_left (fun f vertex => f ++ lit "      vertex " ++ format_vec vertex ++ [LF])
                     (vertices tri) f in
  let f := f ++ lit "    endloop" ++ [LF] in
  f ++ lit "  endfacet" ++ [LF].

(** The content of the file that [write_ascii_stl] writes ([solid_name] is
    ASCII text). *)
Definition write_ascii_stl (triangles : list triangle) (solid_name : str) : str :=
  let f := lit "solid " ++ solid_name ++ [LF] in
  let f := fold_left write_facet triangles f in
  f ++ lit "endsolid " ++ solid_name ++ [LF].

(** [convert_stl]: the content of the output file, for an input file whose
    path has the stem [stem]. *)
Definition convert_stl (input_file : file) (stem : str) : result bytes :=
  match input_file with
  | None => Err FileNotFoundError
  | Some _ =>
      triangles <- read_binary_stl input_file ;;
      Ok (write_ascii_stl triangles stem)
  end.

(** The value that ['.6e'] prints for [v]: [v] rounded to seven significant
    digits. *)
Definition round7 (v : pyfloat) : pyfloat :=
  match v with
  | Fin q =>
      let '(m, e) := sci_parts q in
      let r := (inject_Z (Z.of_N m) * Qpower (inject_Z 10) (e - 6))%Q in
      Fin (Q2Qc (if Qc_ltb q 0 then - r else r))
  | _ => v
  end.

Definition round7_point (p : point3) : point3 :=
  (round7 (at0 p), round7 (at1 p), round7 (at2 p)).

Definition round7_bounds (b : bounds) : bounds :=
  (round7_point (fst b), round7_point (snd b)).

(** [r] is [v] up to a relative error of half a unit of the seventh digit
    (and equal to it when [v] is not finite). *)
Definition close7 (v r : pyfloat) : Prop :=
  match v, r with
  | Fin p, Fin q => (Qabs (q - p) <= (1 # 2000000) * Qabs p)%Q
  | NaN, NaN => True
  | Inf s, Inf s' => s = s'
  | _, _ => False
  end.

Definition close7_point (p r : point3) : Prop :=
  close7 (at0 p) (at0 r) /\ close7 (at1 p) (at1 r) /\ close7 (at2 p) (at2 r).

(** A rational that is not zero, rounded to seven significant digits, sign
    apart. *)
Definition sig7 (q : Q) : Q :=
  (inject_Z (round_half_even (Qabs q * Qpower (inject_Z 10) (6 - decimal_exponent q)))
   * Qpower (inject_Z 10) (decimal_exponent q - 6))%Q.

(** The lines written for one triangle. *)
Definition vertex_line (v : point3) : stl_line :=
  VertexLine 6 (format_e (at0 v)) (format_e (at1 v)) (format_e (at2 v)).

Definition facet_lines (tri : triangle) : list stl_line :=
  [OtherLine (lit "  facet normal " ++ format_vec (normal tri));
   OtherLine (lit "    outer loop")]
  ++ map vertex_line (vertices tri)
  ++ [OtherLine (lit "    endloop"); OtherLine (lit "  endfacet")].

(** The lines of the file that [write_ascii_stl] writes. *)
Definition converted_lines (triangles : list triangle) (solid_name : str) : list stl_line :=
  OtherLine (lit "solid " ++ solid_name)
  :: flat_map facet_lines triangles
  ++ [OtherLine (lit "endsolid " ++ solid_name)].

(** The file [writeFFDFile] writes for the two blocks [p0] and [p1]. *)
Definition two_block_text (p0 p1 : ndarray4) (nx0 ny0 nz0 nx1 ny1 nz1 : nat) : str :=
  ffd_text2 [Z.of_nat nx0; Z.of_nat ny0; Z.of_nat nz0;
             Z.of_nat nx1; Z.of_nat ny1; Z.of_nat nz1]
    (map format_f (channel p0 nx0 ny0 nz0 0)) (map format_f (channel p0 nx0 ny0 nz0 1))
    (map format_f (channel p0 nx0 ny0 nz0 2))
    (map format_f (channel p1 nx1 ny1 nz1 0)) (map format_f (channel p1 nx1 ny1 nz1 1))
    (map format_f (channel p1 nx1 ny1 nz1 2)).

(** A point as the file shows it: each coordinate rounded to six decimals. *)
Definition round6_point (p : point3) : point3 :=
  (round6 (at0 p), round6 (at1 p), round6 (at2 p)).

Definition millionth : Qc := Q2Qc (1 # 1000000).

(** ** Rounded arithmetic

    The arithmetic of binary64 without its exponent limits: the result of
    every operation is rounded to 53 significant bits, ties to even.
    Overflow to an infinity, gradual underflow and the sign of zero are not
    modelled. *)

(** The binary exponent of a rational that is not zero: the [e] with
    [2^e <= |q| < 2^(e+1)]. *)
Definition binary_exponent (q : Q) : Z :=
  let e := (Z.log2 (Z.abs (Qnum q)) - Z.log2 (Zpos (Qden q)))%Z in
  if Qle_bool (Qpower (inject_Z 2) e) (Qabs q) then e else (e - 1)%Z.

(** Rounding to 53 significant bits, ties to even. *)
Definition round53 (q : Qc) : Qc :=
  if Qc_eqb q 0 then 0%Qc
  else
    let e := binary_exponent q in
    let m := round_half_even (Qabs q * Qpower (inject_Z 2) (52 - e)) in
    let r := (inject_Z m * Qpower (inject_Z 2) (e - 52))%Q in
    Q2Qc (if Qc_ltb q 0 then - r else r).

Definition rnd (v : pyfloat) : pyfloat :=
  match v with
  | Fin q => Fin (round53 q)
  | _ => v
  end.


Module Rounded.

Definition fadd (a b : pyfloat) : pyfloat := rnd (fadd a b).
Definition fsub (a b : pyfloat) : pyfloat := rnd (fsub a b).
Definition fmul (a b : pyfloat) : pyfloat := rnd (fmul a b).
Definition fdiv (a b : pyfloat) : pyfloat := rnd (fdiv a b).

(** [numpy.linspace], as in the exact model, every operation rounded. *)
Definition np_linspace (start stop : pyfloat) (num : Z) : result (list pyfloat) :=
  if (num <? 0)%Z then Err ValueError
  else
    let div := (num - 1)%Z in
    let delta := fsub stop start in
    let y := np_arange num in
    let y :=
      if (0 <? div)%Z then
        let step := fdiv delta (float_of_Z div) in
        if feqb step fzero
        then map (fun v => fmul (fdiv v (float_of_Z div)) delta) y
        else map (fun v => fmul v step) y
      else map (fun v => fmul v delta) y in
    let y := map (fun v => fadd v start) y in
    Ok (if (1 <? num)%Z then set_last y stop else y).

(** [returnBlockPoints] (genXYZ.py) over the rounded [linspace]. *)
Definition returnBlockPoints (corners : corner_set) (nx ny nz : Z)
  : result ndarray4 :=
  points <- np_zeros4 nx ny nz 3 ;;
  for_each (py_range 3) points (fun idim points =>
    c0 <- corner corners 0 idim ;; c3 <- corner corners 3 idim ;;
    edge_yMin_xMin <- np_linspace c0 c3 nz ;;
    c1 <- corner corners 1 idim ;; c2 <- corner corners 2 idim ;;
    edge_yMin_xMax <- np_linspace c1 c2 nz ;;
    c4 <- corner corners 4 idim ;; c7 <- corner corners 7 idim ;;
    edge_yMax_xMin <- np_linspace c4 c7 nz ;;
    c5 <- corner corners 5 idim ;; c6 <- corner corners 6 idim ;;
    edge_yMax_xMax <- np_linspace c5 c6 nz ;;
    for_each (py_range nz) points (fun k points =>
      a <- getitem edge_yMin_xMin k ;; b <- getitem edge_yMin_xMax k ;;
      edge_yMin <- np_linspace a b nx ;;
      a <- getitem edge_yMax_xMin k ;; b <- getitem edge_yMax_xMax k ;;
      edge_yMax <- np_linspace a b nx ;;
      for_each (py_range nx) points (fun i points =>
        a <- getitem edge_yMin i ;; b <- getitem edge_yMax i ;;
        edge_y <- np_linspace a b ny ;;
        setitem_col points i k idim edge_y))).

End Rounded.





(** * Properties *)

(** * Basic facts *)

Lemma Qc_eqb_eq (p q : Qc) : Qc_eqb p q = true <-> p = q.
Proof.
  unfold Qc_eqb. rewrite Qceq_alt. destruct (p ?= q)%Qc; split; congruence.
Qed.

Lemma Qc_eqb_refl (p : Qc) : Qc_eqb p p = true.
Proof. now apply Qc_eqb_eq. Qed.

Lemma Qc_eqb_neq (p q : Qc) : Qc_eqb p q = false <-> p <> q.
Proof.
  rewrite <- Qc_eqb_eq. destruct (Qc_eqb p q); split; congruence.
Qed.

Lemma Qc_ltb_lt (p q : Qc) : Qc_ltb p q = true <-> (p < q)%Qc.
Proof.
  unfold Qc_ltb. rewrite Qclt_alt. destruct (p ?= q)%Qc; split; congruence.
Qed.

Lemma Qc_ltb_ge (p q : Qc) : Qc_ltb p q = false <-> (q <= p)%Qc.
Proof.
  split; intros H.
  - apply Qcnot_lt_le. intros C. apply Qc_ltb_lt in C. congruence.
  - destruct (Qc_ltb p q) eqn:E; [|reflexivity].
    apply Qc_ltb_lt in E. exfalso. now apply (Qcle_not_lt _ _ H).
Qed.

Lemma Qc_of_nat_inj (n m : nat) : Qc_of_nat n = Qc_of_nat m -> n = m.
Proof.
  unfold Qc_of_nat. intros H. apply Q2Qc_eq_iff in H.
  unfold Qeq in H. simpl in H. lia.
Qed.

Lemma Qc_of_nat_nonzero (n : nat) : (0 < n)%nat -> Qc_of_nat n <> 0%Qc.
Proof.
  intros H C. change 0%Qc with (Qc_of_nat 0) in C.
  apply Qc_of_nat_inj in C. lia.
Qed.

Lemma float_of_nat_Qc (n : nat) : float_of_nat n = Fin (Qc_of_nat n).
Proof. reflexivity. Qed.

Lemma float_of_Z_pred (n : nat) :
  (1 <= n)%nat -> float_of_Z (Z.of_nat n - 1) = Fin (Qc_of_nat (n - 1)).
Proof.
  intros H. unfold float_of_Z, Qc_of_nat. do 3 f_equal. lia.
Qed.

(** * [for_each] and [range] *)

Lemma py_range_nat (n : nat) : py_range (Z.of_nat n) = seq 0 n.
Proof. unfold py_range. now rewrite Nat2Z.id. Qed.

Lemma for_each_app {I S : Type} (l1 l2 : list I) (s : S) body :
  for_each (l1 ++ l2) s body = (s' <- for_each l1 s body ;; for_each l2 s' body).
Proof.
  revert s. induction l1 as [|i l1 IH]; intros s; simpl; [reflexivity|].
  destruct (body i s); simpl; auto.
Qed.

(** Loop invariant rule for [for t in range(n)]. *)
Lemma for_each_range_inv {S : Type} (Inv : nat -> S -> Prop) (n : nat) body (s0 : S) :
  Inv 0%nat s0 ->
  (forall t s, (t < n)%nat -> Inv t s -> exists s', body t s = Ok s' /\ Inv (Datatypes.S t) s') ->
  exists s', for_each (seq 0 n) s0 body = Ok s' /\ Inv n s'.
Proof.
  intros H0 Hstep. induction n as [|n IH].
  - exists s0. split; [reflexivity|assumption].
  - destruct IH as (s1 & E1 & I1); [intros; apply Hstep; [lia|assumption]|].
    rewrite seq_S, for_each_app, E1. simpl.
    destruct (Hstep n s1) as (s2 & E2 & I2); [lia|assumption|].
    exists s2. rewrite E2. simpl. split; [reflexivity|assumption].
Qed.

(** * [numpy.linspace] on finite endpoints *)

Lemma set_last_snoc {A : Type} (l : list A) (x v : A) :
  set_last (l ++ [x]) v = l ++ [v].
Proof.
  induction l as [|y l IH]; [reflexivity|].
  simpl. rewrite IH. destruct (l ++ [x]) eqn:E; [|reflexivity].
  destruct l; discriminate.
Qed.

Lemma lerp_param_last (a b : Qc) (n : nat) :
  (2 <= n)%nat -> lerp a b (param (n - 1) n) = b.
Proof.
  intros H. unfold lerp, param.
  assert (Qc_of_nat (n - 1) <> 0%Qc) by (apply Qc_of_nat_nonzero; lia).
  field. assumption.
Qed.

Lemma linspace_sample (a b : Qc) (n i : nat) :
  (2 <= n)%nat ->
  fadd (fmul (float_of_nat i) (fdiv (fsub (Fin b) (Fin a)) (float_of_Z (Z.of_nat n - 1))))
       (Fin a) = Fin (lerp a b (param i n)).
Proof.
  intros H. rewrite float_of_Z_pred by lia. rewrite float_of_nat_Qc. simpl.
  assert (N : Qc_of_nat (n - 1) <> 0%Qc) by (apply Qc_of_nat_nonzero; lia).
  apply Qc_eqb_neq in N. rewrite N. simpl. f_equal.
  apply Qc_eqb_neq in N. unfold lerp, param. field. assumption.
Qed.

Lemma linspace_sample_zero_step (a b : Qc) (n i : nat) :
  (2 <= n)%nat ->
  feqb (fdiv (fsub (Fin b) (Fin a)) (float_of_Z (Z.of_nat n - 1))) fzero = true ->
  fadd (fmul (fdiv (float_of_nat i) (float_of_Z (Z.of_nat n - 1))) (fsub (Fin b) (Fin a)))
       (Fin a) = Fin (lerp a b (param i n)).
Proof.
  intros H. rewrite float_of_Z_pred by lia. rewrite float_of_nat_Qc. simpl.
  assert (N : Qc_of_nat (n - 1) <> 0%Qc) by (apply Qc_of_nat_nonzero; lia).
  apply Qc_eqb_neq in N. rewrite N. simpl. intros _. f_equal.
  apply Qc_eqb_neq in N. unfold lerp, param. field. assumption.
Qed.

(** For [n >= 2] and finite endpoints, [linspace(a, b, n)[i]] is the linear
    interpolation of [a] and [b] at [i / (n - 1)]. *)
Lemma np_linspace_fin (a b : Qc) (n : nat) :
  (2 <= n)%nat ->
  np_linspace (Fin a) (Fin b) (Z.of_nat n)
  = Ok (map (fun i => Fin (lerp a b (param i n))) (seq 0 n)).
Proof.
  intros H. unfold np_linspace.
  replace (Z.of_nat n <? 0)%Z with false by (symmetry; apply Z.ltb_ge; lia).
  replace (0 <? Z.of_nat n - 1)%Z with true by (symmetry; apply Z.ltb_lt; lia).
  replace (1 <? Z.of_nat n)%Z with true by (symmetry; apply Z.ltb_lt; lia).
  unfold np_arange. rewrite py_range_nat. f_equal.
  assert (E : map (fun v => fadd v (Fin a))
    (if feqb (fdiv (fsub (Fin b) (Fin a)) (float_of_Z (Z.of_nat n - 1))) fzero
     then map (fun v => fmul (fdiv v (float_of_Z (Z.of_nat n - 1))) (fsub (Fin b) (Fin a)))
              (map float_of_nat (seq 0 n))
     else map (fun v => fmul v (fdiv (fsub (Fin b) (Fin a)) (float_of_Z (Z.of_nat n - 1))))
              (map float_of_nat (seq 0 n)))
    = map (fun i => Fin (lerp a b (param i n))) (seq 0 n)).
  { destruct (feqb _ fzero) eqn:Z; rewrite !map_map; apply map_ext; intros i.
    - now apply linspace_sample_zero_step.
    - now apply linspace_sample. }
  rewrite E. clear E.
  replace n with (Datatypes.S (n - 1)) at 1 2 by lia.
  rewrite !seq_S, !map_app. simpl. rewrite set_last_snoc.
  now rewrite lerp_param_last.
Qed.

(** * [returnBlockPoints] *)

Ltac bool_cases :=
  repeat match goal with
  | |- context [Nat.eqb ?a ?b] => destruct (Nat.eqb_spec a b)
  | |- context [Nat.ltb ?a ?b] => destruct (Nat.ltb_spec a b)
  end; simpl; try reflexivity; try lia.

Lemma getitem_map_seq {A : Type} (f : nat -> A) (n i : nat) :
  (i < n)%nat -> getitem (map f (seq 0 n)) i = Ok (f i).
Proof.
  intros H. unfold getitem.
  rewrite nth_error_map, nth_error_seq.
  destruct (Nat.ltb_spec i n); [reflexivity|lia].
Qed.

Lemma nth_map_seq {A : Type} (f : nat -> A) (n i : nat) (d : A) :
  (i < n)%nat -> nth i (map f (seq 0 n)) d = f i.
Proof.
  intros H. rewrite nth_indep with (d' := f 0%nat) by now rewrite length_map, length_seq.
  rewrite map_nth, seq_nth by assumption. reflexivity.
Qed.

Lemma corner_fin (c : qcorners) (n idim : nat) :
  (n < 8)%nat -> (idim < 3)%nat ->
  corner (fin_corners c) n idim = Ok (Fin (corner_q c n idim)).
Proof.
  intros Hn Hd.
  destruct c as [[[? ?] ?] [[? ?] ?] [[? ?] ?] [[? ?] ?]
                 [[? ?] ?] [[? ?] ?] [[? ?] ?] [[? ?] ?]].
  do 8 (destruct n as [|n]; [do 3 (destruct idim as [|idim]; [reflexivity|]); lia|]).
  lia.
Qed.

Section Loops.
Variables nx ny nz : nat.
Hypothesis Hnx : (2 <= nx)%nat.
Hypothesis Hny : (2 <= ny)%nat.
Hypothesis Hnz : (2 <= nz)%nat.

(** The loop over [i]: row [(., k, idim)] of the block is filled. *)
Lemma loop_i (points : ndarray4) (k idim : nat) (fmin fmax : nat -> Qc) :
  shape points = (nx, ny, nz, 3%nat) -> (k < nz)%nat -> (idim < 3)%nat ->
  exists points',
    for_each (seq 0 nx) points (fun i points =>
      a <- getitem (map (fun i => Fin (fmin i)) (seq 0 nx)) i ;;
      b <- getitem (map (fun i => Fin (fmax i)) (seq 0 nx)) i ;;
      edge_y <- np_linspace a b (Z.of_nat ny) ;;
      setitem_col points i k idim edge_y) = Ok points'
    /\ shape points' = (nx, ny, nz, 3%nat)
    /\ forall i' j' k' d',
         data points' i' j' k' d' =
         if ((k' =? k) && (d' =? idim) && (i' <? nx) && (j' <? ny))%nat
         then Fin (lerp (fmin i') (fmax i') (param j' ny))
         else data points i' j' k' d'.
Proof.
  intros Hs Hk Hd.
  destruct (@for_each_range_inv ndarray4
    (fun t s => shape s = (nx, ny, nz, 3%nat) /\
       forall i' j' k' d',
         data s i' j' k' d' =
         if ((k' =? k) && (d' =? idim) && (i' <? t) && (j' <? ny))%nat
         then Fin (lerp (fmin i') (fmax i') (param j' ny))
         else data points i' j' k' d')
    nx
    (fun i points =>
      a <- getitem (map (fun i => Fin (fmin i)) (seq 0 nx)) i ;;
      b <- getitem (map (fun i => Fin (fmax i)) (seq 0 nx)) i ;;
      edge_y <- np_linspace a b (Z.of_nat ny) ;;
      setitem_col points i k idim edge_y)
    points) as (p' & E & Hs' & Hd').
  - split; [assumption|]. intros. bool_cases.
  - intros t s Ht [Hss Hsd].
    rewrite !getitem_map_seq by assumption. simpl.
    rewrite np_linspace_fin by assumption. simpl.
    unfold setitem_col. rewrite Hss.
    rewrite length_map, length_seq.
    replace ((t <? nx)%nat && (k <? nz)%nat && (idim <? 3)%nat) with true
      by (symmetry; rewrite !andb_true_iff; repeat split; apply Nat.ltb_lt; assumption).
    rewrite Nat.eqb_refl. simpl.
    eexists. split; [reflexivity|]. simpl. split; [reflexivity|].
    intros i' j' k' d'. rewrite Hsd.
    destruct (Nat.eqb_spec i' t), (Nat.eqb_spec k' k), (Nat.eqb_spec d' idim),
             (Nat.ltb_spec j' ny), (Nat.ltb_spec i' t), (Nat.ltb_spec i' (S t));
      simpl; try reflexivity; try lia.
    subst. now rewrite nth_map_seq.
  - exists p'. auto.
Qed.

(** The loop over [k]: channel [idim] of the block is filled. *)
Lemma loop_k (points : ndarray4) (idim : nat) (e00 e01 e10 e11 : nat -> Qc) :
  shape points = (nx, ny, nz, 3%nat) -> (idim < 3)%nat ->
  exists points',
    for_each (seq 0 nz) points (fun k points =>
      a <- getitem (map (fun k => Fin (e00 k)) (seq 0 nz)) k ;;
      b <- getitem (map (fun k => Fin (e01 k)) (seq 0 nz)) k ;;
      edge_yMin <- np_linspace a b (Z.of_nat nx) ;;
      a <- getitem (map (fun k => Fin (e10 k)) (seq 0 nz)) k ;;
      b <- getitem (map (fun k => Fin (e11 k)) (seq 0 nz)) k ;;
      edge_yMax <- np_linspace a b (Z.of_nat nx) ;;
      for_each (py_range (Z.of_nat nx)) points (fun i points =>
        a <- getitem edge_yMin i ;; b <- getitem edge_yMax i ;;
        edge_y <- np_linspace a b (Z.of_nat ny) ;;
        setitem_col points i k idim edge_y)) = Ok points'
    /\ shape points' = (nx, ny, nz, 3%nat)
    /\ forall i' j' k' d',
         data points' i' j' k' d' =
         if ((d' =? idim) && (k' <? nz) && (i' <? nx) && (j' <? ny))%nat
         then Fin (lerp (lerp (e00 k') (e01 k') (param i' nx))
                        (lerp (e10 k') (e11 k') (param i' nx)) (param j' ny))
         else data points i' j' k' d'.
Proof.
  intros Hs Hd.
  destruct (@for_each_range_inv ndarray4
    (fun t s => shape s = (nx, ny, nz, 3%nat) /\
       forall i' j' k' d',
         data s i' j' k' d' =
         if ((d' =? idim) && (k' <? t) && (i' <? nx) && (j' <? ny))%nat
         then Fin (lerp (lerp (e00 k') (e01 k') (param i' nx))
                        (lerp (e10 k') (e11 k') (param i' nx)) (param j' ny))
         else data points i' j' k' d')
    nz
    (fun k points =>
      a <- getitem (map (fun k => Fin (e00 k)) (seq 0 nz)) k ;;
      b <- getitem (map (fun k => Fin (e01 k)) (seq 0 nz)) k ;;
      edge_yMin <- np_linspace a b (Z.of_nat nx) ;;
      a <- getitem (map (fun k => Fin (e10 k)) (seq 0 nz)) k ;;
      b <- getitem (map (fun k => Fin (e11 k)) (seq 0 nz)) k ;;
      edge_yMax <- np_linspace a b (Z.of_nat nx) ;;
      for_each (py_range (Z.of_nat nx)) points (fun i points =>
        a <- getitem edge_yMin i ;; b <- getitem edge_yMax i ;;
        edge_y <- np_linspace a b (Z.of_nat ny) ;;
        setitem_col points i k idim edge_y))
    points) as (p' & E & Hs' & Hd').
  - split; [assumption|]. intros. bool_cases.
  - intros t s Ht [Hss Hsd].
    rewrite !getitem_map_seq by assumption. simpl.
    rewrite !np_linspace_fin by assumption. simpl.
    rewrite py_range_nat.
    destruct (@loop_i s t idim
                (fun i => lerp (e00 t) (e01 t) (param i nx))
                (fun i => lerp (e10 t) (e11 t) (param i nx)) Hss Ht Hd)
      as (s' & E' & Hs' & Hd').
    exists s'. split; [exact E'|]. split; [assumption|].
    intros i' j' k' d'. rewrite Hd', Hsd.
    destruct (Nat.eqb_spec k' t), (Nat.eqb_spec d' idim), (Nat.ltb_spec i' nx),
             (Nat.ltb_spec j' ny), (Nat.ltb_spec k' t), (Nat.ltb_spec k' (S t));
      simpl; try reflexivity; try lia.
    subst. reflexivity.
  - exists p'. auto.
Qed.

(** The body of the loop over [idim]. *)
Lemma loop_idim_body (c : qcorners) (points : ndarray4) (idim : nat) :
  shape points = (nx, ny, nz, 3%nat) -> (idim < 3)%nat ->
  exists points',
    (c0 <- corner (fin_corners c) 0 idim ;; c3 <- corner (fin_corners c) 3 idim ;;
     edge_yMin_xMin <- np_linspace c0 c3 (Z.of_nat nz) ;;
     c1 <- corner (fin_corners c) 1 idim ;; c2 <- corner (fin_corners c) 2 idim ;;
     edge_yMin_xMax <- np_linspace c1 c2 (Z.of_nat nz) ;;
     c4 <- corner (fin_corners c) 4 idim ;; c7 <- corner (fin_corners c) 7 idim ;;
     edge_yMax_xMin <- np_linspace c4 c7 (Z.of_nat nz) ;;
     c5 <- corner (fin_corners c) 5 idim ;; c6 <- corner (fin_corners c) 6 idim ;;
     edge_yMax_xMax <- np_linspace c5 c6 (Z.of_nat nz) ;;
     for_each (py_range (Z.of_nat nz)) points (fun k points =>
       a <- getitem edge_yMin_xMin k ;; b <- getitem edge_yMin_xMax k ;;
       edge_yMin <- np_linspace a b (Z.of_nat nx) ;;
       a <- getitem edge_yMax_xMin k ;; b <- getitem edge_yMax_xMax k ;;
       edge_yMax <- np_linspace a b (Z.of_nat nx) ;;
       for_each (py_range (Z.of_nat nx)) points (fun i points =>
         a <- getitem edge_yMin i ;; b <- getitem edge_yMax i ;;
         edge_y <- np_linspace a b (Z.of_nat ny) ;;
         setitem_col points i k idim edge_y))) = Ok points'
    /\ shape points' = (nx, ny, nz, 3%nat)
    /\ forall i' j' k' d',
         data points' i' j' k' d' =
         if ((d' =? idim) && (k' <? nz) && (i' <? nx) && (j' <? ny))%nat
         then Fin (nested_lerp c nx ny nz i' j' k' idim)
         else data points i' j' k' d'.
Proof.
  intros Hs Hd.
  rewrite !corner_fin by (assumption || lia). simpl.
  rewrite !np_linspace_fin by assumption. simpl.
  rewrite py_range_nat.
  destruct (@loop_k points idim
    (fun k => lerp (corner_q c 0 idim) (corner_q c 3 idim) (param k nz))
    (fun k => lerp (corner_q c 1 idim) (corner_q c 2 idim) (param k nz))
    (fun k => lerp (corner_q c 4 idim) (corner_q c 7 idim) (param k nz))
    (fun k => lerp (corner_q c 5 idim) (corner_q c 6 idim) (param k nz))
    Hs Hd) as (p' & E & Hs' & Hd').
  exists p'. split; [exact E|]. split; [assumption|].
  intros. rewrite Hd'. reflexivity.
Qed.
End Loops.


Lemma np_zeros4_nat (nx ny nz nd : nat) :
  np_zeros4 (Z.of_nat nx) (Z.of_nat ny) (Z.of_nat nz) (Z.of_nat nd)
  = Ok {| shape := (nx, ny, nz, nd); data := fun _ _ _ _ => fzero |}.
Proof.
  unfold np_zeros4.
  replace ((Z.of_nat nx <? 0) || (Z.of_nat ny <? 0) || (Z.of_nat nz <? 0)
           || (Z.of_nat nd <? 0))%Z with false.
  - now rewrite !Nat2Z.id.
  - symmetry. rewrite !orb_false_iff. repeat split; apply Z.ltb_ge; lia.
Qed.

(** [returnBlockPoints] on finite corners and counts at least 2 returns the
    [nx x ny x nz x 3] array of nested interpolations. *)
Lemma returnBlockPoints_nested (c : qcorners) (nx ny nz : nat) :
  (2 <= nx)%nat -> (2 <= ny)%nat -> (2 <= nz)%nat ->
  exists points,
    returnBlockPoints (fin_corners c) (Z.of_nat nx) (Z.of_nat ny) (Z.of_nat nz)
    = Ok points
    /\ shape points = (nx, ny, nz, 3%nat)
    /\ forall i j k idim,
         (i < nx)%nat -> (j < ny)%nat -> (k < nz)%nat -> (idim < 3)%nat ->
         data points i j k idim = Fin (nested_lerp c nx ny nz i j k idim).
Proof.
  intros Hnx Hny Hnz. unfold returnBlockPoints.
  change 3%Z with (Z.of_nat 3). rewrite np_zeros4_nat. cbn [bind].
  change (py_range (Z.of_nat 3)) with (seq 0 3).
  set (p0 := {| shape := (nx, ny, nz, 3%nat); data := fun _ _ _ _ => fzero |}).
  destruct (@for_each_range_inv ndarray4
    (fun t s => shape s = (nx, ny, nz, 3%nat) /\
       forall i' j' k' d',
         data s i' j' k' d' =
         if ((d' <? t) && (k' <? nz) && (i' <? nx) && (j' <? ny))%nat
         then Fin (nested_lerp c nx ny nz i' j' k' d')
         else data p0 i' j' k' d')
    3%nat
    (fun idim points =>
       c0 <- corner (fin_corners c) 0 idim ;; c3 <- corner (fin_corners c) 3 idim ;;
       edge_yMin_xMin <- np_linspace c0 c3 (Z.of_nat nz) ;;
       c1 <- corner (fin_corners c) 1 idim ;; c2 <- corner (fin_corners c) 2 idim ;;
       edge_yMin_xMax <- np_linspace c1 c2 (Z.of_nat nz) ;;
       c4 <- corner (fin_corners c) 4 idim ;; c7 <- corner (fin_corners c) 7 idim ;;
       edge_yMax_xMin <- np_linspace c4 c7 (Z.of_nat nz) ;;
       c5 <- corner (fin_corners c) 5 idim ;; c6 <- corner (fin_corners c) 6 idim ;;
       edge_yMax_xMax <- np_linspace c5 c6 (Z.of_nat nz) ;;
       for_each (py_range (Z.of_nat nz)) points (fun k points =>
         a <- getitem edge_yMin_xMin k ;; b <- getitem edge_yMin_xMax k ;;
         edge_yMin <- np_linspace a b (Z.of_nat nx) ;;
         a <- getitem edge_yMax_xMin k ;; b <- getitem edge_yMax_xMax k ;;
         edge_yMax <- np_linspace a b (Z.of_nat nx) ;;
         for_each (py_range (Z.of_nat nx)) points (fun i points =>
           a <- getitem edge_yMin i ;; b <- getitem edge_yMax i ;;
           edge_y <- np_linspace a b (Z.of_nat ny) ;;
           setitem_col points i k idim edge_y)))
    p0) as (p' & E & Hs' & Hd').
  - split; [reflexivity|]. intros. reflexivity.
  - intros t s Ht [Hss Hsd].
    destruct (@loop_idim_body nx ny nz Hnx Hny Hnz c s t Hss Ht) as (s' & E' & Hs' & Hd').
    exists s'. split; [exact E'|]. split; [assumption|].
    intros i' j' k' d'. rewrite Hd', Hsd.
    destruct (Nat.eqb_spec d' t), (Nat.ltb_spec k' nz), (Nat.ltb_spec i' nx),
             (Nat.ltb_spec j' ny), (Nat.ltb_spec d' t), (Nat.ltb_spec d' (S t));
      simpl; try reflexivity; try lia.
    subst. reflexivity.
  - exists p'. split; [exact E|]. split; [assumption|].
    intros i j k idim Hi Hj Hk Hd. rewrite Hd'.
    replace ((idim <? 3)%nat && (k <? nz)%nat && (i <? nx)%nat && (j <? ny)%nat) with true.
    + reflexivity.
    + symmetry. rewrite !andb_true_iff. repeat split; apply Nat.ltb_lt; assumption.
Qed.

(** * Loops that append *)

Lemma for_each_ext {I S : Type} (l : list I) (s : S) body body' :
  (forall i s, In i l -> body i s = body' i s) ->
  for_each l s body = for_each l s body'.
Proof.
  revert s. induction l as [|i l IH]; intros s H; simpl; [reflexivity|].
  rewrite H by (left; reflexivity). destruct (body' i s); simpl; [|reflexivity].
  apply IH. intros. apply H. now right.
Qed.

(** A loop whose body appends [F i] to the accumulator appends the
    concatenation of the [F i]. *)
Lemma for_each_append {I A : Type} (l : list I) (acc : list A) body (F : I -> list A) :
  (forall i acc, In i l -> body i acc = Ok (acc ++ F i)) ->
  for_each l acc body = Ok (acc ++ flat_map F l).
Proof.
  revert acc. induction l as [|i l IH]; intros acc H; simpl.
  - now rewrite app_nil_r.
  - rewrite H by (left; reflexivity). simpl.
    rewrite IH by (intros; apply H; now right).
    now rewrite app_assoc.
Qed.

(** * The flattening order *)

Lemma flat_map_length_const {I A : Type} (F : I -> list A) (l : list I) (n : nat) :
  (forall x, In x l -> length (F x) = n) ->
  length (flat_map F l) = (length l * n)%nat.
Proof.
  induction l as [|x l IH]; intros H; simpl; [reflexivity|].
  rewrite length_app, (H x) by (left; reflexivity).
  rewrite IH by (intros; apply H; now right). lia.
Qed.

Lemma nth_flat_map_const {I A : Type} (F : I -> list A) (l : list I) (n j i : nat)
      (d : A) (dI : I) :
  (forall x, In x l -> length (F x) = n) ->
  (j < length l)%nat -> (i < n)%nat ->
  nth (j * n + i) (flat_map F l) d = nth i (F (nth j l dI)) d.
Proof.
  revert j. induction l as [|x l IH]; intros j H Hj Hi; simpl in *; [lia|].
  destruct j as [|j].
  - simpl. rewrite app_nth1 by (rewrite H; auto). reflexivity.
  - rewrite app_nth2 by (rewrite H by auto; simpl; lia).
    rewrite H by auto.
    replace (S j * n + i - n)%nat with (j * n + i)%nat by (simpl; lia).
    apply IH; auto. lia.
Qed.

Lemma block_offset_lt (n m j i : nat) :
  (j < m)%nat -> (i < n)%nat -> (j * n + i < m * n)%nat.
Proof.
  intros Hj Hi. apply Nat.lt_le_trans with (S j * n)%nat; [simpl; lia|].
  apply Nat.mul_le_mono_r. lia.
Qed.

Lemma flat_offset_lt (nx ny nz i j k : nat) :
  (i < nx)%nat -> (j < ny)%nat -> (k < nz)%nat ->
  (flat_offset nx ny i j k < nx * ny * nz)%nat.
Proof.
  intros Hi Hj Hk. unfold flat_offset.
  pose proof (block_offset_lt nx ny j i Hj Hi).
  pose proof (block_offset_lt (ny * nx) nz k (j * nx + i) Hk H).
  lia.
Qed.

Lemma flat_order_length {A : Type} (nx ny nz : nat) (f : nat -> nat -> nat -> A) :
  length (flat_order nx ny nz f) = (nx * ny * nz)%nat.
Proof.
  unfold flat_order.
  rewrite flat_map_length_const with (n := (ny * nx)%nat).
  - rewrite length_seq. lia.
  - intros k _. rewrite flat_map_length_const with (n := nx).
    + now rewrite length_seq.
    + intros j _. now rewrite length_map, length_seq.
Qed.

(** Lattice index [(i, j, k)] sits at offset [k*ny*nx + j*nx + i]. *)
Lemma flat_order_nth {A : Type} (nx ny nz : nat) (f : nat -> nat -> nat -> A)
      (i j k : nat) (d : A) :
  (i < nx)%nat -> (j < ny)%nat -> (k < nz)%nat ->
  nth (flat_offset nx ny i j k) (flat_order nx ny nz f) d = f i j k.
Proof.
  intros Hi Hj Hk. unfold flat_order, flat_offset.
  replace (k * ny * nx + j * nx + i)%nat with (k * (ny * nx) + (j * nx + i))%nat by lia.
  rewrite nth_flat_map_const with (n := (ny * nx)%nat) (dI := 0%nat).
  - rewrite seq_nth by assumption. simpl.
    rewrite nth_flat_map_const with (n := nx) (dI := 0%nat).
    + rewrite seq_nth by assumption. simpl.
      apply (nth_map_seq (fun i0 => f i0 j k) nx i d Hi).
    + intros x _. now rewrite length_map, length_seq.
    + now rewrite length_seq.
    + assumption.
  - intros x _. rewrite flat_map_length_const with (n := nx).
    + now rewrite length_seq.
    + intros y _. now rewrite length_map, length_seq.
  - now rewrite length_seq.
  - now apply block_offset_lt.
Qed.

Lemma flat_order_nth_error {A : Type} (nx ny nz : nat) (f : nat -> nat -> nat -> A)
      (i j k : nat) :
  (i < nx)%nat -> (j < ny)%nat -> (k < nz)%nat ->
  nth_error (flat_order nx ny nz f) (flat_offset nx ny i j k) = Some (f i j k).
Proof.
  intros Hi Hj Hk.
  assert (L : (flat_offset nx ny i j k < length (flat_order nx ny nz f))%nat).
  { rewrite flat_order_length. now apply flat_offset_lt. }
  rewrite (nth_error_nth' _ (f i j k) L). f_equal. now apply flat_order_nth.
Qed.

Lemma map_flat_map {I A B : Type} (g : A -> B) (F : I -> list A) (l : list I) :
  map g (flat_map F l) = flat_map (fun x => map g (F x)) l.
Proof.
  induction l as [|x l IH]; simpl; [reflexivity|]. now rewrite map_app, IH.
Qed.

Lemma flat_order_map {A B : Type} (g : A -> B) (nx ny nz : nat) f :
  map g (flat_order nx ny nz f) = flat_order nx ny nz (fun i j k => g (f i j k)).
Proof.
  unfold flat_order. rewrite map_flat_map. apply flat_map_ext. intros k.
  rewrite map_flat_map. apply flat_map_ext. intros j. now rewrite map_map.
Qed.

Lemma flat_map_in_ext {I A : Type} (F G : I -> list A) (l : list I) :
  (forall x, In x l -> F x = G x) -> flat_map F l = flat_map G l.
Proof.
  induction l as [|x l IH]; intros H; simpl; [reflexivity|].
  rewrite (H x) by (left; reflexivity).
  rewrite IH by (intros; apply H; now right). reflexivity.
Qed.

(** Two lattices that agree at every index have the same flattening. *)
Lemma flat_order_ext {A : Type} (nx ny nz : nat) (f g : nat -> nat -> nat -> A) :
  (forall i j k, (i < nx)%nat -> (j < ny)%nat -> (k < nz)%nat -> f i j k = g i j k) ->
  flat_order nx ny nz f = flat_order nx ny nz g.
Proof.
  intros H. unfold flat_order.
  apply flat_map_in_ext. intros k Hk. apply in_seq in Hk.
  apply flat_map_in_ext. intros j Hj. apply in_seq in Hj.
  apply map_ext_in. intros i Hi. apply in_seq in Hi.
  apply H; lia.
Qed.

Lemma flat_map_singleton {I A : Type} (g : I -> A) (l : list I) :
  flat_map (fun x => [g x]) l = map g l.
Proof. induction l; simpl; congruence. Qed.

(** * [coord_list] *)

Lemma coord_list_ok (nx ny nz : nat) pick (f : nat -> nat -> nat -> pyfloat) :
  (forall i j k, (i < nx)%nat -> (j < ny)%nat -> (k < nz)%nat -> pick i j k = Ok (f i j k)) ->
  coord_list (Z.of_nat nx) (Z.of_nat ny) (Z.of_nat nz) pick
  = Ok (flat_order nx ny nz (fun i j k => format_f (f i j k))).
Proof.
  intros H. unfold coord_list. rewrite !py_range_nat.
  rewrite for_each_append with
    (F := fun k => flat_map (fun j => map (fun i => format_f (f i j k)) (seq 0 nx)) (seq 0 ny)).
  { reflexivity. }
  intros k acc Hk. apply in_seq in Hk.
  apply for_each_append with
    (F := fun j => map (fun i => format_f (f i j k)) (seq 0 nx)).
  intros j acc' Hj. apply in_seq in Hj.
  rewrite for_each_append with (F := fun i => [format_f (f i j k)]).
  { now rewrite flat_map_singleton. }
  intros i acc'' Hi. apply in_seq in Hi.
  rewrite H by lia. reflexivity.
Qed.

(** * [numpy.linspace] in general *)

Lemma set_last_length {A : Type} (l : list A) (v : A) :
  length (set_last l v) = length l.
Proof.
  induction l as [|x l IH]; [reflexivity|].
  simpl. destruct l; [reflexivity|]. simpl in *. now rewrite IH.
Qed.

(** A non-negative count is never rejected, and gives that many samples. *)
Lemma np_linspace_nat (a b : pyfloat) (n : nat) :
  exists l, np_linspace a b (Z.of_nat n) = Ok l /\ length l = n.
Proof.
  unfold np_linspace.
  replace (Z.of_nat n <? 0)%Z with false by (symmetry; apply Z.ltb_ge; lia).
  eexists. split; [reflexivity|].
  assert (L : length (np_arange (Z.of_nat n)) = n).
  { unfold np_arange. now rewrite length_map, py_range_nat, length_seq. }
  destruct (1 <? Z.of_nat n)%Z; [rewrite set_last_length|];
    rewrite length_map;
    destruct (0 <? Z.of_nat n - 1)%Z; try destruct (feqb _ fzero);
    now rewrite length_map.
Qed.

Lemma np_linspace_negative (a b : pyfloat) (num : Z) :
  (num < 0)%Z -> np_linspace a b num = Err ValueError.
Proof.
  intros H. unfold np_linspace.
  now replace (num <? 0)%Z with true by (symmetry; apply Z.ltb_lt; lia).
Qed.

(** With a single sample, the sample is the start value. *)
Lemma np_linspace_one (a b : Qc) : np_linspace (Fin a) (Fin b) 1 = Ok [Fin a].
Proof.
  assert (H : fadd (fmul (float_of_nat 0) (fsub (Fin b) (Fin a))) (Fin a) = Fin a).
  { rewrite float_of_nat_Qc. simpl. f_equal. change (Qc_of_nat 0) with 0%Qc. ring. }
  unfold np_linspace.
  change (1 <? 0)%Z with false. change (0 <? 1 - 1)%Z with false.
  change (1 <? 1)%Z with false. unfold np_arange, py_range.
  change (Z.to_nat 1) with 1%nat. cbn [seq map]. now rewrite H.
Qed.

Lemma getitem_nth {A : Type} (l : list A) (i : nat) (d : A) :
  (i < length l)%nat -> getitem l i = Ok (nth i l d).
Proof.
  intros H. unfold getitem. now rewrite (nth_error_nth' l d H).
Qed.

(** * [generate_ffd_box] *)

(** The file written for given geometry bounds and non-negative counts. *)
Lemma generate_ffd_box_text (stl_file : file) (nx ny nz : nat)
      (offset_x offset_y offset_z : pyfloat) (x_start x_end : option pyfloat)
      (min_point max_point : point3) (x_coords y_coords z_coords : list pyfloat) :
  get_stl_bounds stl_file = Ok (min_point, max_point) ->
  let '((x_min, x_max), (y_min, y_max), (z_min, z_max)) :=
    ffd_box_bounds min_point max_point offset_x offset_y offset_z x_start x_end in
  np_linspace x_min x_max (Z.of_nat nx) = Ok x_coords ->
  np_linspace y_min y_max (Z.of_nat ny) = Ok y_coords ->
  np_linspace z_min z_max (Z.of_nat nz) = Ok z_coords ->
  generate_ffd_box stl_file (Z.of_nat nx) (Z.of_nat ny) (Z.of_nat nz)
                   offset_x offset_y offset_z x_start x_end
  = Ok (plot3d_text (Z.of_nat nx) (Z.of_nat ny) (Z.of_nat nz)
          (flat_order nx ny nz (fun i j k => format_f (nth i x_coords NaN)))
          (flat_order nx ny nz (fun i j k => format_f (nth j y_coords NaN)))
          (flat_order nx ny nz (fun i j k => format_f (nth k z_coords NaN)))).
Proof.
  intros Hb.
  destruct (ffd_box_bounds min_point max_point offset_x offset_y offset_z x_start x_end)
    as [[[x_min x_max] [y_min y_max]] [z_min z_max]] eqn:E.
  intros Hx Hy Hz.
  assert (Lx : length x_coords = nx).
  { destruct (np_linspace_nat x_min x_max nx) as (l & El & Ll). congruence. }
  assert (Ly : length y_coords = ny).
  { destruct (np_linspace_nat y_min y_max ny) as (l & El & Ll). congruence. }
  assert (Lz : length z_coords = nz).
  { destruct (np_linspace_nat z_min z_max nz) as (l & El & Ll). congruence. }
  unfold generate_ffd_box. rewrite Hb. cbn [bind]. rewrite E, Hx, Hy, Hz. cbn [bind].
  rewrite (coord_list_ok nx ny nz _ (fun i j k => nth i x_coords NaN))
    by (intros; apply getitem_nth; lia).
  rewrite (coord_list_ok nx ny nz _ (fun i j k => nth j y_coords NaN))
    by (intros; apply getitem_nth; lia).
  rewrite (coord_list_ok nx ny nz _ (fun i j k => nth k z_coords NaN))
    by (intros; apply getitem_nth; lia).
  cbn [bind]. unfold plot3d_text. f_equal.
  repeat rewrite <- app_assoc. reflexivity.
Qed.

(** * [writeFFDFile] *)

Lemma flat_map_flat_map {I A B : Type} (g : A -> list B) (F : I -> list A) (l : list I) :
  flat_map g (flat_map F l) = flat_map (fun x => flat_map g (F x)) l.
Proof.
  induction l as [|x l IH]; simpl; [reflexivity|].
  now rewrite flat_map_app, IH.
Qed.

Lemma flat_map_map {I A B : Type} (g : A -> list B) (f : I -> A) (l : list I) :
  flat_map g (map f l) = flat_map (fun x => g (f x)) l.
Proof. induction l; simpl; congruence. Qed.

Lemma getitem4_data (points : ndarray4) (nx ny nz nd i j k d : nat) :
  shape points = (nx, ny, nz, nd) ->
  (i < nx)%nat -> (j < ny)%nat -> (k < nz)%nat -> (d < nd)%nat ->
  getitem4 points i j k d = Ok (data points i j k d).
Proof.
  intros Hs Hi Hj Hk Hd. unfold getitem4. rewrite Hs.
  replace ((i <? nx)%nat && (j <? ny)%nat && (k <? nz)%nat && (d <? nd)%nat) with true.
  - reflexivity.
  - symmetry. rewrite !andb_true_iff. repeat split; now apply Nat.ltb_lt.
Qed.

Lemma write_channel_ok (points : ndarray4) (nx ny nz nd d : nat) (f : str) :
  shape points = (nx, ny, nz, nd) -> (d < nd)%nat ->
  write_channel [Z.of_nat nx] [Z.of_nat ny] [Z.of_nat nz] [points] 0 d f
  = Ok (f ++ spaced_line (map format_f (channel points nx ny nz d))).
Proof.
  intros Hs Hd. unfold write_channel, spaced_line, channel, flat_order.
  cbn [getitem nth_error bind]. rewrite !py_range_nat.
  rewrite map_flat_map, flat_map_flat_map.
  apply for_each_append. intros k acc Hk. apply in_seq in Hk.
  rewrite map_flat_map, flat_map_flat_map.
  apply for_each_append. intros j acc' Hj. apply in_seq in Hj.
  rewrite map_map, flat_map_map.
  apply for_each_append. intros i acc'' Hi. apply in_seq in Hi.
  rewrite (getitem4_data points nx ny nz nd) by (assumption || lia).
  cbn [bind]. now rewrite app_assoc.
Qed.

(** The file written for one block whose shape matches the dimensions. *)
Lemma writeFFDFile_text (points : ndarray4) (nx ny nz : nat) :
  shape points = (nx, ny, nz, 3%nat) ->
  writeFFDFile 1 [Z.of_nat nx] [Z.of_nat ny] [Z.of_nat nz] [points]
  = Ok (ffd_text (Z.of_nat nx) (Z.of_nat ny) (Z.of_nat nz)
          (map format_f (channel points nx ny nz 0))
          (map format_f (channel points nx ny nz 1))
          (map format_f (channel points nx ny nz 2))).
Proof.
  intros Hs. unfold writeFFDFile.
  change (py_range 1) with [0%nat]. cbn [for_each getitem nth_error bind].
  rewrite (write_channel_ok points nx ny nz 3 0) by (assumption || lia). cbn [bind].
  rewrite (write_channel_ok points nx ny nz 3 1) by (assumption || lia). cbn [bind].
  rewrite (write_channel_ok points nx ny nz 3 2) by (assumption || lia). cbn [bind].
  f_equal. unfold ffd_text, spaced_line. cbn [flat_map].
  change (format_d 1) with (lit "1").
  repeat rewrite <- app_assoc. reflexivity.
Qed.

(** * [returnBlockPoints] never rejects non-negative counts *)

Lemma corner_ok (corners : corner_set) (n idim : nat) :
  (n < 8)%nat -> (idim < 3)%nat -> exists v, corner corners n idim = Ok v.
Proof.
  intros Hn Hd.
  destruct corners as [[[? ?] ?] [[? ?] ?] [[? ?] ?] [[? ?] ?]
                       [[? ?] ?] [[? ?] ?] [[? ?] ?] [[? ?] ?]].
  do 8 (destruct n as [|n];
        [do 3 (destruct idim as [|idim]; [eexists; reflexivity|]); lia|]).
  lia.
Qed.

Lemma setitem_col_shape (points : ndarray4) (nx ny nz nd i k idim : nat) col :
  shape points = (nx, ny, nz, nd) ->
  (i < nx)%nat -> (k < nz)%nat -> (idim < nd)%nat -> length col = ny ->
  exists points', setitem_col points i k idim col = Ok points'
                  /\ shape points' = (nx, ny, nz, nd).
Proof.
  intros Hs Hi Hk Hd Hl. unfold setitem_col. rewrite Hs.
  replace ((i <? nx)%nat && (k <? nz)%nat && (idim <? nd)%nat) with true
    by (symmetry; rewrite !andb_true_iff; repeat split; apply Nat.ltb_lt; assumption).
  rewrite Hl, Nat.eqb_refl. simpl. eexists. split; reflexivity.
Qed.

Section Shape.
Variables nx ny nz : nat.

Lemma shape_loop_i (points : ndarray4) (k idim : nat) (l1 l2 : list pyfloat) :
  shape points = (nx, ny, nz, 3%nat) -> (k < nz)%nat -> (idim < 3)%nat ->
  length l1 = nx -> length l2 = nx ->
  exists points',
    for_each (seq 0 nx) points (fun i points =>
      a <- getitem l1 i ;; b <- getitem l2 i ;;
      edge_y <- np_linspace a b (Z.of_nat ny) ;;
      setitem_col points i k idim edge_y) = Ok points'
    /\ shape points' = (nx, ny, nz, 3%nat).
Proof.
  intros Hs Hk Hd L1 L2.
  destruct (@for_each_range_inv ndarray4
    (fun _ s => shape s = (nx, ny, nz, 3%nat)) nx
    (fun i points =>
      a <- getitem l1 i ;; b <- getitem l2 i ;;
      edge_y <- np_linspace a b (Z.of_nat ny) ;;
      setitem_col points i k idim edge_y) points Hs) as (p' & E & Hp).
  - intros t s Ht Hss.
    rewrite (getitem_nth l1 t NaN), (getitem_nth l2 t NaN) by lia. cbn [bind].
    destruct (np_linspace_nat (nth t l1 NaN) (nth t l2 NaN) ny) as (col & Ec & Lc).
    rewrite Ec. cbn [bind].
    now apply (setitem_col_shape s nx ny nz 3).
  - exists p'. auto.
Qed.

Lemma shape_loop_k (points : ndarray4) (idim : nat) (e00 e01 e10 e11 : list pyfloat) :
  shape points = (nx, ny, nz, 3%nat) -> (idim < 3)%nat ->
  length e00 = nz -> length e01 = nz -> length e10 = nz -> length e11 = nz ->
  exists points',
    for_each (seq 0 nz) points (fun k points =>
      a <- getitem e00 k ;; b <- getitem e01 k ;;
      edge_yMin <- np_linspace a b (Z.of_nat nx) ;;
      a <- getitem e10 k ;; b <- getitem e11 k ;;
      edge_yMax <- np_linspace a b (Z.of_nat nx) ;;
      for_each (py_range (Z.of_nat nx)) points (fun i points =>
        a <- getitem edge_yMin i ;; b <- getitem edge_yMax i ;;
        edge_y <- np_linspace a b (Z.of_nat ny) ;;
        setitem_col points i k idim edge_y)) = Ok points'
    /\ shape points' = (nx, ny, nz, 3%nat).
Proof.
  intros Hs Hd L00 L01 L10 L11.
  destruct (@for_each_range_inv ndarray4
    (fun _ s => shape s = (nx, ny, nz, 3%nat)) nz
    (fun k points =>
      a <- getitem e00 k ;; b <- getitem e01 k ;;
      edge_yMin <- np_linspace a b (Z.of_nat nx) ;;
      a <- getitem e10 k ;; b <- getitem e11 k ;;
      edge_yMax <- np_linspace a b (Z.of_nat nx) ;;
      for_each (py_range (Z.of_nat nx)) points (fun i points =>
        a <- getitem edge_yMin i ;; b <- getitem edge_yMax i ;;
        edge_y <- np_linspace a b (Z.of_nat ny) ;;
        setitem_col points i k idim edge_y)) points Hs) as (p' & E & Hp).
  - intros t s Ht Hss.
    rewrite (getitem_nth e00 t NaN), (getitem_nth e01 t NaN),
            (getitem_nth e10 t NaN), (getitem_nth e11 t NaN) by lia.
    cbn [bind].
    destruct (np_linspace_nat (nth t e00 NaN) (nth t e01 NaN) nx) as (l1 & E1 & L1).
    destruct (np_linspace_nat (nth t e10 NaN) (nth t e11 NaN) nx) as (l2 & E2 & L2).
    rewrite E1. cbn [bind]. rewrite E2. cbn [bind]. rewrite py_range_nat.
    now apply shape_loop_i.
  - exists p'. auto.
Qed.
End Shape.

(** Any corner set and any non-negative counts give an array of shape
    [nx x ny x nz x 3]. *)
Lemma returnBlockPoints_accepts (corners : corner_set) (nx ny nz : nat) :
  exists points,
    returnBlockPoints corners (Z.of_nat nx) (Z.of_nat ny) (Z.of_nat nz) = Ok points
    /\ shape points = (nx, ny, nz, 3%nat).
Proof.
  unfold returnBlockPoints.
  change 3%Z with (Z.of_nat 3). rewrite np_zeros4_nat. cbn [bind].
  change (py_range (Z.of_nat 3)) with (seq 0 3).
  set (p0 := {| shape := (nx, ny, nz, 3%nat); data := fun _ _ _ _ => fzero |}).
  destruct (@for_each_range_inv ndarray4
    (fun _ s => shape s = (nx, ny, nz, 3%nat)) 3%nat
    (fun idim points =>
       c0 <- corner corners 0 idim ;; c3 <- corner corners 3 idim ;;
       edge_yMin_xMin <- np_linspace c0 c3 (Z.of_nat nz) ;;
       c1 <- corner corners 1 idim ;; c2 <- corner corners 2 idim ;;
       edge_yMin_xMax <- np_linspace c1 c2 (Z.of_nat nz) ;;
       c4 <- corner corners 4 idim ;; c7 <- corner corners 7 idim ;;
       edge_yMax_xMin <- np_linspace c4 c7 (Z.of_nat nz) ;;
       c5 <- corner corners 5 idim ;; c6 <- corner corners 6 idim ;;
       edge_yMax_xMax <- np_linspace c5 c6 (Z.of_nat nz) ;;
       for_each (py_range (Z.of_nat nz)) points (fun k points =>
         a <- getitem edge_yMin_xMin k ;; b <- getitem edge_yMin_xMax k ;;
         edge_yMin <- np_linspace a b (Z.of_nat nx) ;;
         a <- getitem edge_yMax_xMin k ;; b <- getitem edge_yMax_xMax k ;;
         edge_yMax <- np_linspace a b (Z.of_nat nx) ;;
         for_each (py_range (Z.of_nat nx)) points (fun i points =>
           a <- getitem edge_yMin i ;; b <- getitem edge_yMax i ;;
           edge_y <- np_linspace a b (Z.of_nat ny) ;;
           setitem_col points i k idim edge_y)))
    p0 eq_refl) as (p' & E & Hp).
  - intros t s Ht Hss.
    destruct (corner_ok corners 0 t) as (c0 & C0); [lia|lia|].
    destruct (corner_ok corners 1 t) as (c1 & C1); [lia|lia|].
    destruct (corner_ok corners 2 t) as (c2 & C2); [lia|lia|].
    destruct (corner_ok corners 3 t) as (c3 & C3); [lia|lia|].
    destruct (corner_ok corners 4 t) as (c4 & C4); [lia|lia|].
    destruct (corner_ok corners 5 t) as (c5 & C5); [lia|lia|].
    destruct (corner_ok corners 6 t) as (c6 & C6); [lia|lia|].
    destruct (corner_ok corners 7 t) as (c7 & C7); [lia|lia|].
    rewrite C0, C1, C2, C3, C4, C5, C6, C7. cbn [bind].
    destruct (np_linspace_nat c0 c3 nz) as (e00 & E00 & L00).
    destruct (np_linspace_nat c1 c2 nz) as (e01 & E01 & L01).
    destruct (np_linspace_nat c4 c7 nz) as (e10 & E10 & L10).
    destruct (np_linspace_nat c5 c6 nz) as (e11 & E11 & L11).
    rewrite E00. cbn [bind]. rewrite E01. cbn [bind].
    rewrite E10. cbn [bind]. rewrite E11. cbn [bind].
    rewrite py_range_nat. now apply shape_loop_k.
  - exists p'. auto.
Qed.

(** A negative count is rejected by [np.zeros], before any interpolation. *)
Lemma returnBlockPoints_negative (corners : corner_set) (nx ny nz : Z) :
  (nx < 0 \/ ny < 0 \/ nz < 0)%Z ->
  returnBlockPoints corners nx ny nz = Err ValueError.
Proof.
  intros H. unfold returnBlockPoints, np_zeros4.
  replace ((nx <? 0) || (ny <? 0) || (nz <? 0) || (3 <? 0))%Z with true; [reflexivity|].
  symmetry. rewrite !orb_true_iff.
  destruct H as [H|[H|H]]; apply Z.ltb_lt in H; auto.
Qed.

(** * [generate_ffd_box] never rejects non-negative counts *)

Lemma generate_ffd_box_accepts (stl_file : file) (nx ny nz : nat)
      (offset_x offset_y offset_z : pyfloat) (x_start x_end : option pyfloat)
      (min_point max_point : point3) :
  get_stl_bounds stl_file = Ok (min_point, max_point) ->
  exists text,
    generate_ffd_box stl_file (Z.of_nat nx) (Z.of_nat ny) (Z.of_nat nz)
                     offset_x offset_y offset_z x_start x_end = Ok text.
Proof.
  intros Hb.
  pose proof (generate_ffd_box_text stl_file nx ny nz offset_x offset_y offset_z
                x_start x_end min_point max_point) as G.
  destruct (ffd_box_bounds min_point max_point offset_x offset_y offset_z x_start x_end)
    as [[[x_min x_max] [y_min y_max]] [z_min z_max]].
  destruct (np_linspace_nat x_min x_max nx) as (xc & Ex & _).
  destruct (np_linspace_nat y_min y_max ny) as (yc & Ey & _).
  destruct (np_linspace_nat z_min z_max nz) as (zc & Ez & _).
  eexists. exact (G xc yc zc Hb Ex Ey Ez).
Qed.

Lemma generate_ffd_box_negative (stl_file : file) (nx ny nz : Z)
      (offset_x offset_y offset_z : pyfloat) (x_start x_end : option pyfloat)
      (min_point max_point : point3) :
  get_stl_bounds stl_file = Ok (min_point, max_point) ->
  (nx < 0 \/ ny < 0 \/ nz < 0)%Z ->
  generate_ffd_box stl_file nx ny nz offset_x offset_y offset_z x_start x_end
  = Err ValueError.
Proof.
  intros Hb H. unfold generate_ffd_box. rewrite Hb. cbn [bind].
  destruct (ffd_box_bounds min_point max_point offset_x offset_y offset_z x_start x_end)
    as [[[x_min x_max] [y_min y_max]] [z_min z_max]].
  destruct (Z.ltb_spec nx 0) as [Hx|Hx].
  { now rewrite np_linspace_negative. }
  destruct (np_linspace_nat x_min x_max (Z.to_nat nx)) as (xc & Ex & _).
  rewrite Z2Nat.id in Ex by lia. rewrite Ex. cbn [bind].
  destruct (Z.ltb_spec ny 0) as [Hy|Hy].
  { now rewrite np_linspace_negative. }
  destruct (np_linspace_nat y_min y_max (Z.to_nat ny)) as (yc & Ey & _).
  rewrite Z2Nat.id in Ey by lia. rewrite Ey. cbn [bind].
  rewrite np_linspace_negative by lia. reflexivity.
Qed.

(** * Order of the samples of a linear space *)

Lemma lerp_param_first (a b : Qc) (n : nat) : lerp a b (param 0 n) = a.
Proof.
  unfold lerp, param, Qcdiv. change (Qc_of_nat 0) with 0%Qc. ring.
Qed.

Lemma Qc_of_nat_le (n m : nat) : (n <= m)%nat -> (Qc_of_nat n <= Qc_of_nat m)%Qc.
Proof.
  intros H. unfold Qcle, Qc_of_nat. cbn [this Q2Qc]. rewrite !Qred_correct.
  unfold Qle. cbn [Qnum Qden inject_Z]. lia.
Qed.

Lemma param_le (i j n : nat) : (i <= j)%nat -> (param i n <= param j n)%Qc.
Proof.
  intros H. unfold param, Qcdiv. apply Qcmult_le_compat_r.
  - now apply Qc_of_nat_le.
  - unfold Qcle, Qcinv, Qc_of_nat. cbn [this Q2Qc]. rewrite !Qred_correct.
    apply Qinv_le_0_compat. unfold Qle. cbn [Qnum Qden inject_Z]. lia.
Qed.

(** Interpolating from [a] down to [b <= a]: a larger parameter gives a
    smaller (or equal) sample. *)
Lemma lerp_antitone (a b t t' : Qc) :
  (b <= a)%Qc -> (t <= t')%Qc -> (lerp a b t' <= lerp a b t)%Qc.
Proof.
  intros Hab Ht. unfold lerp.
  apply Qcle_minus_iff.
  replace (a + t * (b - a) + - (a + t' * (b - a)))%Qc with ((t' + - t) * (a + - b))%Qc by ring.
  apply Qcle_minus_iff in Hab, Ht.
  replace 0%Qc with (0 * (a + - b))%Qc by ring.
  now apply Qcmult_le_compat_r.
Qed.

(** Interpolating from [a] up to [b >= a]: the samples stay in [[a, b]]. *)
Lemma lerp_monotone (a b t t' : Qc) :
  (a <= b)%Qc -> (t <= t')%Qc -> (lerp a b t <= lerp a b t')%Qc.
Proof.
  intros Hab Ht. unfold lerp.
  apply Qcle_minus_iff.
  replace (a + t' * (b - a) + - (a + t * (b - a)))%Qc with ((t' + - t) * (b + - a))%Qc by ring.
  apply Qcle_minus_iff in Hab, Ht.
  replace 0%Qc with (0 * (b + - a))%Qc by ring.
  now apply Qcmult_le_compat_r.
Qed.

Lemma lerp_equal (a t : Qc) : lerp a a t = a.
Proof. unfold lerp. ring. Qed.

(** * Equality of computed values *)

Lemma same_float_eq (a b : pyfloat) : same_float a b = true -> a = b.
Proof.
  destruct a as [|s|p], b as [|s'|q]; simpl; try discriminate; intros H.
  - reflexivity.
  - apply Bool.eqb_prop in H. now subst.
  - f_equal. apply Qc_is_canon. now apply Qeq_bool_eq.
Qed.

Lemma same_point_eq (p q : point3) : same_point p q = true -> p = q.
Proof.
  destruct p as [[a b] c], q as [[a' b'] c']. unfold same_point, at0, at1, at2. simpl.
  rewrite !andb_true_iff. intros [[Ha Hb] Hc].
  apply same_float_eq in Ha, Hb, Hc. now subst.
Qed.

Lemma same_bounds_eq (r : result bounds) (e : bounds) :
  same_bounds r e = true -> r = Ok e.
Proof.
  destruct r as [[mn mx]|]; simpl; [|discriminate]. destruct e as [mn' mx']. simpl.
  rewrite andb_true_iff. intros [H1 H2].
  apply same_point_eq in H1, H2. now subst.
Qed.

Lemma same_floats_eq (l l' : list pyfloat) : same_floats l l' = true -> l = l'.
Proof.
  revert l'. induction l as [|a l IH]; intros [|b l']; simpl; try discriminate.
  - reflexivity.
  - rewrite andb_true_iff. intros [H1 H2].
    apply same_float_eq in H1. apply IH in H2. now subst.
Qed.

Ltac by_computation :=
  first [ apply same_bounds_eq | apply same_float_eq | apply same_floats_eq
        | apply same_point_eq ];
  vm_compute; reflexivity.

(** * Corner-based and offset-box construction *)

Lemma nested_lerp_box (xMin xMax yMin yMax zMin zMax : Qc) (nx ny nz i j k : nat) :
  nested_lerp (box_corners xMin xMax yMin yMax zMin zMax) nx ny nz i j k 0
  = lerp xMin xMax (param i nx)
  /\ nested_lerp (box_corners xMin xMax yMin yMax zMin zMax) nx ny nz i j k 1
     = lerp yMin yMax (param j ny)
  /\ nested_lerp (box_corners xMin xMax yMin yMax zMin zMax) nx ny nz i j k 2
     = lerp zMin zMax (param k nz).
Proof.
  unfold nested_lerp, lerp, corner_q, box_corners. simpl. repeat split; ring.
Qed.

Lemma fin_bounds (a b : qpoint) (ox oy oz : Qc) (xs xe : option Qc) :
  ffd_box_bounds (fin_point a) (fin_point b) (Fin ox) (Fin oy) (Fin oz)
                 (option_map Fin xs) (option_map Fin xe)
  = ((Fin (override xs (qx a) - ox), Fin (override xe (qx b) + ox)),
     (Fin (qy a - oy), Fin (qy b + oy)),
     (Fin (qz a - oz), Fin (qz b + oz)))%Qc.
Proof.
  destruct a as [[ax ay] az], b as [[bx by_] bz], xs, xe; reflexivity.
Qed.

(** C2. For a geometry with finite bounds, finite margins and at least two
    points per axis, let the box be the offset box of [generate_ffd_box].
    [returnBlockPoints] on the eight corners of that box and the per-axis
    [linspace] samples of [generate_ffd_box] agree at every lattice index, in
    every channel, and the file [generate_ffd_box] writes is the Plot3D layout
    of the [returnBlockPoints] lattice. (The bounds need not be ordered.) *)
Theorem corner_and_offset_box_agree (stl_file : file) (a b : qpoint)
    (ox oy oz : Qc) (xs xe : option Qc) (nx ny nz : Z) :
  (2 <= nx)%Z -> (2 <= ny)%Z -> (2 <= nz)%Z ->
  get_stl_bounds stl_file = Ok (fin_point a, fin_point b) ->
  let xMin := (override xs (qx a) - ox)%Qc in
  let xMax := (override xe (qx b) + ox)%Qc in
  let yMin := (qy a - oy)%Qc in
  let yMax := (qy b + oy)%Qc in
  let zMin := (qz a - oz)%Qc in
  let zMax := (qz b + oz)%Qc in
  exists points x_coords y_coords z_coords,
    returnBlockPoints (fin_corners (box_corners xMin xMax yMin yMax zMin zMax)) nx ny nz
    = Ok points
    /\ np_linspace (Fin xMin) (Fin xMax) nx = Ok x_coords
    /\ np_linspace (Fin yMin) (Fin yMax) ny = Ok y_coords
    /\ np_linspace (Fin zMin) (Fin zMax) nz = Ok z_coords
    /\ (forall i j k,
          (i < Z.to_nat nx)%nat -> (j < Z.to_nat ny)%nat -> (k < Z.to_nat nz)%nat ->
          getitem4 points i j k 0 = getitem x_coords i
          /\ getitem4 points i j k 1 = getitem y_coords j
          /\ getitem4 points i j k 2 = getitem z_coords k)
    /\ generate_ffd_box stl_file nx ny nz (Fin ox) (Fin oy) (Fin oz)
                        (option_map Fin xs) (option_map Fin xe)
       = Ok (plot3d_text nx ny nz
               (map format_f (channel points (Z.to_nat nx) (Z.to_nat ny) (Z.to_nat nz) 0))
               (map format_f (channel points (Z.to_nat nx) (Z.to_nat ny) (Z.to_nat nz) 1))
               (map format_f (channel points (Z.to_nat nx) (Z.to_nat ny) (Z.to_nat nz) 2))).
Proof.
  intros Hx Hy Hz Hb xMin xMax yMin yMax zMin zMax.
  set (mx := Z.to_nat nx). set (my := Z.to_nat ny). set (mz := Z.to_nat nz).
  assert (Ex : nx = Z.of_nat mx) by (unfold mx; lia).
  assert (Ey : ny = Z.of_nat my) by (unfold my; lia).
  assert (Ez : nz = Z.of_nat mz) by (unfold mz; lia).
  assert (Mx : (2 <= mx)%nat) by (unfold mx; lia).
  assert (My : (2 <= my)%nat) by (unfold my; lia).
  assert (Mz : (2 <= mz)%nat) by (unfold mz; lia).
  clearbody mx my mz. subst nx ny nz.
  destruct (returnBlockPoints_nested (box_corners xMin xMax yMin yMax zMin zMax)
              mx my mz Mx My Mz) as (points & E & Hs & Hd).
  pose proof (np_linspace_fin xMin xMax mx Mx) as Lx.
  pose proof (np_linspace_fin yMin yMax my My) as Ly.
  pose proof (np_linspace_fin zMin zMax mz Mz) as Lz.
  exists points. do 3 eexists.
  split; [exact E|]. split; [exact Lx|]. split; [exact Ly|]. split; [exact Lz|].
  assert (V : forall i j k, (i < mx)%nat -> (j < my)%nat -> (k < mz)%nat ->
            data points i j k 0 = Fin (lerp xMin xMax (param i mx))
            /\ data points i j k 1 = Fin (lerp yMin yMax (param j my))
            /\ data points i j k 2 = Fin (lerp zMin zMax (param k mz))).
  { intros i j k Hi Hj Hk.
    destruct (nested_lerp_box xMin xMax yMin yMax zMin zMax mx my mz i j k)
      as (N0 & N1 & N2).
    rewrite (Hd i j k 0%nat Hi Hj Hk), (Hd i j k 1%nat Hi Hj Hk),
            (Hd i j k 2%nat Hi Hj Hk) by lia.
    rewrite N0, N1, N2. repeat split. }
  split.
  - intros i j k Hi Hj Hk. destruct (V i j k Hi Hj Hk) as (V0 & V1 & V2).
    rewrite !(getitem4_data points mx my mz 3) by (assumption || lia).
    rewrite !getitem_map_seq by assumption. now rewrite V0, V1, V2.
  - pose proof (generate_ffd_box_text stl_file mx my mz (Fin ox) (Fin oy) (Fin oz)
                  (option_map Fin xs) (option_map Fin xe) _ _
                  (map (fun i => Fin (lerp xMin xMax (param i mx))) (seq 0 mx))
                  (map (fun i => Fin (lerp yMin yMax (param i my))) (seq 0 my))
                  (map (fun i => Fin (lerp zMin zMax (param i mz))) (seq 0 mz)) Hb) as G.
    rewrite fin_bounds in G. rewrite (G Lx Ly Lz). f_equal.
    unfold channel. rewrite !flat_order_map.
    f_equal; apply flat_order_ext; intros i j k Hi Hj Hk;
      destruct (V i j k Hi Hj Hk) as (V0 & V1 & V2);
      rewrite ?V0, ?V1, ?V2; now rewrite nth_map_seq.
Qed.

Lemma unit_triangle_bounds :
  get_stl_bounds unit_triangle_stl = Ok (fin_point qorigin, fin_point q110).
Proof. by_computation. Qed.

Lemma segment_bounds :
  get_stl_bounds segment_stl = Ok ((Q0, Q0, Q0), (Q2, Q0, Q0)).
Proof. by_computation. Qed.

Lemma corner_and_offset_box_agree_witness :
  (2 <= 3)%Z /\ (2 <= 2)%Z /\ (2 <= 4)%Z
  /\ get_stl_bounds unit_triangle_stl = Ok (fin_point qorigin, fin_point q110)
  /\ exists points,
       returnBlockPoints
         (fin_corners (box_corners (0 - Q2Qc (1 # 10)) (Q2Qc 3 + Q2Qc (1 # 10))
                                   (0 - Q2Qc (1 # 10)) (1 + Q2Qc (1 # 10))
                                   (0 - Q2Qc (1 # 20)) (0 + Q2Qc (1 # 20)))) 3 2 4
       = Ok points
       /\ generate_ffd_box unit_triangle_stl 3 2 4
            (Fin (Q2Qc (1 # 10))) (Fin (Q2Qc (1 # 10))) (Fin (Q2Qc (1 # 20)))
            None (Some (Fin (Q2Qc 3)))
          = Ok (plot3d_text 3 2 4
                  (map format_f (channel points 3 2 4 0))
                  (map format_f (channel points 3 2 4 1))
                  (map format_f (channel points 3 2 4 2))).
Proof.
  split; [lia|]. split; [lia|]. split; [lia|]. split; [exact unit_triangle_bounds|].
  destruct (corner_and_offset_box_agree unit_triangle_stl qorigin q110
              (Q2Qc (1 # 10)) (Q2Qc (1 # 10)) (Q2Qc (1 # 20)) None (Some (Q2Qc 3)) 3 2 4)
    as (points & xc & yc & zc & E & _ & _ & _ & _ & G);
    [lia | lia | lia | exact unit_triangle_bounds |].
  exists points. split; [exact E | exact G].
Defined.

(** * The serialized grid *)

(** C3. Both writers put the three coordinate channels in three separate
    sequences of [nx * ny * nz] tokens each, flattened with [i] fastest and
    [k] slowest: the token of lattice index [(i, j, k)] is at offset
    [k * ny * nx + j * nx + i] of its channel.  For [generate_ffd_box] the x
    token is the formatted [i]-th sample of the x axis (y: [j]-th, z: [k]-th);
    for [writeFFDFile] it is the formatted entry [points[i, j, k, d]].  For the
    box from (0,0,0) to (2,0,0) with zero margins and 3 x 2 x 2 points the x
    channel is 0, 1, 2 four times, and index (1, 0, 0) is at offset 1. *)
Theorem serialized_channel_order :
  (forall (stl_file : file) (nx ny nz : nat)
          (offset_x offset_y offset_z : pyfloat) (x_start x_end : option pyfloat)
          (min_point max_point : point3),
     get_stl_bounds stl_file = Ok (min_point, max_point) ->
     let box := ffd_box_bounds min_point max_point offset_x offset_y offset_z
                               x_start x_end in
     exists x_coords y_coords z_coords x_list y_list z_list,
       np_linspace (fst (fst (fst box))) (snd (fst (fst box))) (Z.of_nat nx) = Ok x_coords
       /\ np_linspace (fst (snd (fst box))) (snd (snd (fst box))) (Z.of_nat ny) = Ok y_coords
       /\ np_linspace (fst (snd box)) (snd (snd box)) (Z.of_nat nz) = Ok z_coords
       /\ generate_ffd_box stl_file (Z.of_nat nx) (Z.of_nat ny) (Z.of_nat nz)
                           offset_x offset_y offset_z x_start x_end
          = Ok (plot3d_text (Z.of_nat nx) (Z.of_nat ny) (Z.of_nat nz) x_list y_list z_list)
       /\ length x_list = (nx * ny * nz)%nat
       /\ length y_list = (nx * ny * nz)%nat
       /\ length z_list = (nx * ny * nz)%nat
       /\ forall i j k, (i < nx)%nat -> (j < ny)%nat -> (k < nz)%nat ->
            nth_error x_list (flat_offset nx ny i j k) = Some (format_f (nth i x_coords NaN))
            /\ nth_error y_list (flat_offset nx ny i j k) = Some (format_f (nth j y_coords NaN))
            /\ nth_error z_list (flat_offset nx ny i j k) = Some (format_f (nth k z_coords NaN)))
  /\ (forall (points : ndarray4) (nx ny nz : nat),
        shape points = (nx, ny, nz, 3%nat) ->
        exists xs ys zs,
          writeFFDFile 1 [Z.of_nat nx] [Z.of_nat ny] [Z.of_nat nz] [points]
          = Ok (ffd_text (Z.of_nat nx) (Z.of_nat ny) (Z.of_nat nz) xs ys zs)
          /\ length xs = (nx * ny * nz)%nat
          /\ length ys = (nx * ny * nz)%nat
          /\ length zs = (nx * ny * nz)%nat
          /\ forall i j k, (i < nx)%nat -> (j < ny)%nat -> (k < nz)%nat ->
               nth_error xs (flat_offset nx ny i j k) = Some (format_f (data points i j k 0))
               /\ nth_error ys (flat_offset nx ny i j k) = Some (format_f (data points i j k 1))
               /\ nth_error zs (flat_offset nx ny i j k) = Some (format_f (data points i j k 2)))
  /\ (forall stl_file : file,
        get_stl_bounds stl_file = Ok ((Q0, Q0, Q0), (Q2, Q0, Q0)) ->
        generate_ffd_box stl_file 3 2 2 Q0 Q0 Q0 None None
        = Ok (plot3d_text 3 2 2 example_x_tokens
                (repeat (lit "0.000000") 12) (repeat (lit "0.000000") 12))
        /\ flat_offset 3 2 1 0 0 = 1%nat
        /\ nth_error example_x_tokens 1 = Some (lit "1.000000")).
Proof.
  split; [|split].
  - intros stl_file nx ny nz offset_x offset_y offset_z x_start x_end
           min_point max_point Hb box.
    pose proof (generate_ffd_box_text stl_file nx ny nz offset_x offset_y offset_z
                  x_start x_end min_point max_point) as G.
    subst box.
    destruct (ffd_box_bounds min_point max_point offset_x offset_y offset_z x_start x_end)
      as [[[x_min x_max] [y_min y_max]] [z_min z_max]]. cbn [fst snd].
    destruct (np_linspace_nat x_min x_max nx) as (xc & Ex & _).
    destruct (np_linspace_nat y_min y_max ny) as (yc & Ey & _).
    destruct (np_linspace_nat z_min z_max nz) as (zc & Ez & _).
    exists xc, yc, zc. do 3 eexists.
    split; [exact Ex|]. split; [exact Ey|]. split; [exact Ez|].
    split; [exact (G xc yc zc Hb Ex Ey Ez)|].
    rewrite !flat_order_length.
    repeat split; try reflexivity; now apply flat_order_nth_error.
  - intros points nx ny nz Hs. do 3 eexists.
    split; [exact (writeFFDFile_text points nx ny nz Hs)|].
    unfold channel. rewrite !length_map, !flat_order_length.
    repeat split; try reflexivity; rewrite flat_order_map;
      now apply flat_order_nth_error.
  - intros stl_file Hb. split; [|split; reflexivity].
    unfold generate_ffd_box. rewrite Hb. cbn [bind]. vm_compute. reflexivity.
Qed.

Lemma serialized_channel_order_witness :
  get_stl_bounds segment_stl = Ok ((Q0, Q0, Q0), (Q2, Q0, Q0))
  /\ generate_ffd_box segment_stl 3 2 2 Q0 Q0 Q0 None None
     = Ok (plot3d_text 3 2 2 example_x_tokens
             (repeat (lit "0.000000") 12) (repeat (lit "0.000000") 12)).
Proof.
  split; [exact segment_bounds|].
  exact (proj1 (proj2 (proj2 serialized_channel_order) segment_stl segment_bounds)).
Defined.

(** * Samples of a linear space, in order *)

Lemma fleb_Fin (p q : Qc) : fleb (Fin p) (Fin q) = true <-> (p <= q)%Qc.
Proof.
  unfold fleb. simpl. rewrite orb_true_iff, Qc_ltb_lt, Qc_eqb_eq. split.
  - intros [H|H]; [now apply Qclt_le_weak | subst; apply Qcle_refl].
  - intros H. destruct (Qc_eq_dec p q) as [E|N]; [now right|left].
    apply Qcnot_le_lt. intros C. apply N. now apply Qcle_antisym.
Qed.

Lemma linspace_descending (a b : Qc) (n : nat) :
  (b <= a)%Qc ->
  descending (map (fun i => Fin (lerp a b (param i n))) (seq 0 n)).
Proof.
  intros Hab i i' Hi Hi'. rewrite length_map, length_seq in Hi'.
  rewrite !nth_map_seq by lia. apply fleb_Fin.
  apply lerp_antitone; [assumption | now apply param_le].
Qed.

Lemma linspace_within (a b : Qc) (n : nat) :
  (2 <= n)%nat -> (a <= b)%Qc ->
  within (Fin a) (Fin b) (map (fun i => Fin (lerp a b (param i n))) (seq 0 n)).
Proof.
  intros Hn Hab i Hi. rewrite length_map, length_seq in Hi.
  rewrite nth_map_seq by lia. rewrite !fleb_Fin. split.
  - rewrite <- (lerp_param_first a b n) at 1.
    apply lerp_monotone; [assumption | apply param_le; lia].
  - rewrite <- (lerp_param_last a b n Hn) at 2.
    apply lerp_monotone; [assumption | apply param_le; lia].
Qed.

(** * The X overrides of [generate_ffd_box] *)

(** C10. For a geometry with finite bounds [a], [b]: an override [x_start]
    ([x_end]) replaces the x coordinate of the min (max) corner only; the y and
    z ranges of the box are those of the geometry, widened by their margins;
    and the x margin is applied to the overridden value.  The grid written has
    [x_start - offset_x] as first and [x_end + offset_x] as last x sample, and
    when these are ordered every x sample lies between them. *)
Theorem x_override_replaces_only_x (stl_file : file) (a b : qpoint)
    (ox oy oz : Qc) (xs xe : option Qc) (nx ny nz : nat) :
  (2 <= nx)%nat ->
  get_stl_bounds stl_file = Ok (fin_point a, fin_point b) ->
  let x_lo := (override xs (qx a) - ox)%Qc in
  let x_hi := (override xe (qx b) + ox)%Qc in
  ffd_box_bounds (fin_point a) (fin_point b) (Fin ox) (Fin oy) (Fin oz)
                 (option_map Fin xs) (option_map Fin xe)
  = ((Fin x_lo, Fin x_hi),
     (Fin (qy a - oy), Fin (qy b + oy)),
     (Fin (qz a - oz), Fin (qz b + oz)))%Qc
  /\ exists x_coords y_coords z_coords,
       np_linspace (Fin x_lo) (Fin x_hi) (Z.of_nat nx) = Ok x_coords
       /\ np_linspace (Fin (qy a - oy)) (Fin (qy b + oy)) (Z.of_nat ny) = Ok y_coords
       /\ np_linspace (Fin (qz a - oz)) (Fin (qz b + oz)) (Z.of_nat nz) = Ok z_coords
       /\ generate_ffd_box stl_file (Z.of_nat nx) (Z.of_nat ny) (Z.of_nat nz)
                           (Fin ox) (Fin oy) (Fin oz)
                           (option_map Fin xs) (option_map Fin xe)
          = Ok (plot3d_text (Z.of_nat nx) (Z.of_nat ny) (Z.of_nat nz)
                  (flat_order nx ny nz (fun i j k => format_f (nth i x_coords NaN)))
                  (flat_order nx ny nz (fun i j k => format_f (nth j y_coords NaN)))
                  (flat_order nx ny nz (fun i j k => format_f (nth k z_coords NaN))))
       /\ length x_coords = nx
       /\ nth 0 x_coords NaN = Fin x_lo
       /\ nth (nx - 1) x_coords NaN = Fin x_hi
       /\ ((x_lo <= x_hi)%Qc -> within (Fin x_lo) (Fin x_hi) x_coords).
Proof.
  intros Hn Hb x_lo x_hi. split; [apply fin_bounds|].
  pose proof (generate_ffd_box_text stl_file nx ny nz (Fin ox) (Fin oy) (Fin oz)
                (option_map Fin xs) (option_map Fin xe) (fin_point a) (fin_point b)) as G.
  rewrite fin_bounds in G.
  pose proof (np_linspace_fin x_lo x_hi nx Hn) as Ex.
  destruct (np_linspace_nat (Fin (qy a - oy)) (Fin (qy b + oy)) ny) as (yc & Ey & _).
  destruct (np_linspace_nat (Fin (qz a - oz)) (Fin (qz b + oz)) nz) as (zc & Ez & _).
  eexists. exists yc, zc.
  split; [exact Ex|]. split; [exact Ey|]. split; [exact Ez|].
  split; [exact (G _ yc zc Hb Ex Ey Ez)|].
  split; [now rewrite length_map, length_seq|].
  split; [rewrite nth_map_seq by lia; now rewrite lerp_param_first|].
  split; [rewrite nth_map_seq by lia; now rewrite lerp_param_last|].
  now apply linspace_within.
Qed.

Lemma x_override_replaces_only_x_witness :
  (2 <= 3)%nat
  /\ get_stl_bounds unit_triangle_stl = Ok (fin_point qorigin, fin_point q110)
  /\ ffd_box_bounds (fin_point qorigin) (fin_point q110)
       (Fin (Q2Qc (1 # 10))) (Fin (Q2Qc (1 # 10))) (Fin (Q2Qc (1 # 20)))
       (option_map Fin (Some (Q2Qc 2))) (option_map Fin (Some (Q2Qc 4)))
     = ((Fin (Q2Qc 2 - Q2Qc (1 # 10)), Fin (Q2Qc 4 + Q2Qc (1 # 10))),
        (Fin (0 - Q2Qc (1 # 10)), Fin (1 + Q2Qc (1 # 10))),
        (Fin (0 - Q2Qc (1 # 20)), Fin (0 + Q2Qc (1 # 20))))%Qc.
Proof.
  split; [lia|]. split; [exact unit_triangle_bounds|].
  exact (proj1 (x_override_replaces_only_x unit_triangle_stl qorigin q110
                  (Q2Qc (1 # 10)) (Q2Qc (1 # 10)) (Q2Qc (1 # 20))
                  (Some (Q2Qc 2)) (Some (Q2Qc 4)) 3 2 2
                  ltac:(lia) unit_triangle_bounds)).
Defined.

(** * Boxes that are inverted or have no extent *)

(** With the X range overridden to start at 5 and end at 1, the box around the
    unit triangle is inverted along X and has no extent along Z; the grid is
    written all the same, its x samples running from 5 down to 1. *)
Lemma inverted_box_is_written :
  (let '((x_min, x_max), _, (z_min, z_max)) :=
     ffd_box_bounds (fin_point qorigin) (fin_point q110) Q0 Q0 Q0 (Some Q5) (Some Q1) in
   fltb x_max x_min = true /\ feqb z_min z_max = true)
  /\ generate_ffd_box unit_triangle_stl 3 2 2 Q0 Q0 Q0 (Some Q5) (Some Q1)
     = Ok (plot3d_text 3 2 2 inverted_x_tokens unit_y_tokens
             (repeat (lit "0.000000") 12)).
Proof. split; [split|]; vm_compute; reflexivity. Qed.

(** C5 (as the code behaves). [generate_ffd_box] does not compare the bounds
    of the box: for a geometry with finite bounds, finite margins and
    overrides, and at least two points per axis, the grid is written whatever
    the order of the effective bounds.  Along an axis whose effective minimum
    is not below its maximum the samples run from the minimum down to the
    maximum (all equal when the two coincide). *)
Theorem degenerate_box_is_written (stl_file : file) (a b : qpoint)
    (ox oy oz : Qc) (xs xe : option Qc) (nx ny nz : nat) :
  (2 <= nx)%nat -> (2 <= ny)%nat -> (2 <= nz)%nat ->
  get_stl_bounds stl_file = Ok (fin_point a, fin_point b) ->
  let x_min := (override xs (qx a) - ox)%Qc in
  let x_max := (override xe (qx b) + ox)%Qc in
  let y_min := (qy a - oy)%Qc in
  let y_max := (qy b + oy)%Qc in
  let z_min := (qz a - oz)%Qc in
  let z_max := (qz b + oz)%Qc in
  exists x_coords y_coords z_coords,
    np_linspace (Fin x_min) (Fin x_max) (Z.of_nat nx) = Ok x_coords
    /\ np_linspace (Fin y_min) (Fin y_max) (Z.of_nat ny) = Ok y_coords
    /\ np_linspace (Fin z_min) (Fin z_max) (Z.of_nat nz) = Ok z_coords
    /\ generate_ffd_box stl_file (Z.of_nat nx) (Z.of_nat ny) (Z.of_nat nz)
                        (Fin ox) (Fin oy) (Fin oz)
                        (option_map Fin xs) (option_map Fin xe)
       = Ok (plot3d_text (Z.of_nat nx) (Z.of_nat ny) (Z.of_nat nz)
               (flat_order nx ny nz (fun i j k => format_f (nth i x_coords NaN)))
               (flat_order nx ny nz (fun i j k => format_f (nth j y_coords NaN)))
               (flat_order nx ny nz (fun i j k => format_f (nth k z_coords NaN))))
    /\ length x_coords = nx /\ length y_coords = ny /\ length z_coords = nz
    /\ ((x_max <= x_min)%Qc -> descending x_coords)
    /\ ((y_max <= y_min)%Qc -> descending y_coords)
    /\ ((z_max <= z_min)%Qc -> descending z_coords)
    /\ (x_min = x_max -> forall i, (i < nx)%nat -> nth i x_coords NaN = Fin x_min)
    /\ (y_min = y_max -> forall j, (j < ny)%nat -> nth j y_coords NaN = Fin y_min)
    /\ (z_min = z_max -> forall k, (k < nz)%nat -> nth k z_coords NaN = Fin z_min).
Proof.
  intros Hx Hy Hz Hb x_min x_max y_min y_max z_min z_max.
  pose proof (generate_ffd_box_text stl_file nx ny nz (Fin ox) (Fin oy) (Fin oz)
                (option_map Fin xs) (option_map Fin xe) (fin_point a) (fin_point b)) as G.
  rewrite fin_bounds in G.
  pose proof (np_linspace_fin x_min x_max nx Hx) as Ex.
  pose proof (np_linspace_fin y_min y_max ny Hy) as Ey.
  pose proof (np_linspace_fin z_min z_max nz Hz) as Ez.
  do 3 eexists.
  split; [exact Ex|]. split; [exact Ey|]. split; [exact Ez|].
  split; [exact (G _ _ _ Hb Ex Ey Ez)|].
  rewrite !length_map, !length_seq.
  split; [reflexivity|]. split; [reflexivity|]. split; [reflexivity|].
  split; [apply linspace_descending|].
  split; [apply linspace_descending|].
  split; [apply linspace_descending|].
  split; [|split]; intros E i Hi; rewrite nth_map_seq by assumption;
    rewrite <- E; now rewrite lerp_equal.
Qed.

Lemma degenerate_box_is_written_witness :
  (2 <= 3)%nat /\ (2 <= 2)%nat /\ (2 <= 2)%nat
  /\ get_stl_bounds unit_triangle_stl = Ok (fin_point qorigin, fin_point q110)
  /\ exists x_coords y_coords z_coords,
       generate_ffd_box unit_triangle_stl 3 2 2 (Fin 0) (Fin 0) (Fin 0)
                        (Some (Fin (Q2Qc 5))) (Some (Fin 1))
       = Ok (plot3d_text 3 2 2
               (flat_order 3 2 2 (fun i j k => format_f (nth i x_coords NaN)))
               (flat_order 3 2 2 (fun i j k => format_f (nth j y_coords NaN)))
               (flat_order 3 2 2 (fun i j k => format_f (nth k z_coords NaN)))).
Proof.
  split; [lia|]. split; [lia|]. split; [lia|]. split; [exact unit_triangle_bounds|].
  destruct (degenerate_box_is_written unit_triangle_stl qorigin q110 0 0 0
              (Some (Q2Qc 5)) (Some 1%Qc) 3 2 2)
    as (xc & yc & zc & _ & _ & _ & G & _); [lia | lia | lia | exact unit_triangle_bounds |].
  exists xc, yc, zc. exact G.
Defined.

(** * Point counts below two *)

(** One point along X: the grid is written, with the single x sample at the
    lower bound; [returnBlockPoints] likewise returns a [1 x 2 x 2] lattice. *)
Lemma single_point_axis_is_written :
  generate_ffd_box unit_triangle_stl 1 2 2 Q0 Q0 Q0 None None
  = Ok (plot3d_text 1 2 2 (repeat (lit "0.000000") 4)
          [lit "0.000000"; lit "1.000000"; lit "0.000000"; lit "1.000000"]
          (repeat (lit "0.000000") 4))
  /\ exists points,
       returnBlockPoints (fin_corners sheared_corners) 1 2 2 = Ok points
       /\ shape points = (1%nat, 2%nat, 2%nat, 3%nat).
Proof.
  split; [vm_compute; reflexivity|].
  exact (returnBlockPoints_accepts (fin_corners sheared_corners) 1 2 2).
Qed.

(** C4 (as the code behaves). Neither generator checks that a point count
    is at least 2, and there is no usage error.  For counts from 0 to 100 per
    axis (sizes that NumPy holds without complaint), also 0 and 1:
    [returnBlockPoints] returns an array of shape [nx x ny x nz x 3] and
    [generate_ffd_box] writes a file; with one point along an axis the single
    sample is the lower bound.  A negative count, the others between -100 and
    100, is rejected by NumPy with [ValueError]. *)
Theorem counts_are_not_checked :
  (forall (corners : corner_set) (nx ny nz : nat),
     (nx <= 100)%nat -> (ny <= 100)%nat -> (nz <= 100)%nat ->
     exists points,
       returnBlockPoints corners (Z.of_nat nx) (Z.of_nat ny) (Z.of_nat nz) = Ok points
       /\ shape points = (nx, ny, nz, 3%nat))
  /\ (forall (stl_file : file) (nx ny nz : nat)
             (offset_x offset_y offset_z : pyfloat) (x_start x_end : option pyfloat)
             (min_point max_point : point3),
        (nx <= 100)%nat -> (ny <= 100)%nat -> (nz <= 100)%nat ->
        get_stl_bounds stl_file = Ok (min_point, max_point) ->
        exists text,
          generate_ffd_box stl_file (Z.of_nat nx) (Z.of_nat ny) (Z.of_nat nz)
                           offset_x offset_y offset_z x_start x_end = Ok text)
  /\ (forall a b : Qc, np_linspace (Fin a) (Fin b) 1 = Ok [Fin a])
  /\ (forall (corners : corner_set) (nx ny nz : Z),
        (-100 <= nx <= 100)%Z -> (-100 <= ny <= 100)%Z -> (-100 <= nz <= 100)%Z ->
        (nx < 0 \/ ny < 0 \/ nz < 0)%Z ->
        returnBlockPoints corners nx ny nz = Err ValueError)
  /\ (forall (stl_file : file) (nx ny nz : Z)
             (offset_x offset_y offset_z : pyfloat) (x_start x_end : option pyfloat)
             (min_point max_point : point3),
        (-100 <= nx <= 100)%Z -> (-100 <= ny <= 100)%Z -> (-100 <= nz <= 100)%Z ->
        get_stl_bounds stl_file = Ok (min_point, max_point) ->
        (nx < 0 \/ ny < 0 \/ nz < 0)%Z ->
        generate_ffd_box stl_file nx ny nz offset_x offset_y offset_z x_start x_end
        = Err ValueError).
Proof.
  split; [intros corners nx ny nz _ _ _; apply returnBlockPoints_accepts|].
  split; [intros stl_file nx ny nz ox oy oz xs xe mn mx _ _ _;
          apply generate_ffd_box_accepts|].
  split; [exact np_linspace_one|].
  split; [intros corners nx ny nz _ _ _; apply returnBlockPoints_negative|].
  intros stl_file nx ny nz ox oy oz xs xe mn mx _ _ _.
  apply generate_ffd_box_negative.
Qed.

Lemma counts_are_not_checked_witness :
  (1 <= 100)%nat /\ (2 <= 100)%nat
  /\ (-100 <= -1 <= 100)%Z /\ (-100 <= 2 <= 100)%Z
  /\ get_stl_bounds unit_triangle_stl = Ok (fin_point qorigin, fin_point q110)
  /\ (-1 < 0 \/ 2 < 0 \/ 2 < 0)%Z
  /\ (exists text, generate_ffd_box unit_triangle_stl (Z.of_nat 1) (Z.of_nat 2) (Z.of_nat 2)
                                    Q0 Q0 Q0 None None = Ok text)
  /\ returnBlockPoints (fin_corners sheared_corners) (-1) 2 2 = Err ValueError
  /\ generate_ffd_box unit_triangle_stl (-1) 2 2 Q0 Q0 Q0 None None = Err ValueError.
Proof.
  split; [lia|]. split; [lia|]. split; [lia|]. split; [lia|].
  split; [exact unit_triangle_bounds|]. split; [lia|].
  destruct counts_are_not_checked as (_ & A & _ & N1 & N2).
  split; [apply (A unit_triangle_stl 1%nat 2%nat 2%nat Q0 Q0 Q0 None None
                   (fin_point qorigin) (fin_point q110)); [lia | lia | lia |];
          exact unit_triangle_bounds|].
  split; [apply N1; lia|].
  apply (N2 unit_triangle_stl (-1)%Z 2%Z 2%Z Q0 Q0 Q0 None None
            (fin_point qorigin) (fin_point q110)); [lia | lia | lia | | lia].
  exact unit_triangle_bounds.
Defined.

(** * The order on floats *)

Lemma fleb_not_nan (a b : pyfloat) : fleb a b = true -> a <> NaN /\ b <> NaN.
Proof. destruct a, b; simpl; try discriminate; split; discriminate. Qed.

Lemma fltb_not_nan (a b : pyfloat) : fltb a b = true -> a <> NaN /\ b <> NaN.
Proof. destruct a, b; simpl; try discriminate; split; discriminate. Qed.

Lemma fleb_refl (a : pyfloat) : a <> NaN -> fleb a a = true.
Proof.
  destruct a as [|s|p]; intros H; [congruence| |].
  - unfold fleb. simpl. rewrite Bool.eqb_reflx. apply orb_true_r.
  - apply fleb_Fin, Qcle_refl.
Qed.

Lemma fltb_fleb (a b : pyfloat) : fltb a b = true -> fleb a b = true.
Proof. unfold fleb. now intros ->. Qed.

Lemma fleb_total (a b : pyfloat) :
  a <> NaN -> b <> NaN -> fltb a b = false -> fleb b a = true.
Proof.
  destruct a as [|s|p], b as [|s'|q]; intros Ha Hb; try congruence;
    unfold fleb; simpl.
  - destruct s, s'; simpl; congruence.
  - destruct s; simpl; congruence.
  - destruct s'; simpl; congruence.
  - intros H. apply Qc_ltb_ge in H. now apply fleb_Fin.
Qed.

Lemma fleb_trans (a b c : pyfloat) :
  fleb a b = true -> fleb b c = true -> fleb a c = true.
Proof.
  destruct a as [|s|p], b as [|s'|q], c as [|s''|r];
    try (unfold fleb; simpl; discriminate);
    try (destruct s); try (destruct s'); try (destruct s'');
    try (unfold fleb; simpl; congruence).
  rewrite !fleb_Fin. apply Qcle_trans.
Qed.

(** * The running bounds stay ordered *)

Lemma axis_step (mn mx x : pyfloat) :
  axis_ordered_or_empty mn mx -> axis_ordered_or_empty (py_min mn x) (py_max mx x).
Proof.
  intros [H|[-> ->]].
  - destruct (fleb_not_nan _ _ H) as [Hmn Hmx]. unfold py_min, py_max.
    destruct x as [|s|r].
    + destruct mn, mx; simpl; now left.
    + left. set (x := Inf s) in *. assert (Hx : x <> NaN) by discriminate.
      destruct (fltb x mn) eqn:A, (fltb mx x) eqn:B.
      * now apply fleb_refl.
      * apply fleb_trans with mn; [now apply fltb_fleb|assumption].
      * apply fleb_trans with mx; [assumption|now apply fltb_fleb].
      * assumption.
    + left. set (x := Fin r) in *. assert (Hx : x <> NaN) by discriminate.
      destruct (fltb x mn) eqn:A, (fltb mx x) eqn:B.
      * now apply fleb_refl.
      * apply fleb_trans with mn; [now apply fltb_fleb|assumption].
      * apply fleb_trans with mx; [assumption|now apply fltb_fleb].
      * assumption.
  - destruct x as [|s|r].
    + now right.
    + left. now destruct s.
    + left. unfold py_min, py_max. simpl. apply fleb_Fin, Qcle_refl.
Qed.

Lemma update_bounds_ordered (b : bounds) (v : point3) :
  bounds_ordered_or_empty b -> bounds_ordered_or_empty (update_bounds b v).
Proof.
  destruct b as [[[mnx mny] mnz] [[mxx mxy] mxz]], v as [[x y] z].
  unfold bounds_ordered_or_empty, at0, at1, at2. simpl.
  intros (Hx & Hy & Hz). repeat split; now apply axis_step.
Qed.

Lemma for_each_preserves {I S : Type} (P : S -> Prop) (l : list I) body :
  (forall i s s', body i s = Ok s' -> P s -> P s') ->
  forall s s', for_each l s body = Ok s' -> P s -> P s'.
Proof.
  intros Hstep. induction l as [|i l IH]; intros s s' E Hs; simpl in E.
  - now inversion E; subst.
  - destruct (body i s) as [s1|e] eqn:E1; simpl in E; [|discriminate].
    apply (IH s1 s' E). now apply (Hstep i s s1).
Qed.

Lemma bind_Ok {A B : Type} (m : result A) (k : A -> result B) (b : B) :
  bind m k = Ok b -> exists a, m = Ok a /\ k a = Ok b.
Proof. destruct m as [a|e]; simpl; [eauto|discriminate]. Qed.

Lemma ascii_line_step_ordered (line : str) (b b' : bounds) :
  ascii_line_step line b = Ok b' ->
  bounds_ordered_or_empty b -> bounds_ordered_or_empty b'.
Proof.
  unfold ascii_line_step. intros E Hb.
  destruct (startswith (strip line) (lit "vertex")); [|now inversion E; subst].
  destruct (length (split (strip line)) =? 4)%nat; [|now inversion E; subst].
  apply bind_Ok in E. destruct E as (p1 & _ & E).
  apply bind_Ok in E. destruct E as (x & _ & E).
  apply bind_Ok in E. destruct E as (p2 & _ & E).
  apply bind_Ok in E. destruct E as (y & _ & E).
  apply bind_Ok in E. destruct E as (p3 & _ & E).
  apply bind_Ok in E. destruct E as (z & _ & E).
  inversion E; subst. now apply update_bounds_ordered.
Qed.

Lemma binary_triangle_step_ordered (i : nat) (s s' : bounds * bytes) :
  binary_triangle_step i s = Ok s' ->
  bounds_ordered_or_empty (fst s) -> bounds_ordered_or_empty (fst s').
Proof.
  destruct s as [b stream]. unfold binary_triangle_step. cbn [read fst snd].
  intros E Hb. apply bind_Ok in E. destruct E as ([b1 stream1] & E & E').
  inversion E'; subst. cbn [fst].
  refine (for_each_preserves (fun s => bounds_ordered_or_empty (fst s)) _ _ _ _ _ E Hb).
  intros j [b2 st2] s2 Ej Hj.
  apply bind_Ok in Ej. destruct Ej as (v & _ & Ej). inversion Ej; subst.
  now apply update_bounds_ordered.
Qed.

Lemma initial_bounds_ordered : bounds_ordered_or_empty initial_bounds.
Proof. repeat split; right; split; reflexivity. Qed.

(** * Bounds of a mesh without vertices *)

(** A binary file that declares no triangle is accepted; the bounds returned
    are [+inf] for the minimum and [-inf] for the maximum, so the minimum is
    not below the maximum. *)
Lemma empty_mesh_bounds_inverted :
  get_stl_bounds empty_mesh_stl = Ok initial_bounds
  /\ fleb (at0 (fst initial_bounds)) (at0 (snd initial_bounds)) = false
  /\ fleb (at1 (fst initial_bounds)) (at1 (snd initial_bounds)) = false
  /\ fleb (at2 (fst initial_bounds)) (at2 (snd initial_bounds)) = false.
Proof. repeat split; vm_compute; reflexivity. Qed.

(** C9 (as the code behaves). For every input [get_stl_bounds] accepts, each
    axis of the returned bounds either has its minimum at most its maximum,
    or still has the initial values [+inf] and [-inf] (no coordinate other
    than NaN was read on that axis). *)
Theorem bounds_ordered_unless_empty (stl_file : file) (min_point max_point : point3) :
  get_stl_bounds stl_file = Ok (min_point, max_point) ->
  axis_ordered_or_empty (at0 min_point) (at0 max_point)
  /\ axis_ordered_or_empty (at1 min_point) (at1 max_point)
  /\ axis_ordered_or_empty (at2 min_point) (at2 max_point).
Proof.
  unfold get_stl_bounds. intros E.
  change (bounds_ordered_or_empty (min_point, max_point)).
  destruct (is_ascii_stl stl_file).
  - apply bind_Ok in E. destruct E as (text & _ & E).
    apply (for_each_preserves bounds_ordered_or_empty _ _ ascii_line_step_ordered _ _ E).
    exact initial_bounds_ordered.
  - apply bind_Ok in E. destruct E as (stream & _ & E). cbn [read] in E.
    apply bind_Ok in E. destruct E as (n & _ & E).
    apply bind_Ok in E. destruct E as ([b rest] & E & E'). inversion E'; subst.
    apply (for_each_preserves (fun s => bounds_ordered_or_empty (fst s)) _ _
             binary_triangle_step_ordered _ _ E).
    exact initial_bounds_ordered.
Qed.

Lemma bounds_ordered_unless_empty_witness :
  get_stl_bounds unit_triangle_stl = Ok (fin_point qorigin, fin_point q110)
  /\ axis_ordered_or_empty (at0 (fin_point qorigin)) (at0 (fin_point q110))
  /\ axis_ordered_or_empty (at1 (fin_point qorigin)) (at1 (fin_point q110))
  /\ axis_ordered_or_empty (at2 (fin_point qorigin)) (at2 (fin_point q110)).
Proof.
  split; [exact unit_triangle_bounds|].
  exact (bounds_ordered_unless_empty unit_triangle_stl _ _ unit_triangle_bounds).
Defined.

(** * Reading a binary stream *)

Lemma unpack_fff_short (raw : bytes) :
  length raw <> 12%nat -> unpack_fff raw = Err StructError.
Proof.
  intros H. unfold unpack_fff. apply Nat.eqb_neq in H. now rewrite H.
Qed.

Lemma unpack_fff_full (raw : bytes) :
  length raw = 12%nat -> exists v, unpack_fff raw = Ok v.
Proof.
  intros H. unfold unpack_fff. rewrite H. simpl. eauto.
Qed.

Lemma unpack_I_short (raw : bytes) :
  length raw <> 4%nat -> unpack_I raw = Err StructError.
Proof.
  intros H. unfold unpack_I. apply Nat.eqb_neq in H. now rewrite H.
Qed.

Lemma unpack_I_full (raw : bytes) :
  length raw = 4%nat -> unpack_I raw = Ok (le_uint raw).
Proof.
  intros H. unfold unpack_I. now rewrite H.
Qed.

Lemma firstn_full {A : Type} (n : nat) (l : list A) :
  (n <= length l)%nat -> length (firstn n l) = n.
Proof. intros H. rewrite length_firstn. lia. Qed.

Lemma firstn_short {A : Type} (n : nat) (l : list A) :
  (length l < n)%nat -> length (firstn n l) <> n.
Proof. intros H. rewrite length_firstn. lia. Qed.

(** The loop over the three vertices of a triangle. *)
Lemma vertices_loop (n s : nat) (b : bounds) (stream : bytes) :
  ((12 * n <= length stream)%nat ->
   exists b', for_each (seq s n) (b, stream) (fun (j : nat) (s : bounds * bytes) =>
                let '(b, stream) := s in
                let '(raw, stream) := read 12 stream in
                v <- unpack_fff raw ;;
                Ok (update_bounds b v, stream))
              = Ok (b', skipn (12 * n) stream))
  /\ ((length stream < 12 * n)%nat ->
      for_each (seq s n) (b, stream) (fun (j : nat) (s : bounds * bytes) =>
        let '(b, stream) := s in
        let '(raw, stream) := read 12 stream in
        v <- unpack_fff raw ;;
        Ok (update_bounds b v, stream))
      = Err StructError).
Proof.
  revert s b stream. induction n as [|n IH]; intros s b stream.
  - split; [|lia]. intros _. exists b. reflexivity.
  - cbn [seq for_each].
    change (read 12 stream) with (firstn 12 stream, skipn 12 stream). cbn beta iota.
    split; intros H.
    + destruct (unpack_fff_full (firstn 12 stream)) as (v & E).
      { apply firstn_full. lia. }
      rewrite E. cbn [bind].
      destruct (IH (S s) (update_bounds b v) (skipn 12 stream)) as (IH1 & _).
      destruct IH1 as (b' & E'); [rewrite length_skipn; lia|].
      exists b'. rewrite E', skipn_skipn. do 3 f_equal. lia.
    + destruct (Nat.lt_ge_cases (length stream) 12) as [L|L].
      * rewrite unpack_fff_short by now apply firstn_short. reflexivity.
      * destruct (unpack_fff_full (firstn 12 stream)) as (v & E).
        { now apply firstn_full. }
        rewrite E. cbn [bind].
        apply (IH (S s) (update_bounds b v) (skipn 12 stream)).
        rewrite length_skipn. lia.
Qed.

Lemma binary_triangle_step_full (i : nat) (b : bounds) (stream : bytes) :
  (48 <= length stream)%nat ->
  exists b', binary_triangle_step i (b, stream) = Ok (b', skipn 50 stream).
Proof.
  intros H. unfold binary_triangle_step.
  change (read 12 stream) with (firstn 12 stream, skipn 12 stream). cbn beta iota.
  change (py_range 3) with (seq 0 3).
  destruct (vertices_loop 3 0 b (skipn 12 stream)) as ((b' & E) & _).
  { rewrite length_skipn. lia. }
  rewrite E. cbn [bind read]. exists b'. now rewrite !skipn_skipn.
Qed.

Lemma binary_triangle_step_short (i : nat) (b : bounds) (stream : bytes) :
  (length stream < 48)%nat ->
  binary_triangle_step i (b, stream) = Err StructError.
Proof.
  intros H. unfold binary_triangle_step.
  change (read 12 stream) with (firstn 12 stream, skipn 12 stream). cbn beta iota.
  change (py_range 3) with (seq 0 3).
  destruct (vertices_loop 3 0 b (skipn 12 stream)) as (_ & E).
  rewrite E; [reflexivity|]. rewrite length_skipn. lia.
Qed.

Lemma triangles_truncated (n s : nat) (b : bounds) (stream : bytes) :
  (1 <= n)%nat -> (length stream < 50 * n - 2)%nat ->
  for_each (seq s n) (b, stream) binary_triangle_step = Err StructError.
Proof.
  revert s b stream. induction n as [|n IH]; intros s b stream Hn H; [lia|].
  cbn [seq for_each].
  destruct (Nat.lt_ge_cases (length stream) 48) as [L|L].
  - now rewrite binary_triangle_step_short.
  - destruct (binary_triangle_step_full s b stream L) as (b' & E).
    rewrite E. cbn [bind]. apply IH; [lia|]. rewrite length_skipn. lia.
Qed.

Lemma read_triangle_step_full (i : nat) (ts : list triangle) (stream : bytes) :
  (48 <= length stream)%nat ->
  exists t, read_triangle_step i (ts, stream) = Ok (ts ++ [t], skipn 50 stream).
Proof.
  intros H. unfold read_triangle_step. cbn [read].
  destruct (unpack_fff_full (firstn 12 stream)) as (nv & E0).
  { apply firstn_full. lia. }
  destruct (unpack_fff_full (firstn 12 (skipn 12 stream))) as (v1 & E1).
  { apply firstn_full. rewrite length_skipn. lia. }
  destruct (unpack_fff_full (firstn 12 (skipn 12 (skipn 12 stream)))) as (v2 & E2).
  { apply firstn_full. rewrite !length_skipn. lia. }
  destruct (unpack_fff_full (firstn 12 (skipn 12 (skipn 12 (skipn 12 stream)))))
    as (v3 & E3).
  { apply firstn_full. rewrite !length_skipn. lia. }
  rewrite E0. cbn [bind]. rewrite E1. cbn [bind]. rewrite E2. cbn [bind].
  rewrite E3. cbn [bind]. eexists. now rewrite !skipn_skipn.
Qed.

Lemma read_triangle_step_short (i : nat) (ts : list triangle) (stream : bytes) :
  (length stream < 48)%nat ->
  read_triangle_step i (ts, stream) = Err StructError.
Proof.
  intros H. unfold read_triangle_step. cbn [read].
  destruct (Nat.lt_ge_cases (length stream) 12) as [L0|L0].
  { rewrite unpack_fff_short by now apply firstn_short. reflexivity. }
  destruct (unpack_fff_full (firstn 12 stream)) as (nv & E0);
    [now apply firstn_full|]. rewrite E0. cbn [bind].
  destruct (Nat.lt_ge_cases (length stream) 24) as [L1|L1].
  { rewrite unpack_fff_short; [reflexivity|].
    apply firstn_short. rewrite length_skipn. lia. }
  destruct (unpack_fff_full (firstn 12 (skipn 12 stream))) as (v1 & E1).
  { apply firstn_full. rewrite length_skipn. lia. }
  rewrite E1. cbn [bind].
  destruct (Nat.lt_ge_cases (length stream) 36) as [L2|L2].
  { rewrite unpack_fff_short; [reflexivity|].
    apply firstn_short. rewrite !length_skipn. lia. }
  destruct (unpack_fff_full (firstn 12 (skipn 12 (skipn 12 stream)))) as (v2 & E2).
  { apply firstn_full. rewrite !length_skipn. lia. }
  rewrite E2. cbn [bind].
  rewrite unpack_fff_short; [reflexivity|].
  apply firstn_short. rewrite !length_skipn. lia.
Qed.

Lemma read_triangles_truncated (n s : nat) (ts : list triangle) (stream : bytes) :
  (1 <= n)%nat -> (length stream < 50 * n - 2)%nat ->
  for_each (seq s n) (ts, stream) read_triangle_step = Err StructError.
Proof.
  revert s ts stream. induction n as [|n IH]; intros s ts stream Hn H; [lia|].
  cbn [seq for_each].
  destruct (Nat.lt_ge_cases (length stream) 48) as [L|L].
  - now rewrite read_triangle_step_short.
  - destruct (read_triangle_step_full s ts stream L) as (t & E).
    rewrite E. cbn [bind]. apply IH; [lia|]. rewrite length_skipn. lia.
Qed.

(** * Truncated binary files *)

(** A file that declares one triangle and holds 20 bytes of data: both
    readers raise the error of [struct.unpack]. *)
Lemma truncated_file_raises_struct_error :
  get_stl_bounds truncated_stl = Err StructError
  /\ read_binary_stl truncated_stl = Err StructError.
Proof. split; vm_compute; reflexivity. Qed.

(** C7 (as the code behaves). When a binary file ends before its triangle
    count, or before the last vertex of the last triangle it declares,
    [get_stl_bounds] (on a file it reads as binary) and [read_binary_stl]
    raise the error of [struct.unpack]; neither reader converts it into an
    error of its own. *)
Theorem truncated_binary_raises_struct_error (content : bytes) :
  truncated content ->
  (is_ascii_stl (Some content) = false ->
   get_stl_bounds (Some content) = Err StructError)
  /\ read_binary_stl (Some content) = Err StructError.
Proof.
  intros T.
  assert (C : (length content < 84)%nat ->
              unpack_I (firstn 4 (skipn 80 content)) = Err StructError).
  { intros L. apply unpack_I_short. rewrite length_firstn, length_skipn. lia. }
  assert (D : (84 <= length content)%nat ->
              unpack_I (firstn 4 (skipn 80 content))
              = Ok (le_uint (firstn 4 (skipn 80 content)))).
  { intros L. apply unpack_I_full. rewrite length_firstn, length_skipn. lia. }
  split.
  - intros A. unfold get_stl_bounds. rewrite A. cbn [open_rb bind read].
    destruct (Nat.lt_ge_cases (length content) 84) as [L|L].
    + now rewrite C.
    + rewrite D by assumption. cbn [bind].
      destruct T as [T|[T1 T2]]; [lia|]. unfold declared_triangles in T1, T2.
      rewrite triangles_truncated; [reflexivity|assumption|].
      rewrite !length_skipn. lia.
  - unfold read_binary_stl. cbn [open_rb bind read].
    destruct (Nat.lt_ge_cases (length content) 84) as [L|L].
    + now rewrite C.
    + rewrite D by assumption. cbn [bind].
      destruct T as [T|[T1 T2]]; [lia|]. unfold declared_triangles in T1, T2.
      rewrite read_triangles_truncated; [reflexivity|assumption|].
      rewrite !length_skipn. lia.
Qed.

Lemma truncated_binary_raises_struct_error_witness :
  truncated (zero_header ++ le_bytes 4 1 ++ repeat zero 20)
  /\ is_ascii_stl truncated_stl = false
  /\ get_stl_bounds truncated_stl = Err StructError
  /\ read_binary_stl truncated_stl = Err StructError.
Proof.
  assert (T : truncated (zero_header ++ le_bytes 4 1 ++ repeat zero 20)).
  { right. split; vm_compute; lia. }
  split; [exact T|]. split; [reflexivity|].
  destruct (truncated_binary_raises_struct_error _ T) as (G & R).
  split; [apply G; reflexivity | exact R].
Defined.

(** * Stripping white space *)

Lemma lstrip_all_space (ws r : str) :
  all_space ws = true -> lstrip (ws ++ r) = lstrip r.
Proof.
  induction ws as [|c ws IH]; simpl; [reflexivity|].
  rewrite andb_true_iff. intros [Hc Hws]. now rewrite Hc, IH.
Qed.

Lemma lstrip_head (c : ascii) (r : str) :
  is_space c = false -> lstrip (c :: r) = c :: r.
Proof. intros H. simpl. now rewrite H. Qed.

Lemma all_space_rev (ws : str) : all_space (rev ws) = all_space ws.
Proof.
  unfold all_space. induction ws as [|c ws IH]; simpl; [reflexivity|].
  rewrite forallb_app, IH. simpl. rewrite andb_true_r. apply andb_comm.
Qed.

Lemma rstrip_all_space (s ws : str) :
  all_space ws = true -> rstrip (s ++ ws) = rstrip s.
Proof.
  intros H. unfold rstrip. rewrite rev_app_distr, lstrip_all_space; [reflexivity|].
  now rewrite all_space_rev.
Qed.

Lemma rstrip_last (s : str) (c : ascii) :
  is_space c = false -> rstrip (s ++ [c]) = s ++ [c].
Proof.
  intros H. unfold rstrip. rewrite rev_app_distr. simpl rev at 2.
  cbn [app]. rewrite lstrip_head by assumption.
  cbn [rev]. now rewrite rev_involutive.
Qed.

(** A text between white space, starting and ending with other characters. *)
Lemma strip_core (ws1 ws2 body : str) (c d : ascii) :
  all_space ws1 = true -> all_space ws2 = true ->
  is_space c = false -> is_space d = false ->
  strip (ws1 ++ (c :: body ++ [d]) ++ ws2) = c :: body ++ [d].
Proof.
  intros H1 H2 Hc Hd. unfold strip.
  rewrite lstrip_all_space by assumption.
  cbn [app]. rewrite lstrip_head by assumption.
  change (c :: (body ++ [d]) ++ ws2) with ((c :: body ++ [d]) ++ ws2).
  rewrite rstrip_all_space by assumption.
  change (c :: body ++ [d]) with ((c :: body) ++ [d]).
  now apply rstrip_last.
Qed.

Lemma strip_single (ws1 ws2 : str) (c : ascii) :
  all_space ws1 = true -> all_space ws2 = true -> is_space c = false ->
  strip (ws1 ++ [c] ++ ws2) = [c].
Proof.
  intros H1 H2 Hc. unfold strip.
  rewrite lstrip_all_space by assumption.
  cbn [app]. rewrite lstrip_head by assumption.
  change (c :: ws2) with ([c] ++ ws2).
  rewrite rstrip_all_space by assumption.
  now apply (rstrip_last []).
Qed.

Lemma strip_all_space (ws : str) : all_space ws = true -> strip ws = [].
Proof.
  intros H. unfold strip. rewrite <- (app_nil_r ws).
  rewrite lstrip_all_space by assumption. reflexivity.
Qed.

Lemma strip_edged (ws1 ws2 s : str) :
  all_space ws1 = true -> all_space ws2 = true -> edged s ->
  strip (ws1 ++ s ++ ws2) = s.
Proof.
  intros H1 H2 [(c & Hc & ->)|(c & body & d & Hc & Hd & ->)].
  - now apply strip_single.
  - now apply strip_core.
Qed.

Lemma no_space_app (s t : str) : no_space (s ++ t) = no_space s && no_space t.
Proof. apply forallb_app. Qed.

Lemma token_edged (t : str) : is_token t = true -> edged t.
Proof.
  destruct t as [|c t]; [discriminate|]. simpl. rewrite andb_true_iff.
  intros [Hc Ht]. apply negb_true_iff in Hc.
  induction t as [|c' t' _] using rev_ind; [left; eauto|].
  right. exists c, t', c'. fold (no_space (t' ++ [c'])) in Ht.
  rewrite no_space_app in Ht. simpl in Ht. rewrite !andb_true_iff in Ht.
  destruct Ht as (_ & Hc' & _). apply negb_true_iff in Hc'. auto.
Qed.

Lemma edged_app (s t m : str) : edged s -> edged t -> edged (s ++ m ++ t).
Proof.
  intros Hs Ht. right.
  destruct Hs as [(c & Hc & ->)|(c & body & d & Hc & Hd & ->)];
    destruct Ht as [(c' & Hc' & ->)|(c' & body' & d' & Hc' & Hd' & ->)].
  - exists c, m, c'. auto.
  - exists c, (m ++ c' :: body'), d'. repeat split; auto.
    simpl. now rewrite <- !app_assoc.
  - exists c, (body ++ [d] ++ m), c'. repeat split; auto.
    simpl. now rewrite <- !app_assoc.
  - exists c, (body ++ [d] ++ m ++ c' :: body'), d'. repeat split; auto.
    simpl. rewrite <- !app_assoc. simpl. now rewrite <- !app_assoc.
Qed.

Lemma join_edged (sep : str) (ts : list str) :
  ts <> [] -> Forall (fun t => is_token t = true) ts -> edged (join sep ts).
Proof.
  induction ts as [|t ts IH]; intros Hne Hts; [congruence|].
  inversion Hts as [|? ? Ht Hts']; subst.
  destruct ts as [|t' ts'].
  - now apply token_edged.
  - change (join sep (t :: t' :: ts')) with (t ++ sep ++ join sep (t' :: ts')).
    apply edged_app; [now apply token_edged|]. apply IH; [discriminate|assumption].
Qed.

(** * Splitting at white space *)

Lemma split_go_token (t : str) (c : ascii) (rest acc : str) :
  no_space t = true -> is_space c = true -> rev acc ++ t <> [] ->
  split_go (t ++ c :: rest) acc = (rev acc ++ t) :: split_go rest [].
Proof.
  revert acc. induction t as [|a t IH]; intros acc Ht Hc Hne.
  - simpl. rewrite Hc. rewrite app_nil_r in *.
    destruct acc; [now contradiction Hne|reflexivity].
  - simpl in Ht. apply andb_true_iff in Ht. destruct Ht as [Ha Ht].
    apply negb_true_iff in Ha. simpl. rewrite Ha.
    rewrite IH; try assumption.
    + simpl. now rewrite <- app_assoc.
    + simpl. rewrite <- app_assoc. simpl. now destruct (rev acc).
Qed.

Lemma split_go_end (t acc : str) :
  no_space t = true -> rev acc ++ t <> [] -> split_go t acc = [rev acc ++ t].
Proof.
  revert acc. induction t as [|a t IH]; intros acc Ht Hne.
  - simpl. rewrite app_nil_r in *. destruct acc; [now contradiction Hne|reflexivity].
  - simpl in Ht. apply andb_true_iff in Ht. destruct Ht as [Ha Ht].
    apply negb_true_iff in Ha. simpl. rewrite Ha.
    rewrite IH; try assumption.
    + simpl. now rewrite <- app_assoc.
    + simpl. rewrite <- app_assoc. simpl. now destruct (rev acc).
Qed.

Lemma split_go_space (ws rest : str) :
  all_space ws = true -> split_go (ws ++ rest) [] = split_go rest [].
Proof.
  induction ws as [|c ws IH]; simpl; [reflexivity|].
  rewrite andb_true_iff. intros [Hc Hws]. now rewrite Hc, IH.
Qed.

Lemma token_parts (t : str) :
  is_token t = true -> no_space t = true /\ t <> [].
Proof. destruct t; [discriminate|]. intros H. split; [exact H|discriminate]. Qed.

(** The words of a line of tokens, each followed by a space. *)
Lemma split_spaced_line (ts : list str) (ws : str) :
  Forall (fun t => is_token t = true) ts -> all_space ws = true ->
  split (spaced_line ts ++ ws) = ts.
Proof.
  intros Hts Hws. unfold split. induction Hts as [|t ts Ht Hts IH].
  - simpl. rewrite <- (app_nil_r ws). now rewrite split_go_space.
  - destruct (token_parts t Ht) as [Hn Hne].
    unfold spaced_line in *. cbn [flat_map]. rewrite <- !app_assoc. cbn [app].
    rewrite split_go_token; try assumption; [|reflexivity].
    cbn [rev app]. now rewrite IH.
Qed.

Lemma spaced_line_join (ts : list str) :
  ts <> [] -> spaced_line ts = join [SP] ts ++ [SP].
Proof.
  induction ts as [|t ts IH]; intros H; [congruence|].
  destruct ts as [|t' ts'].
  - unfold spaced_line. simpl. now rewrite app_nil_r.
  - change (spaced_line (t :: t' :: ts')) with ((t ++ [SP]) ++ spaced_line (t' :: ts')).
    rewrite IH by discriminate.
    change (join [SP] (t :: t' :: ts')) with (t ++ [SP] ++ join [SP] (t' :: ts')).
    now rewrite <- !app_assoc.
Qed.

(** The words of tokens joined by single spaces. *)
Lemma split_join (ts : list str) :
  Forall (fun t => is_token t = true) ts -> split (join [SP] ts) = ts.
Proof.
  unfold split. induction ts as [|t ts IH]; intros Hts; [reflexivity|].
  inversion Hts as [|? ? Ht Hts']; subst.
  destruct (token_parts t Ht) as [Hn Hne].
  destruct ts as [|t' ts'].
  - simpl. now rewrite split_go_end.
  - change (join [SP] (t :: t' :: ts')) with (t ++ SP :: join [SP] (t' :: ts')).
    rewrite split_go_token; try assumption; [|reflexivity].
    cbn [rev app]. now rewrite IH.
Qed.

(** * Lines *)

Lemma lines_go_line (s rest acc : str) :
  no_lf s = true ->
  lines_go (s ++ LF :: rest) acc = (rev acc ++ s ++ [LF]) :: lines_go rest [].
Proof.
  revert acc. induction s as [|c s IH]; intros acc H.
  - simpl. reflexivity.
  - simpl in H. apply andb_true_iff in H. destruct H as [Hc Hs].
    apply negb_true_iff in Hc. simpl. rewrite Hc.
    rewrite IH by assumption. simpl. now rewrite <- app_assoc.
Qed.

Lemma lines_go_end (s acc : str) :
  no_lf s = true -> rev acc ++ s <> [] -> lines_go s acc = [rev acc ++ s].
Proof.
  revert acc. induction s as [|c s IH]; intros acc H Hne.
  - simpl. rewrite app_nil_r in *. destruct acc; [now contradiction Hne|reflexivity].
  - simpl in H. apply andb_true_iff in H. destruct H as [Hc Hs].
    apply negb_true_iff in Hc. simpl. rewrite Hc.
    rewrite IH; try assumption.
    + simpl. now rewrite <- app_assoc.
    + simpl. rewrite <- app_assoc. simpl. now destruct (rev acc).
Qed.

(** The lines of a text made of lines that each end with a line feed. *)
Lemma splitlines_lines (ls : list str) (last : str) :
  Forall (fun l => no_lf l = true) ls -> no_lf last = true ->
  splitlines (flat_map (fun l => l ++ [LF]) ls ++ last)
  = map (fun l => l ++ [LF]) ls ++ match last with [] => [] | _ => [last] end.
Proof.
  intros Hls Hlast. unfold splitlines. induction Hls as [|l ls Hl Hls IH].
  - simpl. destruct last as [|c last']; [reflexivity|].
    now rewrite lines_go_end.
  - cbn [flat_map map]. rewrite <- !app_assoc. cbn [app].
    rewrite lines_go_line by assumption. cbn [rev app]. now rewrite IH.
Qed.

(** * Opening a text file *)

Lemma universal_newlines_text (s : str) :
  is_text s = true -> universal_newlines s = s.
Proof.
  induction s as [|c s IH]; [reflexivity|]. intros H.
  change (is_text (c :: s)) with (text_char c && is_text s) in H.
  apply andb_true_iff in H. destruct H as [Hc Hs].
  unfold text_char in Hc. apply andb_true_iff in Hc. destruct Hc as [_ Hc].
  apply negb_true_iff in Hc. cbn [universal_newlines]. rewrite Hc.
  f_equal. now apply IH.
Qed.

Lemma decode_ascii_text (s : str) : is_text s = true -> decode_ascii s = Ok s.
Proof.
  intros H. unfold decode_ascii.
  replace (forallb (fun c => (N_of_ascii c <? 128)%N) s) with true; [reflexivity|].
  symmetry. apply forallb_forall. intros c Hc.
  unfold is_text in H. rewrite forallb_forall in H. specialize (H c Hc).
  unfold text_char in H. now apply andb_true_iff in H.
Qed.

Lemma open_r_text (s : str) : is_text s = true -> open_r (Some s) = Ok s.
Proof.
  intros H. unfold open_r. cbn [open_rb bind].
  rewrite decode_ascii_text by assumption. cbn [bind].
  now rewrite universal_newlines_text.
Qed.

Lemma is_text_app (s t : str) : is_text (s ++ t) = is_text s && is_text t.
Proof. apply forallb_app. Qed.

Lemma plain_is_text (s : str) : plain s = true -> is_text s = true.
Proof.
  unfold plain, is_text. rewrite !forallb_forall. intros H c Hc.
  specialize (H c Hc). unfold plain_char in H. unfold text_char.
  rewrite !andb_true_iff in *. tauto.
Qed.

Lemma plain_no_lf (s : str) : plain s = true -> no_lf s = true.
Proof.
  unfold plain, no_lf. rewrite !forallb_forall. intros H c Hc.
  specialize (H c Hc). unfold plain_char in H.
  rewrite !andb_true_iff in *. tauto.
Qed.

Lemma plain_app (s t : str) : plain (s ++ t) = plain s && plain t.
Proof. apply forallb_app. Qed.

(** * Little-endian integers *)

Lemma length_le_bytes (k : nat) (w : N) : length (le_bytes k w) = k.
Proof. revert w. induction k as [|k IH]; intros w; simpl; [reflexivity|]. now rewrite IH. Qed.

Lemma le_uint_le_bytes (k : nat) (w : N) :
  le_uint (le_bytes k w) = (w mod 256 ^ N.of_nat k)%N.
Proof.
  revert w. induction k as [|k IH]; intros w.
  - simpl. now rewrite N.mod_1_r.
  - cbn [le_bytes le_uint]. rewrite IH.
    rewrite N_ascii_embedding by (apply N.mod_upper_bound; discriminate).
    rewrite Nat2N.inj_succ, N.pow_succ_r'.
    rewrite N.Div0.mod_mul_r. reflexivity.
Qed.

Lemma le_uint_le_bytes_4 (w : N) : (w < 2 ^ 32)%N -> le_uint (le_bytes 4 w) = w.
Proof.
  intros H. rewrite le_uint_le_bytes. change (256 ^ N.of_nat 4)%N with (2 ^ 32)%N.
  now apply N.mod_small.
Qed.

(** * Reading what was appended *)

Lemma read_app (n : nat) (a rest : bytes) :
  length a = n -> read n (a ++ rest) = (a, rest).
Proof.
  intros H. unfold read. subst n.
  rewrite firstn_app, skipn_app, Nat.sub_diag, firstn_all, skipn_all.
  simpl. now rewrite app_nil_r.
Qed.

Lemma length_encode_vec (v : raw_vec) : length (encode_vec v) = 12%nat.
Proof.
  destruct v as [[a b] c]. unfold encode_vec.
  now rewrite !length_app, !length_le_bytes.
Qed.

Lemma unpack_fff_encode_vec (v : raw_vec) :
  valid_vec v -> unpack_fff (encode_vec v) = Ok (vec_value v).
Proof.
  destruct v as [[a b] c]. intros (Ha & Hb & Hc).
  unfold unpack_fff. rewrite length_encode_vec. cbn [Nat.eqb].
  unfold encode_vec, vec_value.
  assert (E1 : firstn 4 (le_bytes 4 a ++ le_bytes 4 b ++ le_bytes 4 c) = le_bytes 4 a).
  { exact (f_equal fst (read_app 4 (le_bytes 4 a) (le_bytes 4 b ++ le_bytes 4 c)
                          (length_le_bytes 4 a))). }
  assert (E2 : skipn 4 (le_bytes 4 a ++ le_bytes 4 b ++ le_bytes 4 c)
               = le_bytes 4 b ++ le_bytes 4 c).
  { exact (f_equal snd (read_app 4 (le_bytes 4 a) (le_bytes 4 b ++ le_bytes 4 c)
                          (length_le_bytes 4 a))). }
  assert (E3 : firstn 4 (le_bytes 4 b ++ le_bytes 4 c) = le_bytes 4 b).
  { exact (f_equal fst (read_app 4 (le_bytes 4 b) (le_bytes 4 c) (length_le_bytes 4 b))). }
  assert (E4 : skipn 8 (le_bytes 4 a ++ le_bytes 4 b ++ le_bytes 4 c) = le_bytes 4 c).
  { change 8%nat with (4 + 4)%nat. rewrite <- skipn_skipn, E2.
    exact (f_equal snd (read_app 4 (le_bytes 4 b) (le_bytes 4 c) (length_le_bytes 4 b))). }
  assert (E5 : firstn 4 (le_bytes 4 c) = le_bytes 4 c).
  { apply firstn_all2. now rewrite length_le_bytes. }
  rewrite E1, E2, E3, E4, E5, !le_uint_le_bytes_4 by assumption. reflexivity.
Qed.

(** * Decoding a binary mesh *)

Lemma binary_triangle_step_encoded (i : nat) (b : bounds) (t : raw_triangle)
      (rest : bytes) :
  valid_triangle t ->
  binary_triangle_step i (b, encode_triangle t ++ rest)
  = Ok (update_bounds (update_bounds (update_bounds b (vec_value (raw_v1 t)))
                                     (vec_value (raw_v2 t)))
                      (vec_value (raw_v3 t)), rest).
Proof.
  intros (_ & H1 & H2 & H3). unfold binary_triangle_step, encode_triangle.
  rewrite <- !app_assoc.
  rewrite (read_app 12 _ _ (length_encode_vec (raw_normal t))). cbn beta iota.
  change (py_range 3) with [0%nat; 1%nat; 2%nat]. cbn [for_each].
  rewrite (read_app 12 _ _ (length_encode_vec (raw_v1 t))). cbn beta iota.
  rewrite unpack_fff_encode_vec by assumption. cbn [bind].
  rewrite (read_app 12 _ _ (length_encode_vec (raw_v2 t))). cbn beta iota.
  rewrite unpack_fff_encode_vec by assumption. cbn [bind].
  rewrite (read_app 12 _ _ (length_encode_vec (raw_v3 t))). cbn beta iota.
  rewrite unpack_fff_encode_vec by assumption. cbn [bind].
  now rewrite (read_app 2 _ _ (length_le_bytes 2 (raw_attr t))).
Qed.

Lemma binary_triangles_encoded (tris : list raw_triangle) (s : nat) (b : bounds)
      (rest : bytes) :
  Forall valid_triangle tris ->
  for_each (seq s (length tris)) (b, flat_map encode_triangle tris ++ rest)
           binary_triangle_step
  = Ok (fold_left update_bounds (mesh_vertices tris) b, rest).
Proof.
  intros H. revert s b. induction H as [|t tris Ht Hts IH]; intros s b.
  - reflexivity.
  - cbn [length seq for_each flat_map]. rewrite <- app_assoc.
    rewrite binary_triangle_step_encoded by assumption. cbn [bind].
    rewrite IH. reflexivity.
Qed.

Lemma read_triangle_step_encoded (i : nat) (ts : list triangle) (t : raw_triangle)
      (rest : bytes) :
  valid_triangle t ->
  read_triangle_step i (ts, encode_triangle t ++ rest)
  = Ok (ts ++ [decode_triangle t], rest).
Proof.
  intros (H0 & H1 & H2 & H3). unfold read_triangle_step, encode_triangle.
  rewrite <- !app_assoc.
  rewrite (read_app 12 _ _ (length_encode_vec (raw_normal t))). cbn beta iota.
  rewrite unpack_fff_encode_vec by assumption. cbn [bind].
  rewrite (read_app 12 _ _ (length_encode_vec (raw_v1 t))). cbn beta iota.
  rewrite unpack_fff_encode_vec by assumption. cbn [bind].
  rewrite (read_app 12 _ _ (length_encode_vec (raw_v2 t))). cbn beta iota.
  rewrite unpack_fff_encode_vec by assumption. cbn [bind].
  rewrite (read_app 12 _ _ (length_encode_vec (raw_v3 t))). cbn beta iota.
  rewrite unpack_fff_encode_vec by assumption. cbn [bind].
  now rewrite (read_app 2 _ _ (length_le_bytes 2 (raw_attr t))).
Qed.

Lemma read_triangles_encoded (tris : list raw_triangle) (s : nat) (ts : list triangle)
      (rest : bytes) :
  Forall valid_triangle tris ->
  for_each (seq s (length tris)) (ts, flat_map encode_triangle tris ++ rest)
           read_triangle_step
  = Ok (ts ++ map decode_triangle tris, rest).
Proof.
  intros H. revert s ts. induction H as [|t tris Ht Hts IH]; intros s ts.
  - simpl. now rewrite app_nil_r.
  - cbn [length seq for_each flat_map map]. rewrite <- app_assoc.
    rewrite read_triangle_step_encoded by assumption. cbn [bind].
    rewrite IH. now rewrite <- app_assoc.
Qed.

Lemma binary_stl_header (header : bytes) (tris : list raw_triangle) :
  length header = 80%nat -> (N.of_nat (length tris) < 2 ^ 32)%N ->
  read 80 (binary_stl header tris)
  = (header, le_bytes 4 (N.of_nat (length tris)) ++ flat_map encode_triangle tris)
  /\ read 4 (le_bytes 4 (N.of_nat (length tris)) ++ flat_map encode_triangle tris)
     = (le_bytes 4 (N.of_nat (length tris)), flat_map encode_triangle tris)
  /\ unpack_I (le_bytes 4 (N.of_nat (length tris))) = Ok (N.of_nat (length tris)).
Proof.
  intros Hh Hn. split; [|split].
  - unfold binary_stl. now apply read_app.
  - apply read_app, length_le_bytes.
  - rewrite unpack_I_full by apply length_le_bytes.
    now rewrite le_uint_le_bytes_4.
Qed.

(** The bounds of a well-formed binary file that is read as binary. *)
Lemma get_stl_bounds_binary (header : bytes) (tris : list raw_triangle) :
  length header = 80%nat -> (N.of_nat (length tris) < 2 ^ 32)%N ->
  Forall valid_triangle tris ->
  is_ascii_stl (Some (binary_stl header tris)) = false ->
  get_stl_bounds (Some (binary_stl header tris))
  = Ok (fold_left update_bounds (mesh_vertices tris) initial_bounds).
Proof.
  intros Hh Hn Hv Ha. unfold get_stl_bounds. rewrite Ha. cbn [open_rb bind].
  destruct (binary_stl_header header tris Hh Hn) as (E1 & E2 & E3).
  rewrite E1, E2, E3. cbn [bind]. rewrite Nat2N.id.
  rewrite <- (app_nil_r (flat_map encode_triangle tris)).
  rewrite binary_triangles_encoded by assumption. reflexivity.
Qed.

(** [read_binary_stl] decodes every triangle of a well-formed binary file. *)
Lemma read_binary_stl_encoded (header : bytes) (tris : list raw_triangle) :
  length header = 80%nat -> (N.of_nat (length tris) < 2 ^ 32)%N ->
  Forall valid_triangle tris ->
  read_binary_stl (Some (binary_stl header tris)) = Ok (map decode_triangle tris).
Proof.
  intros Hh Hn Hv. unfold read_binary_stl. cbn [open_rb bind].
  destruct (binary_stl_header header tris Hh Hn) as (E1 & E2 & E3).
  rewrite E1, E2, E3. cbn [bind]. rewrite Nat2N.id.
  rewrite <- (app_nil_r (flat_map encode_triangle tris)).
  rewrite read_triangles_encoded by assumption. reflexivity.
Qed.

(** * Minimum and maximum of two floats *)

Lemma fltb_nan_r (a : pyfloat) : fltb a NaN = false.
Proof. now destruct a. Qed.

Lemma py_min_nan (a : pyfloat) : py_min a NaN = a.
Proof. reflexivity. Qed.

Lemma py_max_nan (a : pyfloat) : py_max a NaN = a.
Proof. unfold py_max. now rewrite fltb_nan_r. Qed.

Lemma py_min_cases (a x : pyfloat) : py_min a x = a \/ py_min a x = x.
Proof. unfold py_min. destruct (fltb x a); auto. Qed.

Lemma py_max_cases (a x : pyfloat) : py_max a x = a \/ py_max a x = x.
Proof. unfold py_max. destruct (fltb a x); auto. Qed.

Lemma py_min_le (a x : pyfloat) :
  a <> NaN -> x <> NaN ->
  fleb (py_min a x) a = true /\ fleb (py_min a x) x = true.
Proof.
  intros Ha Hx. unfold py_min. destruct (fltb x a) eqn:E.
  - split; [now apply fltb_fleb | now apply fleb_refl].
  - split; [now apply fleb_refl | now apply fleb_total].
Qed.

Lemma py_max_ge (a x : pyfloat) :
  a <> NaN -> x <> NaN ->
  fleb a (py_max a x) = true /\ fleb x (py_max a x) = true.
Proof.
  intros Ha Hx. unfold py_max. destruct (fltb a x) eqn:E.
  - split; [now apply fltb_fleb | now apply fleb_refl].
  - split; [now apply fleb_refl | now apply fleb_total].
Qed.

Lemma py_min_first (x : pyfloat) : x <> NaN -> py_min pinf x = x.
Proof. destruct x as [|[|]|q]; intros H; try reflexivity. congruence. Qed.

Lemma py_max_first (x : pyfloat) : x <> NaN -> py_max ninf x = x.
Proof. destruct x as [|[|]|q]; intros H; try reflexivity. congruence. Qed.

Lemma nan_dec (x : pyfloat) : {x = NaN} + {x <> NaN}.
Proof. destruct x; [left; reflexivity | right; discriminate | right; discriminate]. Qed.

Lemma all_nan_dec (xs : list pyfloat) :
  (forall x, In x xs -> x = NaN) \/ (exists x, In x xs /\ x <> NaN).
Proof.
  induction xs as [|x xs [IH|(y & Hy & Hn)]].
  - left. intros x [].
  - destruct (nan_dec x) as [E|N].
    + left. intros y [<-|Hy]; auto.
    + right. exists x. split; [now left|assumption].
  - right. exists y. split; [now right|assumption].
Qed.

(** * The extremes of the coordinates read so far *)

Lemma axis_extremes_nil : axis_extremes [] pinf ninf.
Proof.
  split; [|split].
  - intros x [].
  - intros (x & [] & _).
  - auto.
Qed.

Lemma axis_extremes_snoc (xs : list pyfloat) (mn mx x : pyfloat) :
  axis_extremes xs mn mx ->
  axis_extremes (xs ++ [x]) (py_min mn x) (py_max mx x).
Proof.
  intros (Hb & Hin & Hinit).
  destruct (nan_dec x) as [->|Hx].
  - rewrite py_min_nan, py_max_nan. split; [|split].
    + intros y Hy Hn. apply in_app_or in Hy.
      destruct Hy as [Hy|[<-|[]]]; [now apply Hb | now contradiction Hn].
    + intros (y & Hy & Hn). apply in_app_or in Hy.
      destruct Hy as [Hy|[<-|[]]]; [|congruence].
      destruct Hin as [H1 H2]; [eauto|]. split; apply in_or_app; now left.
    + intros Hall. apply Hinit. intros y Hy. apply Hall, in_or_app. now left.
  - destruct (all_nan_dec xs) as [Hall|(y0 & Hy0 & Hn0)].
    + destruct (Hinit Hall) as [-> ->].
      rewrite py_min_first, py_max_first by assumption. split; [|split].
      * intros y Hy Hn. apply in_app_or in Hy. destruct Hy as [Hy|[<-|[]]].
        -- apply Hall in Hy. congruence.
        -- split; now apply fleb_refl.
      * intros _. split; apply in_or_app; right; now left.
      * intros H. exfalso. apply Hx, H, in_or_app. right. now left.
    + destruct Hin as [Imn Imx]; [eauto|].
      destruct (Hb y0 Hy0 Hn0) as [L0 U0].
      destruct (fleb_not_nan _ _ L0) as [Nmn _].
      destruct (fleb_not_nan _ _ U0) as [_ Nmx].
      destruct (py_min_le mn x Nmn Hx) as [M1 M2].
      destruct (py_max_ge mx x Nmx Hx) as [X1 X2].
      split; [|split].
      * intros y Hy Hn. apply in_app_or in Hy. destruct Hy as [Hy|[<-|[]]].
        -- destruct (Hb y Hy Hn) as [L U]. split.
           ++ now apply fleb_trans with mn.
           ++ now apply fleb_trans with mx.
        -- split; assumption.
      * intros _. split; apply in_or_app.
        -- destruct (py_min_cases mn x) as [->| ->]; [now left | right; now left].
        -- destruct (py_max_cases mx x) as [->| ->]; [now left | right; now left].
      * intros H. exfalso. apply Hn0, H, in_or_app. now left.
Qed.

Lemma extremes_of_nil : extremes_of [] initial_bounds.
Proof. unfold extremes_of. simpl. split; [|split]; apply axis_extremes_nil. Qed.

Lemma extremes_of_snoc (vs : list point3) (b : bounds) (v : point3) :
  extremes_of vs b -> extremes_of (vs ++ [v]) (update_bounds b v).
Proof.
  destruct b as [[[mnx mny] mnz] [[mxx mxy] mxz]], v as [[x y] z].
  unfold extremes_of. rewrite !map_app. cbn [map update_bounds fst snd at0 at1 at2].
  intros (Hx & Hy & Hz). split; [|split]; now apply axis_extremes_snoc.
Qed.

Lemma fold_update_bounds_extremes (done vs : list point3) (b : bounds) :
  extremes_of done b ->
  extremes_of (done ++ vs) (fold_left update_bounds vs b).
Proof.
  revert done b. induction vs as [|v vs IH]; intros done b H.
  - now rewrite app_nil_r.
  - cbn [fold_left]. replace (done ++ v :: vs) with ((done ++ [v]) ++ vs)
      by now rewrite <- app_assoc.
    apply IH. now apply extremes_of_snoc.
Qed.

(** Scanning a list of vertices from the initial bounds gives their extremes. *)
Lemma scan_extremes (vs : list point3) :
  extremes_of vs (fold_left update_bounds vs initial_bounds).
Proof. apply (fold_update_bounds_extremes [] vs). apply extremes_of_nil. Qed.

(** * Reading an ASCII STL file *)

Lemma for_each_map {I J S : Type} (f : I -> J) (l : list I) (s : S) body :
  for_each (map f l) s body = for_each l s (fun i => body (f i)).
Proof.
  revert s. induction l as [|i l IH]; intros s; simpl; [reflexivity|].
  destruct (body (f i) s); simpl; auto.
Qed.

Lemma startswith_app (p r : str) : startswith (p ++ r) p = true.
Proof.
  induction p as [|c p IH]; simpl; [now destruct r|].
  now rewrite Ascii.eqb_refl, IH.
Qed.

Lemma all_space_repeat (n : nat) : all_space (repeat SP n) = true.
Proof. induction n; simpl; auto. Qed.

Lemma plain_repeat (n : nat) : plain (repeat SP n) = true.
Proof. induction n; simpl; auto. Qed.

Lemma vertex_tokens (x y z : str) :
  is_token x = true -> is_token y = true -> is_token z = true ->
  Forall (fun t => is_token t = true) [lit "vertex"; x; y; z].
Proof. intros Hx Hy Hz. repeat constructor; assumption. Qed.

Lemma ascii_line_step_vertex (indent : nat) (x y z : str) (vx vy vz : pyfloat)
      (b : bounds) :
  is_token x = true -> is_token y = true -> is_token z = true ->
  py_float x = Ok vx -> py_float y = Ok vy -> py_float z = Ok vz ->
  ascii_line_step (render_line (VertexLine indent x y z) ++ [LF]) b
  = Ok (update_bounds b (vx, vy, vz)).
Proof.
  intros Hx Hy Hz Ex Ey Ez. unfold ascii_line_step, render_line.
  pose proof (vertex_tokens x y z Hx Hy Hz) as Ht.
  rewrite <- app_assoc.
  rewrite strip_edged;
    [|apply all_space_repeat|reflexivity|apply join_edged; [discriminate|assumption]].
  replace (startswith (join [SP] [lit "vertex"; x; y; z]) (lit "vertex")) with true
    by (symmetry; apply startswith_app).
  rewrite split_join by assumption.
  cbn [length Nat.eqb getitem nth_error bind].
  rewrite Ex. cbn [bind]. rewrite Ey. cbn [bind]. rewrite Ez. reflexivity.
Qed.

Lemma ascii_line_step_other (s : str) (b : bounds) :
  startswith (strip (s ++ [LF])) (lit "vertex") = false ->
  ascii_line_step (s ++ [LF]) b = Ok b.
Proof. intros H. unfold ascii_line_step. now rewrite H. Qed.

Lemma ascii_line_step_line (l : stl_line) (b : bounds) :
  line_ok l ->
  ascii_line_step (render_line l ++ [LF]) b
  = Ok (fold_left update_bounds (line_vertices l) b).
Proof.
  destruct l as [indent x y z|s].
  - intros ((Tx & _ & vx & Ex) & (Ty & _ & vy & Ey) & (Tz & _ & vz & Ez)).
    rewrite (ascii_line_step_vertex indent x y z vx vy vz) by assumption.
    cbn [line_vertices fold_left]. now rewrite Ex, Ey, Ez.
  - intros (_ & H). now apply ascii_line_step_other.
Qed.

Lemma ascii_lines_scan (ls : list stl_line) (b : bounds) :
  Forall line_ok ls ->
  for_each ls b (fun l => ascii_line_step (render_line l ++ [LF]))
  = Ok (fold_left update_bounds (text_vertices ls) b).
Proof.
  intros H. revert b. induction H as [|l ls Hl Hls IH]; intros b; [reflexivity|].
  cbn [for_each]. rewrite ascii_line_step_line by assumption. cbn [bind].
  rewrite IH. unfold text_vertices. cbn [flat_map]. now rewrite fold_left_app.
Qed.

Lemma plain_token_line (x y z : str) :
  plain x = true -> plain y = true -> plain z = true ->
  plain (join [SP] [lit "vertex"; x; y; z]) = true.
Proof.
  intros Hx Hy Hz. cbn [join]. rewrite !plain_app, Hx, Hy, Hz. reflexivity.
Qed.

Lemma render_line_plain (l : stl_line) : line_ok l -> plain (render_line l) = true.
Proof.
  destruct l as [indent x y z|s].
  - intros ((_ & Px & _) & (_ & Py & _) & (_ & Pz & _)).
    cbn [render_line]. rewrite plain_app, plain_repeat.
    now apply plain_token_line.
  - now intros (H & _).
Qed.

Lemma ascii_stl_is_text (ls : list stl_line) :
  Forall line_ok ls -> is_text (ascii_stl ls) = true.
Proof.
  intros H. unfold ascii_stl. induction H as [|l ls Hl Hls IH]; [reflexivity|].
  cbn [flat_map]. rewrite !is_text_app, IH.
  now rewrite (plain_is_text _ (render_line_plain l Hl)).
Qed.

(** The bounds of a well-formed text file that is read as text. *)
Lemma get_stl_bounds_ascii (ls : list stl_line) :
  Forall line_ok ls ->
  is_ascii_stl (Some (ascii_stl ls)) = true ->
  get_stl_bounds (Some (ascii_stl ls))
  = Ok (fold_left update_bounds (text_vertices ls) initial_bounds).
Proof.
  intros H Ha. unfold get_stl_bounds. rewrite Ha.
  rewrite open_r_text by now apply ascii_stl_is_text.
  cbn [bind]. unfold ascii_stl.
  rewrite <- (flat_map_map (fun l => l ++ [LF]) render_line ls).
  rewrite <- (app_nil_r (flat_map _ (map render_line ls))).
  rewrite splitlines_lines.
  - rewrite app_nil_r, map_map, for_each_map. now apply ascii_lines_scan.
  - apply Forall_map. apply Forall_impl with (2 := H).
    intros l Hl. now apply plain_no_lf, render_line_plain.
  - reflexivity.
Qed.

(** * Bounds of a mesh *)

Lemma same_points_eq (l l' : list point3) : same_points l l' = true -> l = l'.
Proof.
  revert l'. induction l as [|p l IH]; intros [|q l']; simpl; try discriminate.
  - reflexivity.
  - rewrite andb_true_iff. intros [H1 H2].
    apply same_point_eq in H1. apply IH in H2. now subst.
Qed.

(** C6 (the failing input). A binary file whose 80-byte header begins with
    [solid] and that holds no line feed and no byte above 127 is taken for a
    text file by [is_ascii_stl]: its triangle, which [read_binary_stl]
    decodes as (0,0,0), (2,0,0), (0,2,0), is not seen by [get_stl_bounds],
    and the bounds returned are the initial [+inf] and [-inf]. *)
Lemma binary_with_solid_header_read_as_text :
  (exists t, read_binary_stl solid_binary_stl = Ok [t]
             /\ same_points (vertices t) [(Q0, Q0, Q0); (Q2, Q0, Q0); (Q0, Q2, Q0)] = true)
  /\ is_ascii_stl solid_binary_stl = true
  /\ get_stl_bounds solid_binary_stl = Ok ((pinf, pinf, pinf), (ninf, ninf, ninf)).
Proof.
  split; [|split; vm_compute; reflexivity].
  eexists. split; [vm_compute; reflexivity|]. vm_compute. reflexivity.
Qed.

(** X13. [get_stl_bounds] returns the extremes of the vertex coordinates
    for a well-formed binary file that it reads as binary, and for a text
    file that it reads as text and that is made of lines ended by a line
    feed, the words of a vertex line separated by single spaces and its
    coordinates accepted by [float]: on each axis, NaN coordinates apart, the
    minimum returned is at most and the maximum at least every coordinate,
    and both are coordinates of some vertex.  For the triangle (0,0,0),
    (1,0,0), (0,1,0), in either encoding, the bounds are (0,0,0) and
    (1,1,0). *)
Theorem bounds_are_extremes :
  (forall (header : bytes) (tris : list raw_triangle),
     length header = 80%nat -> (N.of_nat (length tris) < 2 ^ 32)%N ->
     Forall valid_triangle tris ->
     is_ascii_stl (Some (binary_stl header tris)) = false ->
     exists b, get_stl_bounds (Some (binary_stl header tris)) = Ok b
               /\ extremes_of (mesh_vertices tris) b)
  /\ (forall ls : list stl_line,
        Forall line_ok ls ->
        is_ascii_stl (Some (ascii_stl ls)) = true ->
        exists b, get_stl_bounds (Some (ascii_stl ls)) = Ok b
                  /\ extremes_of (text_vertices ls) b)
  /\ get_stl_bounds unit_triangle_stl = Ok (fin_point qorigin, fin_point q110)
  /\ get_stl_bounds (Some (ascii_stl unit_triangle_lines))
     = Ok (fin_point qorigin, fin_point q110).
Proof.
  split; [|split; [|split]].
  - intros header tris Hh Hn Hv Ha. eexists.
    split; [now apply get_stl_bounds_binary | apply scan_extremes].
  - intros ls Hl Ha. eexists.
    split; [now apply get_stl_bounds_ascii | apply scan_extremes].
  - by_computation.
  - by_computation.
Qed.

Lemma unit_triangle_valid : Forall valid_triangle unit_triangle.
Proof. repeat constructor. Qed.

Lemma unit_triangle_lines_ok : Forall line_ok unit_triangle_lines.
Proof.
  repeat (apply Forall_cons || apply Forall_nil);
    try (split; reflexivity);
    (repeat split; try reflexivity; eexists; reflexivity).
Qed.

Lemma bounds_are_extremes_witness :
  (length zero_header = 80%nat /\ (N.of_nat (length unit_triangle) < 2 ^ 32)%N
   /\ Forall valid_triangle unit_triangle
   /\ is_ascii_stl (Some (binary_stl zero_header unit_triangle)) = false
   /\ exists b, get_stl_bounds (Some (binary_stl zero_header unit_triangle)) = Ok b
                /\ extremes_of (mesh_vertices unit_triangle) b)
  /\ (Forall line_ok unit_triangle_lines
      /\ is_ascii_stl (Some (ascii_stl unit_triangle_lines)) = true
      /\ exists b, get_stl_bounds (Some (ascii_stl unit_triangle_lines)) = Ok b
                   /\ extremes_of (text_vertices unit_triangle_lines) b).
Proof.
  destruct bounds_are_extremes as (B & T & _).
  split.
  - split; [reflexivity|]. split; [reflexivity|]. split; [exact unit_triangle_valid|].
    split; [reflexivity|].
    apply (B zero_header unit_triangle);
      [reflexivity | reflexivity | exact unit_triangle_valid | reflexivity].
  - split; [exact unit_triangle_lines_ok|]. split; [reflexivity|].
    apply (T unit_triangle_lines); [exact unit_triangle_lines_ok | reflexivity].
Defined.

(** * Decimal digits *)

Lemma digit_cases (d : N) :
  (d < 10)%N ->
  d = 0%N \/ d = 1%N \/ d = 2%N \/ d = 3%N \/ d = 4%N \/ d = 5%N \/ d = 6%N
  \/ d = 7%N \/ d = 8%N \/ d = 9%N.
Proof. lia. Qed.

Lemma digit_char_ok (d : N) :
  (d < 10)%N -> is_digit (digit_char d) = true /\ digit_val (digit_char d) = d.
Proof.
  intros H. destruct (digit_cases d H) as [E|[E|[E|[E|[E|[E|[E|[E|[E|E]]]]]]]]];
    subst; split; reflexivity.
Qed.

Lemma is_digit_range (c : ascii) :
  is_digit c = true -> (48 <= N_of_ascii c <= 57)%N.
Proof.
  unfold is_digit. rewrite andb_true_iff, !N.leb_le. tauto.
Qed.

Lemma digit_not_char (c d : ascii) :
  is_digit c = true -> is_digit d = false -> Ascii.eqb c d = false.
Proof.
  intros Hc Hd. destruct (Ascii.eqb_spec c d) as [->|]; [congruence|reflexivity].
Qed.

Lemma digit_not_space (c : ascii) : is_digit c = true -> is_space c = false.
Proof.
  intros H. apply is_digit_range in H. unfold is_space.
  apply orb_false_iff. split; apply andb_false_iff.
  - right. apply N.leb_gt. lia.
  - right. apply N.leb_gt. lia.
Qed.

Lemma digit_plain (c : ascii) : is_digit c = true -> plain_char c = true.
Proof.
  intros H. unfold plain_char.
  rewrite (digit_not_char c CR H), (digit_not_char c LF H) by reflexivity.
  apply is_digit_range in H. rewrite !andb_true_r. apply N.ltb_lt. lia.
Qed.

Lemma digits_no_space (s : str) : forallb is_digit s = true -> no_space s = true.
Proof.
  unfold no_space. rewrite !forallb_forall. intros H c Hc.
  now rewrite digit_not_space by auto.
Qed.

Lemma digits_plain (s : str) : forallb is_digit s = true -> plain s = true.
Proof.
  unfold plain. rewrite !forallb_forall. intros H c Hc. apply digit_plain; auto.
Qed.

(** * The value of a digit string *)

Lemma digits_value_acc (ds : list N) (acc : N) :
  fold_left (fun a d => (10 * a + d)%N) ds acc
  = (acc * 10 ^ N.of_nat (length ds) + digits_value ds)%N.
Proof.
  unfold digits_value. revert acc. induction ds as [|d ds IH]; intros acc.
  - simpl. lia.
  - cbn [fold_left length]. rewrite IH, (IH (10 * 0 + d)%N).
    rewrite Nat2N.inj_succ, N.pow_succ_r'. lia.
Qed.

Lemma digits_value_app (a b : list N) :
  digits_value (a ++ b)
  = (digits_value a * 10 ^ N.of_nat (length b) + digits_value b)%N.
Proof.
  unfold digits_value at 1. rewrite fold_left_app.
  fold (digits_value a). apply digits_value_acc.
Qed.

Lemma digits_go_spec (fuel : nat) (n : N) (acc : str) :
  (n < 10 ^ N.of_nat (S fuel))%N ->
  exists s, digits_go fuel n acc = s ++ acc
            /\ s <> []
            /\ forallb is_digit s = true
            /\ digits_value (map digit_val s) = n.
Proof.
  revert n acc. induction fuel as [|fuel IH]; intros n acc H.
  - change (10 ^ N.of_nat 1)%N with 10%N in H.
    destruct (digit_char_ok (n mod 10)) as [D V]; [apply N.mod_upper_bound; lia|].
    exists [digit_char (n mod 10)]. cbn [digits_go app].
    split; [reflexivity|]. split; [discriminate|].
    split; [simpl; now rewrite D|].
    unfold digits_value. simpl. rewrite V, N.mod_small by assumption. lia.
  - destruct (digit_char_ok (n mod 10)) as [D V]; [apply N.mod_upper_bound; lia|].
    cbn [digits_go]. destruct (N.eqb_spec (n / 10) 0) as [E|E].
    + exists [digit_char (n mod 10)].
      split; [reflexivity|]. split; [discriminate|].
      split; [simpl; now rewrite D|].
      unfold digits_value. simpl. rewrite V.
      pose proof (N.Div0.div_mod n 10). lia.
    + destruct (IH (n / 10)%N (digit_char (n mod 10) :: acc)) as (s & Es & Ne & Ds & Vs).
      { apply N.Div0.div_lt_upper_bound.
        rewrite <- N.pow_succ_r', <- Nat2N.inj_succ. exact H. }
      exists (s ++ [digit_char (n mod 10)]).
      split; [rewrite Es; now rewrite <- app_assoc|].
      split; [now destruct s|].
      split; [rewrite forallb_app, Ds; simpl; now rewrite D|].
      rewrite map_app, digits_value_app, Vs. cbn [map length].
      unfold digits_value at 1. simpl fold_left. rewrite V.
      pose proof (N.Div0.div_mod n 10). change (10 ^ N.of_nat 1)%N with 10%N. lia.
Qed.

Lemma decimal_spec (n : N) :
  decimal n <> []
  /\ forallb is_digit (decimal n) = true
  /\ digits_value (map digit_val (decimal n)) = n.
Proof.
  unfold decimal.
  destruct (digits_go_spec (N.to_nat (N.log2 n)) n []) as (s & E & Ne & D & V).
  - rewrite Nat2N.inj_succ, N2Nat.id.
    destruct (N.eq_dec n 0) as [->|Hn]; [reflexivity|].
    apply N.lt_le_trans with (2 ^ N.succ (N.log2 n))%N.
    + apply N.log2_spec. lia.
    + apply N.pow_le_mono_l. lia.
  - rewrite E, app_nil_r. auto.
Qed.

Lemma fixed_digits_spec (k : nat) (n : N) :
  length (fixed_digits k n) = k
  /\ forallb is_digit (fixed_digits k n) = true
  /\ digits_value (map digit_val (fixed_digits k n)) = (n mod 10 ^ N.of_nat k)%N.
Proof.
  revert n. induction k as [|k IH]; intros n.
  - simpl. split; [reflexivity|]. split; [reflexivity|].
    now rewrite N.mod_1_r.
  - destruct (IH (n / 10)%N) as (L & D & V).
    destruct (digit_char_ok (n mod 10)) as [Dc Vc]; [apply N.mod_upper_bound; lia|].
    cbn [fixed_digits]. split; [rewrite length_app, L; simpl; lia|].
    split; [rewrite forallb_app, D; simpl; now rewrite Dc|].
    rewrite map_app, digits_value_app, V. cbn [map length].
    unfold digits_value at 1. simpl fold_left. rewrite Vc.
    change (10 ^ N.of_nat 1)%N with 10%N.
    rewrite Nat2N.inj_succ, N.pow_succ_r', N.Div0.mod_mul_r. lia.
Qed.

(** * Reading digits *)

Lemma digitpart_go_digits (s rest : str) :
  forallb is_digit s = true ->
  match rest with
  | [] => True
  | c :: _ => is_digit c = false /\ Ascii.eqb c "_"%char = false
  end ->
  digitpart_go (s ++ rest) = (map digit_val s, rest).
Proof.
  intros Hs Hr. induction s as [|a s IH].
  - destruct rest as [|c r]; [reflexivity|].
    destruct Hr as [H1 H2]. simpl. now rewrite H1, H2.
  - simpl in Hs. apply andb_true_iff in Hs. destruct Hs as [Ha Hs].
    cbn [app digitpart_go map]. rewrite Ha, IH by assumption. reflexivity.
Qed.

Lemma digitpart_digits (s rest : str) :
  s <> [] -> forallb is_digit s = true ->
  match rest with
  | [] => True
  | c :: _ => is_digit c = false /\ Ascii.eqb c "_"%char = false
  end ->
  digitpart (s ++ rest) = Some (map digit_val s, rest).
Proof.
  intros Hne Hs Hr. unfold digitpart.
  rewrite digitpart_go_digits by assumption.
  destruct s as [|a s]; [congruence|].
  simpl in Hs. apply andb_true_iff in Hs. destruct Hs as [Ha _].
  cbn [app]. now rewrite Ha.
Qed.

Lemma take_sign_digit (c : ascii) (s : str) :
  is_digit c = true -> take_sign (c :: s) = (false, c :: s).
Proof.
  intros H. unfold take_sign.
  now rewrite (digit_not_char c "-"%char H), (digit_not_char c "+"%char H).
Qed.

(** * Tokens *)

Lemma strip_token (t : str) : is_token t = true -> strip t = t.
Proof.
  intros H. rewrite <- (app_nil_r t) at 1.
  apply (strip_edged [] [] t); [reflexivity|reflexivity|now apply token_edged].
Qed.

Lemma digits_token (s : str) :
  s <> [] -> forallb is_digit s = true -> is_token s = true.
Proof.
  intros Hne Hs. destruct s as [|c s]; [congruence|].
  unfold is_token. now apply digits_no_space.
Qed.

(** * Integers *)

Lemma format_d_token (z : Z) : is_token (format_d z) = true /\ plain (format_d z) = true.
Proof.
  destruct z as [|p|p]; unfold format_d.
  - destruct (decimal_spec (Z.to_N 0)) as (Ne & D & _).
    split; [now apply digits_token | now apply digits_plain].
  - destruct (decimal_spec (Z.to_N (Zpos p))) as (Ne & D & _).
    split; [now apply digits_token | now apply digits_plain].
  - destruct (decimal_spec (Npos p)) as (Ne & D & _).
    split.
    + unfold is_token. change (no_space ("-"%char :: decimal (N.pos p)))
        with (negb (is_space "-"%char) && no_space (decimal (N.pos p))).
      simpl negb. now rewrite digits_no_space.
    + change (plain ("-"%char :: decimal (N.pos p)))
        with (plain_char "-"%char && plain (decimal (N.pos p))).
      now rewrite digits_plain.
Qed.

Lemma py_int_decimal (n : N) : py_int (decimal n) = Ok (Z.of_N n).
Proof.
  destruct (decimal_spec n) as (Ne & D & V).
  unfold py_int. rewrite strip_token by now apply digits_token.
  destruct (decimal n) as [|c s] eqn:E; [congruence|].
  assert (Hc : is_digit c = true).
  { simpl in D. now apply andb_true_iff in D. }
  rewrite take_sign_digit by assumption.
  rewrite <- (app_nil_r (c :: s)).
  rewrite digitpart_digits; [|discriminate|assumption|exact I].
  now rewrite V.
Qed.

(** [int] reads back what ['%d'] wrote. *)
Lemma py_int_format_d (z : Z) : py_int (format_d z) = Ok z.
Proof.
  destruct z as [|p|p]; unfold format_d.
  - apply py_int_decimal.
  - rewrite py_int_decimal. now rewrite Z2N.id.
  - destruct (decimal_spec (Npos p)) as (Ne & D & V).
    unfold py_int. rewrite strip_token by apply (format_d_token (Zneg p)).
    cbn [take_sign]. change (Ascii.eqb "-" "-") with true. cbn iota.
    rewrite <- (app_nil_r (decimal (N.pos p))).
    rewrite digitpart_digits; [|assumption|assumption|exact I].
    now rewrite V.
Qed.

(** * Floats as text *)

Lemma lower_digit (c : ascii) : is_digit c = true -> lower c = c.
Proof.
  intros H. apply is_digit_range in H. unfold lower.
  replace (65 <=? N_of_ascii c)%N with false; [reflexivity|].
  symmetry. apply N.leb_gt. lia.
Qed.

Lemma str_eqb_head (c d : ascii) (s t : str) :
  c <> d -> str_eqb (c :: s) (d :: t) = false.
Proof.
  intros H. unfold str_eqb. destruct (list_eq_dec ascii_dec (c :: s) (d :: t)) as [E|];
    [|reflexivity]. congruence.
Qed.

Lemma digit_not_letter (c d : ascii) :
  is_digit c = true -> is_digit d = false -> c <> d.
Proof. intros Hc Hd ->. congruence. Qed.

(** Digits, a point, six digits. *)
Lemma parse_number_fixed (a b : N) :
  parse_number (decimal a ++ ["."%char] ++ fixed_digits 6 b)
  = Some ((a * 1000000 + b mod 1000000)%N, (-6)%Z).
Proof.
  destruct (decimal_spec a) as (Ne & D & V).
  destruct (fixed_digits_spec 6 b) as (L & Df & Vf).
  unfold parse_number.
  rewrite digitpart_digits; [|assumption|assumption|split; reflexivity].
  cbn [app]. change (Ascii.eqb "." ".") with true. cbn iota.
  rewrite <- (app_nil_r (fixed_digits 6 b)).
  rewrite digitpart_digits; [|now destruct (fixed_digits 6 b)|assumption|exact I].
  cbn [parse_exponent].
  rewrite digits_value_app, V, Vf, length_map, L. reflexivity.
Qed.

Lemma format_f_fin_body (q : Qc) :
  exists c s, decimal (micro q / 1000000) ++ ["."%char] ++ fixed_digits 6 (micro q) = c :: s
              /\ is_digit c = true.
Proof.
  destruct (decimal_spec (micro q / 1000000)) as (Ne & D & _).
  destruct (decimal (micro q / 1000000)) as [|c s]; [congruence|].
  exists c, (s ++ ["."%char] ++ fixed_digits 6 (micro q)).
  split; [reflexivity|]. simpl in D. now apply andb_true_iff in D.
Qed.

Lemma format_f_token (v : pyfloat) :
  is_token (format_f v) = true /\ plain (format_f v) = true.
Proof.
  destruct v as [|[|]|q]; try (split; reflexivity).
  destruct (decimal_spec (micro q / 1000000)) as (Ne & D & _).
  destruct (fixed_digits_spec 6 (micro q)) as (_ & Df & _).
  assert (N : no_space (decimal (micro q / 1000000) ++ ["."%char]
                        ++ fixed_digits 6 (micro q)) = true).
  { rewrite !no_space_app, (digits_no_space _ D), (digits_no_space _ Df). reflexivity. }
  assert (P : plain (decimal (micro q / 1000000) ++ ["."%char]
                     ++ fixed_digits 6 (micro q)) = true).
  { rewrite !plain_app, (digits_plain _ D), (digits_plain _ Df). reflexivity. }
  destruct (format_f_fin_body q) as (c & s & E & Hc).
  unfold format_f. rewrite E in *. destruct (Qc_ltb q 0); cbn [app].
  - split.
    + unfold is_token. change (no_space ("-"%char :: c :: s))
        with (negb (is_space "-"%char) && no_space (c :: s)). now rewrite N.
    + change (plain ("-"%char :: c :: s)) with (plain_char "-"%char && plain (c :: s)).
      now rewrite P.
  - split; [exact N | exact P].
Qed.

(** [float] reads back what ['%f'] wrote: the value rounded to six decimals. *)
Lemma py_float_format_f (v : pyfloat) : py_float (format_f v) = Ok (round6 v).
Proof.
  destruct v as [|[|]|q]; try reflexivity.
  unfold py_float. rewrite strip_token by apply format_f_token.
  destruct (format_f_fin_body q) as (c & s & E & Hc).
  assert (B : take_sign (format_f (Fin q)) = (Qc_ltb q 0, c :: s)).
  { unfold format_f. rewrite E. destruct (Qc_ltb q 0); cbn [app].
    - reflexivity.
    - now apply take_sign_digit. }
  rewrite B. cbn beta iota. cbn [map lit list_ascii_of_string].
  rewrite lower_digit by assumption.
  rewrite !str_eqb_head by (apply digit_not_letter; [assumption|reflexivity]).
  cbn [orb]. rewrite <- E, parse_number_fixed.
  pose proof (N.Div0.div_mod (micro q) 1000000) as M.
  replace (micro q / 1000000 * 1000000 + micro q mod 1000000)%N with (micro q) by lia.
  reflexivity.
Qed.

(** * The rounding error of ['%f'] *)

Lemma round_half_even_close (x : Q) :
  (0 <= x)%Q ->
  (0 <= round_half_even x)%Z
  /\ (Qabs (inject_Z (round_half_even x) - x) <= 1 # 2)%Q.
Proof.
  intros Hx. unfold round_half_even.
  pose proof (Qfloor_le x) as F1. pose proof (Qlt_floor x) as F2.
  assert (F0 : (0 <= Qfloor x)%Z).
  { change 0%Z with (Qfloor 0). now apply Qfloor_resp_le. }
  rewrite inject_Z_plus in F2. change (inject_Z 1) with 1%Q in F2.
  destruct (Qcompare_spec (x - inject_Z (Qfloor x)) (1 # 2)) as [E|L|G].
  - destruct (Z.even (Qfloor x)); (split; [lia|]).
    + apply Qabs_Qle_condition. split; lra.
    + rewrite inject_Z_plus. change (inject_Z 1) with 1%Q.
      apply Qabs_Qle_condition. split; lra.
  - split; [lia|]. apply Qabs_Qle_condition. split; lra.
  - split; [lia|]. rewrite inject_Z_plus. change (inject_Z 1) with 1%Q.
    apply Qabs_Qle_condition. split; lra.
Qed.

Lemma round6_close (v : pyfloat) : close6 v (round6 v).
Proof.
  destruct v as [|s|q]; [exact I|reflexivity|].
  unfold close6, round6, micro.
  assert (A : (0 <= Qabs q * inject_Z 1000000)%Q).
  { apply Qmult_le_0_compat; [apply Qabs_nonneg|discriminate]. }
  destruct (round_half_even_close _ A) as [R0 R].
  set (m := round_half_even (Qabs q * inject_Z 1000000)) in *.
  rewrite Z2N.id by assumption.
  change (Qpower (inject_Z 10) (-6)) with (1 # 1000000)%Q.
  change (inject_Z 1000000) with (1000000 # 1)%Q in R.
  apply Qabs_Qle_condition in R. destruct R as [R1 R2].
  destruct (Qc_ltb q 0) eqn:S.
  - apply Qc_ltb_lt in S. unfold Qclt in S. change (this 0%Qc) with 0%Q in S.
    cbn [this Q2Qc]. rewrite Qred_correct.
    rewrite (Qabs_neg q) in R1, R2 by lra.
    apply Qabs_Qle_condition. split; lra.
  - apply Qc_ltb_ge in S. unfold Qcle in S. change (this 0%Qc) with 0%Q in S.
    cbn [this Q2Qc]. rewrite Qred_correct.
    rewrite (Qabs_pos q) in R1, R2 by lra.
    apply Qabs_Qle_condition. split; lra.
Qed.

(** * Reading a Plot3D file *)

Lemma map_result_map {A B C : Type} (f : B -> result C) (g : A -> B) (h : A -> C)
      (l : list A) :
  (forall a, f (g a) = Ok (h a)) -> map_result f (map g l) = Ok (map h l).
Proof.
  intros H. induction l as [|a l IH]; [reflexivity|].
  cbn [map map_result]. rewrite H, IH. reflexivity.
Qed.

Lemma format_f_tokens (l : list pyfloat) :
  Forall (fun t => is_token t = true) (map format_f l).
Proof. apply Forall_map, Forall_forall. intros v _. apply format_f_token. Qed.

Lemma plain_spaced_line (ts : list str) :
  Forall (fun t => plain t = true) ts -> plain (spaced_line ts) = true.
Proof.
  intros H. unfold spaced_line. induction H as [|t ts Ht Hts IH]; [reflexivity|].
  cbn [flat_map]. rewrite !plain_app, Ht, IH. reflexivity.
Qed.

Lemma format_f_plain (l : list pyfloat) :
  Forall (fun t => plain t = true) (map format_f l).
Proof. apply Forall_map, Forall_forall. intros v _. apply format_f_token. Qed.

(** A line of tokens, possibly followed by white space. *)
Lemma strip_spaced_line (ts : list str) (ws : str) :
  ts <> [] -> Forall (fun t => is_token t = true) ts -> all_space ws = true ->
  strip (spaced_line ts ++ ws) = join [SP] ts /\ join [SP] ts <> [].
Proof.
  intros Hne Hts Hws. pose proof (join_edged [SP] ts Hne Hts) as E.
  split.
  - rewrite spaced_line_join by assumption. rewrite <- app_assoc.
    apply (strip_edged [] ([SP] ++ ws)); [reflexivity| |assumption].
    simpl. exact Hws.
  - destruct E as [(c & _ & ->)|(c & body & d & _ & _ & ->)]; discriminate.
Qed.

Lemma read_values_line (n : Z) (ts : list str) (ws : str) (vals : list pyfloat)
      (rest : list str) :
  ts <> [] -> Forall (fun t => is_token t = true) ts -> all_space ws = true ->
  map_result py_float ts = Ok vals -> (n <= Z.of_nat (length vals))%Z ->
  read_values n [] ((spaced_line ts ++ ws) :: rest) = Ok (vals, rest).
Proof.
  intros Hne Hts Hws Hv Hn.
  destruct (strip_spaced_line ts ws Hne Hts Hws) as [E N].
  pose proof (split_join ts Hts) as S.
  cbn [read_values]. rewrite E.
  destruct (join [SP] ts) as [|c l] eqn:J; [congruence|].
  rewrite S, Hv. cbn [bind app].
  now replace (n <=? Z.of_nat (length vals))%Z with true by (symmetry; apply Z.leb_le; lia).
Qed.

Lemma slice_to_all {A : Type} (l : list A) (n : nat) :
  length l = n -> slice_to l (Z.of_nat n) = l.
Proof.
  intros H. unfold slice_to.
  replace (Z.of_nat n <? 0)%Z with false by (symmetry; apply Z.ltb_ge; lia).
  rewrite Nat2Z.id, <- H. apply firstn_all.
Qed.

Lemma np_reshape3_nat (l : list pyfloat) (a b c : nat) :
  length l = (a * b * c)%nat ->
  np_reshape3 l (Z.of_nat a) (Z.of_nat b) (Z.of_nat c)
  = Ok {| shape3 := (a, b, c); flat := l |}.
Proof.
  intros H. unfold np_reshape3.
  replace (Z.of_nat a <? -1)%Z with false by (symmetry; apply Z.ltb_ge; lia).
  replace (Z.of_nat b <? -1)%Z with false by (symmetry; apply Z.ltb_ge; lia).
  replace (Z.of_nat c <? -1)%Z with false by (symmetry; apply Z.ltb_ge; lia).
  replace (Z.of_nat a =? -1)%Z with false by (symmetry; apply Z.eqb_neq; lia).
  replace (Z.of_nat b =? -1)%Z with false by (symmetry; apply Z.eqb_neq; lia).
  replace (Z.of_nat c =? -1)%Z with false by (symmetry; apply Z.eqb_neq; lia).
  cbn [orb Nat.add].
  replace (Z.of_nat a * Z.of_nat b * Z.of_nat c =? Z.of_nat (length l))%Z with true
    by (symmetry; apply Z.eqb_eq; rewrite H; lia).
  now rewrite !Nat2Z.id.
Qed.

Lemma ffd_text_lines (nx ny nz : Z) (xs ys zs : list str) :
  ffd_text nx ny nz xs ys zs
  = flat_map (fun l => l ++ [LF])
             [lit "1"; spaced_line [format_d nx; format_d ny; format_d nz];
              spaced_line xs; spaced_line ys]
    ++ spaced_line zs.
Proof.
  unfold ffd_text. cbn [flat_map]. rewrite app_nil_r.
  repeat rewrite <- app_assoc. reflexivity.
Qed.

Lemma dims_tokens (nx ny nz : Z) :
  Forall (fun t => is_token t = true) [format_d nx; format_d ny; format_d nz]
  /\ Forall (fun t => plain t = true) [format_d nx; format_d ny; format_d nz].
Proof. split; repeat constructor; apply format_d_token. Qed.

(** Reading the file of a block with at least one point. *)
Lemma readPlot3D_ffd_text (nx ny nz : nat) (xs ys zs : list pyfloat) :
  (1 <= nx * ny * nz)%nat ->
  length xs = (nx * ny * nz)%nat -> length ys = (nx * ny * nz)%nat ->
  length zs = (nx * ny * nz)%nat ->
  readPlot3D (Some (ffd_text (Z.of_nat nx) (Z.of_nat ny) (Z.of_nat nz)
                             (map format_f xs) (map format_f ys) (map format_f zs)))
  = Ok ({| shape3 := (nz, ny, nx); flat := map round6 xs |},
        {| shape3 := (nz, ny, nx); flat := map round6 ys |},
        {| shape3 := (nz, ny, nx); flat := map round6 zs |}).
Proof.
  intros Hn Lx Ly Lz.
  assert (Nx : map format_f xs <> []) by (destruct xs; [simpl in Lx; lia|discriminate]).
  assert (Ny : map format_f ys <> []) by (destruct ys; [simpl in Ly; lia|discriminate]).
  assert (Nz : map format_f zs <> []) by (destruct zs; [simpl in Lz; lia|discriminate]).
  destruct (dims_tokens (Z.of_nat nx) (Z.of_nat ny) (Z.of_nat nz)) as [Dt Dp].
  pose proof (plain_spaced_line _ Dp) as P2.
  pose proof (plain_spaced_line _ (format_f_plain xs)) as P3.
  pose proof (plain_spaced_line _ (format_f_plain ys)) as P4.
  pose proof (plain_spaced_line _ (format_f_plain zs)) as P5.
  unfold readPlot3D. rewrite ffd_text_lines.
  rewrite open_r_text.
  2:{ cbn [flat_map]. rewrite !is_text_app.
      rewrite (plain_is_text _ P2), (plain_is_text _ P3), (plain_is_text _ P4),
              (plain_is_text _ P5). reflexivity. }
  cbn [bind]. rewrite splitlines_lines.
  2:{ repeat constructor; now apply plain_no_lf. }
  2:{ now apply plain_no_lf. }
  assert (Zne : spaced_line (map format_f zs) <> []).
  { rewrite spaced_line_join by assumption. now destruct (join [SP] (map format_f zs)). }
  destruct (spaced_line (map format_f zs)) as [|cz lz] eqn:Ez; [congruence|].
  rewrite <- Ez. clear Zne.
  cbn [map app readline].
  change (py_int (strip (lit "1" ++ [LF]))) with (@Ok Z 1%Z). cbn [bind].
  assert (Dn : [format_d (Z.of_nat nx); format_d (Z.of_nat ny); format_d (Z.of_nat nz)]
               <> []) by discriminate.
  destruct (strip_spaced_line _ [LF] Dn Dt eq_refl) as [E2 _].
  rewrite E2, split_join by assumption.
  cbn [getitem nth_error bind]. rewrite !py_int_format_d. cbn [bind].
  replace (Z.of_nat nx * Z.of_nat ny * Z.of_nat nz)%Z with (Z.of_nat (nx * ny * nz)) by lia.
  rewrite (read_values_line _ (map format_f xs) [LF] (map round6 xs));
    [|assumption|apply format_f_tokens|reflexivity
     |apply map_result_map, py_float_format_f|rewrite length_map; lia].
  cbn [bind]. rewrite slice_to_all by (rewrite length_map; assumption).
  rewrite np_reshape3_nat by (rewrite length_map; lia). cbn [bind].
  rewrite (read_values_line _ (map format_f ys) [LF] (map round6 ys));
    [|assumption|apply format_f_tokens|reflexivity
     |apply map_result_map, py_float_format_f|rewrite length_map; lia].
  cbn [bind]. rewrite slice_to_all by (rewrite length_map; assumption).
  rewrite np_reshape3_nat by (rewrite length_map; lia). cbn [bind].
  rewrite <- (app_nil_r (spaced_line (map format_f zs))).
  rewrite (read_values_line _ (map format_f zs) [] (map round6 zs));
    [|assumption|apply format_f_tokens|reflexivity
     |apply map_result_map, py_float_format_f|rewrite length_map; lia].
  cbn [bind]. rewrite slice_to_all by (rewrite length_map; assumption).
  rewrite np_reshape3_nat by (rewrite length_map; lia). reflexivity.
Qed.

(** * Writing a grid and reading it back *)

Lemma getitem3_flat_order (nx ny nz : nat) (f : nat -> nat -> nat -> pyfloat)
      (i j k : nat) :
  (i < nx)%nat -> (j < ny)%nat -> (k < nz)%nat ->
  getitem3 {| shape3 := (nz, ny, nx); flat := flat_order nx ny nz f |} k j i
  = Ok (f i j k).
Proof.
  intros Hi Hj Hk. unfold getitem3. cbn [shape3 flat].
  replace ((k <? nz)%nat && (j <? ny)%nat && (i <? nx)%nat) with true
    by (symmetry; rewrite !andb_true_iff; repeat split; now apply Nat.ltb_lt).
  replace ((k * ny + j) * nx + i)%nat with (flat_offset nx ny i j k)
    by (unfold flat_offset; lia).
  unfold getitem. now rewrite flat_order_nth_error.
Qed.

(** C8. For a block of [nx x ny x nz] points (at least one per axis; any
    coordinate values), the file [writeFFDFile] writes is read back by
    [readPlot3D] as three arrays of shape [(nz, ny, nx)], one per channel,
    whose entry [[k, j, i]] is the coordinate of lattice point [(i, j, k)]
    rounded to the six decimals of ['%f']: within half a millionth of the
    original when that is finite, and the same infinity or NaN otherwise. *)
Theorem write_then_read_round_trip (points : ndarray4) (nx ny nz : nat) :
  (1 <= nx)%nat -> (1 <= ny)%nat -> (1 <= nz)%nat ->
  shape points = (nx, ny, nz, 3%nat) ->
  exists text x y z,
    writeFFDFile 1 [Z.of_nat nx] [Z.of_nat ny] [Z.of_nat nz] [points] = Ok text
    /\ readPlot3D (Some text) = Ok (x, y, z)
    /\ shape3 x = (nz, ny, nx) /\ shape3 y = (nz, ny, nx) /\ shape3 z = (nz, ny, nx)
    /\ length (flat x) = (nx * ny * nz)%nat
    /\ length (flat y) = (nx * ny * nz)%nat
    /\ length (flat z) = (nx * ny * nz)%nat
    /\ forall i j k, (i < nx)%nat -> (j < ny)%nat -> (k < nz)%nat ->
         getitem3 x k j i = Ok (round6 (data points i j k 0))
         /\ getitem3 y k j i = Ok (round6 (data points i j k 1))
         /\ getitem3 z k j i = Ok (round6 (data points i j k 2))
         /\ close6 (data points i j k 0) (round6 (data points i j k 0))
         /\ close6 (data points i j k 1) (round6 (data points i j k 1))
         /\ close6 (data points i j k 2) (round6 (data points i j k 2)).
Proof.
  intros Hx Hy Hz Hs.
  assert (Hn : (1 <= nx * ny * nz)%nat).
  { apply (Nat.le_trans _ (1 * 1 * 1)); [reflexivity|].
    repeat apply Nat.mul_le_mono; assumption. }
  do 4 eexists.
  split; [exact (writeFFDFile_text points nx ny nz Hs)|].
  split.
  { apply (readPlot3D_ffd_text nx ny nz); try assumption;
      unfold channel; apply flat_order_length. }
  cbn [shape3 flat]. rewrite !length_map. unfold channel.
  rewrite !flat_order_length, !flat_order_map.
  repeat (split; [reflexivity|]).
  intros i j k Hi Hj Hk.
  rewrite !getitem3_flat_order by assumption.
  repeat (split; [reflexivity|]).
  repeat split; apply round6_close.
Qed.

Lemma write_then_read_round_trip_witness :
  (1 <= 2)%nat /\ shape example_block = (2%nat, 2%nat, 2%nat, 3%nat)
  /\ exists text x y z,
       writeFFDFile 1 [Z.of_nat 2] [Z.of_nat 2] [Z.of_nat 2] [example_block] = Ok text
       /\ readPlot3D (Some text) = Ok (x, y, z)
       /\ shape3 x = (2%nat, 2%nat, 2%nat).
Proof.
  split; [lia|]. split; [reflexivity|].
  destruct (write_then_read_round_trip example_block 2 2 2)
    as (text & x & y & z & W & R & S & _); [lia | lia | lia | reflexivity |].
  exists text, x, y, z. split; [exact W|]. split; [exact R | exact S].
Defined.

(** * The two readers of binary files *)

(** X1. [read_binary_stl] decodes the binary format: for an 80-byte header
    and triangles given by 32-bit patterns, the file made of the header, the
    count and the encoded triangles is read back as these triangles (normal
    and three vertices each, in order); bytes after the last declared
    triangle are ignored. *)
Theorem read_binary_stl_decodes (header : bytes) (tris : list raw_triangle)
    (trailing : bytes) :
  length header = 80%nat -> (N.of_nat (length tris) < 2 ^ 32)%N ->
  Forall valid_triangle tris ->
  read_binary_stl (Some (binary_stl header tris ++ trailing))
  = Ok (map decode_triangle tris).
Proof.
  intros Hh Hn Hv. unfold read_binary_stl, binary_stl. cbn [open_rb bind].
  rewrite <- !app_assoc.
  rewrite (read_app 80 header _ Hh).
  rewrite (read_app 4 _ _ (length_le_bytes 4 (N.of_nat (length tris)))).
  rewrite unpack_I_full by apply length_le_bytes.
  rewrite le_uint_le_bytes_4 by assumption. cbn [bind]. rewrite Nat2N.id.
  rewrite read_triangles_encoded by assumption. reflexivity.
Qed.

Lemma read_binary_stl_decodes_witness :
  length zero_header = 80%nat /\ (N.of_nat (length unit_triangle) < 2 ^ 32)%N
  /\ Forall valid_triangle unit_triangle
  /\ read_binary_stl (Some (binary_stl zero_header unit_triangle ++ [zero; zero; zero]))
     = Ok (map decode_triangle unit_triangle).
Proof.
  split; [reflexivity|]. split; [reflexivity|]. split; [exact unit_triangle_valid|].
  apply (read_binary_stl_decodes zero_header unit_triangle [zero; zero; zero]);
    [reflexivity | reflexivity | exact unit_triangle_valid].
Defined.

Lemma triangle_steps_agree (i : nat) (ts : list triangle) (b : bounds) (stream : bytes) :
  (48 <= length stream)%nat ->
  exists t,
    read_triangle_step i (ts, stream) = Ok (ts ++ [t], skipn 50 stream)
    /\ binary_triangle_step i (b, stream)
       = Ok (fold_left update_bounds (vertices t) b, skipn 50 stream).
Proof.
  intros H. unfold read_triangle_step, binary_triangle_step, read.
  change (py_range 3) with [0%nat; 1%nat; 2%nat]. cbn [for_each].
  destruct (unpack_fff_full (firstn 12 stream)) as (nv & E0).
  { apply firstn_full. lia. }
  destruct (unpack_fff_full (firstn 12 (skipn 12 stream))) as (v1 & E1).
  { apply firstn_full. rewrite length_skipn. lia. }
  destruct (unpack_fff_full (firstn 12 (skipn 12 (skipn 12 stream)))) as (v2 & E2).
  { apply firstn_full. rewrite !length_skipn. lia. }
  destruct (unpack_fff_full (firstn 12 (skipn 12 (skipn 12 (skipn 12 stream)))))
    as (v3 & E3).
  { apply firstn_full. rewrite !length_skipn. lia. }
  rewrite E0, E1. cbn [bind]. rewrite E2. cbn [bind]. rewrite E3. cbn [bind].
  eexists. split; [now rewrite !skipn_skipn|].
  cbn [vertices fold_left]. now rewrite !skipn_skipn.
Qed.

Lemma triangle_loops_agree (n s : nat) (ts : list triangle) (b : bounds)
      (stream : bytes) :
  match for_each (seq s n) (ts, stream) read_triangle_step with
  | Ok (ts', rest) =>
      exists new, ts' = ts ++ new
        /\ for_each (seq s n) (b, stream) binary_triangle_step
           = Ok (fold_left update_bounds (triangle_vertices new) b, rest)
  | Err e => for_each (seq s n) (b, stream) binary_triangle_step = Err e
  end.
Proof.
  revert s ts b stream. induction n as [|n IH]; intros s ts b stream.
  - cbn [seq for_each]. exists []. split; [now rewrite app_nil_r|reflexivity].
  - cbn [seq for_each].
    destruct (Nat.lt_ge_cases (length stream) 48) as [L|L].
    + rewrite read_triangle_step_short, binary_triangle_step_short by assumption.
      reflexivity.
    + destruct (triangle_steps_agree s ts b stream L) as (t & E1 & E2).
      rewrite E1, E2. cbn [bind].
      specialize (IH (S s) (ts ++ [t]) (fold_left update_bounds (vertices t) b)
                     (skipn 50 stream)).
      revert IH.
      destruct (for_each _ _ read_triangle_step) as [[ts' rest]|e]; intros IH;
        [|exact IH].
      destruct IH as (new & -> & E). exists (t :: new).
      split; [now rewrite <- app_assoc|].
      etransitivity; [exact E|]. unfold triangle_vertices. cbn [flat_map].
      now rewrite fold_left_app.
Qed.

(** X2. On a file that [get_stl_bounds] reads as binary, [get_stl_bounds]
    and [read_binary_stl] accept exactly the same inputs: when
    [read_binary_stl] returns triangles, [get_stl_bounds] returns the bounds
    obtained by scanning their vertices in order, and when it raises an error
    [get_stl_bounds] raises the same error. *)
Theorem binary_readers_agree (content : bytes) :
  is_ascii_stl (Some content) = false ->
  match read_binary_stl (Some content) with
  | Ok triangles =>
      get_stl_bounds (Some content)
      = Ok (fold_left update_bounds (triangle_vertices triangles) initial_bounds)
  | Err e => get_stl_bounds (Some content) = Err e
  end.
Proof.
  intros A. unfold get_stl_bounds, read_binary_stl. rewrite A.
  cbn [open_rb bind]. unfold read. cbn beta iota.
  destruct (unpack_I (firstn 4 (skipn 80 content))) as [n|e]; [|reflexivity].
  cbn [bind].
  pose proof (triangle_loops_agree (N.to_nat n) 0 [] initial_bounds
                (skipn 4 (skipn 80 content))) as L.
  revert L.
  destruct (for_each _ _ read_triangle_step) as [[ts rest]|e]; intros L; cbn [bind].
  - destruct L as (new & -> & E).
    exact (f_equal (fun r : result (bounds * bytes) =>
                      x <- r ;; (let '(b, _) := x in Ok b)) E).
  - exact (f_equal (fun r : result (bounds * bytes) =>
                      x <- r ;; (let '(b, _) := x in Ok b)) L).
Qed.

Lemma binary_readers_agree_witness :
  is_ascii_stl unit_triangle_stl = false
  /\ match read_binary_stl unit_triangle_stl with
     | Ok triangles =>
         get_stl_bounds unit_triangle_stl
         = Ok (fold_left update_bounds (triangle_vertices triangles) initial_bounds)
     | Err e => get_stl_bounds unit_triangle_stl = Err e
     end.
Proof.
  split; [reflexivity|].
  exact (binary_readers_agree (binary_stl zero_header unit_triangle) eq_refl).
Defined.

(** * Telling text files from binary files *)

Lemma startswith_firstn (p s : str) (n : nat) :
  (length p <= n)%nat -> startswith (firstn n s) p = startswith s p.
Proof.
  revert s n. induction p as [|c p IH]; intros s n H.
  - now destruct (firstn n s), s.
  - destruct n as [|n]; [simpl in H; lia|]. destruct s as [|a s]; [reflexivity|].
    cbn [firstn startswith]. rewrite IH by (simpl in H; lia). reflexivity.
Qed.

Lemma startswith_true (s p : str) :
  startswith s p = true -> exists r, s = p ++ r.
Proof.
  revert s. induction p as [|c p IH]; intros s H.
  - exists s. reflexivity.
  - destruct s as [|a s]; [discriminate|]. cbn [startswith] in H.
    apply andb_true_iff in H. destruct H as [Hc H].
    apply Ascii.eqb_eq in Hc. subst a.
    destruct (IH s H) as (r & ->). exists r. reflexivity.
Qed.

Lemma readline_rb_app (p r : bytes) :
  no_lf p = true -> readline_rb (p ++ r) = p ++ readline_rb r.
Proof.
  induction p as [|c p IH]; intros H; [reflexivity|].
  simpl in H. apply andb_true_iff in H. destruct H as [Hc Hp].
  apply negb_true_iff in Hc. cbn [app readline_rb]. rewrite Hc.
  now rewrite IH.
Qed.

Lemma lstrip_app_nonspace (a b : str) (d : ascii) :
  is_space d = false -> lstrip (a ++ d :: b) = lstrip a ++ d :: b.
Proof.
  intros H. induction a as [|c a IH]; cbn [app lstrip].
  - now rewrite H.
  - destruct (is_space c); [exact IH|reflexivity].
Qed.

Lemma rstrip_app_edge (p t : str) (d : ascii) :
  is_space d = false -> rstrip ((p ++ [d]) ++ t) = (p ++ [d]) ++ rstrip t.
Proof.
  intros H. unfold rstrip. rewrite (rev_app_distr (p ++ [d]) t), (rev_app_distr p [d]).
  cbn [rev app]. rewrite lstrip_app_nonspace by assumption.
  rewrite rev_app_distr. cbn [rev]. now rewrite rev_involutive.
Qed.

Lemma decode_ascii_spec (b : bytes) :
  decode_ascii b = if is_ascii b then Ok b else Err UnicodeDecodeError.
Proof. reflexivity. Qed.

Lemma is_ascii_stl_not_solid (header rest : bytes) :
  length header = 80%nat -> startswith header (lit "solid") = false ->
  is_ascii_stl (Some (header ++ rest)) = false.
Proof.
  intros Hh Hs. unfold is_ascii_stl. cbn [open_rb read].
  rewrite firstn_app, Hh, Nat.sub_diag, <- Hh, firstn_all. cbn [firstn].
  rewrite app_nil_r, Hs. reflexivity.
Qed.

(** X3. [is_ascii_stl] answers [True] exactly when the file exists, begins
    with the five bytes [solid], and has no byte above 127 up to and including
    its first line feed.  The test of the stripped first line never changes
    the answer, and every failure (a missing file, a byte that is not ASCII)
    gives [False] rather than an exception. *)
Theorem is_ascii_stl_characterised :
  is_ascii_stl None = false
  /\ forall content : bytes,
       is_ascii_stl (Some content)
       = startswith content (lit "solid") && is_ascii (readline_rb content).
Proof.
  split; [reflexivity|]. intros content.
  unfold is_ascii_stl. cbn [open_rb read].
  rewrite startswith_firstn by (simpl; lia).
  destruct (startswith content (lit "solid")) eqn:S; [|reflexivity].
  rewrite decode_ascii_spec. cbn [andb].
  destruct (is_ascii (readline_rb content)); [|reflexivity].
  apply startswith_true in S. destruct S as (r & ->).
  rewrite readline_rb_app by reflexivity.
  unfold strip. cbn [lit list_ascii_of_string app].
  rewrite lstrip_head by reflexivity.
  change ("s"%char :: "o"%char :: "l"%char :: "i"%char :: "d"%char :: readline_rb r)
    with ((lit "soli" ++ ["d"%char]) ++ readline_rb r).
  rewrite rstrip_app_edge by reflexivity.
  change ((lit "soli" ++ ["d"%char]) ++ rstrip (readline_rb r))
    with (lit "solid" ++ rstrip (readline_rb r)).
  now rewrite startswith_app.
Qed.

(** * The box around the geometry *)

Lemma is_finite_Fin (v : pyfloat) : is_finite v = true -> exists q, v = Fin q.
Proof. destruct v; try discriminate. eauto. Qed.

Lemma axis_finite (f : point3 -> pyfloat) (vs : list point3) (mn mx : pyfloat) :
  vs <> [] -> (forall v, In v vs -> is_finite (f v) = true) ->
  axis_extremes (map f vs) mn mx ->
  exists a c : Qc,
    mn = Fin a /\ mx = Fin c
    /\ forall v, In v vs -> exists q, f v = Fin q /\ (a <= q)%Qc /\ (q <= c)%Qc.
Proof.
  intros Hne Hfin (Hb & Hin & _).
  destruct vs as [|v0 vs']; [congruence|].
  destruct (is_finite_Fin _ (Hfin v0 (or_introl eq_refl))) as (q0 & E0).
  destruct Hin as [Imn Imx].
  { exists (f v0). split; [now left|]. rewrite E0. discriminate. }
  apply in_map_iff in Imn. destruct Imn as (vmn & Emn & Hmn).
  apply in_map_iff in Imx. destruct Imx as (vmx & Emx & Hmx).
  destruct (is_finite_Fin _ (Hfin vmn Hmn)) as (a & Ea).
  destruct (is_finite_Fin _ (Hfin vmx Hmx)) as (c & Ec).
  exists a, c. split; [congruence|]. split; [congruence|].
  intros v Hv. destruct (is_finite_Fin _ (Hfin v Hv)) as (q & Eq).
  exists q. split; [assumption|].
  destruct (Hb (f v)) as [L U]; [now apply in_map | rewrite Eq; discriminate |].
  rewrite <- Emn, Ea, Eq in L. rewrite <- Emx, Ec, Eq in U.
  split; now apply fleb_Fin.
Qed.

Lemma finite_point_parts (v : point3) :
  finite_point v = true ->
  is_finite (at0 v) = true /\ is_finite (at1 v) = true /\ is_finite (at2 v) = true.
Proof. unfold finite_point. rewrite !andb_true_iff. tauto. Qed.

Lemma Qc_sub_le (a o : Qc) : (0 <= o)%Qc -> (a - o <= a)%Qc.
Proof.
  intros H. apply Qcle_minus_iff.
  now replace (a + - (a - o))%Qc with o by ring.
Qed.

Lemma Qc_le_add (a o : Qc) : (0 <= o)%Qc -> (a <= a + o)%Qc.
Proof.
  intros H. apply Qcle_minus_iff.
  now replace (a + o + - a)%Qc with o by ring.
Qed.

Lemma round6_fin (q : Qc) :
  exists r : Qc, round6 (Fin q) = Fin r /\ (Qabs (r - q) <= 1 # 2000000)%Q.
Proof.
  pose proof (round6_close (Fin q)) as C. unfold round6 in C |- *.
  eexists. split; [reflexivity | exact C].
Qed.

(** With a margin of a millionth the lower bound, as written, is below. *)
Lemma round6_below (a o v : Qc) :
  (millionth <= o)%Qc -> (a <= v)%Qc -> fleb (round6 (Fin (a - o))) (Fin v) = true.
Proof.
  intros Ho Ha. destruct (round6_fin (a - o)) as (r & -> & C).
  apply fleb_Fin. unfold Qcle in *. unfold millionth in Ho.
  cbn [this Q2Qc Qcminus Qcplus Qcopp] in *. rewrite !Qred_correct in *.
  apply Qabs_Qle_condition in C. lra.
Qed.

Lemma round6_above (c o v : Qc) :
  (millionth <= o)%Qc -> (v <= c)%Qc -> fleb (Fin v) (round6 (Fin (c + o))) = true.
Proof.
  intros Ho Hc. destruct (round6_fin (c + o)) as (r & -> & C).
  apply fleb_Fin. unfold Qcle in *. unfold millionth in Ho.
  cbn [this Q2Qc Qcplus] in *. rewrite !Qred_correct in *.
  apply Qabs_Qle_condition in C. lra.
Qed.

(** X4. The box encloses the geometry.  For a well-formed binary file of at
    least one triangle whose header does not begin with [solid] and whose
    vertex coordinates are all finite, with non-negative margins, no
    override and at least two points per axis, the samples that
    [generate_ffd_box] takes with [np.linspace] run on each axis from [lo]
    to [hi], and every vertex of the mesh lies in the box from [lo] to [hi].
    The file holds these samples rounded to six decimals; when every margin
    is at least a millionth, every vertex also lies between the first and
    the last number written on each axis.  (With a smaller margin the
    written bound can fall inside the mesh by up to half a millionth.) *)
Theorem ffd_box_encloses_geometry (header : bytes) (tris : list raw_triangle)
    (ox oy oz : Qc) (nx ny nz : nat) :
  length header = 80%nat -> startswith header (lit "solid") = false ->
  tris <> [] -> (N.of_nat (length tris) < 2 ^ 32)%N ->
  Forall valid_triangle tris ->
  forallb finite_point (mesh_vertices tris) = true ->
  (0 <= ox)%Qc -> (0 <= oy)%Qc -> (0 <= oz)%Qc ->
  (2 <= nx)%nat -> (2 <= ny)%nat -> (2 <= nz)%nat ->
  exists (lo hi : qpoint) (x_coords y_coords z_coords : list pyfloat),
    np_linspace (Fin (qx lo)) (Fin (qx hi)) (Z.of_nat nx) = Ok x_coords
    /\ np_linspace (Fin (qy lo)) (Fin (qy hi)) (Z.of_nat ny) = Ok y_coords
    /\ np_linspace (Fin (qz lo)) (Fin (qz hi)) (Z.of_nat nz) = Ok z_coords
    /\ generate_ffd_box (Some (binary_stl header tris))
                        (Z.of_nat nx) (Z.of_nat ny) (Z.of_nat nz)
                        (Fin ox) (Fin oy) (Fin oz) None None
       = Ok (plot3d_text (Z.of_nat nx) (Z.of_nat ny) (Z.of_nat nz)
               (flat_order nx ny nz (fun i j k => format_f (nth i x_coords NaN)))
               (flat_order nx ny nz (fun i j k => format_f (nth j y_coords NaN)))
               (flat_order nx ny nz (fun i j k => format_f (nth k z_coords NaN))))
    /\ nth 0 x_coords NaN = Fin (qx lo) /\ nth (nx - 1) x_coords NaN = Fin (qx hi)
    /\ nth 0 y_coords NaN = Fin (qy lo) /\ nth (ny - 1) y_coords NaN = Fin (qy hi)
    /\ nth 0 z_coords NaN = Fin (qz lo) /\ nth (nz - 1) z_coords NaN = Fin (qz hi)
    /\ (forall v, In v (mesh_vertices tris) -> inside (fin_point lo) (fin_point hi) v)
    /\ ((millionth <= ox)%Qc -> (millionth <= oy)%Qc -> (millionth <= oz)%Qc ->
        forall v, In v (mesh_vertices tris) ->
          inside (round6_point (fin_point lo)) (round6_point (fin_point hi)) v).
Proof.
  intros Hh Hs Hne Hn Hv Hfin Hox Hoy Hoz Hx Hy Hz.
  pose proof (get_stl_bounds_binary header tris Hh Hn Hv
                (is_ascii_stl_not_solid header _ Hh Hs)) as B.
  pose proof (scan_extremes (mesh_vertices tris)) as (E0 & E1 & E2).
  set (b := fold_left update_bounds (mesh_vertices tris) initial_bounds) in *.
  assert (Vne : mesh_vertices tris <> []).
  { destruct tris as [|t tris']; [congruence|discriminate]. }
  rewrite forallb_forall in Hfin.
  destruct (axis_finite at0 _ _ _ Vne
              (fun v H => proj1 (finite_point_parts v (Hfin v H))) E0)
    as (ax & cx & Ax & Cx & Bx).
  destruct (axis_finite at1 _ _ _ Vne
              (fun v H => proj1 (proj2 (finite_point_parts v (Hfin v H)))) E1)
    as (ay & cy & Ay & Cy & By).
  destruct (axis_finite at2 _ _ _ Vne
              (fun v H => proj2 (proj2 (finite_point_parts v (Hfin v H)))) E2)
    as (az & cz & Az & Cz & Bz).
  assert (Eb : b = (fin_point (ax, ay, az), fin_point (cx, cy, cz))).
  { destruct b as [[[mnx mny] mnz] [[mxx mxy] mxz]].
    unfold at0, at1, at2 in *. simpl in *. now subst. }
  rewrite Eb in B.
  pose proof (generate_ffd_box_text (Some (binary_stl header tris)) nx ny nz
                (Fin ox) (Fin oy) (Fin oz) None None
                (fin_point (ax, ay, az)) (fin_point (cx, cy, cz))) as G.
  change (@None pyfloat) with (option_map Fin (@None Qc)) in G.
  rewrite fin_bounds in G. cbn [override qx qy qz fst snd] in G.
  specialize (G (map (fun i => Fin (lerp (ax - ox) (cx + ox) (param i nx))) (seq 0 nx))
                (map (fun i => Fin (lerp (ay - oy) (cy + oy) (param i ny))) (seq 0 ny))
                (map (fun i => Fin (lerp (az - oz) (cz + oz) (param i nz))) (seq 0 nz)) B).
  specialize (G (np_linspace_fin _ _ nx Hx) (np_linspace_fin _ _ ny Hy)
                (np_linspace_fin _ _ nz Hz)).
  exists (ax - ox, ay - oy, az - oz)%Qc, (cx + ox, cy + oy, cz + oz)%Qc.
  do 3 eexists. cbn [qx qy qz fst snd].
  split; [apply np_linspace_fin; exact Hx|].
  split; [apply np_linspace_fin; exact Hy|].
  split; [apply np_linspace_fin; exact Hz|].
  split; [exact G|].
  rewrite !nth_map_seq by lia. rewrite !lerp_param_first, !lerp_param_last by assumption.
  repeat (split; [reflexivity|]).
  split.
  - intros v Hin.
    destruct (Bx v Hin) as (qx' & Ex & Lx & Ux).
    destruct (By v Hin) as (qy' & Ey & Ly & Uy).
    destruct (Bz v Hin) as (qz' & Ez & Lz & Uz).
    unfold inside. cbn [fin_point at0 at1 at2 fst snd].
    unfold at0, at1, at2 in *. rewrite Ex, Ey, Ez. rewrite !fleb_Fin.
    repeat split.
    + apply Qcle_trans with ax; [now apply Qc_sub_le | assumption].
    + apply Qcle_trans with cx; [assumption | now apply Qc_le_add].
    + apply Qcle_trans with ay; [now apply Qc_sub_le | assumption].
    + apply Qcle_trans with cy; [assumption | now apply Qc_le_add].
    + apply Qcle_trans with az; [now apply Qc_sub_le | assumption].
    + apply Qcle_trans with cz; [assumption | now apply Qc_le_add].
  - intros Mx My Mz v Hin.
    destruct (Bx v Hin) as (qx' & Ex & Lx & Ux).
    destruct (By v Hin) as (qy' & Ey & Ly & Uy).
    destruct (Bz v Hin) as (qz' & Ez & Lz & Uz).
    unfold inside, round6_point. cbn [fin_point at0 at1 at2 fst snd].
    unfold at0, at1, at2 in *. cbn [fst snd]. rewrite Ex, Ey, Ez.
    repeat split; (now apply round6_below) || (now apply round6_above).
Qed.

Lemma ffd_box_encloses_geometry_witness :
  length zero_header = 80%nat /\ startswith zero_header (lit "solid") = false
  /\ unit_triangle <> [] /\ (N.of_nat (length unit_triangle) < 2 ^ 32)%N
  /\ Forall valid_triangle unit_triangle
  /\ forallb finite_point (mesh_vertices unit_triangle) = true
  /\ (0 <= Q2Qc (1 # 10))%Qc /\ (millionth <= Q2Qc (1 # 10))%Qc /\ (2 <= 3)%nat
  /\ exists (lo hi : qpoint),
       (forall v, In v (mesh_vertices unit_triangle) ->
                  inside (fin_point lo) (fin_point hi) v)
       /\ (forall v, In v (mesh_vertices unit_triangle) ->
                     inside (round6_point (fin_point lo)) (round6_point (fin_point hi)) v).
Proof.
  assert (O : (0 <= Q2Qc (1 # 10))%Qc) by (vm_compute; discriminate).
  assert (M : (millionth <= Q2Qc (1 # 10))%Qc) by (vm_compute; discriminate).
  split; [reflexivity|]. split; [reflexivity|]. split; [discriminate|].
  split; [reflexivity|]. split; [exact unit_triangle_valid|].
  split; [reflexivity|]. split; [exact O|]. split; [exact M|]. split; [lia|].
  destruct (ffd_box_encloses_geometry zero_header unit_triangle
              (Q2Qc (1 # 10)) (Q2Qc (1 # 10)) (Q2Qc (1 # 10)) 3 3 3)
    as (lo & hi & xc & yc & zc & _ & _ & _ & _ & _ & _ & _ & _ & _ & _ & G & W);
    [reflexivity | reflexivity | discriminate | reflexivity | exact unit_triangle_valid
    | reflexivity | exact O | exact O | exact O | lia | lia | lia |].
  exists lo, hi. split; [exact G | exact (W M M M)].
Defined.

(** * The lattice and its corners *)

Lemma nested_lerp_at_corners (c : qcorners) (nx ny nz idim : nat) :
  (2 <= nx)%nat -> (2 <= ny)%nat -> (2 <= nz)%nat ->
  nested_lerp c nx ny nz 0 0 0 idim = corner_q c 0 idim
  /\ nested_lerp c nx ny nz (nx - 1) 0 0 idim = corner_q c 1 idim
  /\ nested_lerp c nx ny nz (nx - 1) 0 (nz - 1) idim = corner_q c 2 idim
  /\ nested_lerp c nx ny nz 0 0 (nz - 1) idim = corner_q c 3 idim
  /\ nested_lerp c nx ny nz 0 (ny - 1) 0 idim = corner_q c 4 idim
  /\ nested_lerp c nx ny nz (nx - 1) (ny - 1) 0 idim = corner_q c 5 idim
  /\ nested_lerp c nx ny nz (nx - 1) (ny - 1) (nz - 1) idim = corner_q c 6 idim
  /\ nested_lerp c nx ny nz 0 (ny - 1) (nz - 1) idim = corner_q c 7 idim.
Proof.
  intros Hx Hy Hz. unfold nested_lerp.
  repeat split; now rewrite ?lerp_param_first, ?lerp_param_last by assumption.
Qed.

Lemma corner_q_qcoord (c : qcorners) (idim : nat) :
  corner_q c 0 idim = qcoord (q0 c) idim /\ corner_q c 1 idim = qcoord (q1 c) idim
  /\ corner_q c 2 idim = qcoord (q2 c) idim /\ corner_q c 3 idim = qcoord (q3 c) idim
  /\ corner_q c 4 idim = qcoord (q4 c) idim /\ corner_q c 5 idim = qcoord (q5 c) idim
  /\ corner_q c 6 idim = qcoord (q6 c) idim /\ corner_q c 7 idim = qcoord (q7 c) idim.
Proof. repeat split; reflexivity. Qed.

(** X5. The corners of the lattice are the corners given, in the order of
    the docstring of [returnBlockPoints]: corner 0 at index [(0, 0, 0)],
    corner 1 at [(nx-1, 0, 0)], corner 2 at [(nx-1, 0, nz-1)], corner 3 at
    [(0, 0, nz-1)], corner 4 at [(0, ny-1, 0)], corner 5 at [(nx-1, ny-1, 0)],
    corner 6 at [(nx-1, ny-1, nz-1)] and corner 7 at [(0, ny-1, nz-1)]. *)
Theorem returnBlockPoints_corners (c : qcorners) (nx ny nz : nat) :
  (2 <= nx)%nat -> (2 <= ny)%nat -> (2 <= nz)%nat ->
  exists points,
    returnBlockPoints (fin_corners c) (Z.of_nat nx) (Z.of_nat ny) (Z.of_nat nz) = Ok points
    /\ forall idim, (idim < 3)%nat ->
         getitem4 points 0 0 0 idim = Ok (Fin (qcoord (q0 c) idim))
         /\ getitem4 points (nx - 1) 0 0 idim = Ok (Fin (qcoord (q1 c) idim))
         /\ getitem4 points (nx - 1) 0 (nz - 1) idim = Ok (Fin (qcoord (q2 c) idim))
         /\ getitem4 points 0 0 (nz - 1) idim = Ok (Fin (qcoord (q3 c) idim))
         /\ getitem4 points 0 (ny - 1) 0 idim = Ok (Fin (qcoord (q4 c) idim))
         /\ getitem4 points (nx - 1) (ny - 1) 0 idim = Ok (Fin (qcoord (q5 c) idim))
         /\ getitem4 points (nx - 1) (ny - 1) (nz - 1) idim = Ok (Fin (qcoord (q6 c) idim))
         /\ getitem4 points 0 (ny - 1) (nz - 1) idim = Ok (Fin (qcoord (q7 c) idim)).
Proof.
  intros Hx Hy Hz.
  destruct (returnBlockPoints_nested c nx ny nz Hx Hy Hz) as (points & E & Hs & Hd).
  exists points. split; [exact E|]. intros idim Hi.
  destruct (nested_lerp_at_corners c nx ny nz idim Hx Hy Hz)
    as (N0 & N1 & N2 & N3 & N4 & N5 & N6 & N7).
  destruct (corner_q_qcoord c idim) as (C0 & C1 & C2 & C3 & C4 & C5 & C6 & C7).
  rewrite !(getitem4_data points nx ny nz 3) by (assumption || lia).
  rewrite !Hd by lia.
  rewrite N0, N1, N2, N3, N4, N5, N6, N7, C0, C1, C2, C3, C4, C5, C6, C7.
  repeat split.
Qed.

Lemma returnBlockPoints_corners_witness :
  (2 <= 3)%nat /\ (2 <= 2)%nat /\ (2 <= 4)%nat
  /\ exists points,
       returnBlockPoints (fin_corners sheared_corners) (Z.of_nat 3) (Z.of_nat 2) (Z.of_nat 4)
       = Ok points
       /\ getitem4 points (3 - 1) (2 - 1) (4 - 1) 0
          = Ok (Fin (qcoord (q6 sheared_corners) 0)).
Proof.
  split; [lia|]. split; [lia|]. split; [lia|].
  destruct (returnBlockPoints_corners sheared_corners 3 2 4) as (points & E & H);
    [lia | lia | lia |].
  exists points. split; [exact E|].
  destruct (H 0%nat) as (_ & _ & _ & _ & _ & _ & G & _); [lia | exact G].
Defined.

(** * The lattice stays between the corners *)

Lemma param_range (i n : nat) :
  (2 <= n)%nat -> (i < n)%nat ->
  (param 0 n <= param i n)%Qc /\ (param i n <= param (n - 1) n)%Qc.
Proof. intros Hn Hi. split; apply param_le; lia. Qed.

Lemma lerp_param_between (a b lo hi : Qc) (i n : nat) :
  (2 <= n)%nat -> (i < n)%nat ->
  (lo <= a)%Qc -> (a <= hi)%Qc -> (lo <= b)%Qc -> (b <= hi)%Qc ->
  (lo <= lerp a b (param i n))%Qc /\ (lerp a b (param i n) <= hi)%Qc.
Proof.
  intros Hn Hi La Ua Lb Ub. destruct (param_range i n Hn Hi) as [P0 P1].
  destruct (Qclt_le_dec b a) as [Hba|Hab].
  - apply Qclt_le_weak in Hba.
    pose proof (lerp_antitone a b _ _ Hba P0) as A0.
    pose proof (lerp_antitone a b _ _ Hba P1) as A1.
    rewrite lerp_param_first in A0. rewrite lerp_param_last in A1 by assumption.
    split; [now apply Qcle_trans with b | now apply Qcle_trans with a].
  - pose proof (lerp_monotone a b _ _ Hab P0) as A0.
    pose proof (lerp_monotone a b _ _ Hab P1) as A1.
    rewrite lerp_param_first in A0. rewrite lerp_param_last in A1 by assumption.
    split; [now apply Qcle_trans with a | now apply Qcle_trans with b].
Qed.

Lemma nested_lerp_between (c : qcorners) (nx ny nz i j k idim : nat) (lo hi : Qc) :
  (2 <= nx)%nat -> (2 <= ny)%nat -> (2 <= nz)%nat ->
  (i < nx)%nat -> (j < ny)%nat -> (k < nz)%nat ->
  (forall n, (n < 8)%nat ->
             (lo <= corner_q c n idim)%Qc /\ (corner_q c n idim <= hi)%Qc) ->
  (lo <= nested_lerp c nx ny nz i j k idim)%Qc
  /\ (nested_lerp c nx ny nz i j k idim <= hi)%Qc.
Proof.
  intros Hx Hy Hz Hi Hj Hk H. unfold nested_lerp.
  destruct (H 0%nat) as [L0 U0]; [lia|]. destruct (H 1%nat) as [L1 U1]; [lia|].
  destruct (H 2%nat) as [L2 U2]; [lia|]. destruct (H 3%nat) as [L3 U3]; [lia|].
  destruct (H 4%nat) as [L4 U4]; [lia|]. destruct (H 5%nat) as [L5 U5]; [lia|].
  destruct (H 6%nat) as [L6 U6]; [lia|]. destruct (H 7%nat) as [L7 U7]; [lia|].
  destruct (lerp_param_between _ _ lo hi k nz Hz Hk L0 U0 L3 U3) as [A1 A2].
  destruct (lerp_param_between _ _ lo hi k nz Hz Hk L1 U1 L2 U2) as [B1 B2].
  destruct (lerp_param_between _ _ lo hi k nz Hz Hk L4 U4 L7 U7) as [C1 C2].
  destruct (lerp_param_between _ _ lo hi k nz Hz Hk L5 U5 L6 U6) as [D1 D2].
  destruct (lerp_param_between _ _ lo hi i nx Hx Hi A1 A2 B1 B2) as [E1 E2].
  destruct (lerp_param_between _ _ lo hi i nx Hx Hi C1 C2 D1 D2) as [F1 F2].
  exact (lerp_param_between _ _ lo hi j ny Hy Hj E1 E2 F1 F2).
Qed.

(** X6. The lattice stays between the corners: when, in one coordinate
    channel, the eight corner values lie between [lo] and [hi], so does that
    coordinate of every lattice point [returnBlockPoints] returns. *)
Theorem returnBlockPoints_between_corners (c : qcorners) (nx ny nz idim : nat)
    (lo hi : Qc) :
  (2 <= nx)%nat -> (2 <= ny)%nat -> (2 <= nz)%nat -> (idim < 3)%nat ->
  (forall n, (n < 8)%nat ->
             (lo <= corner_q c n idim)%Qc /\ (corner_q c n idim <= hi)%Qc) ->
  exists points,
    returnBlockPoints (fin_corners c) (Z.of_nat nx) (Z.of_nat ny) (Z.of_nat nz) = Ok points
    /\ forall i j k, (i < nx)%nat -> (j < ny)%nat -> (k < nz)%nat ->
         exists q, getitem4 points i j k idim = Ok (Fin q)
                   /\ (lo <= q)%Qc /\ (q <= hi)%Qc.
Proof.
  intros Hx Hy Hz Hd H.
  destruct (returnBlockPoints_nested c nx ny nz Hx Hy Hz) as (points & E & Hs & Hv).
  exists points. split; [exact E|]. intros i j k Hi Hj Hk.
  exists (nested_lerp c nx ny nz i j k idim).
  rewrite (getitem4_data points nx ny nz 3) by (assumption || lia).
  rewrite Hv by assumption. split; [reflexivity|].
  now apply nested_lerp_between.
Qed.

Lemma sheared_corners_x_range (n : nat) :
  (n < 8)%nat ->
  (0 <= corner_q sheared_corners n 0)%Qc /\ (corner_q sheared_corners n 0 <= Q2Qc 4)%Qc.
Proof.
  intros H.
  do 8 (destruct n as [|n]; [split; vm_compute; discriminate|]). lia.
Qed.

Lemma returnBlockPoints_between_corners_witness :
  (2 <= 3)%nat /\ (2 <= 2)%nat /\ (2 <= 4)%nat /\ (0 < 3)%nat
  /\ (forall n, (n < 8)%nat ->
                (0 <= corner_q sheared_corners n 0)%Qc
                /\ (corner_q sheared_corners n 0 <= Q2Qc 4)%Qc)
  /\ exists points,
       returnBlockPoints (fin_corners sheared_corners) (Z.of_nat 3) (Z.of_nat 2) (Z.of_nat 4)
       = Ok points
       /\ exists q, getitem4 points 1 1 2 0 = Ok (Fin q) /\ (0 <= q)%Qc /\ (q <= Q2Qc 4)%Qc.
Proof.
  split; [lia|]. split; [lia|]. split; [lia|]. split; [lia|].
  split; [exact sheared_corners_x_range|].
  destruct (returnBlockPoints_between_corners sheared_corners 3 2 4 0 0 (Q2Qc 4))
    as (points & E & H); [lia | lia | lia | lia | exact sheared_corners_x_range |].
  exists points. split; [exact E|]. apply H; lia.
Defined.

(** * Reading the file of [generate_ffd_box] *)

Lemma plain_join (ts : list str) :
  Forall (fun t => plain t = true) ts -> plain (join [SP] ts) = true.
Proof.
  intros H. induction H as [|t ts Ht Hts IH]; [reflexivity|].
  destruct ts as [|t' ts']; [exact Ht|].
  change (join [SP] (t :: t' :: ts')) with (t ++ [SP] ++ join [SP] (t' :: ts')).
  rewrite !plain_app, Ht, IH. reflexivity.
Qed.

Lemma strip_join (ts : list str) (ws : str) :
  ts <> [] -> Forall (fun t => is_token t = true) ts -> all_space ws = true ->
  strip (join [SP] ts ++ ws) = join [SP] ts /\ join [SP] ts <> [].
Proof.
  intros Hne Hts Hws. pose proof (join_edged [SP] ts Hne Hts) as E.
  split.
  - apply (strip_edged [] ws); [reflexivity|assumption|assumption].
  - destruct E as [(c & _ & ->)|(c & body & d & _ & _ & ->)]; discriminate.
Qed.

Lemma read_values_join (n : Z) (ts : list str) (ws : str) (vals : list pyfloat)
      (rest : list str) :
  ts <> [] -> Forall (fun t => is_token t = true) ts -> all_space ws = true ->
  map_result py_float ts = Ok vals -> (n <= Z.of_nat (length vals))%Z ->
  read_values n [] ((join [SP] ts ++ ws) :: rest) = Ok (vals, rest).
Proof.
  intros Hne Hts Hws Hv Hn.
  destruct (strip_join ts ws Hne Hts Hws) as [E N].
  pose proof (split_join ts Hts) as S.
  cbn [read_values]. rewrite E.
  destruct (join [SP] ts) as [|c l] eqn:J; [congruence|].
  rewrite S, Hv. cbn [bind app].
  now replace (n <=? Z.of_nat (length vals))%Z with true by (symmetry; apply Z.leb_le; lia).
Qed.

Lemma plot3d_text_lines (nx ny nz : Z) (xs ys zs : list str) :
  plot3d_text nx ny nz xs ys zs
  = flat_map (fun l => l ++ [LF])
             [lit "1"; join [SP] [format_d nx; format_d ny; format_d nz];
              join [SP] xs; join [SP] ys; join [SP] zs]
    ++ [].
Proof.
  unfold plot3d_text. cbn [flat_map join]. rewrite !app_nil_r.
  repeat rewrite <- app_assoc. reflexivity.
Qed.

(** Reading the file of a grid with at least one point. *)
Lemma readPlot3D_plot3d_text (nx ny nz : nat) (xs ys zs : list pyfloat) :
  (1 <= nx * ny * nz)%nat ->
  length xs = (nx * ny * nz)%nat -> length ys = (nx * ny * nz)%nat ->
  length zs = (nx * ny * nz)%nat ->
  readPlot3D (Some (plot3d_text (Z.of_nat nx) (Z.of_nat ny) (Z.of_nat nz)
                                (map format_f xs) (map format_f ys) (map format_f zs)))
  = Ok ({| shape3 := (nz, ny, nx); flat := map round6 xs |},
        {| shape3 := (nz, ny, nx); flat := map round6 ys |},
        {| shape3 := (nz, ny, nx); flat := map round6 zs |}).
Proof.
  intros Hn Lx Ly Lz.
  assert (Nx : map format_f xs <> []) by (destruct xs; [simpl in Lx; lia|discriminate]).
  assert (Ny : map format_f ys <> []) by (destruct ys; [simpl in Ly; lia|discriminate]).
  assert (Nz : map format_f zs <> []) by (destruct zs; [simpl in Lz; lia|discriminate]).
  destruct (dims_tokens (Z.of_nat nx) (Z.of_nat ny) (Z.of_nat nz)) as [Dt Dp].
  pose proof (plain_join _ Dp) as P2.
  pose proof (plain_join _ (format_f_plain xs)) as P3.
  pose proof (plain_join _ (format_f_plain ys)) as P4.
  pose proof (plain_join _ (format_f_plain zs)) as P5.
  unfold readPlot3D. rewrite plot3d_text_lines.
  rewrite open_r_text.
  2:{ cbn [flat_map]. rewrite !is_text_app.
      rewrite (plain_is_text _ P2), (plain_is_text _ P3), (plain_is_text _ P4),
              (plain_is_text _ P5). reflexivity. }
  cbn [bind]. rewrite splitlines_lines.
  2:{ repeat constructor; now apply plain_no_lf. }
  2:{ reflexivity. }
  cbn [map app readline].
  change (py_int (strip (lit "1" ++ [LF]))) with (@Ok Z 1%Z). cbn [bind].
  assert (Dn : [format_d (Z.of_nat nx); format_d (Z.of_nat ny); format_d (Z.of_nat nz)]
               <> []) by discriminate.
  destruct (strip_join _ [LF] Dn Dt eq_refl) as [E2 _].
  rewrite E2, split_join by assumption.
  cbn [getitem nth_error bind]. rewrite !py_int_format_d. cbn [bind].
  replace (Z.of_nat nx * Z.of_nat ny * Z.of_nat nz)%Z with (Z.of_nat (nx * ny * nz)) by lia.
  rewrite (read_values_join _ (map format_f xs) [LF] (map round6 xs));
    [|assumption|apply format_f_tokens|reflexivity
     |apply map_result_map, py_float_format_f|rewrite length_map; lia].
  cbn [bind]. rewrite slice_to_all by (rewrite length_map; assumption).
  rewrite np_reshape3_nat by (rewrite length_map; lia). cbn [bind].
  rewrite (read_values_join _ (map format_f ys) [LF] (map round6 ys));
    [|assumption|apply format_f_tokens|reflexivity
     |apply map_result_map, py_float_format_f|rewrite length_map; lia].
  cbn [bind]. rewrite slice_to_all by (rewrite length_map; assumption).
  rewrite np_reshape3_nat by (rewrite length_map; lia). cbn [bind].
  rewrite (read_values_join _ (map format_f zs) [LF] (map round6 zs));
    [|assumption|apply format_f_tokens|reflexivity
     |apply map_result_map, py_float_format_f|rewrite length_map; lia].
  cbn [bind]. rewrite slice_to_all by (rewrite length_map; assumption).
  rewrite np_reshape3_nat by (rewrite length_map; lia). reflexivity.
Qed.

(** X7. The file [generate_ffd_box] writes is read back by [readPlot3D]:
    for at least one point per axis (and any bounds, margins and overrides)
    the three arrays have shape [(nz, ny, nx)], and their entries [[k, j, i]]
    are the [i]-th x sample, the [j]-th y sample and the [k]-th z sample of
    the box, each rounded to six decimals. *)
Theorem generate_ffd_box_then_readPlot3D (stl_file : file) (nx ny nz : nat)
    (offset_x offset_y offset_z : pyfloat) (x_start x_end : option pyfloat)
    (min_point max_point : point3) :
  (1 <= nx)%nat -> (1 <= ny)%nat -> (1 <= nz)%nat ->
  get_stl_bounds stl_file = Ok (min_point, max_point) ->
  let box := ffd_box_bounds min_point max_point offset_x offset_y offset_z
                            x_start x_end in
  exists text x_coords y_coords z_coords x y z,
    np_linspace (fst (fst (fst box))) (snd (fst (fst box))) (Z.of_nat nx) = Ok x_coords
    /\ np_linspace (fst (snd (fst box))) (snd (snd (fst box))) (Z.of_nat ny) = Ok y_coords
    /\ np_linspace (fst (snd box)) (snd (snd box)) (Z.of_nat nz) = Ok z_coords
    /\ generate_ffd_box stl_file (Z.of_nat nx) (Z.of_nat ny) (Z.of_nat nz)
                        offset_x offset_y offset_z x_start x_end = Ok text
    /\ readPlot3D (Some text) = Ok (x, y, z)
    /\ shape3 x = (nz, ny, nx) /\ shape3 y = (nz, ny, nx) /\ shape3 z = (nz, ny, nx)
    /\ forall i j k, (i < nx)%nat -> (j < ny)%nat -> (k < nz)%nat ->
         getitem3 x k j i = Ok (round6 (nth i x_coords NaN))
         /\ getitem3 y k j i = Ok (round6 (nth j y_coords NaN))
         /\ getitem3 z k j i = Ok (round6 (nth k z_coords NaN)).
Proof.
  intros Hx Hy Hz Hb box.
  assert (Hn : (1 <= nx * ny * nz)%nat).
  { apply (Nat.le_trans _ (1 * 1 * 1)); [reflexivity|].
    repeat apply Nat.mul_le_mono; assumption. }
  pose proof (generate_ffd_box_text stl_file nx ny nz offset_x offset_y offset_z
                x_start x_end min_point max_point) as G.
  subst box.
  destruct (ffd_box_bounds min_point max_point offset_x offset_y offset_z x_start x_end)
    as [[[x_min x_max] [y_min y_max]] [z_min z_max]]. cbn [fst snd].
  destruct (np_linspace_nat x_min x_max nx) as (xc & Ex & _).
  destruct (np_linspace_nat y_min y_max ny) as (yc & Ey & _).
  destruct (np_linspace_nat z_min z_max nz) as (zc & Ez & _).
  specialize (G xc yc zc Hb Ex Ey Ez).
  rewrite <- !(flat_order_map format_f) in G.
  eexists. exists xc, yc, zc. do 3 eexists.
  split; [exact Ex|]. split; [exact Ey|]. split; [exact Ez|]. split; [exact G|].
  split.
  { apply (readPlot3D_plot3d_text nx ny nz); try assumption; apply flat_order_length. }
  cbn [shape3 flat]. rewrite !flat_order_map.
  repeat (split; [reflexivity|]).
  intros i j k Hi Hj Hk. rewrite !getitem3_flat_order by assumption. repeat split.
Qed.

Lemma generate_ffd_box_then_readPlot3D_witness :
  (1 <= 3)%nat /\ (1 <= 2)%nat
  /\ get_stl_bounds unit_triangle_stl = Ok (fin_point qorigin, fin_point q110)
  /\ exists text x y z,
       generate_ffd_box unit_triangle_stl (Z.of_nat 3) (Z.of_nat 2) (Z.of_nat 2)
                        Q0 Q0 Q0 None None = Ok text
       /\ readPlot3D (Some text) = Ok (x, y, z)
       /\ shape3 x = (2%nat, 2%nat, 3%nat).
Proof.
  split; [lia|]. split; [lia|]. split; [exact unit_triangle_bounds|].
  destruct (generate_ffd_box_then_readPlot3D unit_triangle_stl 3 2 2 Q0 Q0 Q0 None None
              (fin_point qorigin) (fin_point q110))
    as (text & xc & yc & zc & x & y & z & _ & _ & _ & G & R & S & _);
    [lia | lia | lia | exact unit_triangle_bounds |].
  exists text, x, y, z. split; [exact G|]. split; [exact R | exact S].
Defined.

(** * [parse_xyz_file] on the files of the two writers *)

Lemma nth_error_zip3 (xs ys zs : list pyfloat) (n : nat) (x y z : pyfloat) :
  nth_error xs n = Some x -> nth_error ys n = Some y -> nth_error zs n = Some z ->
  nth_error (zip3 xs ys zs) n = Some (x, y, z).
Proof.
  revert ys zs n. induction xs as [|a xs IH]; intros ys zs n Hx Hy Hz.
  - now destruct n.
  - destruct ys as [|b ys]; [now destruct n|]. destruct zs as [|c zs]; [now destruct n|].
    destruct n as [|n]; cbn [nth_error zip3] in *.
    + inversion Hx; inversion Hy; inversion Hz; subst. reflexivity.
    + now apply IH.
Qed.

Lemma length_zip3 (xs ys zs : list pyfloat) (n : nat) :
  length xs = n -> length ys = n -> length zs = n -> length (zip3 xs ys zs) = n.
Proof.
  revert ys zs n. induction xs as [|a xs IH]; intros ys zs n Hx Hy Hz.
  - now subst.
  - destruct ys as [|b ys]; [simpl in *; lia|]. destruct zs as [|c zs]; [simpl in *; lia|].
    destruct n as [|n]; [discriminate|]. simpl in *. f_equal. apply IH; lia.
Qed.

Lemma py_int_dims (nx ny nz : Z) :
  map_result py_int [format_d nx; format_d ny; format_d nz] = Ok [nx; ny; nz].
Proof. cbn [map_result]. rewrite !py_int_format_d. reflexivity. Qed.

Lemma parse_floats (l : list pyfloat) :
  map_result py_float (map format_f l) = Ok (map round6 l).
Proof. apply map_result_map, py_float_format_f. Qed.

Lemma counts_match (nx ny nz : nat) (l : list pyfloat) :
  length l = (nx * ny * nz)%nat ->
  (Z.of_nat (length (map round6 l)) =? Z.of_nat nx * Z.of_nat ny * Z.of_nat nz)%Z = true.
Proof. intros H. rewrite length_map, H. apply Z.eqb_eq. lia. Qed.

(** The file of [writeFFDFile] for one block with at least one point. *)
Lemma parse_xyz_file_ffd_text (nx ny nz : nat) (xs ys zs : list pyfloat) :
  (1 <= nx * ny * nz)%nat ->
  length xs = (nx * ny * nz)%nat -> length ys = (nx * ny * nz)%nat ->
  length zs = (nx * ny * nz)%nat ->
  parse_xyz_file (Some (ffd_text (Z.of_nat nx) (Z.of_nat ny) (Z.of_nat nz)
                                 (map format_f xs) (map format_f ys) (map format_f zs)))
  = Ok (zip3 (map round6 xs) (map round6 ys) (map round6 zs),
        (Z.of_nat nx, Z.of_nat ny, Z.of_nat nz)).
Proof.
  intros Hn Lx Ly Lz.
  assert (Nx : map format_f xs <> []) by (destruct xs; [simpl in Lx; lia|discriminate]).
  assert (Ny : map format_f ys <> []) by (destruct ys; [simpl in Ly; lia|discriminate]).
  assert (Nz : map format_f zs <> []) by (destruct zs; [simpl in Lz; lia|discriminate]).
  destruct (dims_tokens (Z.of_nat nx) (Z.of_nat ny) (Z.of_nat nz)) as [Dt Dp].
  pose proof (plain_spaced_line _ Dp) as P2.
  pose proof (plain_spaced_line _ (format_f_plain xs)) as P3.
  pose proof (plain_spaced_line _ (format_f_plain ys)) as P4.
  pose proof (plain_spaced_line _ (format_f_plain zs)) as P5.
  unfold parse_xyz_file. rewrite ffd_text_lines.
  rewrite open_r_text.
  2:{ cbn [flat_map]. rewrite !is_text_app.
      rewrite (plain_is_text _ P2), (plain_is_text _ P3), (plain_is_text _ P4),
              (plain_is_text _ P5). reflexivity. }
  cbn [bind]. rewrite splitlines_lines.
  2:{ repeat constructor; now apply plain_no_lf. }
  2:{ now apply plain_no_lf. }
  assert (Zne : spaced_line (map format_f zs) <> []).
  { rewrite spaced_line_join by assumption. now destruct (join [SP] (map format_f zs)). }
  destruct (spaced_line (map format_f zs)) as [|cz lz] eqn:Ez; [congruence|].
  rewrite <- Ez. clear Zne.
  cbn [map app getitem nth_error bind].
  change (py_int (strip (lit "1" ++ [LF]))) with (@Ok Z 1%Z). cbn [bind].
  assert (Dn : [format_d (Z.of_nat nx); format_d (Z.of_nat ny); format_d (Z.of_nat nz)]
               <> []) by discriminate.
  destruct (strip_spaced_line _ [LF] Dn Dt eq_refl) as [E2 _].
  destruct (strip_spaced_line _ [LF] Nx (format_f_tokens xs) eq_refl) as [E3 _].
  destruct (strip_spaced_line _ [LF] Ny (format_f_tokens ys) eq_refl) as [E4 _].
  destruct (strip_spaced_line _ [] Nz (format_f_tokens zs) eq_refl) as [E5 _].
  rewrite app_nil_r in E5.
  rewrite E2, E3, E4, E5, !split_join by (assumption || apply format_f_tokens).
  rewrite py_int_dims. cbn [bind]. rewrite !parse_floats. cbn [bind].
  rewrite !counts_match by assumption. cbn [negb].
  replace (Z.of_nat nx * Z.of_nat ny * Z.of_nat nz =? 0)%Z with false
    by (symmetry; apply Z.eqb_neq; lia).
  reflexivity.
Qed.

(** The file of [generate_ffd_box] for a grid with at least one point. *)
Lemma parse_xyz_file_plot3d_text (nx ny nz : nat) (xs ys zs : list pyfloat) :
  (1 <= nx * ny * nz)%nat ->
  length xs = (nx * ny * nz)%nat -> length ys = (nx * ny * nz)%nat ->
  length zs = (nx * ny * nz)%nat ->
  parse_xyz_file (Some (plot3d_text (Z.of_nat nx) (Z.of_nat ny) (Z.of_nat nz)
                                    (map format_f xs) (map format_f ys) (map format_f zs)))
  = Ok (zip3 (map round6 xs) (map round6 ys) (map round6 zs),
        (Z.of_nat nx, Z.of_nat ny, Z.of_nat nz)).
Proof.
  intros Hn Lx Ly Lz.
  assert (Nx : map format_f xs <> []) by (destruct xs; [simpl in Lx; lia|discriminate]).
  assert (Ny : map format_f ys <> []) by (destruct ys; [simpl in Ly; lia|discriminate]).
  assert (Nz : map format_f zs <> []) by (destruct zs; [simpl in Lz; lia|discriminate]).
  destruct (dims_tokens (Z.of_nat nx) (Z.of_nat ny) (Z.of_nat nz)) as [Dt Dp].
  pose proof (plain_join _ Dp) as P2.
  pose proof (plain_join _ (format_f_plain xs)) as P3.
  pose proof (plain_join _ (format_f_plain ys)) as P4.
  pose proof (plain_join _ (format_f_plain zs)) as P5.
  unfold parse_xyz_file. rewrite plot3d_text_lines.
  rewrite open_r_text.
  2:{ cbn [flat_map]. rewrite !is_text_app.
      rewrite (plain_is_text _ P2), (plain_is_text _ P3), (plain_is_text _ P4),
              (plain_is_text _ P5). reflexivity. }
  cbn [bind]. rewrite splitlines_lines.
  2:{ repeat constructor; now apply plain_no_lf. }
  2:{ reflexivity. }
  cbn [map app getitem nth_error bind].
  change (py_int (strip (lit "1" ++ [LF]))) with (@Ok Z 1%Z). cbn [bind].
  assert (Dn : [format_d (Z.of_nat nx); format_d (Z.of_nat ny); format_d (Z.of_nat nz)]
               <> []) by discriminate.
  destruct (strip_join _ [LF] Dn Dt eq_refl) as [E2 _].
  destruct (strip_join _ [LF] Nx (format_f_tokens xs) eq_refl) as [E3 _].
  destruct (strip_join _ [LF] Ny (format_f_tokens ys) eq_refl) as [E4 _].
  destruct (strip_join _ [LF] Nz (format_f_tokens zs) eq_refl) as [E5 _].
  rewrite E2, E3, E4, E5, !split_join by (assumption || apply format_f_tokens).
  rewrite py_int_dims. cbn [bind]. rewrite !parse_floats. cbn [bind].
  rewrite !counts_match by assumption. cbn [negb].
  replace (Z.of_nat nx * Z.of_nat ny * Z.of_nat nz =? 0)%Z with false
    by (symmetry; apply Z.eqb_neq; lia).
  reflexivity.
Qed.

(** X8. [parse_xyz_file] reads the files of both writers.  For one block
    with at least one point per axis it returns the dimensions [(nx, ny, nz)]
    and [nx * ny * nz] rows; the row at offset [k*ny*nx + j*nx + i] holds the
    three coordinates of lattice point [(i, j, k)], each rounded to six
    decimals: the entries [points[i, j, k, :]] for a file of [writeFFDFile],
    and the [i]-th x, [j]-th y and [k]-th z sample for a file of
    [generate_ffd_box]. *)
Theorem parse_xyz_file_reads_writers :
  (forall (points : ndarray4) (nx ny nz : nat),
     (1 <= nx)%nat -> (1 <= ny)%nat -> (1 <= nz)%nat ->
     shape points = (nx, ny, nz, 3%nat) ->
     exists text rows,
       writeFFDFile 1 [Z.of_nat nx] [Z.of_nat ny] [Z.of_nat nz] [points] = Ok text
       /\ parse_xyz_file (Some text)
          = Ok (rows, (Z.of_nat nx, Z.of_nat ny, Z.of_nat nz))
       /\ length rows = (nx * ny * nz)%nat
       /\ forall i j k, (i < nx)%nat -> (j < ny)%nat -> (k < nz)%nat ->
            nth_error rows (flat_offset nx ny i j k)
            = Some (round6 (data points i j k 0), round6 (data points i j k 1),
                    round6 (data points i j k 2)))
  /\ (forall (stl_file : file) (nx ny nz : nat)
             (offset_x offset_y offset_z : pyfloat) (x_start x_end : option pyfloat)
             (min_point max_point : point3),
        (1 <= nx)%nat -> (1 <= ny)%nat -> (1 <= nz)%nat ->
        get_stl_bounds stl_file = Ok (min_point, max_point) ->
        let box := ffd_box_bounds min_point max_point offset_x offset_y offset_z
                                  x_start x_end in
        exists text x_coords y_coords z_coords rows,
          np_linspace (fst (fst (fst box))) (snd (fst (fst box))) (Z.of_nat nx) = Ok x_coords
          /\ np_linspace (fst (snd (fst box))) (snd (snd (fst box))) (Z.of_nat ny)
             = Ok y_coords
          /\ np_linspace (fst (snd box)) (snd (snd box)) (Z.of_nat nz) = Ok z_coords
          /\ generate_ffd_box stl_file (Z.of_nat nx) (Z.of_nat ny) (Z.of_nat nz)
                              offset_x offset_y offset_z x_start x_end = Ok text
          /\ parse_xyz_file (Some text)
             = Ok (rows, (Z.of_nat nx, Z.of_nat ny, Z.of_nat nz))
          /\ length rows = (nx * ny * nz)%nat
          /\ forall i j k, (i < nx)%nat -> (j < ny)%nat -> (k < nz)%nat ->
               nth_error rows (flat_offset nx ny i j k)
               = Some (round6 (nth i x_coords NaN), round6 (nth j y_coords NaN),
                       round6 (nth k z_coords NaN))).
Proof.
  assert (Hn : forall nx ny nz, (1 <= nx)%nat -> (1 <= ny)%nat -> (1 <= nz)%nat ->
                                (1 <= nx * ny * nz)%nat).
  { intros nx ny nz Hx Hy Hz. apply (Nat.le_trans _ (1 * 1 * 1)); [reflexivity|].
    repeat apply Nat.mul_le_mono; assumption. }
  split.
  - intros points nx ny nz Hx Hy Hz Hs. do 2 eexists.
    split; [exact (writeFFDFile_text points nx ny nz Hs)|].
    split.
    { apply (parse_xyz_file_ffd_text nx ny nz); [now apply Hn|..];
        unfold channel; apply flat_order_length. }
    unfold channel. rewrite !flat_order_map.
    split; [apply length_zip3; apply flat_order_length|].
    intros i j k Hi Hj Hk. apply nth_error_zip3; now apply flat_order_nth_error.
  - intros stl_file nx ny nz offset_x offset_y offset_z x_start x_end
           min_point max_point Hx Hy Hz Hb box.
    pose proof (generate_ffd_box_text stl_file nx ny nz offset_x offset_y offset_z
                  x_start x_end min_point max_point) as G.
    subst box.
    destruct (ffd_box_bounds min_point max_point offset_x offset_y offset_z x_start x_end)
      as [[[x_min x_max] [y_min y_max]] [z_min z_max]]. cbn [fst snd].
    destruct (np_linspace_nat x_min x_max nx) as (xc & Ex & _).
    destruct (np_linspace_nat y_min y_max ny) as (yc & Ey & _).
    destruct (np_linspace_nat z_min z_max nz) as (zc & Ez & _).
    specialize (G xc yc zc Hb Ex Ey Ez).
    rewrite <- !(flat_order_map format_f) in G.
    eexists. exists xc, yc, zc. eexists.
    split; [exact Ex|]. split; [exact Ey|]. split; [exact Ez|]. split; [exact G|].
    split.
    { apply (parse_xyz_file_plot3d_text nx ny nz); [now apply Hn|..];
        apply flat_order_length. }
    rewrite !flat_order_map.
    split; [apply length_zip3; apply flat_order_length|].
    intros i j k Hi Hj Hk. apply nth_error_zip3; now apply flat_order_nth_error.
Qed.

Lemma parse_xyz_file_reads_writers_witness :
  shape example_block = (2%nat, 2%nat, 2%nat, 3%nat)
  /\ get_stl_bounds unit_triangle_stl = Ok (fin_point qorigin, fin_point q110)
  /\ (exists text rows,
        writeFFDFile 1 [Z.of_nat 2] [Z.of_nat 2] [Z.of_nat 2] [example_block] = Ok text
        /\ parse_xyz_file (Some text) = Ok (rows, (Z.of_nat 2, Z.of_nat 2, Z.of_nat 2)))
  /\ (exists text rows,
        generate_ffd_box unit_triangle_stl (Z.of_nat 3) (Z.of_nat 2) (Z.of_nat 2)
                         Q0 Q0 Q0 None None = Ok text
        /\ parse_xyz_file (Some text) = Ok (rows, (Z.of_nat 3, Z.of_nat 2, Z.of_nat 2))).
Proof.
  split; [reflexivity|]. split; [exact unit_triangle_bounds|].
  destruct parse_xyz_file_reads_writers as [W G]. split.
  - destruct (W example_block 2%nat 2%nat 2%nat) as (text & rows & E & P & _);
      [lia | lia | lia | reflexivity |].
    exists text, rows. split; [exact E | exact P].
  - destruct (G unit_triangle_stl 3%nat 2%nat 2%nat Q0 Q0 Q0 None None
                (fin_point qorigin) (fin_point q110))
      as (text & xc & yc & zc & rows & _ & _ & _ & E & P & _);
      [lia | lia | lia | exact unit_triangle_bounds |].
    exists text, rows. split; [exact E | exact P].
Defined.

(** * Binary files that are complete *)

Lemma triangles_complete (n s : nat) (b : bounds) (stream : bytes) :
  (n = 0%nat \/ (50 * n - 2 <= length stream)%nat) ->
  exists b' rest,
    for_each (seq s n) (b, stream) binary_triangle_step = Ok (b', rest).
Proof.
  revert s b stream. induction n as [|n IH]; intros s b stream H.
  - exists b, stream. reflexivity.
  - destruct H as [H|H]; [discriminate|]. cbn [seq for_each].
    destruct (binary_triangle_step_full s b stream) as (b1 & E); [lia|].
    rewrite E. cbn [bind]. apply IH.
    destruct n as [|n]; [now left|right]. rewrite length_skipn. lia.
Qed.

Lemma read_triangles_complete (n s : nat) (ts : list triangle) (stream : bytes) :
  (n = 0%nat \/ (50 * n - 2 <= length stream)%nat) ->
  exists ts' rest,
    for_each (seq s n) (ts, stream) read_triangle_step = Ok (ts', rest)
    /\ length ts' = (length ts + n)%nat.
Proof.
  revert s ts stream. induction n as [|n IH]; intros s ts stream H.
  - exists ts, stream. split; [reflexivity|lia].
  - destruct H as [H|H]; [discriminate|]. cbn [seq for_each].
    destruct (read_triangle_step_full s ts stream) as (t & E); [lia|].
    rewrite E. cbn [bind].
    destruct (IH (S s) (ts ++ [t]) (skipn 50 stream)) as (ts' & rest & E' & L).
    { destruct n as [|n]; [now left|right]. rewrite length_skipn. lia. }
    exists ts', rest. split; [exact E'|].
    rewrite L, length_app. simpl. lia.
Qed.

(** X9. A binary file that is not truncated is accepted: when the file holds
    its triangle count and every vertex of every declared triangle (a file
    cut inside the 2-byte attribute of the last triangle, or followed by more
    bytes, included), [get_stl_bounds] (on a file it reads as binary) returns
    bounds and [read_binary_stl] returns as many triangles as declared. *)
Theorem complete_binary_is_accepted (content : bytes) :
  ~ truncated content ->
  (is_ascii_stl (Some content) = false ->
   exists b, get_stl_bounds (Some content) = Ok b)
  /\ exists triangles,
       read_binary_stl (Some content) = Ok triangles
       /\ length triangles = declared_triangles content.
Proof.
  intros T. unfold truncated in T.
  assert (L : (84 <= length content)%nat) by lia.
  assert (C : declared_triangles content = 0%nat
              \/ (50 * declared_triangles content - 2
                  <= length (skipn 4 (skipn 80 content)))%nat).
  { rewrite !length_skipn. lia. }
  assert (D : unpack_I (firstn 4 (skipn 80 content))
              = Ok (le_uint (firstn 4 (skipn 80 content)))).
  { apply unpack_I_full. rewrite length_firstn, length_skipn. lia. }
  unfold declared_triangles in *. split.
  - intros A. unfold get_stl_bounds. rewrite A. cbn [open_rb bind read].
    rewrite D. cbn [bind].
    destruct (triangles_complete _ 0 initial_bounds _ C) as (b & rest & E).
    exists b. exact (f_equal (fun r : result (bounds * bytes) =>
                               x <- r ;; (let '(b, _) := x in Ok b)) E).
  - unfold read_binary_stl. cbn [open_rb bind read]. rewrite D. cbn [bind].
    destruct (read_triangles_complete _ 0 [] _ C) as (ts & rest & E & Len).
    exists ts. split; [|exact Len].
    exact (f_equal (fun r : result (list triangle * bytes) =>
                      x <- r ;; (let '(ts, _) := x in Ok ts)) E).
Qed.

Lemma clipped_not_truncated : ~ truncated clipped_stl_bytes.
Proof.
  unfold truncated. intros [H|[_ H]]; vm_compute in H; lia.
Qed.

Lemma complete_binary_is_accepted_witness :
  ~ truncated clipped_stl_bytes
  /\ length clipped_stl_bytes = 133%nat
  /\ is_ascii_stl (Some clipped_stl_bytes) = false
  /\ (exists b, get_stl_bounds (Some clipped_stl_bytes) = Ok b)
  /\ exists triangles,
       read_binary_stl (Some clipped_stl_bytes) = Ok triangles
       /\ length triangles = declared_triangles clipped_stl_bytes.
Proof.
  split; [exact clipped_not_truncated|]. split; [reflexivity|]. split; [reflexivity|].
  destruct (complete_binary_is_accepted clipped_stl_bytes clipped_not_truncated)
    as (G & R).
  split; [apply G; reflexivity | exact R].
Defined.

(** * The grid of a mesh without vertices *)

Lemma Qc_of_nat_not_neg (i : nat) : Qc_ltb (Qc_of_nat i) 0 = false.
Proof. apply Qc_ltb_ge. change 0%Qc with (Qc_of_nat 0). apply Qc_of_nat_le. lia. Qed.

Lemma sample_from_inf (i : nat) :
  fadd (fmul (float_of_nat i) (Inf true)) pinf = NaN.
Proof.
  rewrite float_of_nat_Qc. cbn [fmul].
  destruct (Qc_eqb (Qc_of_nat i) 0); [reflexivity|].
  now rewrite Qc_of_nat_not_neg.
Qed.

Lemma map_const_repeat {A B : Type} (f : A -> B) (b : B) (l : list A) :
  (forall a, f a = b) -> map f l = repeat b (length l).
Proof.
  intros H. induction l as [|a l IH]; [reflexivity|].
  simpl. now rewrite H, IH.
Qed.

Lemma repeat_snoc {A : Type} (a : A) (n : nat) : repeat a (S n) = repeat a n ++ [a].
Proof. induction n as [|n IH]; [reflexivity|]. simpl in *. now rewrite <- IH. Qed.

(** Sampling from [+inf] to [-inf]: every sample is NaN, the last is [-inf]. *)
Lemma np_linspace_inf (n : nat) :
  (2 <= n)%nat ->
  np_linspace pinf ninf (Z.of_nat n) = Ok (repeat NaN (n - 1) ++ [ninf]).
Proof.
  intros H. unfold np_linspace.
  replace (Z.of_nat n <? 0)%Z with false by (symmetry; apply Z.ltb_ge; lia).
  replace (0 <? Z.of_nat n - 1)%Z with true by (symmetry; apply Z.ltb_lt; lia).
  replace (1 <? Z.of_nat n)%Z with true by (symmetry; apply Z.ltb_lt; lia).
  rewrite float_of_Z_pred by lia.
  change (fsub ninf pinf) with (Inf true). cbn [fdiv].
  rewrite Qc_of_nat_not_neg. cbn [xorb feqb fzero].
  unfold np_arange. rewrite py_range_nat, !map_map.
  rewrite (map_const_repeat _ NaN) by (intros i; apply sample_from_inf).
  rewrite length_seq. replace n with (S (n - 1)) at 1 by lia.
  now rewrite repeat_snoc, set_last_snoc.
Qed.

Lemma nth_unbounded (n i : nat) :
  (2 <= n)%nat -> (i < n)%nat ->
  format_f (nth i (repeat NaN (n - 1) ++ [ninf]) NaN) = unbounded_token n i.
Proof.
  intros Hn Hi. unfold unbounded_token.
  destruct (Nat.eqb_spec i (n - 1)) as [->|Hne].
  - rewrite app_nth2 by (rewrite repeat_length; lia).
    rewrite repeat_length, Nat.sub_diag. reflexivity.
  - rewrite app_nth1 by (rewrite repeat_length; lia).
    now rewrite nth_repeat.
Qed.

Lemma empty_mesh_bounds : get_stl_bounds empty_mesh_stl = Ok initial_bounds.
Proof. vm_compute. reflexivity. Qed.

(** X10. A mesh without vertices gives a grid without numbers.  When
    [get_stl_bounds] returns its initial bounds [+inf] and [-inf] (a binary
    file that declares no triangle, a text file without vertex lines), then
    for finite margins, no override and at least two points per axis
    [generate_ffd_box] raises no error: every sample of every axis is NaN
    except the last, which is [-inf], and the file holds the tokens [nan]
    and [-inf] in place of coordinates. *)
Theorem empty_mesh_grid_is_nan (stl_file : file) (ox oy oz : Qc) (nx ny nz : nat) :
  (2 <= nx)%nat -> (2 <= ny)%nat -> (2 <= nz)%nat ->
  get_stl_bounds stl_file = Ok initial_bounds ->
  ffd_box_bounds (fst initial_bounds) (snd initial_bounds) (Fin ox) (Fin oy) (Fin oz)
                 None None
  = ((pinf, ninf), (pinf, ninf), (pinf, ninf))
  /\ np_linspace pinf ninf (Z.of_nat nx) = Ok (repeat NaN (nx - 1) ++ [ninf])
  /\ np_linspace pinf ninf (Z.of_nat ny) = Ok (repeat NaN (ny - 1) ++ [ninf])
  /\ np_linspace pinf ninf (Z.of_nat nz) = Ok (repeat NaN (nz - 1) ++ [ninf])
  /\ generate_ffd_box stl_file (Z.of_nat nx) (Z.of_nat ny) (Z.of_nat nz)
                      (Fin ox) (Fin oy) (Fin oz) None None
     = Ok (plot3d_text (Z.of_nat nx) (Z.of_nat ny) (Z.of_nat nz)
             (flat_order nx ny nz (fun i j k => unbounded_token nx i))
             (flat_order nx ny nz (fun i j k => unbounded_token ny j))
             (flat_order nx ny nz (fun i j k => unbounded_token nz k))).
Proof.
  intros Hx Hy Hz Hb.
  pose proof (np_linspace_inf nx Hx) as Ex.
  pose proof (np_linspace_inf ny Hy) as Ey.
  pose proof (np_linspace_inf nz Hz) as Ez.
  split; [reflexivity|]. split; [exact Ex|]. split; [exact Ey|]. split; [exact Ez|].
  rewrite (generate_ffd_box_text stl_file nx ny nz (Fin ox) (Fin oy) (Fin oz) None None
             (fst initial_bounds) (snd initial_bounds) _ _ _ Hb Ex Ey Ez).
  f_equal. f_equal; apply flat_order_ext; intros i j k Hi Hj Hk;
    now apply nth_unbounded.
Qed.

Lemma empty_mesh_grid_is_nan_witness :
  (2 <= 2)%nat /\ get_stl_bounds empty_mesh_stl = Ok initial_bounds
  /\ generate_ffd_box empty_mesh_stl (Z.of_nat 2) (Z.of_nat 2) (Z.of_nat 2)
                      (Fin 0) (Fin 0) (Fin 0) None None
     = Ok (plot3d_text (Z.of_nat 2) (Z.of_nat 2) (Z.of_nat 2)
             (flat_order 2 2 2 (fun i j k => unbounded_token 2 i))
             (flat_order 2 2 2 (fun i j k => unbounded_token 2 j))
             (flat_order 2 2 2 (fun i j k => unbounded_token 2 k))).
Proof.
  split; [lia|]. split; [exact empty_mesh_bounds|].
  apply (empty_mesh_grid_is_nan empty_mesh_stl 0 0 0 2 2 2); try lia.
  exact empty_mesh_bounds.
Defined.

(** * Files of two blocks *)

Lemma write_channel_block (nxs nys nzs : list Z) (pts : list ndarray4)
      (points : ndarray4) (block nx ny nz nd d : nat) (f : str) :
  nth_error nxs block = Some (Z.of_nat nx) ->
  nth_error nys block = Some (Z.of_nat ny) ->
  nth_error nzs block = Some (Z.of_nat nz) ->
  nth_error pts block = Some points ->
  shape points = (nx, ny, nz, nd) -> (d < nd)%nat ->
  write_channel nxs nys nzs pts block d f
  = Ok (f ++ spaced_line (map format_f (channel points nx ny nz d))).
Proof.
  intros Hx Hy Hz Hp Hs Hd. unfold write_channel, spaced_line, channel, flat_order.
  unfold getitem. rewrite Hz. cbn [bind]. rewrite !py_range_nat.
  rewrite map_flat_map, flat_map_flat_map.
  apply for_each_append. intros k acc Hk. apply in_seq in Hk.
  rewrite Hy. cbn [bind]. rewrite !py_range_nat.
  rewrite map_flat_map, flat_map_flat_map.
  apply for_each_append. intros j acc' Hj. apply in_seq in Hj.
  rewrite Hx. cbn [bind]. rewrite !py_range_nat.
  rewrite map_map, flat_map_map.
  apply for_each_append. intros i acc'' Hi. apply in_seq in Hi.
  rewrite Hp. cbn [bind].
  rewrite (getitem4_data points nx ny nz nd) by (assumption || lia).
  cbn [bind]. now rewrite app_assoc.
Qed.

Lemma spaced_line_app (a b : list str) :
  spaced_line (a ++ b) = spaced_line a ++ spaced_line b.
Proof. unfold spaced_line. apply flat_map_app. Qed.

(** The file written for two blocks whose shapes match the dimensions. *)
Lemma writeFFDFile_two_blocks (p0 p1 : ndarray4) (a0 b0 c0 a1 b1 c1 : nat) :
  shape p0 = (a0, b0, c0, 3%nat) -> shape p1 = (a1, b1, c1, 3%nat) ->
  writeFFDFile 2 [Z.of_nat a0; Z.of_nat a1] [Z.of_nat b0; Z.of_nat b1]
               [Z.of_nat c0; Z.of_nat c1] [p0; p1]
  = Ok (ffd_text2 [Z.of_nat a0; Z.of_nat b0; Z.of_nat c0;
                   Z.of_nat a1; Z.of_nat b1; Z.of_nat c1]
          (map format_f (channel p0 a0 b0 c0 0)) (map format_f (channel p0 a0 b0 c0 1))
          (map format_f (channel p0 a0 b0 c0 2))
          (map format_f (channel p1 a1 b1 c1 0)) (map format_f (channel p1 a1 b1 c1 1))
          (map format_f (channel p1 a1 b1 c1 2))).
Proof.
  intros H0 H1. unfold writeFFDFile.
  change (py_range 2) with [0%nat; 1%nat]. cbn [for_each getitem nth_error bind].
  rewrite (write_channel_block _ _ _ _ p0 0 a0 b0 c0 3 0) by (reflexivity || assumption || lia).
  cbn [bind].
  rewrite (write_channel_block _ _ _ _ p0 0 a0 b0 c0 3 1) by (reflexivity || assumption || lia).
  cbn [bind].
  rewrite (write_channel_block _ _ _ _ p0 0 a0 b0 c0 3 2) by (reflexivity || assumption || lia).
  cbn [bind].
  rewrite (write_channel_block _ _ _ _ p1 1 a1 b1 c1 3 0) by (reflexivity || assumption || lia).
  cbn [bind].
  rewrite (write_channel_block _ _ _ _ p1 1 a1 b1 c1 3 1) by (reflexivity || assumption || lia).
  cbn [bind].
  rewrite (write_channel_block _ _ _ _ p1 1 a1 b1 c1 3 2) by (reflexivity || assumption || lia).
  f_equal. unfold ffd_text2. rewrite spaced_line_app.
  unfold spaced_line at 7. cbn [map flat_map].
  change (format_d 2) with (lit "2").
  repeat rewrite <- app_assoc. reflexivity.
Qed.

Lemma ffd_text2_lines (dims : list Z) (xs0 ys0 zs0 xs1 ys1 zs1 : list str) :
  ffd_text2 dims xs0 ys0 zs0 xs1 ys1 zs1
  = flat_map (fun l => l ++ [LF])
             [lit "2"; spaced_line (map format_d dims); spaced_line xs0;
              spaced_line ys0; spaced_line (zs0 ++ xs1); spaced_line ys1]
    ++ spaced_line zs1.
Proof.
  unfold ffd_text2. cbn [flat_map]. rewrite app_nil_r.
  repeat rewrite <- app_assoc. reflexivity.
Qed.

Lemma slice_to_prefix {A : Type} (a b : list A) (n : nat) :
  length a = n -> slice_to (a ++ b) (Z.of_nat n) = a.
Proof.
  intros H. unfold slice_to.
  replace (Z.of_nat n <? 0)%Z with false by (symmetry; apply Z.ltb_ge; lia).
  rewrite Nat2Z.id, <- H, firstn_app, Nat.sub_diag, firstn_all. simpl.
  apply app_nil_r.
Qed.

Lemma format_d_tokens (dims : list Z) :
  Forall (fun t => is_token t = true) (map format_d dims)
  /\ Forall (fun t => plain t = true) (map format_d dims).
Proof.
  split; apply Forall_map, Forall_forall; intros z _; apply format_d_token.
Qed.

Lemma two_block_text_is_text (dims : list Z) (xs0 ys0 zs0 xs1 ys1 zs1 : list pyfloat) :
  is_text (flat_map (fun l => l ++ [LF])
             [lit "2"; spaced_line (map format_d dims); spaced_line (map format_f xs0);
              spaced_line (map format_f ys0);
              spaced_line (map format_f zs0 ++ map format_f xs1);
              spaced_line (map format_f ys1)]
           ++ spaced_line (map format_f zs1)) = true
  /\ Forall (fun l => no_lf l = true)
            [lit "2"; spaced_line (map format_d dims); spaced_line (map format_f xs0);
             spaced_line (map format_f ys0);
             spaced_line (map format_f zs0 ++ map format_f xs1);
             spaced_line (map format_f ys1)]
  /\ no_lf (spaced_line (map format_f zs1)) = true.
Proof.
  destruct (format_d_tokens dims) as [_ Dp].
  pose proof (plain_spaced_line _ Dp) as P2.
  pose proof (plain_spaced_line _ (format_f_plain xs0)) as P3.
  pose proof (plain_spaced_line _ (format_f_plain ys0)) as P4.
  pose proof (plain_spaced_line _ (format_f_plain (zs0 ++ xs1))) as P5.
  rewrite map_app in P5.
  pose proof (plain_spaced_line _ (format_f_plain ys1)) as P6.
  pose proof (plain_spaced_line _ (format_f_plain zs1)) as P7.
  split; [|split].
  - cbn [flat_map]. rewrite !is_text_app.
    rewrite (plain_is_text _ P2), (plain_is_text _ P3), (plain_is_text _ P4),
            (plain_is_text _ P5), (plain_is_text _ P6), (plain_is_text _ P7).
    reflexivity.
  - repeat constructor; now apply plain_no_lf.
  - now apply plain_no_lf.
Qed.

(** Reading a two-block file: the arrays of the first block. *)
Lemma readPlot3D_two_blocks (nx ny nz : nat) (more : list Z)
      (xs0 ys0 zs0 xs1 ys1 zs1 : list pyfloat) :
  (1 <= nx * ny * nz)%nat ->
  length xs0 = (nx * ny * nz)%nat -> length ys0 = (nx * ny * nz)%nat ->
  length zs0 = (nx * ny * nz)%nat ->
  readPlot3D (Some (ffd_text2 (Z.of_nat nx :: Z.of_nat ny :: Z.of_nat nz :: more)
                      (map format_f xs0) (map format_f ys0) (map format_f zs0)
                      (map format_f xs1) (map format_f ys1) (map format_f zs1)))
  = Ok ({| shape3 := (nz, ny, nx); flat := map round6 xs0 |},
        {| shape3 := (nz, ny, nx); flat := map round6 ys0 |},
        {| shape3 := (nz, ny, nx); flat := map round6 zs0 |}).
Proof.
  intros Hn Lx Ly Lz.
  assert (Nx : map format_f xs0 <> []) by (destruct xs0; [simpl in Lx; lia|discriminate]).
  assert (Ny : map format_f ys0 <> []) by (destruct ys0; [simpl in Ly; lia|discriminate]).
  assert (Nz : map format_f (zs0 ++ xs1) <> [])
    by (destruct zs0; [simpl in Lz; lia|discriminate]).
  set (dims := Z.of_nat nx :: Z.of_nat ny :: Z.of_nat nz :: more).
  destruct (format_d_tokens dims) as [Dt _].
  destruct (two_block_text_is_text dims xs0 ys0 zs0 xs1 ys1 zs1) as (T1 & T2 & T3).
  unfold readPlot3D. rewrite ffd_text2_lines.
  rewrite open_r_text by exact T1.
  cbn [bind]. rewrite splitlines_lines by assumption.
  cbn [map app readline].
  change (py_int (strip (lit "2" ++ [LF]))) with (@Ok Z 2%Z). cbn [bind].
  assert (Dn : map format_d dims <> []) by discriminate.
  destruct (strip_spaced_line _ [LF] Dn Dt eq_refl) as [E2 _].
  rewrite E2, split_join by assumption.
  unfold dims. cbn [map getitem nth_error bind]. rewrite !py_int_format_d. cbn [bind].
  replace (Z.of_nat nx * Z.of_nat ny * Z.of_nat nz)%Z with (Z.of_nat (nx * ny * nz)) by lia.
  rewrite (read_values_line _ (map format_f xs0) [LF] (map round6 xs0));
    [|assumption|apply format_f_tokens|reflexivity
     |apply map_result_map, py_float_format_f|rewrite length_map; lia].
  cbn [bind]. rewrite slice_to_all by (rewrite length_map; assumption).
  rewrite np_reshape3_nat by (rewrite length_map; lia). cbn [bind].
  rewrite (read_values_line _ (map format_f ys0) [LF] (map round6 ys0));
    [|assumption|apply format_f_tokens|reflexivity
     |apply map_result_map, py_float_format_f|rewrite length_map; lia].
  cbn [bind]. rewrite slice_to_all by (rewrite length_map; assumption).
  rewrite np_reshape3_nat by (rewrite length_map; lia). cbn [bind].
  rewrite <- map_app.
  rewrite (read_values_line _ (map format_f (zs0 ++ xs1)) [LF] (map round6 (zs0 ++ xs1)));
    [|assumption|apply format_f_tokens|reflexivity
     |apply map_result_map, py_float_format_f
     |rewrite length_map, length_app; lia].
  cbn [bind]. rewrite map_app.
  rewrite slice_to_prefix by (rewrite length_map; assumption).
  rewrite np_reshape3_nat by (rewrite length_map; lia). reflexivity.
Qed.

Lemma parse_xyz_file_two_blocks (d0 d1 d2 d3 : Z) (more : list Z)
      (xs0 ys0 zs0 xs1 ys1 zs1 : list pyfloat) :
  parse_xyz_file (Some (ffd_text2 (d0 :: d1 :: d2 :: d3 :: more)
                          (map format_f xs0) (map format_f ys0) (map format_f zs0)
                          (map format_f xs1) (map format_f ys1) (map format_f zs1)))
  = Err ValueError.
Proof.
  set (dims := d0 :: d1 :: d2 :: d3 :: more).
  destruct (format_d_tokens dims) as [Dt _].
  destruct (two_block_text_is_text dims xs0 ys0 zs0 xs1 ys1 zs1) as (T1 & T2 & T3).
  unfold parse_xyz_file. rewrite ffd_text2_lines.
  rewrite open_r_text by exact T1.
  cbn [bind]. rewrite splitlines_lines by assumption.
  cbn [map app getitem nth_error bind].
  change (py_int (strip (lit "2" ++ [LF]))) with (@Ok Z 2%Z). cbn [bind].
  assert (Dn : map format_d dims <> []) by discriminate.
  destruct (strip_spaced_line _ [LF] Dn Dt eq_refl) as [E2 _].
  rewrite E2, split_join by assumption.
  rewrite (map_result_map py_int format_d (fun z => z)) by apply py_int_format_d.
  rewrite map_id. reflexivity.
Qed.

Lemma two_block_text_lines (p0 p1 : ndarray4) (nx0 ny0 nz0 nx1 ny1 nz1 : nat) :
  splitlines (two_block_text p0 p1 nx0 ny0 nz0 nx1 ny1 nz1)
  = map (fun l => l ++ [LF])
        [lit "2";
         spaced_line (map format_d [Z.of_nat nx0; Z.of_nat ny0; Z.of_nat nz0;
                                    Z.of_nat nx1; Z.of_nat ny1; Z.of_nat nz1]);
         spaced_line (map format_f (channel p0 nx0 ny0 nz0 0));
         spaced_line (map format_f (channel p0 nx0 ny0 nz0 1));
         spaced_line (map format_f (channel p0 nx0 ny0 nz0 2)
                      ++ map format_f (channel p1 nx1 ny1 nz1 0));
         spaced_line (map format_f (channel p1 nx1 ny1 nz1 1))]
    ++ match spaced_line (map format_f (channel p1 nx1 ny1 nz1 2)) with
       | [] => []
       | _ => [spaced_line (map format_f (channel p1 nx1 ny1 nz1 2))]
       end.
Proof.
  unfold two_block_text. rewrite ffd_text2_lines.
  destruct (two_block_text_is_text
              [Z.of_nat nx0; Z.of_nat ny0; Z.of_nat nz0;
               Z.of_nat nx1; Z.of_nat ny1; Z.of_nat nz1]
              (channel p0 nx0 ny0 nz0 0) (channel p0 nx0 ny0 nz0 1)
              (channel p0 nx0 ny0 nz0 2) (channel p1 nx1 ny1 nz1 0)
              (channel p1 nx1 ny1 nz1 1) (channel p1 nx1 ny1 nz1 2)) as (_ & T2 & T3).
  rewrite splitlines_lines by assumption. reflexivity.
Qed.

(** X11. Files of two blocks.  [writeFFDFile] writes no line feed after a
    block: the file has the lines [2], the six dimensions, x and y of the
    first block, then one line that holds the z channel of the first block
    followed by the x channel of the second, then y and z of the second.
    [readPlot3D] reads this file as its first block alone: three arrays of
    shape [(nz0, ny0, nx0)] holding the coordinates of the first block rounded
    to six decimals; the second block is not read.  [parse_xyz_file] rejects
    the file with [ValueError], the dimension line holding six numbers. *)
Theorem two_block_file_read_as_first_block (p0 p1 : ndarray4)
    (nx0 ny0 nz0 nx1 ny1 nz1 : nat) :
  (1 <= nx0)%nat -> (1 <= ny0)%nat -> (1 <= nz0)%nat ->
  shape p0 = (nx0, ny0, nz0, 3%nat) -> shape p1 = (nx1, ny1, nz1, 3%nat) ->
  writeFFDFile 2 [Z.of_nat nx0; Z.of_nat nx1] [Z.of_nat ny0; Z.of_nat ny1]
               [Z.of_nat nz0; Z.of_nat nz1] [p0; p1]
  = Ok (two_block_text p0 p1 nx0 ny0 nz0 nx1 ny1 nz1)
  /\ splitlines (two_block_text p0 p1 nx0 ny0 nz0 nx1 ny1 nz1)
     = map (fun l => l ++ [LF])
           [lit "2";
            spaced_line (map format_d [Z.of_nat nx0; Z.of_nat ny0; Z.of_nat nz0;
                                       Z.of_nat nx1; Z.of_nat ny1; Z.of_nat nz1]);
            spaced_line (map format_f (channel p0 nx0 ny0 nz0 0));
            spaced_line (map format_f (channel p0 nx0 ny0 nz0 1));
            spaced_line (map format_f (channel p0 nx0 ny0 nz0 2)
                         ++ map format_f (channel p1 nx1 ny1 nz1 0));
            spaced_line (map format_f (channel p1 nx1 ny1 nz1 1))]
       ++ match spaced_line (map format_f (channel p1 nx1 ny1 nz1 2)) with
          | [] => []
          | _ => [spaced_line (map format_f (channel p1 nx1 ny1 nz1 2))]
          end
  /\ (exists x y z,
        readPlot3D (Some (two_block_text p0 p1 nx0 ny0 nz0 nx1 ny1 nz1)) = Ok (x, y, z)
        /\ shape3 x = (nz0, ny0, nx0) /\ shape3 y = (nz0, ny0, nx0)
        /\ shape3 z = (nz0, ny0, nx0)
        /\ (forall i j k, (i < nx0)%nat -> (j < ny0)%nat -> (k < nz0)%nat ->
              getitem3 x k j i = Ok (round6 (data p0 i j k 0))
              /\ getitem3 y k j i = Ok (round6 (data p0 i j k 1))
              /\ getitem3 z k j i = Ok (round6 (data p0 i j k 2))))
  /\ parse_xyz_file (Some (two_block_text p0 p1 nx0 ny0 nz0 nx1 ny1 nz1)) = Err ValueError.
Proof.
  intros Hx Hy Hz H0 H1.
  assert (Hn : (1 <= nx0 * ny0 * nz0)%nat).
  { apply (Nat.le_trans _ (1 * 1 * 1)); [reflexivity|].
    repeat apply Nat.mul_le_mono; assumption. }
  split; [exact (writeFFDFile_two_blocks p0 p1 _ _ _ _ _ _ H0 H1)|].
  split; [apply two_block_text_lines|].
  split; [|apply parse_xyz_file_two_blocks].
  do 3 eexists. split.
  { apply (readPlot3D_two_blocks nx0 ny0 nz0); try assumption;
      unfold channel; apply flat_order_length. }
  cbn [shape3 flat].
  repeat (split; [reflexivity|]).
  intros i j k Hi Hj Hk. unfold channel. rewrite !flat_order_map.
  rewrite !getitem3_flat_order by assumption. repeat split.
Qed.

Lemma two_block_file_read_as_first_block_witness :
  (1 <= 2)%nat /\ shape example_block = (2%nat, 2%nat, 2%nat, 3%nat)
  /\ shape small_block = (1%nat, 2%nat, 1%nat, 3%nat)
  /\ writeFFDFile 2 [Z.of_nat 2; Z.of_nat 1] [Z.of_nat 2; Z.of_nat 2]
                  [Z.of_nat 2; Z.of_nat 1] [example_block; small_block]
     = Ok (two_block_text example_block small_block 2 2 2 1 2 1)
  /\ parse_xyz_file (Some (two_block_text example_block small_block 2 2 2 1 2 1))
     = Err ValueError.
Proof.
  split; [lia|]. split; [reflexivity|]. split; [reflexivity|].
  destruct (two_block_file_read_as_first_block example_block small_block 2 2 2 1 2 1)
    as (W & _ & _ & P); [lia | lia | lia | reflexivity | reflexivity |].
  split; [exact W | exact P].
Defined.

(** * Text files with a coordinate that is not a number *)

Lemma py_float_error (s : str) (e : pyerr) : py_float s = Err e -> e = ValueError.
Proof.
  unfold py_float. destruct (take_sign (strip s)) as [neg body].
  destruct (str_eqb _ _ || str_eqb _ _); [discriminate|].
  destruct (str_eqb _ _); [discriminate|].
  destruct (parse_number body) as [[m ex]|]; [discriminate|].
  now intros [= <-].
Qed.

Lemma splitlines_lines_then (ls : list str) (rest : str) :
  Forall (fun l => no_lf l = true) ls ->
  splitlines (flat_map (fun l => l ++ [LF]) ls ++ rest)
  = map (fun l => l ++ [LF]) ls ++ splitlines rest.
Proof.
  intros Hls. unfold splitlines. induction Hls as [|l ls Hl Hls IH]; [reflexivity|].
  cbn [flat_map map]. rewrite <- !app_assoc. cbn [app].
  rewrite lines_go_line by assumption. cbn [rev app]. now rewrite IH.
Qed.

Lemma ascii_line_step_bad_vertex (indent : nat) (x y z : str) (b : bounds) :
  is_token x = true -> is_token y = true -> is_token z = true ->
  (exists e, py_float x = Err e) \/ (exists e, py_float y = Err e)
  \/ (exists e, py_float z = Err e) ->
  ascii_line_step (render_line (VertexLine indent x y z) ++ [LF]) b = Err ValueError.
Proof.
  intros Hx Hy Hz Hbad. unfold ascii_line_step, render_line.
  pose proof (vertex_tokens x y z Hx Hy Hz) as Ht.
  rewrite <- app_assoc.
  rewrite strip_edged;
    [|apply all_space_repeat|reflexivity|apply join_edged; [discriminate|assumption]].
  replace (startswith (join [SP] [lit "vertex"; x; y; z]) (lit "vertex")) with true
    by (symmetry; apply startswith_app).
  rewrite split_join by assumption.
  cbn [length Nat.eqb getitem nth_error bind].
  destruct (py_float x) as [vx|ex] eqn:Ex;
    [|now rewrite (py_float_error x ex Ex)].
  cbn [bind].
  destruct (py_float y) as [vy|ey] eqn:Ey;
    [|now rewrite (py_float_error y ey Ey)].
  cbn [bind].
  destruct (py_float z) as [vz|ez] eqn:Ez;
    [|now rewrite (py_float_error z ez Ez)].
  destruct Hbad as [(e & H)|[(e & H)|(e & H)]]; discriminate.
Qed.

(** X12. A coordinate that is not a number stops the text reader.  Take a
    file read as text that consists of well-formed lines (each ended by a
    line feed, the words of a vertex line separated by single spaces), then
    a vertex line of four fields one of whose coordinates [float] rejects,
    then any ASCII text without carriage returns.  [get_stl_bounds] raises
    [ValueError]; the vertices read before are lost with it. *)
Theorem text_bad_coordinate_raises (ls : list stl_line) (indent : nat)
    (x y z : str) (rest : bytes) :
  Forall line_ok ls ->
  is_token x = true -> is_token y = true -> is_token z = true ->
  plain x = true -> plain y = true -> plain z = true ->
  (exists e, py_float x = Err e) \/ (exists e, py_float y = Err e)
  \/ (exists e, py_float z = Err e) ->
  is_text rest = true ->
  is_ascii_stl (Some (ascii_stl ls ++ (render_line (VertexLine indent x y z) ++ [LF])
                      ++ rest)) = true ->
  get_stl_bounds (Some (ascii_stl ls ++ (render_line (VertexLine indent x y z) ++ [LF])
                        ++ rest))
  = Err ValueError.
Proof.
  intros Hl Tx Ty Tz Px Py Pz Hbad Hrest Ha.
  unfold get_stl_bounds. rewrite Ha.
  assert (Pl : plain (render_line (VertexLine indent x y z)) = true).
  { cbn [render_line]. rewrite plain_app, plain_repeat. now apply plain_token_line. }
  rewrite open_r_text.
  2:{ rewrite !is_text_app, (ascii_stl_is_text ls Hl), (plain_is_text _ Pl), Hrest.
      reflexivity. }
  cbn [bind]. unfold ascii_stl.
  rewrite <- (flat_map_map (fun l => l ++ [LF]) render_line ls).
  rewrite splitlines_lines_then.
  2:{ apply Forall_map. apply Forall_impl with (2 := Hl).
      intros l Hl'. now apply plain_no_lf, render_line_plain. }
  rewrite map_map, for_each_app, for_each_map.
  rewrite ascii_lines_scan by assumption. cbn [bind].
  unfold splitlines. rewrite <- app_assoc. cbn [app].
  rewrite lines_go_line by now apply plain_no_lf.
  cbn [rev app for_each].
  now rewrite ascii_line_step_bad_vertex.
Qed.

Lemma text_bad_coordinate_raises_witness :
  Forall line_ok [OtherLine (lit "solid bad"); VertexLine 2 (lit "0") (lit "0") (lit "0")]
  /\ (exists e, py_float (lit "one") = Err e)
  /\ is_ascii_stl (Some bad_vertex_file) = true
  /\ get_stl_bounds (Some bad_vertex_file) = Err ValueError.
Proof.
  assert (L : Forall line_ok [OtherLine (lit "solid bad");
                              VertexLine 2 (lit "0") (lit "0") (lit "0")]).
  { repeat (apply Forall_cons || apply Forall_nil);
      try (split; reflexivity);
      (repeat split; try reflexivity; eexists; reflexivity). }
  assert (B : exists e, py_float (lit "one") = Err e) by (eexists; reflexivity).
  split; [exact L|]. split; [exact B|]. split; [reflexivity|].
  apply (text_bad_coordinate_raises _ 2 (lit "1") (lit "one") (lit "0")
           (lit "endsolid bad") L); try reflexivity.
  right. left. exact B.
Defined.

(** * The decimal exponent *)

Lemma exponent_up_spec (fuel : nat) (n d : N) :
  (0 < d)%N -> (d <= n)%N -> (n < d * 2 ^ N.of_nat fuel)%N ->
  let k := N.of_nat (exponent_up fuel n d) in
  (d * 10 ^ k <= n /\ n < d * 10 ^ (k + 1))%N.
Proof.
  revert d. induction fuel as [|fuel IH]; intros d Hd Hle Hlt.
  - change (2 ^ N.of_nat 0)%N with 1%N in Hlt. lia.
  - cbn [exponent_up]. destruct (N.leb_spec (10 * d) n) as [L|L].
    + rewrite Nat2N.inj_succ, N.pow_succ_r' in Hlt.
      set (P := (2 ^ N.of_nat fuel)%N) in *.
      assert (X : (d * (2 * P) <= 10 * d * P)%N).
      { replace (d * (2 * P))%N with (2 * (d * P))%N by lia.
        replace (10 * d * P)%N with (10 * (d * P))%N by lia. lia. }
      destruct (IH (10 * d)%N) as [A B]; [lia|exact L|lia|].
      cbn zeta. rewrite Nat2N.inj_succ.
      set (k := N.of_nat (exponent_up fuel n (10 * d))) in *.
      rewrite <- !N.add_1_r, !N.pow_add_r in *. change (10 ^ 1)%N with 10%N in *.
      set (T := (10 ^ k)%N) in *.
      replace (d * (T * 10))%N with (10 * d * T)%N by lia.
      replace (d * (T * 10 * 10))%N with (10 * d * (T * 10))%N by lia.
      split; assumption.
    + cbn zeta. change (N.of_nat 0) with 0%N. cbn. lia.
Qed.

Lemma exponent_down_ge (fuel : nat) (n d : N) :
  (d <= n)%N -> exponent_down fuel n d = 0%nat.
Proof.
  intros H. destruct fuel; [reflexivity|]. cbn [exponent_down].
  destruct (N.ltb_spec n d); [lia|reflexivity].
Qed.

Lemma exponent_down_spec (fuel : nat) (n d : N) :
  (0 < n)%N -> (n < d)%N -> (d <= n * 2 ^ N.of_nat fuel)%N ->
  exists k, exponent_down fuel n d = S k
            /\ (n * 10 ^ N.of_nat k < d /\ d <= n * 10 ^ N.of_nat (S k))%N.
Proof.
  revert n. induction fuel as [|fuel IH]; intros n Hn Hlt Hle.
  - change (2 ^ N.of_nat 0)%N with 1%N in Hle. lia.
  - cbn [exponent_down]. destruct (N.ltb_spec n d) as [_|]; [|lia].
    rewrite Nat2N.inj_succ, N.pow_succ_r' in Hle.
    destruct (N.lt_ge_cases (10 * n) d) as [L|L].
    + set (P := (2 ^ N.of_nat fuel)%N) in *.
      assert (X : (n * (2 * P) <= 10 * n * P)%N).
      { replace (n * (2 * P))%N with (2 * (n * P))%N by lia.
        replace (10 * n * P)%N with (10 * (n * P))%N by lia. lia. }
      destruct (IH (10 * n)%N) as (k & E & A & B); [lia|exact L|lia|].
      exists (S k). rewrite E. split; [reflexivity|].
      rewrite !Nat2N.inj_succ, !N.pow_succ_r' in *.
      set (T := (10 ^ N.of_nat k)%N) in *.
      replace (n * (10 * T))%N with (10 * n * T)%N by lia.
      replace (n * (10 * (10 * T)))%N with (10 * n * (10 * T))%N by lia.
      split; assumption.
    + exists 0%nat. rewrite exponent_down_ge by exact L. split; [reflexivity|].
      change (10 ^ N.of_nat 0)%N with 1%N. change (10 ^ N.of_nat 1)%N with 10%N. lia.
Qed.

Lemma pow10_nat (k : nat) : inject_Z 10 ^ Z.of_nat k == inject_Z (10 ^ Z.of_nat k).
Proof. symmetry. apply Zpower_Qpower. lia. Qed.

Lemma pow10_pos (e : Z) : 0 < inject_Z 10 ^ e.
Proof. apply Qpower_0_lt. reflexivity. Qed.

Lemma N_pow10_Z (k : nat) : Z.of_N (10 ^ N.of_nat k) = (10 ^ Z.of_nat k)%Z.
Proof. now rewrite N2Z.inj_pow, nat_N_Z. Qed.

Lemma Z_pow10_pos (k : nat) : (0 < 10 ^ Z.of_nat k)%Z.
Proof. apply Z.pow_pos_nonneg; lia. Qed.

(** [decimal_exponent q] is the decimal exponent of [q]. *)
Lemma decimal_exponent_spec (q : Q) :
  ~ q == 0 ->
  inject_Z 10 ^ decimal_exponent q <= Qabs q
  /\ Qabs q < inject_Z 10 ^ (decimal_exponent q + 1).
Proof.
  intros Hq. destruct q as [a d].
  assert (Ha : a <> 0%Z) by (intros ->; apply Hq; reflexivity).
  unfold decimal_exponent. cbn [Qnum Qden].
  rewrite <- Zabs_Qabs.
  set (n := Z.to_N (Z.abs a)).
  assert (En : Z.abs a = Z.of_N n) by (unfold n; lia).
  assert (Hn : (0 < n)%N) by lia.
  rewrite En. clearbody n. clear En Ha Hq a.
  destruct (N.leb_spec (N.pos d) n) as [L|L].
  - destruct (exponent_up_spec (N.to_nat (N.size n)) n (N.pos d)) as [A B];
      [lia | exact L | |].
    { rewrite N2Nat.id. pose proof (N.size_gt n) as G.
      apply N.lt_le_trans with (1 := G).
      rewrite <- (N.mul_1_l (2 ^ N.size n)) at 1.
      apply N.mul_le_mono_r. lia. }
    set (k := exponent_up (N.to_nat (N.size n)) n (N.pos d)) in *.
    replace (N.of_nat k + 1)%N with (N.of_nat (S k)) in B by lia.
    apply N2Z.inj_le in A. apply N2Z.inj_lt in B.
    rewrite N2Z.inj_mul, N_pow10_Z in A, B.
    replace (Z.of_nat k + 1)%Z with (Z.of_nat (S k)) by lia.
    rewrite !pow10_nat. unfold Qle, Qlt, inject_Z. cbn [Qnum Qden].
    change (Z.of_N (N.pos d)) with (Z.pos d) in A, B. split; lia.
  - destruct (exponent_down_spec (N.to_nat (N.size (N.pos d))) n (N.pos d))
      as (k & E & A & B); [exact Hn | exact L | |].
    { rewrite N2Nat.id. pose proof (N.size_gt (N.pos d)) as G.
      apply N.lt_le_incl, N.lt_le_trans with (1 := G).
      rewrite <- (N.mul_1_l (2 ^ N.size (N.pos d))) at 1.
      apply N.mul_le_mono_r. lia. }
    rewrite E.
    apply N2Z.inj_lt in A. apply N2Z.inj_le in B.
    rewrite N2Z.inj_mul, N_pow10_Z in A, B.
    change (Z.of_N (N.pos d)) with (Z.pos d) in A, B.
    replace (- Z.of_nat (S k) + 1)%Z with (- Z.of_nat k)%Z by lia.
    rewrite !Qpower_opp, !pow10_nat.
    pose proof (Z_pow10_pos k) as P0. pose proof (Z_pow10_pos (S k)) as P1.
    split.
    + apply Qle_shift_inv_r.
      * unfold Qlt, inject_Z. cbn [Qnum Qden]. lia.
      * unfold Qle, Qmult, inject_Z. cbn [Qnum Qden]. lia.
    + apply Qlt_shift_inv_l.
      * unfold Qlt, inject_Z. cbn [Qnum Qden]. lia.
      * unfold Qlt, Qmult, inject_Z. cbn [Qnum Qden]. lia.
Qed.

(** * Seven significant digits *)

Lemma Qc_nonzero (q : Qc) : q <> 0%Qc -> ~ (q == 0)%Q.
Proof. intros H E. apply H. apply Qc_is_canon. exact E. Qed.

Lemma pow10_split (a b : Z) : inject_Z 10 ^ (a + b) == inject_Z 10 ^ a * inject_Z 10 ^ b.
Proof. apply Qpower_plus. discriminate. Qed.

(** The scaled value lies between [10^6] and [10^7]. *)
Lemma scaled_range (q : Q) :
  ~ q == 0 ->
  let x := Qabs q * inject_Z 10 ^ (6 - decimal_exponent q) in
  inject_Z 1000000 <= x /\ x < inject_Z 10000000.
Proof.
  intros Hq x. destruct (decimal_exponent_spec q Hq) as [A B].
  set (e := decimal_exponent q) in *.
  pose proof (pow10_pos (6 - e)) as P.
  assert (E6 : inject_Z 10 ^ e * inject_Z 10 ^ (6 - e) == inject_Z 1000000).
  { rewrite <- pow10_split. replace (e + (6 - e))%Z with 6%Z by lia. reflexivity. }
  assert (E7 : inject_Z 10 ^ (e + 1) * inject_Z 10 ^ (6 - e) == inject_Z 10000000).
  { rewrite <- pow10_split. replace (e + 1 + (6 - e))%Z with 7%Z by lia. reflexivity. }
  subst x. split.
  - rewrite <- E6. apply Qmult_le_compat_r; [exact A | now apply Qlt_le_weak].
  - rewrite <- E7. apply Qmult_lt_compat_r; assumption.
Qed.

Lemma round_half_even_range (x : Q) (a b : Z) :
  (0 <= a)%Z -> inject_Z a <= x -> x < inject_Z b ->
  (a <= round_half_even x <= b)%Z.
Proof.
  intros Ha A B.
  assert (X0 : 0 <= x).
  { apply Qle_trans with (2 := A). change 0 with (inject_Z 0). now rewrite <- Zle_Qle. }
  destruct (round_half_even_close x X0) as [_ C].
  apply Qabs_Qle_condition in C. destruct C as [C1 C2].
  set (r := round_half_even x) in *.
  assert (L1 : inject_Z a - 1 < inject_Z r) by lra.
  assert (L2 : inject_Z r < inject_Z b + 1) by lra.
  change 1 with (inject_Z 1) in L1, L2.
  unfold Qminus in L1. rewrite <- inject_Z_opp, <- inject_Z_plus in L1.
  rewrite <- inject_Z_plus in L2.
  rewrite <- Zlt_Qlt in L1, L2. lia.
Qed.

(** The digits printed are seven digits and the number printed has the
    value of the rounded scaled value. *)
Lemma sci_parts_spec (q : Qc) (m : N) (e : Z) :
  q <> 0%Qc -> sci_parts q = (m, e) ->
  (1000000 <= m < 10000000)%N
  /\ inject_Z (Z.of_N m) * inject_Z 10 ^ (e - 6)
     == inject_Z (round_half_even (Qabs q * inject_Z 10 ^ (6 - decimal_exponent q)))
        * inject_Z 10 ^ (decimal_exponent q - 6).
Proof.
  intros Hq. unfold sci_parts.
  replace (Qc_eqb q 0) with false by (symmetry; now apply Qc_eqb_neq).
  destruct (scaled_range q (Qc_nonzero q Hq)) as [A B].
  destruct (round_half_even_range _ 1000000 10000000 ltac:(lia) A B) as [R1 R2].
  set (r := round_half_even _) in *. set (e0 := decimal_exponent q) in *.
  destruct (N.eqb_spec (Z.to_N r) 10000000) as [E|E]; intros [= <- <-].
  - split; [lia|]. replace r with 10000000%Z by lia.
    replace (e0 + 1 - 6)%Z with (1 + (e0 - 6))%Z by lia.
    rewrite pow10_split, Qmult_assoc. reflexivity.
  - split; [lia|]. rewrite Z2N.id by lia. reflexivity.
Qed.

(** * Reading back the scientific notation *)

Lemma digits_value_cons (d : N) (ds : list N) :
  digits_value (d :: ds) = (d * 10 ^ N.of_nat (length ds) + digits_value ds)%N.
Proof.
  change (d :: ds) with ([d] ++ ds). rewrite digits_value_app.
  unfold digits_value at 1. simpl fold_left. lia.
Qed.

(** The digits of the exponent: at least two, zero padded. *)
Lemma exponent_digits_spec (n : N) :
  let ds := (if (Z.of_N n <? 10)%Z then ["0"%char] else []) ++ decimal n in
  ds <> [] /\ forallb is_digit ds = true /\ digits_value (map digit_val ds) = n.
Proof.
  destruct (decimal_spec n) as (Ne & D & V). cbn zeta.
  destruct (Z.of_N n <? 10)%Z; cbn [app].
  - split; [discriminate|]. split; [cbn [forallb]; now rewrite D|].
    cbn [map]. rewrite digits_value_cons, V. reflexivity.
  - auto.
Qed.

Lemma parse_exponent_digits (neg : bool) (ds : str) :
  ds <> [] -> forallb is_digit ds = true ->
  parse_exponent ("e"%char :: (if neg then "-"%char else "+"%char) :: ds)
  = Some (let e := Z.of_N (digits_value (map digit_val ds)) in
          if neg then (- e)%Z else e).
Proof.
  intros Ne D. unfold parse_exponent.
  change (Ascii.eqb (lower "e") "e") with true. cbn iota.
  assert (T : take_sign ((if neg then "-"%char else "+"%char) :: ds) = (neg, ds))
    by now destruct neg.
  rewrite T. rewrite <- (app_nil_r ds).
  rewrite digitpart_digits; [|assumption|assumption|exact I].
  now rewrite app_nil_r.
Qed.

(** Digits, a point, six digits, an exponent. *)
Lemma parse_number_sci (a b : N) (neg : bool) (ds : str) :
  ds <> [] -> forallb is_digit ds = true ->
  parse_number (decimal a ++ ["."%char] ++ fixed_digits 6 b
                ++ "e"%char :: (if neg then "-"%char else "+"%char) :: ds)
  = Some ((a * 1000000 + b mod 1000000)%N,
          ((let e := Z.of_N (digits_value (map digit_val ds)) in
            if neg then (- e)%Z else e) - 6)%Z).
Proof.
  intros Ne Dd.
  destruct (decimal_spec a) as (Nea & D & V).
  destruct (fixed_digits_spec 6 b) as (L & Df & Vf).
  unfold parse_number.
  rewrite digitpart_digits; [|assumption|assumption|split; reflexivity].
  cbn [app]. change (Ascii.eqb "." ".") with true. cbn iota.
  rewrite digitpart_digits; [|now destruct (fixed_digits 6 b)|assumption|split; reflexivity].
  rewrite parse_exponent_digits by assumption.
  rewrite digits_value_app, V, Vf, length_map, L. reflexivity.
Qed.

Lemma sci_parts_zero : sci_parts 0 = (0%N, 0%Z).
Proof. reflexivity. Qed.

Lemma format_e_fin_body (m : N) (rest : str) :
  exists c s, decimal (m / 1000000) ++ ["."%char] ++ fixed_digits 6 m ++ rest = c :: s
              /\ is_digit c = true.
Proof.
  destruct (decimal_spec (m / 1000000)) as (Ne & D & _).
  destruct (decimal (m / 1000000)) as [|c s]; [congruence|].
  exists c, (s ++ ["."%char] ++ fixed_digits 6 m ++ rest).
  split; [reflexivity|]. simpl in D. now apply andb_true_iff in D.
Qed.

Lemma format_e_token (v : pyfloat) :
  is_token (format_e v) = true /\ plain (format_e v) = true.
Proof.
  destruct v as [|[|]|q]; try (split; reflexivity).
  unfold format_e. destruct (sci_parts q) as [m e].
  destruct (decimal_spec (m / 1000000)) as (Ne & D & _).
  destruct (fixed_digits_spec 6 m) as (_ & Df & _).
  destruct (exponent_digits_spec (Z.to_N (Z.abs e))) as (_ & De & _).
  rewrite Z2N.id in De by lia.
  set (ds := (if (Z.abs e <? 10)%Z then ["0"%char] else []) ++ decimal (Z.to_N (Z.abs e))) in *.
  set (body := decimal (m / 1000000) ++ ["."%char] ++ fixed_digits 6 m
               ++ ["e"%char; if (e <? 0)%Z then "-"%char else "+"%char] ++ ds).
  assert (N : no_space body = true).
  { unfold body. rewrite !no_space_app, (digits_no_space _ D), (digits_no_space _ Df),
      (digits_no_space _ De). now destruct (e <? 0)%Z. }
  assert (P : plain body = true).
  { unfold body. rewrite !plain_app, (digits_plain _ D), (digits_plain _ Df),
      (digits_plain _ De). now destruct (e <? 0)%Z. }
  destruct (format_e_fin_body m (["e"%char; if (e <? 0)%Z then "-"%char else "+"%char] ++ ds))
    as (c & s & E & Hc).
  fold body in E.
  replace (decimal (m / 1000000) ++ ["."%char] ++ fixed_digits 6 m
           ++ ["e"%char; if (e <? 0)%Z then "-"%char else "+"%char]
           ++ (if (Z.abs e <? 10)%Z then ["0"%char] else []) ++ decimal (Z.to_N (Z.abs e)))
    with body by reflexivity.
  rewrite E in *. destruct (Qc_ltb q 0); cbn [app].
  - split.
    + unfold is_token. change (no_space ("-"%char :: c :: s))
        with (negb (is_space "-"%char) && no_space (c :: s)). now rewrite N.
    + change (plain ("-"%char :: c :: s)) with (plain_char "-"%char && plain (c :: s)).
      now rewrite P.
  - split; [exact N | exact P].
Qed.

(** [float] reads back what ['.6e'] wrote: the value rounded to seven
    significant digits. *)
Lemma py_float_format_e (v : pyfloat) : py_float (format_e v) = Ok (round7 v).
Proof.
  destruct v as [|[|]|q]; try reflexivity.
  unfold py_float. rewrite strip_token by apply format_e_token.
  unfold format_e, round7. destruct (sci_parts q) as [m e].
  destruct (exponent_digits_spec (Z.to_N (Z.abs e))) as (Nee & De & Ve).
  rewrite Z2N.id in Nee, De, Ve by lia.
  set (ds := (if (Z.abs e <? 10)%Z then ["0"%char] else []) ++ decimal (Z.to_N (Z.abs e))) in *.
  set (sg := (e <? 0)%Z).
  change (["e"%char; if sg then "-"%char else "+"%char] ++ ds)
    with ("e"%char :: (if sg then "-"%char else "+"%char) :: ds).
  destruct (format_e_fin_body m ("e"%char :: (if sg then "-"%char else "+"%char) :: ds))
    as (c & s & E & Hc).
  assert (B : take_sign ((if Qc_ltb q 0 then ["-"%char] else [])
                         ++ decimal (m / 1000000) ++ ["."%char] ++ fixed_digits 6 m
                         ++ "e"%char :: (if sg then "-"%char else "+"%char) :: ds)
              = (Qc_ltb q 0, c :: s)).
  { rewrite E. destruct (Qc_ltb q 0); cbn [app].
    - reflexivity.
    - now apply take_sign_digit. }
  rewrite B. cbn beta iota. cbn [map lit list_ascii_of_string].
  rewrite lower_digit by assumption.
  rewrite !str_eqb_head by (apply digit_not_letter; [assumption|reflexivity]).
  cbn [orb]. rewrite <- E, parse_number_sci by assumption.
  rewrite Ve. cbn zeta.
  pose proof (N.Div0.div_mod m 1000000) as M.
  replace (m / 1000000 * 1000000 + m mod 1000000)%N with m by lia.
  replace (if sg then (- Z.of_N (Z.to_N (Z.abs e)))%Z else Z.of_N (Z.to_N (Z.abs e))) with e.
  - reflexivity.
  - subst sg. destruct (Z.ltb_spec e 0); lia.
Qed.

(** * Rounding is monotone *)

Lemma round_half_even_floor (x : Q) :
  (Qfloor x <= round_half_even x <= Qfloor x + 1)%Z.
Proof.
  unfold round_half_even.
  destruct (Qcompare (x - inject_Z (Qfloor x)) (1 # 2)); [destruct (Z.even _)| |]; lia.
Qed.

Lemma round_half_even_mono (x y : Q) :
  x <= y -> (round_half_even x <= round_half_even y)%Z.
Proof.
  intros H. pose proof (Qfloor_resp_le x y H) as F.
  destruct (Z.eq_dec (Qfloor x) (Qfloor y)) as [E|E].
  - unfold round_half_even. rewrite <- E.
    destruct (Qcompare_spec (x - inject_Z (Qfloor x)) (1 # 2)) as [A|A|A],
             (Qcompare_spec (y - inject_Z (Qfloor x)) (1 # 2)) as [B|B|B];
      try destruct (Z.even (Qfloor x)); try lia; exfalso; lra.
  - pose proof (round_half_even_floor x). pose proof (round_half_even_floor y). lia.
Qed.

(** * Seven significant digits as a value *)

Lemma scale_unscale (e : Z) : inject_Z 10 ^ (6 - e) * inject_Z 10 ^ (e - 6) == 1.
Proof.
  rewrite <- pow10_split. replace (6 - e + (e - 6))%Z with 0%Z by lia. reflexivity.
Qed.

Lemma sig7_bounds (q : Q) :
  ~ q == 0 ->
  inject_Z 10 ^ decimal_exponent q <= sig7 q
  /\ sig7 q <= inject_Z 10 ^ (decimal_exponent q + 1).
Proof.
  intros Hq. destruct (scaled_range q Hq) as [A B].
  destruct (round_half_even_range _ 1000000 10000000 ltac:(lia) A B) as [R1 R2].
  unfold sig7. set (e := decimal_exponent q) in *. set (r := round_half_even _) in *.
  pose proof (pow10_pos (e - 6)) as P.
  assert (E6 : inject_Z 1000000 * inject_Z 10 ^ (e - 6) == inject_Z 10 ^ e).
  { change (inject_Z 1000000) with (inject_Z 10 ^ 6). rewrite <- pow10_split.
    replace (6 + (e - 6))%Z with e by lia. reflexivity. }
  assert (E7 : inject_Z 10000000 * inject_Z 10 ^ (e - 6) == inject_Z 10 ^ (e + 1)).
  { change (inject_Z 10000000) with (inject_Z 10 ^ 7). rewrite <- pow10_split.
    replace (7 + (e - 6))%Z with (e + 1)%Z by lia. reflexivity. }
  rewrite <- E6, <- E7. split.
  - apply Qmult_le_compat_r; [now rewrite <- Zle_Qle | now apply Qlt_le_weak].
  - apply Qmult_le_compat_r; [now rewrite <- Zle_Qle | now apply Qlt_le_weak].
Qed.

Lemma sig7_pos (q : Q) : ~ q == 0 -> 0 < sig7 q.
Proof.
  intros Hq. destruct (sig7_bounds q Hq) as [A _].
  apply Qlt_le_trans with (2 := A). apply pow10_pos.
Qed.

(** The relative error is at most half a unit of the seventh digit. *)
Lemma sig7_close (q : Q) :
  ~ q == 0 -> Qabs (sig7 q - Qabs q) <= (1 # 2000000) * Qabs q.
Proof.
  intros Hq. destruct (scaled_range q Hq) as [A _].
  unfold sig7. set (e := decimal_exponent q) in *.
  set (x := Qabs q * inject_Z 10 ^ (6 - e)) in *.
  assert (X0 : 0 <= x).
  { apply Qle_trans with (2 := A). discriminate. }
  destruct (round_half_even_close x X0) as [_ C].
  apply Qabs_Qle_condition in C. destruct C as [C1 C2].
  set (r := inject_Z (round_half_even x)) in *.
  pose proof (pow10_pos (e - 6)) as P. set (T := inject_Z 10 ^ (e - 6)) in *.
  assert (XT : x * T == Qabs q).
  { unfold x, T. rewrite <- Qmult_assoc, scale_unscale. ring. }
  assert (H1 : (r - x) * T <= (1 # 2) * T).
  { apply Qmult_le_compat_r; [exact C2 | now apply Qlt_le_weak]. }
  assert (H2 : - (1 # 2) * T <= (r - x) * T).
  { apply Qmult_le_compat_r; [exact C1 | now apply Qlt_le_weak]. }
  assert (H3 : inject_Z 1000000 * T <= x * T).
  { apply Qmult_le_compat_r; [exact A | now apply Qlt_le_weak]. }
  change (inject_Z 1000000) with (1000000 # 1) in H3.
  set (a := Qabs q) in *.
  assert (H4 : (r - x) * T == r * T - a) by (rewrite <- XT; ring).
  rewrite H4 in H1, H2. rewrite XT in H3.
  apply Qabs_Qle_condition. split; lra.
Qed.

Lemma decimal_exponent_mono (p q : Q) :
  ~ p == 0 -> ~ q == 0 -> Qabs p <= Qabs q ->
  (decimal_exponent p <= decimal_exponent q)%Z.
Proof.
  intros Hp Hq H.
  destruct (decimal_exponent_spec p Hp) as [A _].
  destruct (decimal_exponent_spec q Hq) as [_ B].
  assert (L : inject_Z 10 ^ decimal_exponent p < inject_Z 10 ^ (decimal_exponent q + 1)).
  { apply Qle_lt_trans with (1 := A). now apply Qle_lt_trans with (1 := H). }
  apply Qpower_lt_compat_l_inv in L; [lia | reflexivity].
Qed.

Lemma sig7_mono (p q : Q) :
  ~ p == 0 -> ~ q == 0 -> Qabs p <= Qabs q -> sig7 p <= sig7 q.
Proof.
  intros Hp Hq H. pose proof (decimal_exponent_mono p q Hp Hq H) as E.
  destruct (Z.eq_dec (decimal_exponent p) (decimal_exponent q)) as [Ee|Ne].
  - unfold sig7. rewrite Ee. set (e := decimal_exponent q).
    apply Qmult_le_compat_r; [|apply Qlt_le_weak, pow10_pos].
    rewrite <- Zle_Qle. apply round_half_even_mono.
    apply Qmult_le_compat_r; [exact H | apply Qlt_le_weak, pow10_pos].
  - destruct (sig7_bounds p Hp) as [_ A]. destruct (sig7_bounds q Hq) as [B _].
    apply Qle_trans with (1 := A). apply Qle_trans with (2 := B).
    apply Qpower_le_compat_l; [lia | discriminate].
Qed.

(** * [round7] *)

Lemma Q2Qc_le (a b : Q) : a <= b -> (Q2Qc a <= Q2Qc b)%Qc.
Proof. intros H. unfold Qcle. cbn [this Q2Qc]. now rewrite !Qred_correct. Qed.

Lemma Qc_sign_cases (q : Qc) :
  (q = 0%Qc) \/ (Qc_ltb q 0 = true /\ (q < 0)%Q) \/ (Qc_ltb q 0 = false /\ (0 < q)%Q).
Proof.
  destruct (Qc_eq_dec q 0) as [E|N]; [now left|right].
  destruct (Qc_ltb q 0) eqn:S.
  - left. split; [reflexivity|]. now apply Qc_ltb_lt in S.
  - right. split; [reflexivity|]. apply Qc_ltb_ge in S.
    apply Qle_lt_or_eq in S. destruct S as [S|S]; [exact S|].
    exfalso. apply N. apply Qc_is_canon. symmetry. exact S.
Qed.

Lemma round7_zero : round7 (Fin 0) = Fin 0.
Proof. apply same_float_eq. reflexivity. Qed.

(** The value of [round7] on a finite number that is not zero. *)
Lemma round7_fin (q : Qc) :
  q <> 0%Qc ->
  round7 (Fin q) = Fin (Q2Qc (if Qc_ltb q 0 then - sig7 q else sig7 q)).
Proof.
  intros Hq. unfold round7. destruct (sci_parts q) as [m e] eqn:E.
  destruct (sci_parts_spec q m e Hq E) as [_ V]. fold (sig7 q) in V.
  f_equal. apply Qc_is_canon. cbn [this Q2Qc]. rewrite !Qred_correct.
  destruct (Qc_ltb q 0); now rewrite V.
Qed.

Lemma round7_value (q : Qc) :
  exists r : Q,
    round7 (Fin q) = Fin (Q2Qc r)
    /\ ((q == 0 /\ r == 0) \/ (q < 0 /\ r == - sig7 q) \/ (0 < q /\ r == sig7 q)).
Proof.
  destruct (Qc_sign_cases q) as [->|[[S L]|[S L]]].
  - exists 0. split; [exact round7_zero | left; split; reflexivity].
  - assert (N : q <> 0%Qc) by (intros ->; now apply (Qlt_irrefl 0)).
    exists (- sig7 q). rewrite round7_fin, S by exact N.
    split; [reflexivity | right; left; split; [exact L | reflexivity]].
  - assert (N : q <> 0%Qc) by (intros ->; now apply (Qlt_irrefl 0)).
    exists (sig7 q). rewrite round7_fin, S by exact N.
    split; [reflexivity | right; right; split; [exact L | reflexivity]].
Qed.

Lemma nonzero_neg (q : Q) : q < 0 -> ~ q == 0.
Proof. intros H E. rewrite E in H. now apply (Qlt_irrefl 0). Qed.

Lemma nonzero_pos (q : Q) : 0 < q -> ~ q == 0.
Proof. intros H E. rewrite E in H. now apply (Qlt_irrefl 0). Qed.

(** [round7] is within half a unit of the seventh digit. *)
Lemma round7_close (v : pyfloat) : close7 v (round7 v).
Proof.
  destruct v as [|s|q]; [exact I|reflexivity|].
  destruct (round7_value q) as (r & -> & [[Z R]|[[L R]|[L R]]]);
    unfold close7; cbn [this Q2Qc]; rewrite Qred_correct, R.
  - rewrite Z. discriminate.
  - pose proof (sig7_close q (nonzero_neg q L)) as C.
    rewrite (Qabs_neg q) in * by now apply Qlt_le_weak.
    apply Qabs_Qle_condition in C. apply Qabs_Qle_condition. split; lra.
  - pose proof (sig7_close q (nonzero_pos q L)) as C.
    rewrite (Qabs_pos q) in * by now apply Qlt_le_weak.
    apply Qabs_Qle_condition in C. apply Qabs_Qle_condition. split; lra.
Qed.

Lemma round7_fin_mono (p q : Qc) :
  (p <= q)%Qc -> fleb (round7 (Fin p)) (round7 (Fin q)) = true.
Proof.
  intros H. unfold Qcle in H.
  destruct (round7_value p) as (r & -> & Cp), (round7_value q) as (s & -> & Cq).
  apply fleb_Fin, Q2Qc_le.
  destruct Cp as [[Zp Rp]|[[Lp Rp]|[Lp Rp]]], Cq as [[Zq Rq]|[[Lq Rq]|[Lq Rq]]];
    rewrite Rp, Rq; try (exfalso; lra).
  - apply Qle_refl.
  - apply Qlt_le_weak, sig7_pos, nonzero_pos, Lq.
  - pose proof (sig7_pos p (nonzero_neg p Lp)). lra.
  - assert (M : sig7 q <= sig7 p).
    { apply sig7_mono; [now apply nonzero_neg | now apply nonzero_neg |].
      rewrite (Qabs_neg p), (Qabs_neg q) by now apply Qlt_le_weak. lra. }
    lra.
  - pose proof (sig7_pos p (nonzero_neg p Lp)).
    pose proof (sig7_pos q (nonzero_pos q Lq)). lra.
  - apply sig7_mono; [now apply nonzero_pos | now apply nonzero_pos |].
    rewrite (Qabs_pos p), (Qabs_pos q) by now apply Qlt_le_weak. exact H.
Qed.

Lemma round7_is_fin (q : Qc) : exists r, round7 (Fin q) = Fin r.
Proof. unfold round7. destruct (sci_parts q). eexists. reflexivity. Qed.

Lemma round7_nan (v : pyfloat) : v <> NaN -> round7 v <> NaN.
Proof.
  destruct v as [|s|q]; [congruence|discriminate|].
  destruct (round7_is_fin q) as (r & ->). discriminate.
Qed.

(** [round7] keeps the order. *)
Lemma round7_mono (u v : pyfloat) :
  fleb u v = true -> fleb (round7 u) (round7 v) = true.
Proof.
  destruct u as [|s|p], v as [|s'|q]; try (unfold fleb; simpl; discriminate).
  - now intros.
  - destruct (round7_is_fin q) as (r & E). cbn [round7] in *. rewrite E.
    unfold fleb. simpl. now destruct s.
  - destruct (round7_is_fin p) as (r & E). cbn [round7] in *. rewrite E.
    unfold fleb. simpl. now destruct s'.
  - intros H. apply fleb_Fin in H. now apply round7_fin_mono.
Qed.

(** * Rounding and the running bounds *)

Lemma fleb_antisym (u v : pyfloat) :
  fleb u v = true -> fltb u v = false -> u = v.
Proof.
  unfold fleb. intros H L. rewrite L in H. cbn [orb] in H.
  destruct u as [|s|p], v as [|s'|q]; simpl in H; try discriminate.
  - apply Bool.eqb_prop in H. now subst.
  - apply Qc_eqb_eq in H. now subst.
Qed.

Lemma fleb_not_fltb (u v : pyfloat) : fleb v u = true -> fltb u v = false.
Proof.
  destruct u as [|s|p], v as [|s'|q]; unfold fleb; simpl; try reflexivity;
    try discriminate.
  - destruct s, s'; simpl; congruence.
  - destruct s; simpl; congruence.
  - destruct s'; simpl; congruence.
  - intros H. apply Qc_ltb_ge. now apply (proj1 (fleb_Fin q p)).
Qed.

Lemma fltb_nan_l (a : pyfloat) : fltb NaN a = false.
Proof. reflexivity. Qed.

Lemma round7_fltb_false (u v : pyfloat) :
  fltb u v = false -> fltb (round7 u) (round7 v) = false.
Proof.
  intros H. destruct (nan_dec u) as [->|Hu]; [reflexivity|].
  destruct (nan_dec v) as [->|Hv]; [cbn [round7]; apply fltb_nan_r|].
  apply fleb_not_fltb, round7_mono. now apply fleb_total.
Qed.

Lemma py_min_round7 (a x : pyfloat) :
  py_min (round7 a) (round7 x) = round7 (py_min a x).
Proof.
  unfold py_min. destruct (fltb x a) eqn:L.
  - pose proof (round7_mono x a (fltb_fleb _ _ L)) as M.
    destruct (fltb (round7 x) (round7 a)) eqn:L'; [reflexivity|].
    symmetry. now apply fleb_antisym.
  - now rewrite (round7_fltb_false x a L).
Qed.

Lemma py_max_round7 (a x : pyfloat) :
  py_max (round7 a) (round7 x) = round7 (py_max a x).
Proof.
  unfold py_max. destruct (fltb a x) eqn:L.
  - pose proof (round7_mono a x (fltb_fleb _ _ L)) as M.
    destruct (fltb (round7 a) (round7 x)) eqn:L'; [reflexivity|].
    now apply fleb_antisym.
  - now rewrite (round7_fltb_false a x L).
Qed.

Lemma update_bounds_round7 (b : bounds) (v : point3) :
  update_bounds (round7_bounds b) (round7_point v) = round7_bounds (update_bounds b v).
Proof.
  destruct b as [[[mnx mny] mnz] [[mxx mxy] mxz]], v as [[x y] z].
  unfold round7_bounds, round7_point, update_bounds, at0, at1, at2. cbn [fst snd].
  now rewrite !py_min_round7, !py_max_round7.
Qed.

(** Scanning rounded vertices gives the rounded bounds. *)
Lemma scan_round7 (vs : list point3) (b : bounds) :
  fold_left update_bounds (map round7_point vs) (round7_bounds b)
  = round7_bounds (fold_left update_bounds vs b).
Proof.
  revert b. induction vs as [|v vs IH]; intros b; [reflexivity|].
  cbn [map fold_left]. now rewrite update_bounds_round7, IH.
Qed.

Lemma round7_initial_bounds : round7_bounds initial_bounds = initial_bounds.
Proof. reflexivity. Qed.

(** * The text that [write_ascii_stl] writes *)

Lemma fold_left_append {A : Type} (g : A -> str) (l : list A) (f : str) :
  fold_left (fun f x => f ++ g x) l f = f ++ flat_map g l.
Proof.
  revert f. induction l as [|x l IH]; intros f; cbn [fold_left flat_map].
  - now rewrite app_nil_r.
  - now rewrite IH, app_assoc.
Qed.

Lemma ascii_stl_app (a b : list stl_line) : ascii_stl (a ++ b) = ascii_stl a ++ ascii_stl b.
Proof. unfold ascii_stl. apply flat_map_app. Qed.

Lemma vertex_line_text (v : point3) :
  lit "      vertex " ++ format_vec v ++ [LF] = render_line (vertex_line v) ++ [LF].
Proof.
  unfold vertex_line, render_line, format_vec. cbn [join repeat lit list_ascii_of_string app].
  now rewrite <- !app_assoc.
Qed.

Lemma vertex_lines_text (vs : list point3) :
  flat_map (fun vertex => lit "      vertex " ++ format_vec vertex ++ [LF]) vs
  = ascii_stl (map vertex_line vs).
Proof.
  unfold ascii_stl. rewrite flat_map_map. apply flat_map_ext. intros v.
  apply vertex_line_text.
Qed.

Lemma write_facet_lines (f : str) (tri : triangle) :
  write_facet f tri = f ++ ascii_stl (facet_lines tri).
Proof.
  unfold write_facet, facet_lines. rewrite fold_left_append, vertex_lines_text.
  rewrite !ascii_stl_app. unfold ascii_stl.
  cbn [flat_map render_line]. rewrite ?app_nil_r.
  now rewrite <- !app_assoc.
Qed.

Lemma write_facets_lines (triangles : list triangle) (f : str) :
  fold_left write_facet triangles f = f ++ ascii_stl (flat_map facet_lines triangles).
Proof.
  revert f. induction triangles as [|tri l IH]; intros f; cbn [fold_left flat_map].
  - now rewrite app_nil_r.
  - now rewrite IH, write_facet_lines, ascii_stl_app, app_assoc.
Qed.

(** The file is the text of [converted_lines]. *)
Lemma write_ascii_stl_lines (triangles : list triangle) (solid_name : str) :
  write_ascii_stl triangles solid_name = ascii_stl (converted_lines triangles solid_name).
Proof.
  unfold write_ascii_stl, converted_lines. rewrite write_facets_lines.
  change (OtherLine (lit "solid " ++ solid_name)
          :: flat_map facet_lines triangles ++ [OtherLine (lit "endsolid " ++ solid_name)])
    with ([OtherLine (lit "solid " ++ solid_name)]
          ++ flat_map facet_lines triangles ++ [OtherLine (lit "endsolid " ++ solid_name)]).
  rewrite !ascii_stl_app. unfold ascii_stl.
  cbn [flat_map render_line]. rewrite ?app_nil_r.
  now rewrite <- !app_assoc.
Qed.

(** * The lines are well formed *)

Lemma other_line_ok (ws r : str) (c : ascii) :
  all_space ws = true -> is_space c = false -> c <> "v"%char ->
  plain (ws ++ c :: r) = true ->
  line_ok (OtherLine (ws ++ c :: r)).
Proof.
  intros Hws Hc Hv Hp. split; [exact Hp|].
  unfold strip. rewrite <- app_assoc, lstrip_all_space by exact Hws.
  cbn [app]. rewrite lstrip_head by exact Hc.
  change (c :: r ++ [LF]) with (([] ++ [c]) ++ (r ++ [LF])).
  rewrite rstrip_app_edge by exact Hc.
  cbn [app lit list_ascii_of_string startswith].
  apply Ascii.eqb_neq in Hv. now rewrite Hv.
Qed.

Lemma format_vec_plain (v : point3) : plain (format_vec v) = true.
Proof.
  unfold format_vec. rewrite !plain_app.
  rewrite (proj2 (format_e_token (at0 v))), (proj2 (format_e_token (at1 v))),
    (proj2 (format_e_token (at2 v))). reflexivity.
Qed.

Lemma vertex_line_ok (v : point3) : line_ok (vertex_line v).
Proof.
  unfold vertex_line, line_ok.
  repeat split; try apply format_e_token; eexists; apply py_float_format_e.
Qed.

Lemma facet_lines_ok (tri : triangle) : Forall line_ok (facet_lines tri).
Proof.
  unfold facet_lines. apply Forall_app. split; [|apply Forall_app; split].
  - apply Forall_cons; [|apply Forall_cons; [split; reflexivity | apply Forall_nil]].
    apply (other_line_ok (lit "  ") (lit "acet normal " ++ format_vec (normal tri)) "f"%char);
      try reflexivity; [discriminate|].
    change (plain (lit "  facet normal " ++ format_vec (normal tri)) = true).
    now rewrite plain_app, format_vec_plain.
  - apply Forall_map, Forall_forall. intros v _. apply vertex_line_ok.
  - apply Forall_cons; [split; reflexivity|].
    apply Forall_cons; [split; reflexivity | apply Forall_nil].
Qed.

Lemma converted_lines_ok (triangles : list triangle) (solid_name : str) :
  plain solid_name = true -> Forall line_ok (converted_lines triangles solid_name).
Proof.
  intros Hp. unfold converted_lines. constructor; [|apply Forall_app; split].
  - apply (other_line_ok [] (lit "olid " ++ solid_name) "s"%char);
      try reflexivity; [discriminate|].
    change (plain (lit "solid " ++ solid_name) = true).
    now rewrite plain_app, Hp.
  - apply Forall_flat_map, Forall_forall. intros tri _. apply facet_lines_ok.
  - apply Forall_cons; [|apply Forall_nil].
    apply (other_line_ok [] (lit "ndsolid " ++ solid_name) "e"%char);
      try reflexivity; [discriminate|].
    change (plain (lit "endsolid " ++ solid_name) = true).
    now rewrite plain_app, Hp.
Qed.

(** The vertices that the written file denotes are the vertices of the
    triangles, rounded. *)
Lemma facet_lines_vertices (tri : triangle) :
  text_vertices (facet_lines tri) = map round7_point (vertices tri).
Proof.
  unfold text_vertices, facet_lines. rewrite !flat_map_app.
  cbn [flat_map line_vertices app]. rewrite app_nil_r.
  rewrite flat_map_map. induction (vertices tri) as [|v vs IH]; [reflexivity|].
  cbn [flat_map map]. rewrite IH. unfold vertex_line at 1. cbn [line_vertices app].
  now rewrite !py_float_format_e.
Qed.

Lemma converted_lines_vertices (triangles : list triangle) (solid_name : str) :
  text_vertices (converted_lines triangles solid_name)
  = map round7_point (triangle_vertices triangles).
Proof.
  unfold converted_lines, text_vertices, triangle_vertices.
  cbn [flat_map line_vertices app]. rewrite flat_map_app.
  cbn [flat_map line_vertices]. rewrite app_nil_r.
  induction triangles as [|tri l IH]; [reflexivity|].
  cbn [flat_map]. rewrite flat_map_app, map_app, IH.
  f_equal. apply facet_lines_vertices.
Qed.

(** The written file is read as text. *)
Lemma written_file_is_text (triangles : list triangle) (solid_name : str) :
  plain solid_name = true ->
  is_ascii_stl (Some (write_ascii_stl triangles solid_name)) = true.
Proof.
  intros Hp. unfold write_ascii_stl. rewrite write_facets_lines.
  set (rest := ascii_stl (flat_map facet_lines triangles)).
  assert (E : ((lit "solid " ++ solid_name ++ [LF]) ++ rest) ++ lit "endsolid " ++ solid_name ++ [LF]
              = lit "solid" ++ (SP :: solid_name)
                ++ LF :: rest ++ lit "endsolid " ++ solid_name ++ [LF]).
  { cbn [lit list_ascii_of_string app]. now rewrite <- !app_assoc. }
  rewrite E. clear E. set (tail := rest ++ _).
  unfold is_ascii_stl. cbn [open_rb read].
  rewrite startswith_firstn by (simpl; lia).
  rewrite startswith_app.
  assert (L : readline_rb (lit "solid" ++ (SP :: solid_name) ++ LF :: tail)
              = lit "solid" ++ (SP :: solid_name) ++ [LF]).
  { rewrite readline_rb_app by reflexivity. f_equal.
    rewrite readline_rb_app.
    - cbn [readline_rb]. now rewrite Ascii.eqb_refl.
    - apply plain_no_lf. exact Hp || (cbn [plain forallb]; now rewrite Hp). }
  rewrite L, decode_ascii_spec.
  assert (A : is_ascii (lit "solid" ++ (SP :: solid_name) ++ [LF]) = true).
  { unfold is_ascii. rewrite !forallb_app. cbn [forallb lit list_ascii_of_string].
    cbn. rewrite andb_true_r. unfold plain in Hp.
    apply forallb_forall. intros c Hc.
    apply (proj1 (forallb_forall _ _) Hp) in Hc. unfold plain_char in Hc.
    apply andb_true_iff in Hc. destruct Hc as [Hc _].
    apply andb_true_iff in Hc. now destruct Hc. }
  rewrite A. unfold strip. cbn [lit list_ascii_of_string app].
  rewrite lstrip_head by reflexivity.
  change ("s"%char :: "o"%char :: "l"%char :: "i"%char :: "d"%char :: SP :: solid_name ++ [LF])
    with ((lit "soli" ++ ["d"%char]) ++ (SP :: solid_name ++ [LF])).
  rewrite rstrip_app_edge by reflexivity.
  change ((lit "soli" ++ ["d"%char]) ++ rstrip (SP :: solid_name ++ [LF]))
    with (lit "solid" ++ rstrip (SP :: solid_name ++ [LF])).
  now rewrite startswith_app.
Qed.

Lemma decoded_vertices (tris : list raw_triangle) :
  triangle_vertices (map decode_triangle tris) = mesh_vertices tris.
Proof.
  unfold triangle_vertices, mesh_vertices. rewrite flat_map_map. reflexivity.
Qed.

Lemma round7_point_close (p : point3) : close7_point p (round7_point p).
Proof.
  destruct p as [[x y] z]. unfold close7_point, round7_point, at0, at1, at2. cbn [fst snd].
  repeat split; apply round7_close.
Qed.

(** X14. Converting a binary STL file to text and taking the bounds of the
    text gives the extremes of the mesh rounded to seven significant digits.
    For a well-formed binary file and a stem that is plain ASCII,
    [convert_stl] writes a file that [is_ascii_stl] accepts as text, and
    [get_stl_bounds] of that file returns [round7] of [b], where [b] holds on
    each axis the extremes of the vertex coordinates of the mesh; each bound
    is within a relative error of half a unit of the seventh digit of [b].
    When [get_stl_bounds] reads the binary file itself as binary, [b] is
    what it returns for it. *)
Theorem convert_stl_then_bounds (header : bytes) (tris : list raw_triangle) (stem : str) :
  length header = 80%nat -> (N.of_nat (length tris) < 2 ^ 32)%N ->
  Forall valid_triangle tris ->
  plain stem = true ->
  exists text b,
    convert_stl (Some (binary_stl header tris)) stem = Ok text
    /\ is_ascii_stl (Some text) = true
    /\ extremes_of (mesh_vertices tris) b
    /\ get_stl_bounds (Some text) = Ok (round7_bounds b)
    /\ close7_point (fst b) (fst (round7_bounds b))
    /\ close7_point (snd b) (snd (round7_bounds b))
    /\ (is_ascii_stl (Some (binary_stl header tris)) = false ->
        get_stl_bounds (Some (binary_stl header tris)) = Ok b).
Proof.
  intros Hh Hn Hv Hp.
  exists (write_ascii_stl (map decode_triangle tris) stem),
         (fold_left update_bounds (mesh_vertices tris) initial_bounds).
  split.
  { unfold convert_stl. now rewrite read_binary_stl_encoded. }
  split; [now apply written_file_is_text|].
  split; [apply scan_extremes|].
  split.
  - pose proof (written_file_is_text (map decode_triangle tris) stem Hp) as T.
    rewrite write_ascii_stl_lines in T |- *.
    rewrite get_stl_bounds_ascii; [|now apply converted_lines_ok|exact T].
    rewrite converted_lines_vertices, decoded_vertices.
    rewrite <- round7_initial_bounds at 1. now rewrite scan_round7.
  - split; [apply round7_point_close|]. split; [apply round7_point_close|].
    intros Hb. now apply get_stl_bounds_binary.
Qed.

Lemma convert_stl_then_bounds_witness :
  length solid_header = 80%nat
  /\ Forall valid_triangle wide_triangle
  /\ plain (lit "wide") = true
  /\ exists text b,
       convert_stl solid_binary_stl (lit "wide") = Ok text
       /\ is_ascii_stl (Some text) = true
       /\ extremes_of (mesh_vertices wide_triangle) b
       /\ get_stl_bounds (Some text) = Ok (round7_bounds b).
Proof.
  split; [reflexivity|]. split; [repeat constructor|]. split; [reflexivity|].
  destruct (convert_stl_then_bounds solid_header wide_triangle (lit "wide"))
    as (text & b & C & A & E & G & _);
    [reflexivity | vm_compute; reflexivity | repeat constructor | reflexivity |].
  exists text, b. split; [exact C|]. split; [exact A|]. split; [exact E | exact G].
Defined.

(** * Grid files that hold too few numbers *)

Lemma strip_app_space (l ws : str) : all_space ws = true -> strip (l ++ ws) = strip l.
Proof.
  intros H. unfold strip. induction l as [|c l IH].
  - cbn [app]. rewrite <- (app_nil_r ws), lstrip_all_space by exact H. reflexivity.
  - cbn [app lstrip]. destruct (is_space c); [exact IH|].
    now apply (rstrip_all_space (c :: l)).
Qed.

Lemma map_result_cases {A B : Type} (f : A -> result B) (l : list A) (e0 : pyerr) :
  (forall a e, f a = Err e -> e = e0) ->
  map_result f l = Err e0 \/ exists bs, map_result f l = Ok bs /\ length bs = length l.
Proof.
  intros H. induction l as [|a l IH]; [right; exists []; split; reflexivity|].
  cbn [map_result]. destruct (f a) as [b|e] eqn:E.
  - destruct IH as [->|(bs & -> & L)]; [now left|].
    right. exists (b :: bs). cbn [bind length]. split; [reflexivity | now rewrite L].
  - left. now rewrite (H a e E).
Qed.

(** With fewer than [n] tokens in the lines that are left, the loop ends at
    the end of the file with fewer than [n] values, unless [float] rejects a
    token. *)
Lemma read_values_short (n : Z) (ls : list str) (x : list pyfloat) :
  (Z.of_nat (length x + length (flat_map (fun l => split (strip l)) ls)) < n)%Z ->
  read_values n x (map (fun l => l ++ [LF]) ls) = Err ValueError
  \/ exists vals, read_values n x (map (fun l => l ++ [LF]) ls) = Ok (vals, [])
                  /\ (Z.of_nat (length vals) < n)%Z.
Proof.
  revert x. induction ls as [|l ls IH]; intros x H.
  - right. exists x. cbn [flat_map length] in H. split; [reflexivity | lia].
  - cbn [map read_values flat_map] in *. rewrite length_app in H.
    rewrite (strip_app_space l [LF] eq_refl).
    destruct (strip l) as [|c s] eqn:S.
    + apply IH. cbn [split split_go length] in H. lia.
    + destruct (map_result_cases py_float (split (c :: s)) ValueError py_float_error)
        as [->|(vs & -> & L)]; [now left|].
      cbn [bind].
      replace (n <=? Z.of_nat (length (x ++ vs)))%Z with false
        by (symmetry; apply Z.leb_gt; rewrite length_app, L; lia).
      apply IH. rewrite length_app, L. lia.
Qed.

Lemma np_reshape3_wrong_size (l : list pyfloat) (a b c : nat) :
  length l <> (a * b * c)%nat ->
  np_reshape3 l (Z.of_nat a) (Z.of_nat b) (Z.of_nat c) = Err ValueError.
Proof.
  intros H. unfold np_reshape3.
  replace (Z.of_nat a <? -1)%Z with false by (symmetry; apply Z.ltb_ge; lia).
  replace (Z.of_nat b <? -1)%Z with false by (symmetry; apply Z.ltb_ge; lia).
  replace (Z.of_nat c <? -1)%Z with false by (symmetry; apply Z.ltb_ge; lia).
  replace (Z.of_nat a =? -1)%Z with false by (symmetry; apply Z.eqb_neq; lia).
  replace (Z.of_nat b =? -1)%Z with false by (symmetry; apply Z.eqb_neq; lia).
  replace (Z.of_nat c =? -1)%Z with false by (symmetry; apply Z.eqb_neq; lia).
  cbn [orb Nat.add].
  now replace (Z.of_nat a * Z.of_nat b * Z.of_nat c =? Z.of_nat (length l))%Z with false
    by (symmetry; apply Z.eqb_neq; lia).
Qed.

Lemma slice_to_short {A : Type} (l : list A) (n : Z) :
  (Z.of_nat (length l) < n)%Z -> slice_to l n = l.
Proof.
  intros H. unfold slice_to.
  replace (n <? 0)%Z with false by (symmetry; apply Z.ltb_ge; lia).
  apply firstn_all2. lia.
Qed.

(** X15. A grid file with too few numbers is rejected: when the lines after
    the header (block count, then [nx ny nz]) hold fewer than [nx * ny * nz]
    words in all, [readPlot3D] raises [ValueError] (from [float] on a word
    that is not a number, or from [reshape]); it returns no smaller grid. *)
Theorem readPlot3D_too_few_values (nBlocks : Z) (nx ny nz : nat) (ls : list str) :
  Forall (fun l => plain l = true) ls ->
  (length (flat_map (fun l => split (strip l)) ls) < nx * ny * nz)%nat ->
  readPlot3D
    (Some (flat_map (fun l => l ++ [LF])
             (format_d nBlocks
              :: spaced_line [format_d (Z.of_nat nx); format_d (Z.of_nat ny);
                              format_d (Z.of_nat nz)]
              :: ls)))
  = Err ValueError.
Proof.
  intros Hp Hn.
  destruct (dims_tokens (Z.of_nat nx) (Z.of_nat ny) (Z.of_nat nz)) as [Dt Dp].
  pose proof (plain_spaced_line _ Dp) as P2.
  destruct (format_d_token nBlocks) as [T1 P1].
  assert (Hall : Forall (fun l => plain l = true)
                   (format_d nBlocks
                    :: spaced_line [format_d (Z.of_nat nx); format_d (Z.of_nat ny);
                                    format_d (Z.of_nat nz)] :: ls))
    by (repeat constructor; assumption).
  unfold readPlot3D. rewrite open_r_text.
  2:{ clear -Hall. induction Hall as [|l t Hl Ht IH]; [reflexivity|].
      cbn [flat_map]. rewrite !is_text_app, IH, (plain_is_text _ Hl). reflexivity. }
  cbn [bind]. rewrite <- (app_nil_r (flat_map _ _)). rewrite splitlines_lines.
  2:{ apply Forall_impl with (2 := Hall). intros l Hl. now apply plain_no_lf. }
  2:{ reflexivity. }
  rewrite app_nil_r. cbn [map readline].
  rewrite (strip_app_space _ [LF] eq_refl), strip_token, py_int_format_d by exact T1.
  cbn [bind].
  assert (Dn : [format_d (Z.of_nat nx); format_d (Z.of_nat ny); format_d (Z.of_nat nz)]
               <> []) by discriminate.
  destruct (strip_spaced_line _ [LF] Dn Dt eq_refl) as [E2 _].
  rewrite E2, split_join by assumption.
  cbn [getitem nth_error bind]. rewrite !py_int_format_d. cbn [bind].
  replace (Z.of_nat nx * Z.of_nat ny * Z.of_nat nz)%Z with (Z.of_nat (nx * ny * nz)) by lia.
  destruct (read_values_short (Z.of_nat (nx * ny * nz)) ls []) as [->|(vals & -> & L)];
    [cbn [length]; lia | reflexivity |].
  cbn [bind]. rewrite slice_to_short by exact L.
  rewrite np_reshape3_wrong_size by lia. reflexivity.
Qed.

Lemma readPlot3D_too_few_values_witness :
  Forall (fun l => plain l = true) [lit "0.0 1.0 2.0"; lit "3.0 4.0"]
  /\ (length (flat_map (fun l => split (strip l)) [lit "0.0 1.0 2.0"; lit "3.0 4.0"])
      < 2 * 2 * 2)%nat
  /\ readPlot3D
       (Some (flat_map (fun l => l ++ [LF])
                (format_d 1
                 :: spaced_line [format_d (Z.of_nat 2); format_d (Z.of_nat 2);
                                 format_d (Z.of_nat 2)]
                 :: [lit "0.0 1.0 2.0"; lit "3.0 4.0"])))
     = Err ValueError.
Proof.
  split; [repeat constructor|]. split; [vm_compute; lia|].
  apply (readPlot3D_too_few_values 1 2 2 2 [lit "0.0 1.0 2.0"; lit "3.0 4.0"]);
    [repeat constructor | vm_compute; lia].
Defined.

(** * Rounding to 53 bits *)











(** * The rounded [linspace] *)



(** * The rounded [returnBlockPoints] *)

Section RoundedLoops.
Variables nx ny nz : nat.
Hypothesis Hnx : (2 <= nx)%nat.
Hypothesis Hny : (2 <= ny)%nat.
Hypothesis Hnz : (2 <= nz)%nat.



End RoundedLoops.


(** * The rounding error of one [linspace] *)








(** * From canonical rationals to rationals *)









(** * The error of the nested interpolations *)





(** * The lattice in rounded arithmetic *)




